(* ===== verification/_CoqProject ===== *)
-Q . S2P
Prelude.v
Float64.v
FloatPos.v
PyDecimal.v
WholeFloat.v
DecFloat.v
Models.v
Engine.v
EngineBook.v
EngineMatch.v
EngineExact.v
RedisIface.v
OrderBook.v
Queues.v
OrdersIndex.v
RateLimit.v
Stops.v
World.v
Pubsub.v
Balance.v
Bridge.v
OrderRepo.v
OrderService.v
OrderSpec.v
CancelSpec.v
BulkSpec.v
Trade.v
SettleSpec.v
Worker.v
WorkerSpec.v
WorkerLoop.v
WorkerStart.v
MarketBuy.v
LimitLock.v
StopMonitor.v
ModifySpec.v
Sha256.v
Auth.v
MarketData.v
WsManager.v
WsFanout.v
Login.v
WsPrivate.v
Sessions.v
Api.v
ApiSpec.v
Repos.v
Schema.v
Seed.v
Exchange.v
OrderLife.v
Drift.v
App.v
FrontendCopy.v
