(* ===== verification/Prelude.v ===== *)
(** * Verification of the crypto exchange sandbox backend

    The program is the backend under src/backend/app: a FastAPI service that
    takes signed orders, keeps balances in PostgreSQL and the live book in
    Redis, a worker that matches with an engine written in Cython, a monitor
    that fires stop orders and a WebSocket gateway that forwards events.  This
    library translates it into executable Rocq definitions, file by file and
    with the names of the source, and proves what each part promises.

    ** How the parts interact

    A request enters through Api (authentication, permission, validation, a
    database session), runs a method of OrderService, which moves money between
    the locked and the available part of a balance (Balance), writes order rows
    (OrderRepo), registers the order in Redis (OrdersIndex, OrderBook, Stops)
    and pushes an action on a queue (Queues).  Worker pops the action, loads the
    opposite side of the book from Redis into the engine (Bridge, Engine),
    matches, settles the trades in one transaction (Trade) and rests or refunds
    what is left.  Every trade is published (Pubsub); StopMonitor hears of it
    and turns triggered stops into new orders; WsManager forwards it to the
    sockets that WsPrivate has let in; Sessions runs them from the handshake to
    their end.  App starts the background tasks.

    ** Values and effects

    - a C [double] and a Python [float] are [float64], the Standard Library's
      binary64 (Float64, FloatPos): no rounding is idealised;
    - a [decimal.Decimal] is a coefficient and an exponent under the default
      context of 28 digits, half to even (PyDecimal); [dunits] reads it in units
      of 10^-36 and [money] is what a NUMERIC(36, 18) column of balances below
      10^10 holds, on which additions and subtractions are exact;
    - a coroutine is a [prog]: explicit state, exceptions as values.  [World]
      is the database, Redis and the clock; [MatchingWorker] adds the engine,
      [StopMonitorService] the extremes it remembers, [StopTasks] its tasks,
      [Gateway] the accounts behind authentication, [Server] the accounts and
      the world, [App] all of it with the hub of the sockets; [Endpoint] is what
      a socket's handler shares and holds, [WorkerLife] the worker with its
      connection, [Table] a table with constraints;
    - [transaction] (World) restores the tables when an exception leaves it, and
      never Redis; [in_session] (Api) does so for the statements of a request up
      to its commit, which can itself fail ([Connection]), and [then_refreshed]
      reads the row back when it is too late to roll back;
    - the awaits at which other tasks may run are explicit where the code
      depends on them: [Interference] is what other transactions commit between
      a read and a conditional UPDATE, and what a retry sees of the row (the
      identity map of the session may still hold the object read before), and
      the WebSocket tasks are runs of a
      step relation; the tasks of the stop monitor run an iteration at a time;
      the loops of the sockets, the subscribers and the worker take what their
      peers do at each await as a list of rounds ([PublicRound],
      [PrivateRound], [SubscriberRound], [WorkerRound]), errors, cancellation
      and the moves of other tasks included;

    ** Interfaces to code outside src/

    [Redis] / [RedisSpec] (RedisIface): the commands the code issues and their
    documented effect on a key space, with the instance [MemRedis].  [PgNumeric]
    / [PgNumericSpec] (World): arithmetic of the NUMERIC columns, exact on
    [money], with the instance [PgExact].  [Bcrypt] and [Jwt] (Login): checking
    a password against its own hash, decoding one's own token before it expires.
    [Interference] (World): any function on the balances that keeps their
    invariant, and any view of a row that keeps its user and asset
    ([NoInterference] is the session alone).  [Connection] (Api): whether a
    commit or a refresh fails ([Connected]: neither does).  SHA-256 and HMAC are defined (Sha256), not assumed.

    ** Files

    - Prelude: the [prog] monad, [triple] and [keeps] with their tactics, sums
      and sorted lists.  Float64, FloatPos, PyDecimal: numbers;
      WholeFloat, DecFloat: decimals of 15 digits cross to doubles and back
      unchanged ([decimal_roundtrip]) and in order.
    - Models: models/*.py (enums, Order, Balance, Trade, TradingPair), the
      exceptions of the services, JSON values.
    - Engine: matching/engine.pyx, _constants.py; EngineBook, EngineMatch and
      EngineExact prove its invariants, its refinement of a price-time matcher
      on priority queues, and exact conservation.
    - RedisIface; OrderBook: redis_client/orderbook.py; Queues: queues.py and
      OrderActionPayload of matching/worker.py; OrdersIndex: orders_index.py;
      RateLimit: rate_limit.py and core/rate_limit.py; Stops: stops.py;
      Pubsub: pubsub.py.
    - World: the tables and the transaction of db/session.py; Balance:
      repositories/balance_repo.py and services/balance_service.py; OrderRepo:
      repositories/order_repo.py.
    - OrderService: services/order_service.py; OrderSpec, CancelSpec, BulkSpec
      and ModifySpec state what placing, cancelling, bulk placing and replacing
      do on every branch.
    - Bridge: matching/_bridge.py; Trade and SettleSpec: services/
      trade_service.py; Worker, WorkerSpec, WorkerLoop and WorkerStart:
      matching/worker.py;
      StopMonitor: services/stop_monitor_service.py.  MarketBuy, LimitLock: what the
      order service locks against what the match and the settlement charge.
    - Exchange: the composition; runs of all the transactions above.
      OrderLife: the state machine of an order and the table of orders as its
      refinement.  Drift: closed runs in which Redis and the tables disagree.
      App: main.py and the tasks of the stop monitor.  FrontendCopy: the
      functions in which the copy under src/frontend/backend differs.
    - Sha256, Auth: core/security.py, api/deps.py, services/admin_service.py;
      Login: api/v1/auth.py, api/admin/auth.py; MarketData: api/v1/trades.py;
      WsManager: ws/manager.py; WsFanout: its
      subscribers and the opening of sessions; WsPrivate: the authentication of
      ws/private.py; Sessions: the handlers of ws/public.py and ws/private.py in
      full and the subscriber tasks of ws/manager.py; Api and ApiSpec:
      api/v1/orders.py, balance.py, pairs.py, api/admin/*.py, schemas/order.py,
      core/exceptions.py; Seed: db/seed.py; Repos: repositories/base.py and the
      listings of the repositories; Schema: alembic/versions/0001_initial.py and
      the tables of models/*.py.

    ** What the theorems show

    - money: [exchange_conserves_money] (along every run of the system whose
      amounts fit the columns and whose settlements find the rows they credit,
      the balances stay consistent and the supply of an asset changes only by
      deposits), [settlement_conserves], under the same conditions on one match,
      [optimistic_operations_safe], [pessimistic_operations_exact];
    - orders: [place_order_correct], [cancel_service_correct],
      [modify_order_correct], [bulk_all_or_nothing],
      [trigger_stop_order_correct]: the branches each doc comment lists, errors
      included, for amounts of at most 18 decimals and a session alone;
      [limit_lock_covers], [market_buy_lock_covers]: the lock of an order suffices
      for its trades;
      [orders_refine_lifecycle] and [orders_keep_terms]: what can happen to an
      order along a run of the whole system, and to the references between
      orders;
    - matching: [match_refines_fifo] and its companions (termination for every
      input, price protection, price-time priority, fill-or-kill, conservation
      of quantity), and [match_payload_correct] for the engine as the worker
      feeds it;
    - the worker: [start_serves_in_order], [worker_iteration_runs],
      [wait_for_redis_correct], [start_round_one_connection];
    - background tasks: [startup_correct], [monitor_catches_up] (new pairs are
      found by the refresh), [trade_heard] and [subscriber_correct];
    - the copy: [copy_cancel_correct], and closed differences;
    - Redis structures: score round trip for prices of four decimals and serving
      order, the open-order index as a map, the rate-limit window and its bound;
    - access: [authenticate_request_correct], [api_requires_permission],
      [login_correct], [admin_session], [private_channel_correct],
      [private_events_confidential] (against the handshakes of the run),
      [signature_payload_injective];
    - the gateway: [registry_refines_relation], [published_message_copies] (who
      receives a published message, and how often), [public_session_correct] and
      [private_session_correct] (a session from end to end), which
      [sessions_run_gateway] makes runs of the step relation the others are
      about;
    - the API: [signed_order_is_placed], [signed_cancel_is_served] (also when
      the commit or the refresh fails);
      market data against a group-by specification; the seed is idempotent;
    - tables: [repository_correct], [listings_correct], [sorted_pages_cover],
      [migration_roundtrip] and [migration_creates_the_models].

    Where the code does less than its comments say, a theorem states what it
    does (for instance [bids_newest_first], [all_stops_reported],
    [partial_fill_then_overfill], [modify_action_ignored],
    [settlement_missing_row_loses_credit], [lock_below_precision_breaks_row],
    and the four theorems of Drift: canceled orders that trade, makers lost by
    a failed settlement, filled takers that stay indexed, remainders of
    immediate-or-cancel orders that stay locked; [interrupted_action_is_lost],
    [stale_payload_deadlettered], [stop_during_brpop_leaks],
    [broken_socket_never_leaves], [user_pages_repeat_and_skip],
    [copy_session_outlives_client]).

    ** Bounds and fuel

    [match_level] takes fuel; [match_level_fuel] is one step more than two for
    each order of the level (an order is consumed, or an iceberg refreshed once)
    and [match_active_order_total] proves that it never runs out, NaN and
    infinities included.  An optimistic operation makes
    [MAX_OPTIMISTIC_RETRIES] = 3 attempts, as the code does.  Exactness theorems
    of the engine are for quantities on one dyadic grid below 2^53 units; those
    of the balances for [money] amounts; the theorems on locks are for whole
    quantities below 10^10 and prices of at most 15 digits, 11 or 12 of them
    decimals.  [task_fuel] of a
    broadcast is twice its connections plus two resumptions, proved enough.  All
    other recursion is structural.

    ** Not modelled

    The length of a wait: time-outs and back-offs are outcomes of awaits.  The
    cancellation of a task that is suspended inside a transaction.  The pool of
    redis_client/client.py, the engine and the pool of SQLAlchemy, the runner of
    alembic.  Timestamps and fee columns that no modelled code reads.
    config.py, logging, the response schemas nothing builds.  Of the foreign keys,
    those between orders are an invariant ([rows_ok]) and those of trades to
    orders are checked by the settlement; those to users and pairs are declared in
    Schema and not checked by the operations.  The client under
    src/frontend; of its copy of the backend only the functions that differ
    from src/backend.  Pool addresses of the engine's linked lists (the pool's size
    is modelled).  The engine is compiled with -ffast-math; the model gives the
    IEEE meaning its source is written for. *)

From Stdlib Require Import ZArith Lia Bool Sorted.
From stdpp Require Import base tactics list strings gmap option sorting.

#[global] Set Default Goal Selector "!".

(** ** State and error monad

    The services thread a world (database session, Redis, clock) and may
    raise.  An exception keeps the effects already performed: rolling back the
    database is a separate, explicit bracket. *)

Definition prog (S E A : Type) : Type := S -> S * (E + A).

Section Prog.
Context {S E : Type}.

#[global] Instance prog_ret : MRet (prog S E) := fun A a s => (s, inr a).
#[global] Instance prog_bind : MBind (prog S E) := fun A B f m s =>
  match m s with
  | (s', inr a) => f a s'
  | (s', inl e) => (s', inl e)
  end.

Definition raise {A} (e : E) : prog S E A := fun s => (s, inl e).
Definition get_state : prog S E S := fun s => (s, inr s).
Definition gets {A} (f : S -> A) : prog S E A := fun s => (s, inr (f s)).
Definition modify (f : S -> S) : prog S E unit := fun s => (f s, inr tt).

(** [try_except m h]: run the handler on the state the exception left. *)
Definition try_except {A} (m : prog S E A) (h : E -> prog S E A) : prog S E A :=
  fun s => match m s with
           | (s', inl e) => h e s'
           | r => r
           end.

(** [for x in xs: f x] *)
Fixpoint for_each {A} (xs : list A) (f : A -> prog S E unit) : prog S E unit :=
  match xs with
  | [] => mret tt
  | x :: xs => f x ≫= fun _ => for_each xs f
  end.

(** [for x in xs: acc = f acc x] *)
Fixpoint for_fold {A B} (xs : list A) (acc : B) (f : B -> A -> prog S E B) : prog S E B :=
  match xs with
  | [] => mret acc
  | x :: xs => f acc x ≫= fun acc => for_fold xs acc f
  end.

Definition when (b : bool) (m : prog S E unit) : prog S E unit :=
  if b then m else mret tt.

Lemma bind_inv {A B} (m : prog S E A) (f : A -> prog S E B) s s' b :
  (m ≫= f) s = (s', inr b) ->
  exists s1 a, m s = (s1, inr a) /\ f a s1 = (s', inr b).
Proof.
  unfold mbind, prog_bind. destruct (m s) as [s1 [e|a]]; [done|]. eauto.
Qed.

(** Running the first step of a program. *)
Lemma bind_inr {A B} (m : prog S E A) (f : A -> prog S E B) s s' a :
  m s = (s', inr a) -> (m ≫= f) s = f a s'.
Proof. intros H. unfold mbind, prog_bind. by rewrite H. Qed.
Lemma bind_inl {A B} (m : prog S E A) (f : A -> prog S E B) s s' e :
  m s = (s', inl e) -> (m ≫= f) s = (s', inl e).
Proof. intros H. unfold mbind, prog_bind. by rewrite H. Qed.

Lemma for_each_app {A} (xs ys : list A) (f : A -> prog S E unit) s :
  for_each (xs ++ ys) f s = (for_each xs f ≫= fun _ => for_each ys f) s.
Proof.
  revert s. induction xs as [|x xs IH]; intros s; [done|].
  cbn. unfold mbind, prog_bind in *. destruct (f x s) as [s1 [e|a]]; [done|].
  apply IH.
Qed.
End Prog.

(** ** Sums over lists and finite maps *)

Section Sums.
Context {A : Type}.
Local Open Scope Z_scope.

Definition zsum (f : A -> Z) (l : list A) : Z := foldr (fun x acc => f x + acc) 0 l.

Lemma zsum_nil f : zsum f [] = 0.
Proof. done. Qed.
Lemma zsum_cons f x l : zsum f (x :: l) = f x + zsum f l.
Proof. done. Qed.
Lemma zsum_app f l1 l2 : zsum f (l1 ++ l2) = zsum f l1 + zsum f l2.
Proof. induction l1 as [|x l1 IH]; unfold zsum in *; cbn; lia. Qed.
Lemma zsum_nonneg f l : (forall x, x ∈ l -> 0 <= f x) -> 0 <= zsum f l.
Proof.
  induction l as [|x l IH]; intros H; [done|]. rewrite zsum_cons.
  assert (0 <= f x) by (apply H; left). assert (0 <= zsum f l); [|lia].
  apply IH. intros y Hy. apply H. by right.
Qed.
Lemma zsum_ext f g l : (forall x, x ∈ l -> f x = g x) -> zsum f l = zsum g l.
Proof.
  induction l as [|x l IH]; intros H; [done|]. rewrite !zsum_cons, (H x) by left.
  f_equal. apply IH. intros y Hy. apply H. by right.
Qed.
Lemma zsum_perm f l1 l2 : l1 ≡ₚ l2 -> zsum f l1 = zsum f l2.
Proof. induction 1; unfold zsum in *; cbn; lia. Qed.
End Sums.

(** ** Sorted lists and programs *)

Lemma sublist_elem {A} (l1 l2 : list A) x : sublist l1 l2 -> x ∈ l1 -> x ∈ l2.
Proof. intros H Hx. by eapply elem_of_sublist. Qed.

Lemma StronglySorted_sublist {A} (R : A -> A -> Prop) l1 l2 :
  sublist l1 l2 -> StronglySorted R l2 -> StronglySorted R l1.
Proof.
  induction 1 as [|x l1 l2 Hl IH|x l1 l2 Hl IH]; intros Hs; [done|..];
    apply StronglySorted_inv in Hs as [Hs Hx]; [|by apply IH].
  constructor; [by apply IH|]. rewrite Forall_forall in Hx |- *. intros y Hy. apply Hx.
  by eapply sublist_elem.
Qed.

Lemma StronglySorted_reverse {A} (R : A -> A -> Prop) l :
  StronglySorted R l -> StronglySorted (fun x y => R y x) (reverse l).
Proof.
  induction 1 as [|x l Hs IH Hx]; [constructor|].
  rewrite reverse_cons. apply StronglySorted_app. split; [|split; [done|by repeat constructor]].
  intros y z Hy Hz. rewrite Forall_forall in Hx. apply list_elem_of_singleton in Hz as ->.
  by apply Hx, elem_of_reverse.
Qed.

Lemma StronglySorted_nth {A} (R : A -> A -> Prop) l i j x y :
  StronglySorted R l -> (i < j)%nat -> l !! i = Some x -> l !! j = Some y -> R x y.
Proof.
  intros Hs. revert i j. induction Hs as [|a l Hs IH Ha]; intros i j Hij Hi Hj; [done|].
  destruct i as [|i], j as [|j]; cbn in *; try lia.
  - simplify_eq. rewrite Forall_lookup in Ha. eauto.
  - apply (IH i j); [lia|done|done].
Qed.

(** Run the monadic operations of a program on a symbolic state. *)
Ltac run_prog :=
  cbv [mbind prog_bind mret prog_ret gets modify get_state raise]; cbn beta iota.
Tactic Notation "run_prog" "in" ident(H) :=
  cbv [mbind prog_bind mret prog_ret gets modify get_state raise] in H; cbn beta iota in H.

(** ** Hoare triples

    [triple P m Q X]: from a state of [P], [m] returns a value and state of [Q]
    or raises an exception in a state of [X].  [keeps I m]: [m] preserves [I]
    whether it returns or raises. *)

Section Triples.
Context {S E : Type}.
Implicit Types (P I : S -> Prop).

Definition triple {A} P (m : prog S E A) (Q : A -> S -> Prop) (X : E -> S -> Prop) : Prop :=
  forall s, P s -> match m s with (s', inr a) => Q a s' | (s', inl e) => X e s' end.
Definition keeps {A} I (m : prog S E A) : Prop := triple I m (fun _ => I) (fun _ => I).

Lemma triple_ret {A} P (a : A) Q X : (forall s, P s -> Q a s) -> triple P (mret a) Q X.
Proof. intros H s. apply H. Qed.
Lemma triple_bind {A B} P (m : prog S E A) (f : A -> prog S E B) Q M X :
  triple P m M X -> (forall a, triple (M a) (f a) Q X) -> triple P (m ≫= f) Q X.
Proof.
  intros Hm Hf s Hs. specialize (Hm s Hs). unfold mbind, prog_bind.
  destruct (m s) as [s' [e|a]]; [done|]. by apply Hf.
Qed.
Lemma triple_weaken {A} P P' (m : prog S E A) Q Q' X X' :
  triple P m Q X -> (forall s, P' s -> P s) -> (forall a s, Q a s -> Q' a s) ->
  (forall e s, X e s -> X' e s) -> triple P' m Q' X'.
Proof.
  intros H HP HQ HX s Hs. specialize (H s (HP s Hs)). destruct (m s) as [s' [e|a]]; auto.
Qed.
(** A test of the program becomes a hypothesis. *)
Lemma triple_pure {A} P (phi : Prop) (m : prog S E A) Q X :
  (phi -> triple P m Q X) -> triple (fun s => P s /\ phi) m Q X.
Proof. intros H s [Hs Hp]. by apply H. Qed.

Lemma keeps_ret {A} I (a : A) : keeps I (mret a).
Proof. by intros s. Qed.
Lemma keeps_raise {A} I (e : E) : keeps I (raise (A := A) e).
Proof. by intros s. Qed.
Lemma keeps_gets {A} I (f : S -> A) : keeps I (gets f).
Proof. by intros s. Qed.
Lemma keeps_modify I (f : S -> S) : (forall s, I s -> I (f s)) -> keeps I (modify f).
Proof. intros H s. apply H. Qed.
Lemma keeps_bind {A B} I (m : prog S E A) (f : A -> prog S E B) :
  keeps I m -> (forall a, keeps I (f a)) -> keeps I (m ≫= f).
Proof. unfold keeps. intros Hm Hf. by apply (triple_bind _ m f _ (fun _ => I)). Qed.
Lemma keeps_try {A} I (m : prog S E A) h : keeps I m -> (forall e, keeps I (h e)) -> keeps I (try_except m h).
Proof.
  intros Hm Hh s Hs. specialize (Hm s Hs). unfold try_except. destruct (m s) as [s' [e|a]]; [|done].
  by apply Hh.
Qed.
Lemma keeps_when I b (m : prog S E unit) : keeps I m -> keeps I (when b m).
Proof. intros H. destruct b; [exact H|apply keeps_ret]. Qed.
Lemma keeps_for_each {A} I (xs : list A) (f : A -> prog S E unit) :
  (forall x, keeps I (f x)) -> keeps I (for_each xs f).
Proof.
  intros H. induction xs as [|x xs IH]; [apply keeps_ret|]. apply keeps_bind; [apply H|done].
Qed.
Lemma keeps_for_each_in {A} I (xs : list A) (f : A -> prog S E unit) :
  (forall x, x ∈ xs -> keeps I (f x)) -> keeps I (for_each xs f).
Proof.
  induction xs as [|x xs IH]; intros H; [apply keeps_ret|].
  apply keeps_bind; [apply H; left|]. intros _. apply IH. intros y Hy. apply H. by right.
Qed.
Lemma keeps_for_fold {A B} I (xs : list A) (acc : B) (f : B -> A -> prog S E B) :
  (forall acc x, keeps I (f acc x)) -> keeps I (for_fold xs acc f).
Proof.
  intros H. revert acc. induction xs as [|x xs IH]; intros acc; [apply keeps_ret|].
  apply keeps_bind; [apply H|done].
Qed.
End Triples.

Create HintDb keeps.
#[export] Hint Resolve keeps_ret keeps_raise keeps_gets keeps_when keeps_for_each keeps_for_fold : keeps.

(** Walk through a program that preserves an invariant: sequencing, tests and
    handlers are decomposed, the primitive steps are left to the hints. *)
Ltac keeps_step :=
  match goal with
  | |- keeps _ (match ?x with _ => _ end) => destruct x
  | |- keeps _ (mbind _ _) => apply keeps_bind; [|intros ?]
  | |- keeps _ (try_except _ _) => apply keeps_try; [|intros ?]
  | |- keeps _ (for_each _ _) => apply keeps_for_each; intros ?
  | |- keeps _ (for_fold _ _ _) => apply keeps_for_fold; intros ? ?
  | |- keeps _ (when _ _) => apply keeps_when
  | |- keeps _ _ => solve [eauto with keeps]
  end.
Ltac keeps_tac := repeat (keeps_step; cbn beta iota zeta).
