(* ===== verification/Float64.v ===== *)
(** * IEEE-754 binary64: the C [double] of the engine and the Python [float]

    Every C [double] of engine.pyx and every Python [float] of the services is
    a [float64]: the Standard Library's executable specification of binary64
    (53-bit significand, round to nearest even), no abstraction and no axiom.
    This file gives the operations the code uses, the order laws of the
    comparisons (the comparison of two non-NaN values is the lexicographic
    comparison of their keys) and the exactness theorems: integers of at most
    53 bits scaled by a fixed power of two are represented, compared, added
    and subtracted without rounding. *)

From Stdlib Require Import ZArith Lia Bool SpecFloat.
From stdpp Require Import base tactics.
From S2P Require Import Prelude.
#[local] Open Scope Z_scope.

Create HintDb float.

Abbreviation float64 := spec_float.
Abbreviation fprec := 53.
Abbreviation femax := 1024.

Definition f_zero : float64 := S754_zero false.
Definition f_nan : float64 := S754_nan.
Definition f_inf : float64 := S754_infinity false.
Definition f_add (x y : float64) : float64 := SFadd fprec femax x y.
Definition f_sub (x y : float64) : float64 := SFsub fprec femax x y.
Definition f_mul (x y : float64) : float64 := SFmul fprec femax x y.
Definition f_div (x y : float64) : float64 := SFdiv fprec femax x y.
Definition f_eqb (x y : float64) : bool := SFeqb x y.
Definition f_ltb (x y : float64) : bool := SFltb x y.
Definition f_leb (x y : float64) : bool := SFleb x y.
Definition f_isnan (x : float64) : bool :=
  match x with S754_nan => true | _ => false end.
Definition f_isfinite (x : float64) : bool :=
  match x with S754_finite _ _ _ | S754_zero _ => true | _ => false end.

(** [z * 2^u], correctly rounded; [f_of_Z] is C's and Python's int-to-double. *)
Definition f_units (u z : Z) : float64 := binary_normalize fprec femax z u false.
Definition f_of_Z (z : Z) : float64 := f_units 0 z.

(** [n / d], correctly rounded, for a positive [d]. *)
Definition f_of_ratio (n : Z) (d : positive) : float64 :=
  let go s p :=
    let '(q, e, l) := SFdiv_core_binary fprec femax (Zpos p) 0 (Zpos d) 0 in
    binary_round_aux fprec femax s q e l in
  match n with
  | Z0 => f_zero
  | Zpos p => go false p
  | Zneg p => go true p
  end.

(** [n / d] rounded to the nearest integer, ties to even ([d > 0]). *)
Definition round_half_even (n d : Z) : Z :=
  let q := n / d in
  let r := n mod d in
  match 2 * r ?= d with
  | Lt => q
  | Gt => q + 1
  | Eq => if Z.even q then q else q + 1
  end.

(** Python's [int(round(x))]: [None] where it raises (NaN, infinities). *)
Definition f_round (x : float64) : option Z :=
  match x with
  | S754_zero _ => Some 0
  | S754_finite s m e =>
      let v := if s then Zneg m else Zpos m in
      Some (if e >=? 0 then v * 2 ^ e else round_half_even v (2 ^ (- e)))
  | _ => None
  end.

(** Python's [int(x)] (truncation): [None] where it raises. *)
Definition f_trunc (x : float64) : option Z :=
  match x with
  | S754_zero _ => Some 0
  | S754_finite s m e =>
      let v := if s then Zneg m else Zpos m in
      Some (if e >=? 0 then v * 2 ^ e else Z.quot v (2 ^ (- e)))
  | _ => None
  end.

(** ** Order laws *)

(** The key of a non-NaN value: sign class, exponent, significand. *)
Definition fkey (x : float64) : Z * Z * Z :=
  match x with
  | S754_nan => (3, 0, 0)
  | S754_zero _ => (0, 0, 0)
  | S754_infinity s => (if s then -2 else 2, 0, 0)
  | S754_finite s m e => if s then (-1, - e, Zneg m) else (1, e, Zpos m)
  end.

Definition lexlt (x y : Z * Z * Z) : Prop :=
  let '(a, b, c) := x in
  let '(a', b', c') := y in
  a < a' \/ (a = a' /\ (b < b' \/ (b = b' /\ c < c'))).

Lemma SFcompare_key x y :
  f_isnan x = false -> f_isnan y = false ->
  exists c, SFcompare x y = Some c /\
    match c with
    | Lt => lexlt (fkey x) (fkey y)
    | Gt => lexlt (fkey y) (fkey x)
    | Eq => fkey x = fkey y
    end.
Proof.
  intros Hx Hy.
  destruct x as [[]|[]| |[] mx ex]; try done;
  destruct y as [[]|[]| |[] my ey]; try done; cbn;
    try (eexists; split; [reflexivity|]; cbn; (reflexivity || lia)).
  - eexists; split; [reflexivity|]. fold (Pos.compare mx my).
    destruct (Z.compare_spec ex ey); cbn; try lia.
    destruct (Pos.compare_spec mx my); cbn; subst; try lia; done.
  - eexists; split; [reflexivity|]. fold (Pos.compare mx my).
    destruct (Z.compare_spec ex ey); cbn; try lia.
    destruct (Pos.compare_spec mx my); cbn; subst; try lia; done.
Qed.

Lemma f_nan_compare x y : f_isnan x || f_isnan y = true -> SFcompare x y = None.
Proof. destruct x as [[]|[]| |[] ? ?], y as [[]|[]| |[] ? ?]; cbn; done. Qed.

Section CmpLex.
Variables (x y : float64) (test : comparison -> bool).

(** A test on the comparison of two floats, false on NaN. *)
Definition cmp_test : bool :=
  match SFcompare x y with Some c => test c | None => false end.

Lemma cmp_test_lex (P : Z * Z * Z -> Z * Z * Z -> Prop) :
  (forall k k', lexlt k k' -> (test Lt = true <-> P k k')) ->
  (forall k k', lexlt k' k -> (test Gt = true <-> P k k')) ->
  (forall k, test Eq = true <-> P k k) ->
  cmp_test = true <->
  f_isnan x = false /\ f_isnan y = false /\ P (fkey x) (fkey y).
Proof.
  intros Hlt Hgt Heq. unfold cmp_test.
  destruct (f_isnan x || f_isnan y) eqn:En.
  - rewrite (f_nan_compare _ _ En).
    split; [done|]. intros (Hx & Hy & _). by rewrite Hx, Hy in En.
  - apply orb_false_iff in En as [Ex Ey].
    destruct (SFcompare_key x y Ex Ey) as (c & -> & Hc).
    rewrite Ex, Ey. transitivity (P (fkey x) (fkey y)); [|tauto].
    destruct c; [rewrite Hc|..]; auto.
Qed.
End CmpLex.

Ltac cmp_lex :=
  intros; repeat match goal with k : (_ * _ * _)%type |- _ => destruct k as [[? ?] ?] end;
  cbn in *; rewrite ?pair_equal_spec in *;
  split; [intros; try done|intros; try done; exfalso]; intuition lia.

Lemma f_ltb_lex x y :
  f_ltb x y = true <->
  f_isnan x = false /\ f_isnan y = false /\ lexlt (fkey x) (fkey y).
Proof.
  apply (cmp_test_lex x y (fun c => match c with Lt => true | _ => false end)); cmp_lex.
Qed.

Lemma f_leb_lex x y :
  f_leb x y = true <->
  f_isnan x = false /\ f_isnan y = false /\ ~ lexlt (fkey y) (fkey x).
Proof.
  apply (cmp_test_lex x y (fun c => match c with Gt => false | _ => true end)
           (fun k k' => ~ lexlt k' k)); cmp_lex.
Qed.

Lemma f_eqb_lex x y :
  f_eqb x y = true <->
  f_isnan x = false /\ f_isnan y = false /\ fkey x = fkey y.
Proof.
  apply (cmp_test_lex x y (fun c => match c with Eq => true | _ => false end)); cmp_lex.
Qed.

(** [flex]: turn float comparisons into linear arithmetic on keys. *)
Ltac flex_bool :=
  repeat match goal with
  | H : f_ltb _ _ = false |- _ => apply not_true_iff_false in H
  | H : f_leb _ _ = false |- _ => apply not_true_iff_false in H
  | H : f_eqb _ _ = false |- _ => apply not_true_iff_false in H
  | |- f_ltb _ _ = false => apply not_true_iff_false
  | |- f_leb _ _ = false => apply not_true_iff_false
  | |- f_eqb _ _ = false => apply not_true_iff_false
  end.
Ltac flex :=
  flex_bool; rewrite ?f_ltb_lex, ?f_leb_lex, ?f_eqb_lex in *;
  repeat match goal with
  | |- context [fkey ?x] => is_var x; destruct (fkey x) as [[? ?] ?]
  | _ : context [fkey ?x] |- _ => is_var x; destruct (fkey x) as [[? ?] ?]
  end;
  unfold lexlt in *; rewrite ?pair_equal_spec in *;
  try (intuition (simplify_eq; try congruence; try lia)).

Lemma f_ltb_irrefl x : f_ltb x x = false.
Proof. flex. Qed.
Lemma f_ltb_trans x y z : f_ltb x y = true -> f_ltb y z = true -> f_ltb x z = true.
Proof. intros; flex. Qed.
Lemma f_ltb_asym x y : f_ltb x y = true -> f_ltb y x = false.
Proof. intros; flex. Qed.
Lemma f_leb_trans x y z : f_leb x y = true -> f_leb y z = true -> f_leb x z = true.
Proof. intros; flex. Qed.
Lemma f_ltb_leb x y : f_ltb x y = true -> f_leb x y = true.
Proof. intros; flex. Qed.
Lemma f_leb_ltb_trans x y z : f_leb x y = true -> f_ltb y z = true -> f_ltb x z = true.
Proof. intros; flex. Qed.
Lemma f_ltb_leb_trans x y z : f_ltb x y = true -> f_leb y z = true -> f_ltb x z = true.
Proof. intros; flex. Qed.
Lemma f_leb_refl x : f_isnan x = false -> f_leb x x = true.
Proof. intros; flex. Qed.
Lemma f_ltb_not_leb x y :
  f_isnan x = false -> f_isnan y = false -> f_ltb x y = negb (f_leb y x).
Proof.
  intros Hx Hy. destruct (f_ltb x y) eqn:E1, (f_leb y x) eqn:E2; cbn; try done; exfalso; flex.
Qed.
Lemma f_ltb_total x y :
  f_isnan x = false -> f_isnan y = false ->
  f_ltb x y = true \/ f_eqb x y = true \/ f_ltb y x = true.
Proof.
  intros Hx Hy. rewrite !f_ltb_lex, f_eqb_lex, Hx, Hy.
  destruct (fkey x) as [[a b] c], (fkey y) as [[a' b'] c'].
  rewrite !pair_equal_spec. cbn. lia.
Qed.
Lemma f_eqb_ltb x y : f_eqb x y = true -> f_ltb x y = false.
Proof. intros; flex. Qed.
Lemma f_eqb_sym x y : f_eqb x y = f_eqb y x.
Proof. destruct (f_eqb x y) eqn:E1, (f_eqb y x) eqn:E2; try done; exfalso; flex. Qed.

(** ** Exactness on a dyadic grid

    An integer [z] of at most 53 bits scaled by [2^u] is a float, and
    differences and comparisons of two of them (same [u]) are exact. *)

Definition ndigits (p : positive) : Z := Zpos (digits2_pos p).

Lemma ndigits_bounds p : 2 ^ (ndigits p - 1) <= Zpos p < 2 ^ ndigits p.
Proof.
  unfold ndigits. induction p as [p IH|p IH|]; cbn [digits2_pos]; [..|cbn; lia];
    rewrite Pos2Z.inj_succ;
    (replace (Z.succ (Zpos (digits2_pos p)) - 1) with (Z.succ (Zpos (digits2_pos p) - 1)) by lia);
    rewrite !Z.pow_succ_r by lia; lia.
Qed.

Lemma ndigits_unique p d : 0 <= d -> 2 ^ (d - 1) <= Zpos p < 2 ^ d -> ndigits p = d.
Proof.
  intros Hd [H1 H2]. pose proof (ndigits_bounds p) as [H3 H4].
  assert (0 < ndigits p) by done.
  assert (ndigits p - 1 < d) by (apply (Z.pow_lt_mono_r_iff 2); lia).
  assert (d - 1 < ndigits p) by (apply (Z.pow_lt_mono_r_iff 2); lia).
  lia.
Qed.

Lemma ndigits_shift p j : 0 <= j -> ndigits (Z.to_pos (Zpos p * 2 ^ j)) = ndigits p + j.
Proof.
  intros Hj. pose proof (ndigits_bounds p) as [H1 H2].
  assert (0 < ndigits p) by done.
  assert (0 < 2 ^ j) by (apply Z.pow_pos_nonneg; lia).
  apply ndigits_unique; [lia|]. rewrite Z2Pos.id by lia.
  replace (ndigits p + j - 1) with (ndigits p - 1 + j) by lia.
  rewrite !Z.pow_add_r by lia. nia.
Qed.

Lemma iter_xO m d : Zpos (Pos.iter xO m d) = Zpos m * 2 ^ Zpos d.
Proof.
  revert m. induction d as [|d IH] using Pos.peano_ind; intros m.
  - cbn. lia.
  - rewrite Pos.iter_succ, Pos2Z.inj_succ, Z.pow_succ_r by lia.
    rewrite Pos2Z.inj_xO, IH. lia.
Qed.

(** Shifting out zero bits is exact. *)
Lemma iter_shr_exact n m :
  iter_pos shr_1 n (Build_shr_record (Zpos m * 2 ^ Zpos n) false false)
  = Build_shr_record (Zpos m) false false.
Proof.
  assert (Hit : forall A (f : A -> A) n x, iter_pos f n x = Pos.iter f x n).
  { intros A f k. induction k as [k IH|k IH|]; intros x; cbn; rewrite ?IH; try done.
    by rewrite !Pos.iter_swap. }
  rewrite Hit. induction n as [|n IH] using Pos.peano_ind.
  - replace (Zpos m * 2 ^ 1) with (Zpos (xO m)) by lia. done.
  - rewrite Pos.iter_succ_r, Pos2Z.inj_succ, Z.pow_succ_r by lia.
    replace (Zpos m * (2 * 2 ^ Zpos n)) with (2 * (Zpos m * 2 ^ Zpos n)) by lia.
    assert (0 < Zpos m * 2 ^ Zpos n) by (apply Z.mul_pos_pos; lia).
    destruct (Zpos m * 2 ^ Zpos n) as [|q|q] eqn:Eq; try lia.
    exact IH.
Qed.

Lemma shr_exact m e j :
  0 <= j ->
  shr (Build_shr_record (Zpos m * 2 ^ j) false false) (e - j) j
  = (Build_shr_record (Zpos m) false false, e).
Proof.
  intros Hj. destruct j as [|j|j]; [|..|lia]; cbn [shr].
  - f_equal; [f_equal|]; lia.
  - rewrite iter_shr_exact. f_equal. lia.
Qed.

Abbreviation fexp64 := (fexp fprec femax).

Lemma fexp64_eq n : fexp64 n = Z.max (n - 53) (-1074).
Proof. reflexivity. Qed.

(** The canonical exponent of [p * 2^u]. *)
Definition cexp (u : Z) (p : positive) : Z := fexp64 (ndigits p + u).
Definition cmant (u : Z) (p : positive) : positive :=
  Z.to_pos (Zpos p * 2 ^ (u - cexp u p)).

(** Conditions under which [p * 2^u] needs no rounding. *)
Definition fits53 (u : Z) (p : positive) : Prop :=
  -1074 <= u <= 900 /\ Zpos p < 2 ^ 53.

Lemma fits53_cexp u p : fits53 u p -> cexp u p <= u /\ cexp u p <= 971.
Proof.
  intros [Hu Hp]. pose proof (ndigits_bounds p) as [H1 _].
  assert (0 < ndigits p) by done.
  assert (ndigits p - 1 < 53) by (apply (Z.pow_lt_mono_r_iff 2); lia).
  unfold cexp. rewrite fexp64_eq. lia.
Qed.

Lemma cmant_val u p : fits53 u p -> Zpos (cmant u p) = Zpos p * 2 ^ (u - cexp u p).
Proof.
  intros H. unfold cmant. rewrite Z2Pos.id; [done|].
  apply Z.mul_pos_pos; [lia|]. apply Z.pow_pos_nonneg; [lia|].
  pose proof (fits53_cexp u p H). lia.
Qed.

Lemma cmant_digits u p : fits53 u p -> ndigits (cmant u p) + cexp u p = ndigits p + u.
Proof.
  intros H. pose proof (fits53_cexp u p H). unfold cmant.
  rewrite ndigits_shift by lia. lia.
Qed.

Lemma round_aux_exact s m e j :
  0 <= j -> fexp64 (ndigits m + e) = e -> e <= 971 ->
  binary_round_aux fprec femax s (Zpos m * 2 ^ j) (e - j) loc_Exact = S754_finite s m e.
Proof.
  intros Hj Hc He. unfold binary_round_aux.
  assert (0 < Zpos m * 2 ^ j) by (apply Z.mul_pos_pos; [lia|apply Z.pow_pos_nonneg; lia]).
  assert (Hd : Zdigits2 (Zpos m * 2 ^ j) = ndigits m + j).
  { pose proof (ndigits_shift m j Hj) as Hs. unfold ndigits in *.
    destruct (Zpos m * 2 ^ j) as [|q|q]; [lia| |lia]. exact Hs. }
  unfold shr_fexp at 1. rewrite Hd.
  replace (fexp64 (ndigits m + j + (e - j)) - (e - j)) with j
    by (replace (ndigits m + j + (e - j)) with (ndigits m + e) by lia; lia).
  cbn [shr_record_of_loc]. rewrite shr_exact by done. cbn [shr_m loc_of_shr_record round_nearest_even].
  unfold shr_fexp. change (Zdigits2 (Zpos m)) with (ndigits m).
  replace (fexp64 (ndigits m + e) - e) with 0 by lia. cbn -[Z.leb].
  by rewrite (proj2 (Z.leb_le e (1024 - 53))).
Qed.

Lemma round_aux_exact0 s m e :
  fexp64 (ndigits m + e) = e -> e <= 971 ->
  binary_round_aux fprec femax s (Zpos m) e loc_Exact = S754_finite s m e.
Proof.
  intros Hc He. pose proof (round_aux_exact s m e 0 ltac:(lia) Hc He) as H.
  by rewrite Z.sub_0_r, Z.mul_1_r in H.
Qed.

(** Rounding [p * 2^u], written with any number [k] of extra low zero bits. *)
Lemma round_canon s u p k :
  fits53 u p -> 0 <= k ->
  binary_round fprec femax s (Z.to_pos (Zpos p * 2 ^ k)) (u - k)
  = S754_finite s (cmant u p) (cexp u p).
Proof.
  intros Hf Hk. pose proof (fits53_cexp u p Hf) as [Hc1 Hc2].
  pose proof (cmant_val u p Hf) as Hm. pose proof (cmant_digits u p Hf) as Hdg.
  assert (0 < 2 ^ k) by (apply Z.pow_pos_nonneg; lia).
  unfold binary_round.
  replace (Zpos (digits2_pos (Z.to_pos (Zpos p * 2 ^ k))) + (u - k)) with (ndigits p + u)
    by (fold (ndigits (Z.to_pos (Zpos p * 2 ^ k))); rewrite ndigits_shift by lia; lia).
  fold (cexp u p). unfold shl_align.
  assert (Hcan : fexp64 (ndigits (cmant u p) + cexp u p) = cexp u p) by (rewrite Hdg; done).
  destruct (cexp u p - (u - k)) as [|j|j] eqn:Ej.
  - rewrite Z2Pos.id by (apply Z.mul_pos_pos; lia).
    replace k with (u - cexp u p) by lia. rewrite <- Hm.
    replace (u - (u - cexp u p)) with (cexp u p) by lia.
    by apply round_aux_exact0.
  - rewrite Z2Pos.id by (apply Z.mul_pos_pos; lia).
    replace (u - k) with (cexp u p - Zpos j) by lia.
    replace (Zpos p * 2 ^ k) with (Zpos (cmant u p) * 2 ^ Zpos j).
    + apply round_aux_exact; [lia|done|done].
    + rewrite Hm, <- Z.mul_assoc, <- Z.pow_add_r by lia. do 2 f_equal. lia.
  - rewrite iter_xO, Z2Pos.id by (apply Z.mul_pos_pos; lia).
    rewrite <- Z.mul_assoc, <- Z.pow_add_r by lia.
    replace (k + Zpos j) with (u - cexp u p) by lia. rewrite <- Hm.
    by apply round_aux_exact0.
Qed.

Lemma f_units_pos u p : fits53 u p -> f_units u (Zpos p) = S754_finite false (cmant u p) (cexp u p).
Proof.
  intros H. pose proof (round_canon false u p 0 H ltac:(lia)) as Hr.
  rewrite Z.sub_0_r in Hr. by replace (Z.to_pos (Zpos p * 2 ^ 0)) with p in Hr by (cbn; lia).
Qed.

Lemma f_units_neg u p : fits53 u p -> f_units u (Zneg p) = S754_finite true (cmant u p) (cexp u p).
Proof.
  intros H. pose proof (round_canon true u p 0 H ltac:(lia)) as Hr.
  rewrite Z.sub_0_r in Hr. by replace (Z.to_pos (Zpos p * 2 ^ 0)) with p in Hr by (cbn; lia).
Qed.

(** Normalising [z * 2^k] at exponent [u - k] gives [z * 2^u]. *)
Lemma normalize_canon u z k :
  -1074 <= u <= 900 -> Z.abs z < 2 ^ 53 -> 0 <= k ->
  binary_normalize fprec femax (z * 2 ^ k) (u - k) false = f_units u z.
Proof.
  intros Hu Hz Hk. assert (0 < 2 ^ k) by (apply Z.pow_pos_nonneg; lia).
  destruct z as [|p|p]; [done|..].
  - rewrite f_units_pos by (split; lia). rewrite <- (round_canon false u p k) by (done || split; lia).
    destruct (Zpos p * 2 ^ k) as [|q|q] eqn:Eq; [nia|done|nia].
  - rewrite f_units_neg by (split; lia). rewrite <- (round_canon true u p k) by (done || split; lia).
    replace (Zneg p * 2 ^ k) with (- (Zpos p * 2 ^ k)) by lia.
    destruct (Zpos p * 2 ^ k) as [|q|q] eqn:Eq; [nia|done|nia].
Qed.

(** [f_units u] on 53-bit integers: the shape of a sum or a difference. *)
Lemma align_fst u p e :
  fits53 u p -> e <= cexp u p ->
  Zpos (fst (shl_align (cmant u p) (cexp u p) e)) = Zpos p * 2 ^ (u - e).
Proof.
  intros H He. pose proof (fits53_cexp u p H). unfold shl_align.
  destruct (e - cexp u p) as [|d|d] eqn:Ed; cbn [fst]; [..|rewrite iter_xO]; try lia;
    rewrite (cmant_val u p H), <- ?Z.mul_assoc, <- ?Z.pow_add_r by lia; do 2 f_equal; lia.
Qed.

Definition grid (u z : Z) : Prop := -1074 <= u <= 900 /\ 0 <= z < 2 ^ 53.

Lemma f_sub_units u a b :
  grid u a -> grid u b -> f_sub (f_units u a) (f_units u b) = f_units u (a - b).
Proof.
  intros [Hu Ha] [_ Hb].
  destruct a as [|p|p], b as [|q|q]; try lia; [done|..].
  - replace (0 - Zpos q) with (Zneg q) by lia.
    rewrite f_units_neg, f_units_pos by (split; lia). done.
  - rewrite Z.sub_0_r. rewrite f_units_pos by (split; lia). done.
  - assert (fits53 u p) by (split; lia). assert (fits53 u q) by (split; lia).
    rewrite (f_units_pos u p), (f_units_pos u q) by done.
    pose proof (fits53_cexp u p) as Hcp. pose proof (fits53_cexp u q) as Hcq.
    unfold f_sub. cbn [SFsub cond_Zopp].
    rewrite !align_fst by (done || lia). rewrite <- Z.mul_sub_distr_r.
    set (ez := Z.min _ _). replace ez with (u - (u - ez)) at 2 by lia.
    apply normalize_canon; [done|lia|]. subst ez. intuition lia.
Qed.

Lemma f_add_units u a b :
  grid u a -> grid u b -> a + b < 2 ^ 53 ->
  f_add (f_units u a) (f_units u b) = f_units u (a + b).
Proof.
  intros [Hu Ha] [_ Hb] Hab.
  destruct a as [|p|p], b as [|q|q]; try lia; [done|..].
  - rewrite Z.add_0_l, f_units_pos by (split; lia). done.
  - rewrite Z.add_0_r, f_units_pos by (split; lia). done.
  - assert (fits53 u p) by (split; lia). assert (fits53 u q) by (split; lia).
    rewrite (f_units_pos u p), (f_units_pos u q) by done.
    pose proof (fits53_cexp u p) as Hcp. pose proof (fits53_cexp u q) as Hcq.
    unfold f_add. cbn [SFadd cond_Zopp].
    rewrite !align_fst by (done || lia). rewrite <- Z.mul_add_distr_r.
    set (ez := Z.min _ _). replace ez with (u - (u - ez)) at 2 by lia.
    apply normalize_canon; [done|lia|]. subst ez. intuition lia.
Qed.

Lemma f_units_notnan u a : grid u a -> f_isnan (f_units u a) = false.
Proof.
  intros [Hu Ha]. destruct a as [|p|p]; [done| |lia].
  rewrite f_units_pos by (split; lia). done.
Qed.

Lemma fkey_units_lt u a b :
  grid u a -> grid u b -> a < b -> lexlt (fkey (f_units u a)) (fkey (f_units u b)).
Proof.
  intros [Hu Ha] [_ Hb] Hab. destruct b as [|q|q]; try lia.
  destruct a as [|p|p]; [rewrite f_units_pos by (split; lia); cbn; lia| |lia].
  assert (Hp : fits53 u p) by (split; lia). assert (Hq : fits53 u q) by (split; lia).
  rewrite (f_units_pos u p), (f_units_pos u q) by done. cbn [fkey lexlt].
  right. split; [done|].
  pose proof (ndigits_bounds p) as [Hp1 Hp2]. pose proof (ndigits_bounds q) as [Hq1 Hq2].
  assert (0 < ndigits p) by done. assert (0 < ndigits q) by done.
  assert (Hd : ndigits p - 1 < ndigits q) by (apply (Z.pow_lt_mono_r_iff 2); lia).
  assert (Hc : cexp u p <= cexp u q) by (unfold cexp; rewrite !fexp64_eq; lia).
  destruct (decide (cexp u p < cexp u q)) as [|Hge]; [by left|right].
  assert (Heq : cexp u p = cexp u q) by lia. split; [done|].
  rewrite (cmant_val u p), (cmant_val u q), Heq by done.
  pose proof (fits53_cexp u q Hq).
  apply Z.mul_lt_mono_pos_r; [apply Z.pow_pos_nonneg; lia|lia].
Qed.

Lemma f_ltb_units u a b : grid u a -> grid u b -> f_ltb (f_units u a) (f_units u b) = (a <? b).
Proof.
  intros Ha Hb. pose proof (f_units_notnan u a Ha). pose proof (f_units_notnan u b Hb).
  destruct (Z.ltb_spec a b) as [Hlt|Hge].
  - apply f_ltb_lex. auto using fkey_units_lt.
  - apply not_true_iff_false. rewrite f_ltb_lex. intros (_ & _ & Hl).
    destruct (decide (a = b)) as [->|].
    + revert Hl. destruct (fkey (f_units u b)) as [[? ?] ?]. cbn. lia.
    + pose proof (fkey_units_lt u b a Hb Ha ltac:(lia)) as Hl'. revert Hl Hl'.
      destruct (fkey (f_units u a)) as [[? ?] ?], (fkey (f_units u b)) as [[? ?] ?]. cbn. lia.
Qed.

Lemma f_leb_units u a b : grid u a -> grid u b -> f_leb (f_units u a) (f_units u b) = (a <=? b).
Proof.
  intros Ha Hb. pose proof (f_ltb_units u b a Hb Ha) as Hlt.
  rewrite f_ltb_not_leb in Hlt by auto using f_units_notnan.
  rewrite Z.leb_antisym, <- Hlt. by rewrite negb_involutive.
Qed.

(** ** Facts about the special values *)

Lemma f_sub_diag x : f_isfinite x = true -> f_sub x x = f_zero.
Proof.
  destruct x as [[]|[]| |[] m e]; try done; intros _; unfold f_sub; cbn [SFsub cond_Zopp];
    by rewrite Z.sub_diag.
Qed.

Lemma f_sub_diag_nonfinite x : f_isfinite x = false -> f_sub x x = f_nan.
Proof. destruct x as [[]|[]| |[] m e]; done. Qed.

Lemma round_half_even_exact n d : 0 < d -> round_half_even (n * d) d = n.
Proof.
  intros Hd. unfold round_half_even. rewrite Z.div_mul, Z.mod_mul by lia.
  by destruct d.
Qed.

Lemma f_round_of_Z z : 0 <= z < 2 ^ 53 -> f_round (f_of_Z z) = Some z.
Proof.
  intros Hz. unfold f_of_Z. destruct z as [|p|p]; [done| |lia].
  assert (Hf : fits53 0 p) by (split; lia). rewrite f_units_pos by done.
  pose proof (fits53_cexp 0 p Hf). pose proof (cmant_val 0 p Hf) as Hm. cbn [f_round]. f_equal.
  rewrite Hm. assert (0 < 2 ^ (- cexp 0 p)) by (apply Z.pow_pos_nonneg; lia).
  destruct (Z.geb_spec (cexp 0 p) 0).
  - replace (cexp 0 p) with 0 by lia. cbn. lia.
  - by apply round_half_even_exact.
Qed.

Lemma f_of_Z_lt a b : 0 <= a < 2 ^ 53 -> 0 <= b < 2 ^ 53 -> f_ltb (f_of_Z a) (f_of_Z b) = (a <? b).
Proof. intros Ha Hb. apply (f_ltb_units 0); split; lia. Qed.

#[export] Hint Resolve f_units_notnan : float.
