(* ===== verification/FloatPos.v ===== *)
(** * Subtraction of positive doubles

    For positive finite (canonical) doubles [y < x] the rounded difference is
    again a positive finite double, at most [x]: gradual underflow never
    rounds a nonzero difference to zero, and a difference never overflows.
    The invariants of the matching engine rest on this. *)

From Stdlib Require Import ZArith Lia Bool SpecFloat.
From stdpp Require Import base tactics option.
From S2P Require Import Prelude Float64.
#[local] Open Scope Z_scope.

(** A positive finite double. *)
Definition fpos (x : float64) : bool :=
  match x with S754_finite false m e => bounded fprec femax m e | _ => false end.

Lemma fpos_ltb x : fpos x = true -> f_ltb f_zero x = true.
Proof. destruct x as [| | |[] m e]; done. Qed.
Lemma fpos_finite x : fpos x = true -> f_isfinite x = true.
Proof. destruct x as [| | |[] m e]; done. Qed.
Lemma fpos_notnan x : fpos x = true -> f_isnan x = false.
Proof. destruct x as [| | |[] m e]; done. Qed.
Lemma fpos_not_leb x : fpos x = true -> f_leb x f_zero = false.
Proof. destruct x as [| | |[] m e]; done. Qed.

Lemma bounded_iff m e :
  bounded fprec femax m e = true <-> fexp64 (ndigits m + e) = e /\ e <= 971.
Proof.
  unfold bounded, canonical_mantissa. fold (ndigits m).
  rewrite andb_true_iff, Z.eqb_eq, Z.leb_le. lia.
Qed.

(** Shifting right by [n] bits divides by [2^n]. *)
Lemma iter_shr_div n m r s :
  0 <= m -> shr_m (iter_pos shr_1 n (Build_shr_record m r s)) = m / 2 ^ Zpos n.
Proof.
  assert (Hit : forall A (f : A -> A) k x, iter_pos f k x = Pos.iter f x k).
  { intros A f k. induction k as [k IH|k IH|]; intros x; cbn; rewrite ?IH; try done.
    by rewrite !Pos.iter_swap. }
  assert (H1 : forall m r s, 0 <= m -> exists r' s', shr_1 (Build_shr_record m r s)
                                  = Build_shr_record (m / 2) r' s').
  { intros m' r' s' Hm. destruct m' as [|[p|p|]|]; try lia; cbn; eauto.
    - exists true, (r' || s'). f_equal. apply (Z.div_unique _ _ _ 1); lia.
    - exists false, (r' || s'). f_equal. apply (Z.div_unique _ _ _ 0); lia. }
  intros Hm. rewrite Hit. revert m r s Hm.
  induction n as [|n IH] using Pos.peano_ind; intros m r s Hm.
  - cbn [Pos.iter]. destruct (H1 m r s Hm) as (r' & s' & ->). done.
  - rewrite Pos.iter_succ_r. destruct (H1 m r s Hm) as (r' & s' & ->).
    rewrite IH by (apply Z.div_pos; lia).
    rewrite Pos2Z.inj_succ, Z.pow_succ_r, Z.div_div by lia. done.
Qed.

Lemma shr_div m r s e n :
  0 <= m -> 0 <= n ->
  shr_m (fst (shr (Build_shr_record m r s) e n)) = m / 2 ^ n
  /\ snd (shr (Build_shr_record m r s) e n) = e + n.
Proof.
  intros Hm Hn. destruct n as [|n|n]; [..|lia]; cbn [shr fst snd].
  - rewrite Z.div_1_r, Z.add_0_r. done.
  - by rewrite iter_shr_div.
Qed.

Lemma round_even_cases q l : round_nearest_even q l = q \/ round_nearest_even q l = q + 1.
Proof. destruct l as [|[]]; cbn; auto. destruct (Z.even q); auto. Qed.

(** The quotient of a positive [m * 2^e] at its canonical exponent [e']. *)
Lemma quot_bounds m e :
  -1074 <= e -> e <= fexp64 (ndigits m + e) ->
  let e' := fexp64 (ndigits m + e) in
  let q := Zpos m / 2 ^ (e' - e) in
  0 < q < 2 ^ 53 /\ (e' = -1074 \/ 2 ^ 52 <= q).
Proof.
  intros He1 He2 e' q. subst q e'. pose proof (ndigits_bounds m) as [Hm1 Hm2].
  assert (Hd : 0 < ndigits m) by done. rewrite fexp64_eq in *.
  destruct (Z.max_spec (ndigits m + e - 53) (-1074)) as [[Hlt Heq]|[Hge Heq]]; rewrite Heq in *.
  - replace (-1074 - e) with 0 by lia. rewrite Z.div_1_r.
    assert (2 ^ ndigits m <= 2 ^ 53) by (apply Z.pow_le_mono_r; lia). lia.
  - replace (ndigits m + e - 53 - e) with (ndigits m - 53) in * by lia.
    assert (0 < 2 ^ (ndigits m - 53)) by (apply Z.pow_pos_nonneg; lia).
    assert (2 ^ 52 <= Zpos m / 2 ^ (ndigits m - 53)).
    { apply Z.div_le_lower_bound; [done|]. rewrite <- Z.pow_add_r by lia.
      replace (ndigits m - 53 + 52) with (ndigits m - 1) by lia. done. }
    assert (Zpos m / 2 ^ (ndigits m - 53) < 2 ^ 53).
    { apply Z.div_lt_upper_bound; [done|]. rewrite <- Z.pow_add_r by lia.
      by replace (ndigits m - 53 + 53) with (ndigits m) by lia. }
    lia.
Qed.

(** Rounding it: the quotient, up or down, renormalised if it reaches [2^53]. *)
Lemma round_aux_pos m e l :
  -1074 <= e -> e <= fexp64 (ndigits m + e) ->
  let e' := fexp64 (ndigits m + e) in
  let q := Zpos m / 2 ^ (e' - e) in
  exists q', (q' = q \/ q' = q + 1) /\
    (q' < 2 ^ 53 -> e' <= 971 ->
       binary_round_aux fprec femax false (Zpos m) e l = S754_finite false (Z.to_pos q') e'
       /\ fexp64 (ndigits (Z.to_pos q') + e') = e') /\
    (q' = 2 ^ 53 -> e' + 1 <= 971 ->
       binary_round_aux fprec femax false (Zpos m) e l
       = S754_finite false (Z.to_pos (2 ^ 52)) (e' + 1)).
Proof.
  intros He1 He2 e' q. pose proof (quot_bounds m e He1 He2) as [Hq Hc]. fold e' q in Hq, Hc.
  unfold binary_round_aux.
  assert (Hs : shr_m (fst (shr_fexp fprec femax (Zpos m) e l)) = q
               /\ snd (shr_fexp fprec femax (Zpos m) e l) = e').
  { unfold shr_fexp. change (Zdigits2 (Zpos m)) with (ndigits m). fold e'.
    destruct (shr_record_of_loc (Zpos m) l) as [m1 r1 s1] eqn:El.
    assert (m1 = Zpos m) as -> by (by destruct l as [|[]]; injection El).
    pose proof (shr_div (Zpos m) r1 s1 e (e' - e) ltac:(lia) ltac:(lia)) as [Hs1 Hs2].
    replace (e + (e' - e)) with e' in Hs2 by lia. split; [exact Hs1|exact Hs2]. }
  destruct (shr_fexp fprec femax (Zpos m) e l) as [mrs e1].
  cbn [fst snd] in Hs. destruct Hs as [Hs1 ->]. rewrite Hs1.
  exists (round_nearest_even q (loc_of_shr_record mrs)).
  destruct (round_even_cases q (loc_of_shr_record mrs)) as [Hr|Hr];
    remember (round_nearest_even q (loc_of_shr_record mrs)) as q' eqn:Eq'.
  all: assert (Hq' : 0 < q') by lia.
  all: split; [tauto|].
  all: unfold shr_fexp; change (Zdigits2 q') with (Zdigits2 q').
  all: destruct q' as [|p|p]; try lia; change (Zdigits2 (Zpos p)) with (ndigits p).
  all: split; intros Hlt Hle.
  all: try (assert (Hf : fexp64 (ndigits p + e') = e');
    [pose proof (ndigits_bounds p) as [Hp1 Hp2]; assert (0 < ndigits p) by done;
     rewrite fexp64_eq;
     assert (ndigits p - 1 < 53) by (apply (Z.pow_lt_mono_r_iff 2); lia);
     destruct Hc as [Hc|Hc]; [lia|];
     assert (e' >= -1074) by (subst e'; rewrite fexp64_eq; lia);
     assert (52 < ndigits p) by (apply (Z.pow_lt_mono_r_iff 2); lia); lia|];
    rewrite Hf, Z.sub_diag; cbn -[Z.leb];
    rewrite (proj2 (Z.leb_le e' (1024 - 53))) by lia; done).
  all: assert (Hf : fexp64 (ndigits p + e') = e' + 1);
    [assert (e' >= -1074) by (subst e'; rewrite fexp64_eq; lia);
     rewrite fexp64_eq, (ndigits_unique p 54) by lia; lia|].
  all: rewrite Hf; replace (e' + 1 - e') with 1 by lia.
  all: injection Hlt as ->; cbn -[Z.leb].
  all: rewrite (proj2 (Z.leb_le (e' + 1) (1024 - 53))) by lia; done.
Qed.

Lemma shl_align_val m e e' :
  e' <= e -> Zpos (fst (shl_align m e e')) = Zpos m * 2 ^ (e - e').
Proof.
  intros He. unfold shl_align. destruct (e' - e) as [|d|d] eqn:Ed; cbn [fst]; [..|rewrite iter_xO];
    try lia.
  - replace (e - e') with 0 by lia. lia.
  - do 2 f_equal. lia.
Qed.

Lemma ndigits_mono p q : Zpos p <= Zpos q -> ndigits p <= ndigits q.
Proof.
  intros H. pose proof (ndigits_bounds p) as [Hp _]. pose proof (ndigits_bounds q) as [_ Hq].
  assert (0 < ndigits q) by done. assert (0 < ndigits p) by done.
  assert (ndigits p - 1 < ndigits q) by (apply (Z.pow_lt_mono_r_iff 2); lia). lia.
Qed.

(** Rounding a positive [p * 2^e] that is below the double [mx * 2^ex]. *)
Lemma round_below mx ex p e :
  bounded fprec femax mx ex = true -> -1074 <= e <= ex ->
  Zpos p < Zpos mx * 2 ^ (ex - e) ->
  let r := binary_round fprec femax false p e in
  fpos r = true /\ f_leb r (S754_finite false mx ex) = true.
Proof.
  intros [Hcx Hex]%bounded_iff He Hp r. subst r.
  set (f := fexp64 (ndigits p + e)).
  assert (Hnx : 0 < ndigits mx) by done. assert (Hnp : 0 < ndigits p) by done.
  assert (Hf0 : -1074 <= f) by (subst f; rewrite fexp64_eq; lia).
  assert (Hfx : f <= ex).
  { assert (Hm : ndigits p <= ndigits mx + (ex - e)).
    { rewrite <- ndigits_shift by lia. apply ndigits_mono.
      rewrite Z2Pos.id by (apply Z.mul_pos_pos; [|apply Z.pow_pos_nonneg]; lia). lia. }
    subst f. rewrite fexp64_eq in *. lia. }
  (* the significand and exponent after alignment *)
  set (E := Z.min e f).
  assert (Hal : exists P, shl_align p e f = (P, E) /\ Zpos P = Zpos p * 2 ^ (e - E)
                          /\ ndigits P + E = ndigits p + e).
  { pose proof (shl_align_val p e f) as Hv. unfold shl_align in *. subst E.
    destruct (f - e) as [|d|d] eqn:Ed.
    - exists p. replace (Z.min e f) with e by lia. rewrite Z.sub_diag. split; [done|lia].
    - exists p. replace (Z.min e f) with e by lia. rewrite Z.sub_diag. split; [done|lia].
    - exists (Pos.iter xO p d). replace (Z.min e f) with f by lia. cbn [fst] in Hv.
      split; [done|]. split; [apply Hv; lia|].
      pose proof (ndigits_shift p (e - f) ltac:(lia)) as Hs.
      rewrite <- Hv, Pos2Z.id in Hs by lia. lia. }
  destruct Hal as (P & Hal & HP & HnP).
  unfold binary_round. fold (ndigits p). fold f. rewrite Hal.
  assert (HfP : fexp64 (ndigits P + E) = f) by (rewrite HnP; done).
  destruct (round_aux_pos P E loc_Exact ltac:(lia) ltac:(rewrite HfP; lia)) as (q' & Hq' & Hlow & Hhigh).
  pose proof (quot_bounds P E ltac:(lia) ltac:(rewrite HfP; lia)) as [Hq Hqc].
  rewrite HfP in *. set (q := Zpos P / 2 ^ (f - E)) in *.
  assert (Hmx : Zpos mx < 2 ^ 53 /\ (-1074 < ex -> 2 ^ 52 <= Zpos mx)).
  { pose proof (ndigits_bounds mx) as [Hm1 Hm2]. rewrite fexp64_eq in Hcx.
    assert (2 ^ ndigits mx <= 2 ^ 53) by (apply Z.pow_le_mono_r; lia). split; [lia|].
    intros. replace (ndigits mx) with 53 in * by lia. done. }
  assert (Hsame : f = ex -> q' <= Zpos mx).
  { intros ->. assert (q < Zpos mx); [|lia]. subst q. apply Z.div_lt_upper_bound.
    - apply Z.pow_pos_nonneg; lia.
    - rewrite HP, (Z.mul_comm _ (Zpos mx)).
      replace (ex - E) with (ex - e + (e - E)) by lia. rewrite Z.pow_add_r, Z.mul_assoc by lia.
      apply Z.mul_lt_mono_pos_r; [apply Z.pow_pos_nonneg; lia|done]. }
  destruct (decide (q' < 2 ^ 53)) as [Hl|Hl].
  - destruct (Hlow Hl ltac:(lia)) as [-> Hcan]. split.
    + apply bounded_iff. split; [exact Hcan|lia].
    + apply f_leb_lex. split; [done|split; [done|]]. cbn [fkey lexlt].
      rewrite Z2Pos.id by lia. lia.
  - assert (Heq : q' = 2 ^ 53) by lia.
    assert (f < ex) by (destruct (decide (f = ex)); [specialize (Hsame ltac:(done))|]; lia).
    rewrite (Hhigh Heq) by lia. split.
    + apply bounded_iff. split; [|lia].
      change (ndigits (Z.to_pos (2 ^ 52))) with 53. rewrite fexp64_eq. lia.
    + apply f_leb_lex. split; [done|split; [done|]]. cbn [fkey lexlt].
      rewrite Z2Pos.id by lia. lia.
Qed.

Theorem fpos_sub x y :
  fpos x = true -> fpos y = true -> f_ltb y x = true ->
  fpos (f_sub x y) = true /\ f_leb (f_sub x y) x = true.
Proof.
  destruct x as [| | |[] mx ex], y as [| | |[] my ey]; try done. cbn [fpos]. intros Hx Hy Hlt.
  apply f_ltb_lex in Hlt as (_ & _ & Hlt). cbn [fkey lexlt] in Hlt.
  pose proof (proj1 (bounded_iff _ _) Hx) as [Hcx Hex].
  pose proof (proj1 (bounded_iff _ _) Hy) as [Hcy Hey].
  assert (Hnx : 0 < ndigits mx) by done. assert (Hny : 0 < ndigits my) by done.
  rewrite fexp64_eq in Hcx, Hcy.
  assert (Hmy : Zpos my < Zpos mx * 2 ^ (ex - ey)).
  { destruct (decide (ey < ex)) as [Hl|Hl].
    - pose proof (ndigits_bounds mx) as [Hm1 _]. pose proof (ndigits_bounds my) as [_ Hm2].
      assert (2 ^ ndigits my <= 2 ^ 53) by (apply Z.pow_le_mono_r; lia).
      replace (ndigits mx) with 53 in Hm1 by lia.
      assert (2 ^ 1 <= 2 ^ (ex - ey)) by (apply Z.pow_le_mono_r; lia). nia.
    - replace (ex - ey) with 0 by lia. lia. }
  unfold f_sub. cbn [SFsub cond_Zopp]. replace (Z.min ex ey) with ey by lia.
  rewrite !shl_align_val by lia. rewrite Z.sub_diag, Z.mul_1_r.
  destruct (Zpos mx * 2 ^ (ex - ey) - Zpos my) as [|p|p] eqn:Ep; [lia| |lia].
  cbn [binary_normalize]. apply round_below; [done|lia|lia].
Qed.

(** Non-strict version: the difference is zero only for equal values. *)
Lemma fpos_leb_eq x y : fpos x = true -> fpos y = true -> f_leb x y = true -> f_ltb x y = true \/ x = y.
Proof.
  destruct x as [| | |[] mx ex], y as [| | |[] my ey]; try done. intros _ _ H.
  apply f_leb_lex in H as (_ & _ & H). cbn [fkey lexlt] in H.
  destruct (decide (ex < ey \/ (ex = ey /\ Zpos mx < Zpos my))) as [Hl|Hl].
  - left. apply f_ltb_lex. cbn [fkey lexlt f_isnan]. split; [done|split; [done|]]. lia.
  - right. assert (ex = ey) by lia. assert (Zpos mx = Zpos my) by lia. by simplify_eq.
Qed.

Lemma fpos_sub_le x y :
  fpos x = true -> fpos y = true -> f_leb y x = true ->
  f_sub x y = f_zero \/ (fpos (f_sub x y) = true /\ f_leb (f_sub x y) x = true).
Proof.
  intros Hx Hy Hle. destruct (fpos_leb_eq y x Hy Hx Hle) as [Hlt| ->].
  - right. by apply fpos_sub.
  - left. by apply f_sub_diag, fpos_finite.
Qed.

(** Positive grid values are positive doubles. *)
Lemma fpos_units u z : grid u z -> 0 < z -> fpos (f_units u z) = true.
Proof.
  intros [Hu Hz] Hpos. destruct z as [|p|p]; try lia.
  assert (Hf : fits53 u p) by (split; lia).
  rewrite f_units_pos by done. apply bounded_iff.
  rewrite cmant_digits by done. split; [done|]. pose proof (fits53_cexp u p Hf). lia.
Qed.

#[export] Hint Resolve fpos_ltb fpos_finite fpos_notnan fpos_not_leb fpos_units : float.
