(* ===== verification/PyDecimal.v ===== *)
(** * Python's [decimal.Decimal] under the default context

    Amounts and prices of the services are [Decimal] values: a coefficient
    times a power of ten.  Arithmetic is exact and then rounded to the
    context's 28 significant digits, half to even; comparison is exact.  The
    model covers finite values (the request schemas refuse NaN and infinities)
    and does not bound the exponent.  [dunits] measures a value in units of
    10^-36, in which sums and comparisons of money amounts are integer
    arithmetic; [money] is the range in which additions and subtractions of
    balances are exact. *)

From Stdlib Require Import ZArith Lia Bool SpecFloat.
From stdpp Require Import base tactics option decidable.
From S2P Require Import Prelude Float64.
#[local] Open Scope Z_scope.

Create HintDb money.

Record decimal := Dec { dcoef : Z; dexp : Z }.

#[export] Instance decimal_eq_dec : EqDecision decimal.
Proof. solve_decision. Defined.

Definition dec_zero : decimal := Dec 0 0.
Definition dec_of_Z (z : Z) : decimal := Dec z 0.

(** Number of decimal digits of a non-negative integer (0 for 0). *)
Fixpoint ndig10_aux (fuel : nat) (z : Z) : Z :=
  match fuel with
  | O => 0
  | S fuel => if z =? 0 then 0 else 1 + ndig10_aux fuel (z / 10)
  end.
Definition ndig10 (z : Z) : Z := ndig10_aux (S (Z.to_nat (Z.log2 z))) z.

Definition dec_prec : Z := 28.
Definition dec_bound : Z := 10 ^ dec_prec.

(** Rounding to the context precision. *)
Definition dec_fix (d : decimal) : decimal :=
  let a := Z.abs (dcoef d) in
  if a <? dec_bound then d
  else
    let n := ndig10 a - dec_prec in
    let c := round_half_even a (10 ^ n) in
    if c =? dec_bound
    then Dec (Z.sgn (dcoef d) * (c / 10)) (dexp d + n + 1)
    else Dec (Z.sgn (dcoef d) * c) (dexp d + n).

(** The coefficient of [d] at exponent [e <= dexp d]. *)
Definition dec_at (e : Z) (d : decimal) : Z := dcoef d * 10 ^ (dexp d - e).

Definition dec_add (a b : decimal) : decimal :=
  let e := Z.min (dexp a) (dexp b) in dec_fix (Dec (dec_at e a + dec_at e b) e).
Definition dec_sub (a b : decimal) : decimal :=
  let e := Z.min (dexp a) (dexp b) in dec_fix (Dec (dec_at e a - dec_at e b) e).
Definition dec_mul (a b : decimal) : decimal :=
  dec_fix (Dec (dcoef a * dcoef b) (dexp a + dexp b)).
Definition dec_neg (a : decimal) : decimal := dec_fix (Dec (- dcoef a) (dexp a)).

Definition dec_cmp (a b : decimal) : comparison :=
  let e := Z.min (dexp a) (dexp b) in dec_at e a ?= dec_at e b.
Definition dec_eqb a b : bool := match dec_cmp a b with Eq => true | _ => false end.
Definition dec_ltb a b : bool := match dec_cmp a b with Lt => true | _ => false end.
Definition dec_leb a b : bool := match dec_cmp a b with Gt => false | _ => true end.

(** [min(a, b)]: the first on a tie. *)
Definition dec_min (a b : decimal) : decimal := if dec_ltb b a then b else a.

(** Truth value: zero is false. *)
Definition dec_truthy (a : decimal) : bool := negb (dcoef a =? 0).

(** [a % b] (sign of the dividend); [None] where Python raises: a zero divisor
    or an integer quotient of more than 28 digits. *)
Definition dec_rem (a b : decimal) : option decimal :=
  let e := Z.min (dexp a) (dexp b) in
  if dcoef b =? 0 then None
  else if Z.abs (Z.quot (dec_at e a) (dec_at e b)) <? dec_bound
  then Some (dec_fix (Dec (Z.rem (dec_at e a) (dec_at e b)) e))
  else None.

(** [a / b]; [None] on a zero divisor. *)
Definition dec_div (a b : decimal) : option decimal :=
  if dcoef b =? 0 then None
  else
    let ca := Z.abs (dcoef a) in
    let cb := Z.abs (dcoef b) in
    let shift := Z.max 0 (dec_prec + 1 + ndig10 cb - ndig10 ca) in
    let q := (ca * 10 ^ shift) / cb in
    let r := (ca * 10 ^ shift) mod cb in
    let q := if negb (r =? 0) && (q mod 5 =? 0) then q + 1 else q in
    Some (dec_fix (Dec (Z.sgn (dcoef a) * Z.sgn (dcoef b) * q) (dexp a - dexp b - shift))).

(** ** Conversions *)

(** [float(d)]: the nearest double. *)
Definition f_of_dec (d : decimal) : float64 :=
  if dexp d >=? 0 then f_of_ratio (dcoef d * 10 ^ dexp d) 1
  else f_of_ratio (dcoef d) (Z.to_pos (10 ^ (- dexp d))).

(** Shortest decimal that reads back as [f > 0] (the digits of [repr]): the
    first number of digits [k] for which one of the two [k]-digit neighbours
    of the exact value [n / d] converts to [f]; the nearer of them. *)
Fixpoint repr_search (fuel : nat) (k : Z) (f : float64) (n d a : Z) : decimal :=
  match fuel with
  | O => Dec 0 0
  | S fuel =>
      let x := a + 1 - k in
      let num := if x >=? 0 then n else n * 10 ^ (- x) in
      let den := if x >=? 0 then d * 10 ^ x else d in
      let lo := num / den in
      let okl := f_eqb (f_of_dec (Dec lo x)) f in
      let okh := f_eqb (f_of_dec (Dec (lo + 1) x)) f in
      let near_lo := 2 * (num mod den) <=? den in
      if okl && (near_lo || negb okh) then Dec lo x
      else if okh then Dec (lo + 1) x
      else repr_search fuel (k + 1) f n d a
  end.

(** [Decimal(str(f))]; [None] for NaN and infinities. *)
Definition dec_of_float (f : float64) : option decimal :=
  match f with
  | S754_zero _ => Some dec_zero
  | S754_finite s m e =>
      let n := if e >=? 0 then Zpos m * 2 ^ e else Zpos m in
      let d := if e >=? 0 then 1 else 2 ^ (- e) in
      let a := ndig10 (n * 10 ^ 400 / d) - 401 in
      let r := repr_search 17 1 (S754_finite false m e) n d a in
      Some (if s then Dec (- dcoef r) (dexp r) else r)
  | _ => None
  end.

Example repr_tenth : dec_of_float (f_of_dec (Dec 1 (-1))) = Some (Dec 1 (-1)).
Proof. vm_compute. reflexivity. Qed.
Example repr_sum :
  dec_of_float (f_add (f_of_dec (Dec 1 (-1))) (f_of_dec (Dec 2 (-1))))
  = Some (Dec 30000000000000004 (-17)).
Proof. vm_compute. reflexivity. Qed.
Example repr_pow : dec_of_float (f_units (-44) 1) = Some (Dec 5684341886080802 (-29)).
Proof. vm_compute. reflexivity. Qed.

(** ** Units and exactness *)

Definition on_grid (d : decimal) : Prop := -36 <= dexp d.
Definition dunits (d : decimal) : Z := dcoef d * 10 ^ (dexp d + 36).

(** A multiple of 10^-18 of absolute value below 10^10: what a
    [Numeric(36, 18)] column holds and 28 digits represent. *)
Definition money (d : decimal) : Prop :=
  -18 <= dexp d /\ Z.abs (dunits d) < 10 ^ 46.

#[export] Instance money_dec d : Decision (money d).
Proof. unfold money. apply _. Defined.

Lemma pow10_pos n : 0 <= n -> 0 < 10 ^ n.
Proof. intros. apply Z.pow_pos_nonneg; lia. Qed.

Lemma dec_at_units e d :
  on_grid d -> -36 <= e -> e <= dexp d -> dec_at e d * 10 ^ (e + 36) = dunits d.
Proof.
  unfold on_grid, dec_at, dunits. intros Hg He Hd.
  rewrite <- Z.mul_assoc, <- Z.pow_add_r by lia. do 2 f_equal. lia.
Qed.

Lemma dec_cmp_units a b :
  on_grid a -> on_grid b -> dec_cmp a b = (dunits a ?= dunits b).
Proof.
  unfold on_grid. intros Ha Hb. unfold dec_cmp. set (e := Z.min _ _).
  rewrite <- (dec_at_units e a), <- (dec_at_units e b) by (unfold on_grid; lia).
  apply Zmult_compare_compat_r, Z.lt_gt, pow10_pos. lia.
Qed.

Lemma dec_leb_units a b : on_grid a -> on_grid b -> dec_leb a b = (dunits a <=? dunits b).
Proof. intros. unfold dec_leb, Z.leb. by rewrite dec_cmp_units. Qed.
Lemma dec_ltb_units a b : on_grid a -> on_grid b -> dec_ltb a b = (dunits a <? dunits b).
Proof. intros. unfold dec_ltb, Z.ltb. by rewrite dec_cmp_units. Qed.
Lemma dec_eqb_units a b : on_grid a -> on_grid b -> dec_eqb a b = (dunits a =? dunits b).
Proof. intros. unfold dec_eqb. rewrite dec_cmp_units by done. by rewrite Z.eqb_compare. Qed.

Lemma dec_ltb_leb a b : dec_ltb a b = negb (dec_leb b a).
Proof.
  unfold dec_ltb, dec_leb, dec_cmp. rewrite (Z.min_comm (dexp b)), (Z.compare_antisym (dec_at _ a)).
  by destruct (dec_at _ a ?= dec_at _ b).
Qed.

Lemma dec_fix_small d : Z.abs (dcoef d) < dec_bound -> dec_fix d = d.
Proof. intros H. unfold dec_fix. by rewrite (proj2 (Z.ltb_lt _ _) H). Qed.

Lemma round_half_even_nonneg n d : 0 <= n -> 0 < d -> 0 <= round_half_even n d.
Proof.
  intros Hn Hd. pose proof (Z.div_pos n d Hn Hd). unfold round_half_even.
  destruct (2 * (n mod d) ?= d); [destruct (Z.even (n / d))|..]; lia.
Qed.

Lemma ndig10_aux_nonneg fuel z : 0 <= ndig10_aux fuel z.
Proof.
  revert z. induction fuel as [|fuel IH]; intros z; cbn; [done|].
  destruct (z =? 0); [done|]. specialize (IH (z / 10)). lia.
Qed.

Lemma ndig10_aux_pos fuel z : (Z.to_nat (Z.log2 z) < fuel)%nat -> 0 < z -> z < 10 ^ ndig10_aux fuel z.
Proof.
  revert z. induction fuel as [|fuel IH]; intros z Hf Hz; [lia|].
  cbn [ndig10_aux]. rewrite (proj2 (Z.eqb_neq z 0)) by lia.
  pose proof ndig10_aux_nonneg as Hnn.
  rewrite Z.pow_add_r by (done || lia).
  destruct (decide (z < 10)) as [Hlt|Hge].
  - assert (0 < 10 ^ ndig10_aux fuel (z / 10)) by (apply pow10_pos, Hnn). lia.
  - assert (Hq : 0 < z / 10) by (apply Z.div_str_pos; lia).
    assert (Hl : Z.log2 (z / 10) < Z.log2 z).
    { apply (Z.le_lt_trans _ (Z.log2 (z / 2))).
      - apply Z.log2_le_mono, Z.div_le_compat_l; lia.
      - pose proof (Z.log2_shiftr z 1 ltac:(lia)) as Hs.
        rewrite Z.shiftr_div_pow2 in Hs by lia. change (2 ^ 1) with 2 in Hs. rewrite Hs.
        assert (0 < Z.log2 z) by (apply Z.log2_pos; lia). lia. }
    pose proof (Z.log2_nonneg (z / 10)).
    specialize (IH (z / 10) ltac:(lia) Hq).
    pose proof (Z.div_mod z 10 ltac:(lia)). pose proof (Z.mod_pos_bound z 10 ltac:(lia)). lia.
Qed.

(** Rounding keeps the sign. *)
Lemma dec_fix_nonneg d : 0 <= dcoef d -> 0 <= dcoef (dec_fix d).
Proof.
  intros H. unfold dec_fix. destruct (Z.ltb_spec (Z.abs (dcoef d)) dec_bound) as [|Hge]; [done|].
  assert (Hb : 0 < dec_bound) by (apply pow10_pos; done).
  assert (Hn : 0 <= ndig10 (Z.abs (dcoef d)) - dec_prec).
  { pose proof (ndig10_aux_pos (S (Z.to_nat (Z.log2 (Z.abs (dcoef d))))) (Z.abs (dcoef d))
                  ltac:(lia) ltac:(lia)) as Hd.
    fold (ndig10 (Z.abs (dcoef d))) in Hd. unfold dec_bound in Hge.
    assert (dec_prec < ndig10 (Z.abs (dcoef d))); [|lia].
    apply (Z.pow_lt_mono_r_iff 10); [lia|apply ndig10_aux_nonneg|lia]. }
  pose proof (round_half_even_nonneg (Z.abs (dcoef d)) (10 ^ (ndig10 (Z.abs (dcoef d)) - dec_prec))
                ltac:(lia) (pow10_pos _ Hn)) as Hr.
  destruct (_ =? dec_bound); cbn [dcoef]; apply Z.mul_nonneg_nonneg; try lia.
  apply Z.div_pos; lia.
Qed.

Lemma dec_fix_grid d : on_grid d -> on_grid (dec_fix d).
Proof.
  unfold on_grid, dec_fix. intros H.
  destruct (Z.ltb_spec (Z.abs (dcoef d)) dec_bound) as [|Hge]; [done|].
  assert (dec_prec <= ndig10 (Z.abs (dcoef d))).
  { assert (0 < dec_bound) by (apply pow10_pos; done).
    pose proof (ndig10_aux_pos (S (Z.to_nat (Z.log2 (Z.abs (dcoef d))))) (Z.abs (dcoef d))
                  ltac:(lia) ltac:(lia)) as Hd.
    fold (ndig10 (Z.abs (dcoef d))) in Hd. unfold dec_bound in Hge.
    assert (dec_prec < ndig10 (Z.abs (dcoef d))); [|lia].
    apply (Z.pow_lt_mono_r_iff 10); [lia|apply ndig10_aux_nonneg|lia]. }
  destruct (_ =? dec_bound); cbn [dexp]; lia.
Qed.

(** The exact result of an operation survives when it is a money amount. *)
Lemma dec_fix_money c e :
  -18 <= e -> Z.abs (c * 10 ^ (e + 36)) < 10 ^ 46 -> dec_fix (Dec c e) = Dec c e.
Proof.
  intros He Hc. apply dec_fix_small. cbn [dcoef].
  assert (Hp : 0 < 10 ^ (e + 18)) by (apply pow10_pos; lia).
  replace (e + 36) with (18 + (e + 18)) in Hc by lia.
  rewrite Z.pow_add_r, Z.mul_assoc, Z.abs_mul, (Z.abs_eq (10 ^ (e + 18))) in Hc by lia.
  rewrite Z.abs_mul in Hc. unfold dec_bound, dec_prec.
  change (Z.abs (10 ^ 18)) with (10 ^ 18) in Hc.
  assert (Z.abs c * 10 ^ 18 < 10 ^ 28 * 10 ^ 18); [|lia].
  apply (Z.le_lt_trans _ (Z.abs c * 10 ^ 18 * 10 ^ (e + 18))); [nia|]. done.
Qed.

Lemma money_on_grid d : money d -> on_grid d.
Proof. unfold money, on_grid. lia. Qed.

Section MoneyOp.
Context (a b : decimal) (op : Z -> Z -> Z).
Hypothesis op_mul : forall x y k, op x y * k = op (x * k) (y * k).

Lemma money_op :
  money a -> money b -> Z.abs (op (dunits a) (dunits b)) < 10 ^ 46 ->
  let e := Z.min (dexp a) (dexp b) in
  let r := dec_fix (Dec (op (dec_at e a) (dec_at e b)) e) in
  dunits r = op (dunits a) (dunits b) /\ money r.
Proof.
  intros [Ha _] [Hb _] Hop e r.
  assert (He : -18 <= e) by (subst e; lia).
  assert (Hu : op (dec_at e a) (dec_at e b) * 10 ^ (e + 36) = op (dunits a) (dunits b)).
  { rewrite op_mul, !dec_at_units by (unfold on_grid; subst e; lia). done. }
  assert (Hr : r = Dec (op (dec_at e a) (dec_at e b)) e)
    by (apply dec_fix_money; [done|by rewrite Hu]).
  assert (Hd : dunits r = op (dunits a) (dunits b)) by (rewrite Hr; exact Hu).
  split; [done|]. split; [by rewrite Hr|by rewrite Hd].
Qed.
End MoneyOp.

Lemma dec_add_money a b :
  money a -> money b -> Z.abs (dunits a + dunits b) < 10 ^ 46 ->
  dunits (dec_add a b) = dunits a + dunits b /\ money (dec_add a b).
Proof. apply (money_op a b Z.add). intros; lia. Qed.

Lemma dec_sub_money a b :
  money a -> money b -> Z.abs (dunits a - dunits b) < 10 ^ 46 ->
  dunits (dec_sub a b) = dunits a - dunits b /\ money (dec_sub a b).
Proof. apply (money_op a b Z.sub). intros; lia. Qed.

(** Nonnegativity is about the coefficient only. *)
Lemma dunits_nonneg d : on_grid d -> 0 <= dunits d <-> 0 <= dcoef d.
Proof.
  unfold on_grid, dunits. intros H.
  assert (0 < 10 ^ (dexp d + 36)) by (apply pow10_pos; lia). nia.
Qed.

Lemma dec_leb_zero d : dec_leb dec_zero d = (0 <=? dcoef d).
Proof.
  unfold dec_leb, Z.leb, dec_cmp, dec_at. cbn [dcoef dexp dec_zero].
  assert (0 < 10 ^ (dexp d - Z.min 0 (dexp d))) by (apply pow10_pos; lia).
  replace (0 * _) with (0 * 10 ^ (dexp d - Z.min 0 (dexp d))) by lia.
  by rewrite <- Zmult_compare_compat_r by lia.
Qed.

#[export] Hint Resolve money_on_grid : money.

(** The remainder of two amounts, exact. *)
Lemma dec_rem_money a b : money a -> money b -> 0 < dunits b ->
  exists r, dec_rem a b = Some r /\ on_grid r /\ dunits r = Z.rem (dunits a) (dunits b).
Proof.
  intros Ha Hb Hp. unfold dec_rem. set (e := Z.min (dexp a) (dexp b)).
  assert (He : -18 <= e) by (destruct Ha, Hb; lia).
  assert (Hk : 10 ^ 18 <= 10 ^ (e + 36)) by (apply Z.pow_le_mono_r; lia).
  assert (Hk0 : 0 < 10 ^ 18) by (by vm_compute).
  assert (Ua : dec_at e a * 10 ^ (e + 36) = dunits a) by (apply dec_at_units; unfold on_grid; lia).
  assert (Ub : dec_at e b * 10 ^ (e + 36) = dunits b) by (apply dec_at_units; unfold on_grid; lia).
  set (x := dec_at e a) in *. set (y := dec_at e b) in *. set (k := 10 ^ (e + 36)) in *.
  assert (Hb0 : dcoef b <> 0).
  { intros E. unfold dunits in Hp. rewrite E in Hp. lia. }
  destruct (Z.eqb_spec (dcoef b) 0) as [|_]; [done|].
  assert (Hy : y <> 0) by (intros E; rewrite E in Ub; lia).
  assert (Hx : Z.abs x < dec_bound).
  { destruct Ha as [_ Ha]. rewrite <- Ua, Z.abs_mul in Ha. rewrite (Z.abs_eq k) in Ha by lia.
    change dec_bound with (10 ^ 28). change (10 ^ 46) with (10 ^ 28 * 10 ^ 18) in Ha. nia. }
  assert (Hq : Z.abs (Z.quot x y) <= Z.abs x).
  { rewrite <- Z.quot_abs by done. apply Z.quot_le_upper_bound; [lia|]. nia. }
  assert (Hr : Z.abs (Z.rem x y) <= Z.abs x).
  { rewrite <- Z.rem_abs by done. apply Z.rem_le; lia. }
  destruct (Z.ltb_spec (Z.abs (Z.quot x y)) dec_bound); [|lia].
  eexists. split; [done|]. rewrite dec_fix_small by (cbn [dcoef]; lia).
  split; [unfold on_grid; cbn [dexp]; lia|]. unfold dunits at 1. cbn [dcoef dexp]. fold k.
  rewrite <- Ua, <- Ub. rewrite Z.mul_rem_distr_r by lia. done.
Qed.
