(* ===== verification/WholeFloat.v ===== *)
(** * Whole numbers as doubles

    Conversion of a whole number below 2^53 is exact, and the number of decimal
    digits of an integer. *)

From Stdlib Require Import ZArith Lia Bool SpecFloat.
From stdpp Require Import base tactics option list.
From S2P Require Import Prelude Float64 FloatPos PyDecimal.
#[local] Open Scope Z_scope.

(** ** Conversion to a double *)

Lemma f_of_ratio_whole z : 0 < z < 2 ^ 53 -> f_of_ratio z 1 = f_of_Z z.
Proof.
  intros Hz. destruct z as [|p|p]; try lia. unfold f_of_Z.
  assert (Hf : fits53 0 p) by (split; lia). rewrite f_units_pos by done.
  pose proof (fits53_cexp 0 p Hf) as [Hc1 Hc2]. pose proof (cmant_val 0 p Hf) as Hm.
  pose proof (cmant_digits 0 p Hf) as Hdg. pose proof (ndigits_bounds p) as [Hn _].
  assert (Hn53 : ndigits p - 1 < 53) by (apply (Z.pow_lt_mono_r_iff 2); lia).
  assert (Hn0 : 0 < ndigits p) by done.
  assert (Hc : cexp 0 p = ndigits p - 53) by (unfold cexp; rewrite fexp64_eq; lia).
  unfold f_of_ratio, SFdiv_core_binary. change (Zdigits2 (Zpos p)) with (ndigits p). change (Zdigits2 1) with 1.
  rewrite fexp64_eq. replace (Z.min _ _) with (cexp 0 p - 1) by lia.
  replace (0 - 0 - (cexp 0 p - 1)) with (1 - cexp 0 p) by lia.
  assert (Hs : match 1 - cexp 0 p with Z0 => Zpos p | Zpos _ => Z.shiftl (Zpos p) (1 - cexp 0 p) | Zneg _ => 0 end
    = Zpos (cmant 0 p) * 2 ^ 1).
  { rewrite Hm, <- Z.mul_assoc, <- Z.pow_add_r by lia. replace (0 - cexp 0 p + 1) with (1 - cexp 0 p) by lia.
    destruct (1 - cexp 0 p) as [|j|j] eqn:Ej; try lia. by rewrite Z.shiftl_mul_pow2. }
  rewrite Hs. pose proof (Z.div_eucl_eq (Zpos (cmant 0 p) * 2 ^ 1) 1 ltac:(lia)) as Hq.
  pose proof (Z.mod_1_r (Zpos (cmant 0 p) * 2 ^ 1)) as Hr. unfold Z.modulo in Hr.
  destruct (Z.div_eucl _ 1) as [q r]. subst r. rewrite Z.mul_1_l, Z.add_0_r in Hq. rewrite <- Hq.
  cbn [new_location]. apply round_aux_exact; [lia| |lia]. by rewrite Hdg.
Qed.

Lemma f_of_dec_whole c x : 0 <= x -> 0 < c * 10 ^ x < 2 ^ 53 -> f_of_dec (Dec c x) = f_of_Z (c * 10 ^ x).
Proof.
  intros Hx Hz. unfold f_of_dec. cbn [dexp dcoef]. rewrite Z.geb_leb, (proj2 (Z.leb_le _ _) Hx). by apply f_of_ratio_whole.
Qed.

Lemma f_of_Z_eqb a b : 0 <= a < 2 ^ 53 -> 0 <= b < 2 ^ 53 -> f_eqb (f_of_Z a) (f_of_Z b) = true -> a = b.
Proof.
  intros Ha Hb He. pose proof (f_eqb_ltb _ _ He) as H1. rewrite f_eqb_sym in He. pose proof (f_eqb_ltb _ _ He) as H2.
  rewrite f_of_Z_lt in H1, H2 by done. apply Z.ltb_ge in H1, H2. lia.
Qed.

Lemma f_of_Z_eqb_refl a : 0 <= a < 2 ^ 53 -> f_eqb (f_of_Z a) (f_of_Z a) = true.
Proof.
  intros Ha. destruct a as [|p|p]; [done| |lia]. unfold f_of_Z. rewrite f_units_pos by (split; lia).
  unfold f_eqb, SFeqb, SFcompare. by rewrite Z.compare_refl, Pos.compare_cont_refl.
Qed.

(** ** Digits *)

Lemma ndig10_aux_le fuel z : 0 < z -> 10 ^ (ndig10_aux fuel z - 1) <= z.
Proof.
  revert z. induction fuel as [|fuel IH]; intros z Hz; cbn [ndig10_aux]; [cbn; lia|].
  rewrite (proj2 (Z.eqb_neq z 0)) by lia. replace (1 + ndig10_aux fuel (z / 10) - 1) with (ndig10_aux fuel (z / 10)) by lia.
  destruct (Z.eqb_spec (z / 10) 0) as [E|E].
  - rewrite E. destruct fuel; cbn; lia.
  - assert (Hq : 0 < z / 10) by (pose proof (Z.div_pos z 10); lia). specialize (IH _ Hq).
    pose proof (Z.mul_div_le z 10 ltac:(lia)). pose proof (ndig10_aux_nonneg fuel (z / 10)).
    destruct (Z.eqb_spec (ndig10_aux fuel (z / 10)) 0) as [->|Hne]; [lia|].
    replace (ndig10_aux fuel (z / 10)) with (ndig10_aux fuel (z / 10) - 1 + 1) by lia.
    rewrite Z.pow_add_r by lia. lia.
Qed.
Lemma ndig10_spec z : 0 < z -> 10 ^ (ndig10 z - 1) <= z < 10 ^ ndig10 z.
Proof. intros Hz. split; [by apply ndig10_aux_le|]. apply ndig10_aux_pos; lia. Qed.
