(* ===== verification/DecFloat.v ===== *)
(** * Decimals of 15 digits and the doubles next to them

    Conversion to a double is within 2^-52 of the decimal; decimals of one grid
    of 15 digits therefore keep their order as doubles, and the shortest text of
    the double reads back as the decimal: prices and quantities cross the queue
    and the book, which carry doubles, unchanged. *)

From Stdlib Require Import ZArith Lia Bool SpecFloat.
From stdpp Require Import base tactics option list.
From S2P Require Import Prelude Float64 FloatPos PyDecimal WholeFloat.
#[local] Open Scope Z_scope.

(** ** Positive doubles by their value *)

Definition fscale : Z := 2 ^ 1074.
(** The value in units of 2^-1074. *)
Definition fval (x : float64) : Z := match x with S754_finite _ m e => Zpos m * 2 ^ (e + 1074) | _ => 0 end.

Lemma fval_mono x y : fpos x = true -> fpos y = true -> f_ltb y x = true -> fval y < fval x.
Proof.
  destruct x as [| | |[] mx ex], y as [| | |[] my ey]; try done. cbn [fpos]. intros Hx Hy Hlt.
  apply f_ltb_lex in Hlt as (_ & _ & Hlt). cbn [fkey lexlt] in Hlt.
  pose proof (proj1 (bounded_iff _ _) Hx) as [Hcx Hex]. pose proof (proj1 (bounded_iff _ _) Hy) as [Hcy Hey].
  assert (Hnx : 0 < ndigits mx) by done. assert (Hny : 0 < ndigits my) by done. rewrite fexp64_eq in Hcx, Hcy.
  cbn [fval]. assert (0 < 2 ^ (ey + 1074)) by (apply Z.pow_pos_nonneg; lia).
  destruct (decide (ey < ex)) as [Hl|Hl].
  - pose proof (ndigits_bounds mx) as [Hm1 _]. pose proof (ndigits_bounds my) as [_ Hm2].
    assert (2 ^ ndigits my <= 2 ^ 53) by (apply Z.pow_le_mono_r; lia). replace (ndigits mx) with 53 in Hm1 by lia.
    assert (2 ^ 1 <= 2 ^ (ex - ey)) by (apply Z.pow_le_mono_r; lia).
    replace (ex + 1074) with (ex - ey + (ey + 1074)) by lia. rewrite (Z.pow_add_r 2 (ex - ey) (ey + 1074)), Z.mul_assoc by lia.
    apply Z.mul_lt_mono_pos_r; [done|]. nia.
  - replace ey with ex by lia. apply Z.mul_lt_mono_pos_r; [apply Z.pow_pos_nonneg; lia|lia].
Qed.
Lemma fval_lt x y : fpos x = true -> fpos y = true -> fval x < fval y -> f_ltb x y = true.
Proof.
  intros Hx Hy Hlt. destruct (f_ltb x y) eqn:E; [done|]. exfalso.
  assert (Hle : f_leb y x = true).
  { rewrite f_ltb_not_leb in E by auto using fpos_notnan. by destruct (f_leb y x). }
  destruct (fpos_leb_eq y x Hy Hx Hle) as [H| ->]; [|lia]. apply fval_mono in H; [lia|done..].
Qed.

(** ** The rounded quotient *)

(** The quotient that is rounded: 53 bits or more, and the rest of the division. *)
Lemma ratio_quotient n d : -1000 <= ndigits n - ndigits d <= 900 ->
  let e := Z.min (ndigits n - ndigits d - 53) 0 in
  exists q l, f_of_ratio (Zpos n) d = binary_round_aux fprec femax false (Zpos q) e l /\
    2 ^ 52 <= Zpos q /\ Zpos q * Zpos d <= Zpos n * 2 ^ (- e) < (Zpos q + 1) * Zpos d.
Proof.
  intros Hr e. pose proof (ndigits_bounds n) as [Hn1 Hn2]. pose proof (ndigits_bounds d) as [Hd1 Hd2].
  assert (Hnn : 0 < ndigits n) by done. assert (Hnd : 0 < ndigits d) by done.
  unfold f_of_ratio, SFdiv_core_binary. change (Zdigits2 (Zpos ?p)) with (ndigits p).
  rewrite fexp64_eq, !Z.add_0_r, Z.sub_0_r. replace (Z.min _ _) with e by (subst e; lia).
  replace (0 - e) with (- e) by lia. set (m := Zpos n * 2 ^ (- e)).
  assert (Hm : match - e with Z0 => Zpos n | Zpos _ => Z.shiftl (Zpos n) (- e) | Zneg _ => 0 end = m).
  { subst m. destruct (- e) as [|j|j] eqn:Ej; [by rewrite Z.pow_0_r, Z.mul_1_r|by rewrite Z.shiftl_mul_pow2|subst e; lia]. }
  rewrite Hm. pose proof (Z.div_eucl_eq m (Zpos d) ltac:(lia)) as Hq.
  pose proof (Z.mod_pos_bound m (Zpos d) ltac:(lia)) as Hb. unfold Z.modulo in Hb.
  destruct (Z.div_eucl m (Zpos d)) as [q r].
  assert (Hq52 : 2 ^ 52 <= q).
  { assert (H : 2 ^ 52 * Zpos d <= m); [|nia]. transitivity (2 ^ 52 * 2 ^ ndigits d); [nia|].
    rewrite <- Z.pow_add_r by lia. transitivity (2 ^ (ndigits n - 1 + - e)); [apply Z.pow_le_mono_r; subst e; lia|].
    rewrite Z.pow_add_r by (subst e; lia). apply Z.mul_le_mono_nonneg_r; [apply Z.pow_nonneg; lia|done]. }
  destruct q as [|q|q]; try lia. exists q, (new_location (Zpos d) r). split; [reflexivity|]. split; [done|]. lia.
Qed.

(** Rounding a significand of 53 bits or more: its quotient by the discarded
    bits, up or down. *)
Lemma round_aux_close q e l : 2 ^ 52 <= Zpos q -> -1074 <= e -> ndigits q + e <= 1000 ->
  let x := binary_round_aux fprec femax false (Zpos q) e l in
  exists q' Q s, fpos x = true /\ fval x = q' * s * 2 ^ (e + 1074) /\ (q' = Q \/ q' = Q + 1) /\
    0 < s /\ 2 ^ 52 <= Q /\ Q * s <= Zpos q < (Q + 1) * s.
Proof.
  intros H52 He Hqu x. pose proof (ndigits_bounds q) as [Hqd1 Hqd].
  assert (Hqn : 53 <= ndigits q).
  { assert (0 < ndigits q) by done. assert (52 < ndigits q) by (apply (Z.pow_lt_mono_r_iff 2); lia). lia. }
  set (f := fexp64 (ndigits q + e)). assert (Hf : f = Z.max (ndigits q + e - 53) (-1074)) by (subst f; by rewrite fexp64_eq).
  destruct (round_aux_pos q e l ltac:(lia) ltac:(fold f; lia)) as (q' & Hq' & Hlow & Hhigh).
  pose proof (quot_bounds q e ltac:(lia) ltac:(fold f; lia)) as [HQ _]. cbn zeta in *. fold f in Hq', Hlow, Hhigh, HQ.
  assert (Hs : 0 < 2 ^ (f - e)) by (apply Z.pow_pos_nonneg; lia).
  pose proof (Z.mul_div_le (Zpos q) (2 ^ (f - e)) Hs) as Hlo. pose proof (Z.mul_succ_div_gt (Zpos q) (2 ^ (f - e)) Hs) as Hhi.
  set (Q := Zpos q / 2 ^ (f - e)) in *.
  assert (HQ52 : 2 ^ 52 <= Q).
  { apply Z.div_le_lower_bound; [done|]. rewrite <- Z.pow_add_r by lia.
    apply (Z.le_trans _ (2 ^ (ndigits q - 1))); [|done]. destruct (decide (f = e)) as [Hfe|]; [|apply Z.pow_le_mono_r; lia].
    rewrite Hfe. apply Z.pow_le_mono_r; lia. }
  exists q', Q, (2 ^ (f - e)). rewrite <- Z.mul_assoc, <- Z.pow_add_r by lia.
  replace (f - e + (e + 1074)) with (f + 1074) by lia.
  cut (fpos x = true /\ fval x = q' * 2 ^ (f + 1074)); [intros [? ?]; split_and!; first [done|lia]|].
  subst x. destruct (decide (q' < 2 ^ 53)) as [Hl|Hl].
  - destruct (Hlow Hl ltac:(lia)) as [-> Hc]. split; [apply bounded_iff; split; [exact Hc|lia]|]. cbn [fval]. by rewrite Z2Pos.id by lia.
  - assert (Hq53 : q' = 2 ^ 53) by lia. rewrite (Hhigh Hq53) by lia. split; [apply bounded_iff; split; [|lia]|].
    + change (ndigits (Z.to_pos (2 ^ 52))) with 53. rewrite fexp64_eq. lia.
    + cbn [fval]. rewrite Hq53. replace (f + 1 + 1074) with (1 + (f + 1074)) by lia. rewrite Z.pow_add_r by lia.
      change (Zpos (Z.to_pos (2 ^ 52))) with (2 ^ 52). change (2 ^ 53) with (2 ^ 52 * 2 ^ 1). ring.
Qed.

(** Rounding moves a quotient by at most a part in 2^52. *)
Lemma ratio_close n d : -1000 <= ndigits n - ndigits d <= 900 ->
  let x := f_of_ratio (Zpos n) d in
  fpos x = true /\ Z.abs (Zpos d * fval x - Zpos n * fscale) * 2 ^ 52 <= Zpos n * fscale.
Proof.
  intros Hr x. destruct (ratio_quotient n d Hr) as (q & l & E & H52 & Hq). cbn zeta in *.
  set (e := Z.min (ndigits n - ndigits d - 53) 0) in *. subst x. rewrite E.
  assert (He : -1053 <= e <= 0) by (subst e; lia).
  pose proof (ndigits_bounds q) as [Hqd1 Hqd]. assert (Hqu : ndigits q + e <= 902).
  { pose proof (ndigits_bounds n) as [_ Hn2]. pose proof (ndigits_bounds d) as [Hd1 _].
    assert (0 < ndigits q) by done. assert (0 < ndigits n) by done. assert (0 < ndigits d) by done.
    assert (Hpw : 2 ^ (ndigits q - 1 + (ndigits d - 1)) < 2 ^ (ndigits n + - e)).
    { rewrite !Z.pow_add_r by lia. assert (0 < 2 ^ (- e)) by (apply Z.pow_pos_nonneg; lia).
      assert (0 < 2 ^ (ndigits d - 1)) by (apply Z.pow_pos_nonneg; lia). nia. }
    apply Z.pow_lt_mono_r_iff in Hpw; lia. }
  destruct (round_aux_close q e l H52 ltac:(lia) ltac:(lia)) as (q' & Q & s & Hp & -> & Hq' & Hs & HQ52 & Hlo & Hhi).
  split; [exact Hp|].
  assert (Hscale : fscale = 2 ^ (- e) * 2 ^ (e + 1074)) by (unfold fscale; rewrite <- Z.pow_add_r by lia; f_equal; lia).
  rewrite Hscale. assert (Hu : 0 < 2 ^ (e + 1074)) by (apply Z.pow_pos_nonneg; lia).
  set (u := 2 ^ (e + 1074)) in *. set (N := Zpos n * 2 ^ (- e)) in *.
  replace (Zpos d * (q' * s * u) - Zpos n * (2 ^ (- e) * u)) with ((Zpos d * (q' * s) - N) * u) by (subst N; ring).
  replace (Zpos n * (2 ^ (- e) * u)) with (N * u) by (subst N; ring).
  rewrite Z.abs_mul, (Z.abs_eq u) by lia. replace (_ * u * 2 ^ 52) with (Z.abs (Zpos d * (q' * s) - N) * 2 ^ 52 * u) by ring.
  apply Z.mul_le_mono_nonneg_r; [lia|].
  assert (Ha : Zpos d * (Q * s) <= N) by nia. assert (Hb : N <= Zpos d * ((Q + 1) * s)) by nia.
  assert (Hc : Z.abs (Zpos d * (q' * s) - N) <= Zpos d * s) by nia. nia.
Qed.

(** ... and a product, when one factor has all its 53 bits. *)
Lemma mul_close mx ex my ey : 2 ^ 52 <= Zpos my -> -1074 <= ex -> -1074 <= ex + ey -> ndigits (mx * my) + (ex + ey) <= 1000 ->
  let x := S754_finite false mx ex in
  let y := S754_finite false my ey in
  fpos (f_mul x y) = true /\
  Z.abs (fval (f_mul x y) - Zpos mx * Zpos my * 2 ^ (ex + ey + 1074)) * 2 ^ 52 <= Zpos mx * Zpos my * 2 ^ (ex + ey + 1074).
Proof.
  intros H52 Hex He Hd x y. change (f_mul x y) with (binary_round_aux fprec femax false (Zpos (mx * my)) (ex + ey) loc_Exact).
  destruct (round_aux_close (mx * my) (ex + ey) loc_Exact ltac:(lia) He Hd) as (q' & Q & s & Hp & -> & Hq' & Hs & HQ & Hlo & Hhi).
  split; [exact Hp|]. rewrite <- Pos2Z.inj_mul. set (P := Zpos (mx * my)) in *.
  assert (Hu : 0 < 2 ^ (ex + ey + 1074)) by (apply Z.pow_pos_nonneg; lia). set (u := 2 ^ (ex + ey + 1074)) in *.
  rewrite <- Z.mul_sub_distr_r, Z.abs_mul, (Z.abs_eq u) by lia.
  replace (_ * u * 2 ^ 52) with (Z.abs (q' * s - P) * 2 ^ 52 * u) by ring.
  apply Z.mul_le_mono_nonneg_r; [lia|]. assert (Hc : Z.abs (q' * s - P) <= s) by nia. nia.
Qed.

(** A double less than half a unit from an integer rounds to it. *)
Lemma f_round_near x k : fpos x = true -> 2 * Z.abs (fval x - k * fscale) < fscale -> f_round x = Some k.
Proof.
  destruct x as [| | |[] m e]; try done. intros Hx. cbn [fval f_round]. intros Hn. f_equal.
  pose proof (proj1 (bounded_iff _ _) Hx) as [Hc _]. rewrite fexp64_eq in Hc. unfold fscale in Hn. rewrite Z.geb_leb.
  destruct (Z.leb_spec 0 e) as [He|He].
  - rewrite (Z.pow_add_r 2 e 1074) in Hn by lia. assert (H : 0 < 2 ^ 1074) by done. set (S := 2 ^ 1074) in *. nia.
  - assert (Hs : 2 ^ 1074 = 2 ^ (- e) * 2 ^ (e + 1074)) by (rewrite <- Z.pow_add_r by lia; f_equal; lia).
    rewrite Hs in Hn. assert (Hu : 0 < 2 ^ (e + 1074)) by (apply Z.pow_pos_nonneg; lia).
    assert (Hd : 0 < 2 ^ (- e)) by (apply Z.pow_pos_nonneg; lia). clear Hs.
    set (u := 2 ^ (e + 1074)) in *. set (d := 2 ^ (- e)) in *.
    replace (Zpos m * u - k * (d * u)) with ((Zpos m - k * d) * u) in Hn by ring.
    rewrite Z.abs_mul, (Z.abs_eq u) in Hn by lia.
    assert (Hm : 2 * Z.abs (Zpos m - k * d) < d) by nia. clear Hn. unfold round_half_even.
    pose proof (Z.div_mod (Zpos m) d ltac:(lia)) as Hdm. pose proof (Z.mod_pos_bound (Zpos m) d Hd) as Hb.
    set (q := Zpos m / d) in *. set (r := Zpos m mod d) in *.
    assert (Hqk : q = k \/ q = k - 1) by (assert (-1 < q - k + 1 < 2); [split; nia|lia]).
    destruct Hqk as [-> | ->].
    + assert (Hr : 2 * r < d) by lia. by rewrite (proj2 (Z.compare_lt_iff _ _) Hr).
    + assert (Hr : d < 2 * r) by lia. rewrite (proj2 (Z.compare_gt_iff _ _) Hr). lia.
Qed.

(** ** Decimals *)

Lemma f_of_dec_close p : 0 < dcoef p -> on_grid p -> dunits p < 10 ^ 100 ->
  fpos (f_of_dec p) = true /\
  Z.abs (10 ^ 36 * fval (f_of_dec p) - dunits p * fscale) * 2 ^ 52 <= dunits p * fscale.
Proof.
  intros Hc Hg Hu. unfold on_grid in Hg.
  assert (H : exists n d, f_of_dec p = f_of_ratio (Zpos n) d /\ Zpos n * 10 ^ 36 = dunits p * Zpos d /\
    Zpos n < 10 ^ 100 /\ Zpos d <= 10 ^ 36).
  { unfold f_of_dec, dunits in *. rewrite Z.geb_leb. destruct (Z.leb_spec 0 (dexp p)) as [Hx|Hx].
    - assert (Hp : 0 < 10 ^ dexp p) by (apply pow10_pos; lia). rewrite Z.pow_add_r in * by lia.
      assert (Hn : 0 < dcoef p * 10 ^ dexp p) by (by apply Z.mul_pos_pos).
      exists (Z.to_pos (dcoef p * 10 ^ dexp p)), 1%positive. rewrite Z2Pos.id by done. split_and!; [done|ring|nia|done].
    - assert (Hp : 0 < 10 ^ (- dexp p)) by (apply pow10_pos; lia). assert (Hp' : 0 < 10 ^ (dexp p + 36)) by (apply pow10_pos; lia).
      exists (Z.to_pos (dcoef p)), (Z.to_pos (10 ^ (- dexp p))). rewrite !Z2Pos.id by done. split_and!; [done| |nia|].
      + rewrite <- Z.mul_assoc, <- Z.pow_add_r by lia. do 2 f_equal. lia.
      + apply Z.pow_le_mono_r; lia. }
  destruct H as (n & d & -> & Hnd & Hn & Hd).
  pose proof (ndigits_bounds n) as [Hn1 _]. pose proof (ndigits_bounds d) as [Hd1 _].
  assert (N0 : 0 < ndigits n) by done. assert (D0 : 0 < ndigits d) by done.
  assert (N1 : ndigits n - 1 < 333).
  { apply (Z.pow_lt_mono_r_iff 2); [lia..|]. apply (Z.le_lt_trans _ (Zpos n)); [done|]. apply (Z.lt_trans _ (10 ^ 100)); [done|by vm_compute]. }
  assert (D1 : ndigits d - 1 < 120).
  { apply (Z.pow_lt_mono_r_iff 2); [lia..|]. apply (Z.le_lt_trans _ (Zpos d)); [done|]. apply (Z.le_lt_trans _ (10 ^ 36)); [done|by vm_compute]. }
  destruct (ratio_close n d ltac:(lia)) as [Hp Hclose]. split; [exact Hp|].
  set (V := fval _) in *. apply (Z.mul_le_mono_pos_l _ _ (Zpos d)); [done|].
  replace (Zpos d * (Z.abs (10 ^ 36 * V - dunits p * fscale) * 2 ^ 52))
    with (10 ^ 36 * (Z.abs (Zpos d * V - Zpos n * fscale) * 2 ^ 52)).
  - replace (Zpos d * (dunits p * fscale)) with (10 ^ 36 * (Zpos n * fscale)) by (transitivity (Zpos n * 10 ^ 36 * fscale); [ring|rewrite Hnd; ring]).
    apply Z.mul_le_mono_nonneg_l; [lia|exact Hclose].
  - rewrite !Z.mul_assoc. f_equal. rewrite <- (Z.abs_eq (10 ^ 36)) at 1 by lia. rewrite <- (Z.abs_eq (Zpos d)) at 2 by lia.
    rewrite <- !Z.abs_mul. f_equal. rewrite !Z.mul_sub_distr_l.
    replace (Zpos d * (dunits p * fscale)) with (dunits p * Zpos d * fscale) by ring. rewrite <- Hnd. ring.
Qed.

(** Decimals on one grid of 15 digits keep their order, strictly. *)
Lemma grid_order a b g : 0 < dcoef a -> 0 < dcoef b -> on_grid a -> on_grid b -> dunits b < 10 ^ 100 ->
  0 < g -> dunits a + g <= dunits b -> dunits b <= 10 ^ 15 * g -> f_ltb (f_of_dec a) (f_of_dec b) = true.
Proof.
  intros Ha Hb Ga Gb Hu Hg Hab Hmax.
  destruct (f_of_dec_close a Ha Ga ltac:(lia)) as [Pa Ca]. destruct (f_of_dec_close b Hb Gb Hu) as [Pb Cb].
  apply fval_lt; [done..|]. assert (HW : 0 < fscale) by (apply Z.pow_pos_nonneg; lia).
  assert (H1 : dunits a * fscale + g * fscale <= dunits b * fscale) by nia.
  assert (H2 : dunits b * fscale <= 10 ^ 15 * (g * fscale)) by nia.
  assert (H3 : 0 < g * fscale) by nia.
  set (A := dunits a * fscale) in *. set (B := dunits b * fscale) in *. set (G := g * fscale) in *. lia.
Qed.
Lemma grid_inj a b g : 0 < dcoef a -> 0 < dcoef b -> on_grid a -> on_grid b -> dunits a < 10 ^ 100 -> dunits b < 10 ^ 100 ->
  0 < g -> (g | dunits a) -> (g | dunits b) -> dunits a <= 10 ^ 15 * g -> dunits b <= 10 ^ 15 * g ->
  f_eqb (f_of_dec a) (f_of_dec b) = true -> dunits a = dunits b.
Proof.
  intros Ha Hb Ga Gb Ua Ub Hg [i Di] [j Dj] Ma Mb He. pose proof (f_eqb_ltb _ _ He) as H1. rewrite f_eqb_sym in He.
  pose proof (f_eqb_ltb _ _ He) as H2. destruct (Z.lt_trichotomy i j) as [H|[->|H]]; [|congruence|]; exfalso.
  - rewrite (grid_order a b g) in H1; try done. nia.
  - rewrite (grid_order b a g) in H2; try done. nia.
Qed.

(** ** The shortest text of the double *)

(** The lower of the two neighbours the search looks at, against the value. *)
Lemma search_bounds n d V x : 0 < d -> V * d = n * fscale -> -36 <= x ->
  let num := if x >=? 0 then n else n * 10 ^ (- x) in
  let den := if x >=? 0 then d * 10 ^ x else d in
  let lo := num / den in
  lo * 10 ^ (x + 36) * fscale <= 10 ^ 36 * V < (lo + 1) * 10 ^ (x + 36) * fscale.
Proof.
  intros Hd HV Hx num den lo. assert (HW : 0 < fscale) by (apply Z.pow_pos_nonneg; lia).
  assert (H : exists k j, 0 < k /\ 0 < j /\ den * k = d * j * 10 ^ (x + 36) /\ num * k = n * j * 10 ^ 36).
  { subst num den. rewrite Z.geb_leb. destruct (Z.leb_spec 0 x).
    - exists (10 ^ 36), 1. split_and!; [done|done|rewrite Z.pow_add_r by lia; ring|ring].
    - assert (0 < 10 ^ (x + 36)) by (apply pow10_pos; lia).
      exists (10 ^ (x + 36)), 1. split_and!; [done|done|ring|].
      rewrite Z.mul_1_r, <- Z.mul_assoc, <- Z.pow_add_r by lia. do 2 f_equal. lia. }
  destruct H as (k & j & Hk & Hj & Hden & Hnum).
  assert (Hden0 : 0 < den) by (subst den; destruct (x >=? 0) eqn:Ex; [apply Z.mul_pos_pos; [done|apply pow10_pos; lia]|done]).
  pose proof (Z.mul_div_le num den Hden0) as Hlo. pose proof (Z.mul_succ_div_gt num den Hden0) as Hhi. fold lo in Hlo, Hhi.
  assert (Hscale : forall c, (c * 10 ^ (x + 36) * fscale) * (d * j) = c * den * k * fscale).
  { intros c. transitivity (c * (den * k) * fscale); [rewrite Hden|]; ring. }
  assert (HvS : (10 ^ 36 * V) * (d * j) = num * k * fscale) by (rewrite Hnum; transitivity (10 ^ 36 * (V * d) * j); [ring|rewrite HV; ring]).
  assert (Hdj : 0 < d * j) by (by apply Z.mul_pos_pos). assert (Hkw : 0 < k * fscale) by nia. split.
  - apply (Z.mul_le_mono_pos_r _ _ (d * j)); [done|]. rewrite Hscale, HvS.
    replace (lo * den * k * fscale) with (lo * den * (k * fscale)) by ring.
    replace (num * k * fscale) with (num * (k * fscale)) by ring. apply Z.mul_le_mono_nonneg_r; lia.
  - apply (Z.mul_lt_mono_pos_r (d * j)); [done|]. rewrite Hscale, HvS.
    replace ((lo + 1) * den * k * fscale) with ((lo + 1) * den * (k * fscale)) by ring.
    replace (num * k * fscale) with (num * (k * fscale)) by ring. apply Z.mul_lt_mono_pos_r; lia.
Qed.

Lemma f_eqb_refl f : fpos f = true -> f_eqb f f = true.
Proof.
  destruct f as [| | |[] m e]; try done. intros _. unfold f_eqb, SFeqb, SFcompare. by rewrite Z.compare_refl, Pos.compare_cont_refl.
Qed.

Section Search.
Context (c x n d a : Z).
Let p := Dec c x.
Let V := fval (f_of_dec p).
Hypothesis (Hc : 2 <= c < 10 ^ 15) (Hx : -36 <= x <= 40) (Hd : 0 < d) (HV : V * d = n * fscale).
Hypothesis (Ha : x <= a <= x + 14) (Hva : 10 ^ (a + 36) * fscale <= 10 ^ 36 * V < 10 ^ (a + 37) * fscale).

(** What a neighbour that converts to the double is worth. *)
Lemma candidate c' k : 1 <= k <= a + 1 - x -> 0 < c' <= 10 ^ k -> f_eqb (f_of_dec (Dec c' (a + 1 - k))) (f_of_dec p) = true ->
  dunits (Dec c' (a + 1 - k)) = dunits p.
Proof.
  intros Hk Hc' He. assert (Hg : 0 < 10 ^ (x + 36)) by (apply pow10_pos; lia).
  assert (E : 10 ^ (a + 1 - k + 36) = 10 ^ (a + 1 - k - x) * 10 ^ (x + 36)) by (rewrite <- Z.pow_add_r by lia; f_equal; lia).
  assert (Hj : 0 < 10 ^ (a + 1 - k - x)) by (apply pow10_pos; lia).
  assert (Hmax : c' * 10 ^ (a + 1 - k - x) <= 10 ^ 15).
  { transitivity (10 ^ k * 10 ^ (a + 1 - k - x)); [nia|]. rewrite <- Z.pow_add_r by lia. apply Z.pow_le_mono_r; lia. }
  assert (Hbig : 10 ^ 15 * 10 ^ (x + 36) < 10 ^ 100) by (rewrite <- Z.pow_add_r by lia; apply Z.pow_lt_mono_r; lia).
  apply (grid_inj _ _ (10 ^ (x + 36))); unfold p, dunits, on_grid; cbn [dcoef dexp]; try lia; try done.
  - rewrite E. nia.
  - nia.
  - rewrite E. exists (c' * 10 ^ (a + 1 - k - x)). ring.
  - by exists c.
  - rewrite E. nia.
  - nia.
Qed.

Lemma repr_search_grid fuel k : 1 <= k <= a + 1 - x -> a + 1 - x - k < Z.of_nat fuel ->
  let r := repr_search fuel k (f_of_dec p) n d a in x <= dexp r /\ dunits r = dunits p.
Proof.
  revert k. induction fuel as [|fuel IH]; intros k Hk Hf; [lia|]. cbn [repr_search]. cbn zeta.
  pose proof (search_bounds n d V (a + 1 - k) Hd HV ltac:(lia)) as Hb. cbn zeta in Hb.
  set (y := a + 1 - k) in *. set (num := if y >=? 0 then n else n * 10 ^ (- y)) in *.
  set (den := if y >=? 0 then d * 10 ^ y else d) in *. set (lo := num / den) in *.
  assert (HW : 0 < fscale) by (apply Z.pow_pos_nonneg; lia). assert (Hg : 0 < 10 ^ (y + 36)) by (apply pow10_pos; lia).
  set (g := 10 ^ (y + 36)) in *. set (Y := 10 ^ 36 * V) in *. assert (HgW : 0 < g * fscale) by nia.
  assert (Ek : 10 ^ (a + 37) = 10 ^ k * g) by (unfold g, y; rewrite <- Z.pow_add_r by lia; f_equal; lia).
  assert (El : 10 ^ (a + 36) = 10 ^ (k - 1) * g) by (unfold g, y; rewrite <- Z.pow_add_r by lia; f_equal; lia).
  assert (Hk1 : 1 <= 10 ^ (k - 1)) by (assert (0 < 10 ^ (k - 1)) by (apply pow10_pos; lia); lia).
  assert (Hlo : 1 <= lo < 10 ^ k).
  { rewrite Ek, El in Hva. split.
    - assert (H : 1 * (g * fscale) < (lo + 1) * (g * fscale)) by nia. apply Z.mul_lt_mono_pos_r in H; [lia|done].
    - assert (H : lo * (g * fscale) < 10 ^ k * (g * fscale)) by nia. by apply Z.mul_lt_mono_pos_r in H. }
  destruct (f_eqb (f_of_dec (Dec lo y)) (f_of_dec p)) eqn:E1, (f_eqb (f_of_dec (Dec (lo + 1) y)) (f_of_dec p)) eqn:E2;
    cbn [andb negb orb]; rewrite ?orb_true_r, ?orb_false_r.
  - destruct (2 * (num mod den) <=? den); (split; [cbn; lia|apply candidate; [lia|lia|done]]).
  - split; [cbn; lia|apply candidate; [lia|lia|done]].
  - split; [cbn; lia|apply candidate; [lia|lia|done]].
  - destruct (decide (y = x)) as [Ey|Hne]; [exfalso|apply IH; lia].
    assert (Hu : dunits p = c * g) by (unfold p, dunits, g; cbn [dcoef dexp]; by rewrite Ey).
    assert (Hbig : dunits p < 10 ^ 100).
    { rewrite Hu. apply (Z.lt_trans _ (10 ^ 15 * g)); [nia|]. unfold g. rewrite <- Z.pow_add_r by lia. apply Z.pow_lt_mono_r; lia. }
    destruct (f_of_dec_close p) as [Hfp Hcl]; [cbn; lia|unfold on_grid; cbn; lia|done|]. fold V Y in Hcl.
    rewrite Hu in Hcl. set (G := g * fscale) in *.
    replace (c * g * fscale) with (c * G) in Hcl by (unfold G; ring).
    replace (lo * g * fscale) with (lo * G) in Hb by (unfold G; ring).
    replace ((lo + 1) * g * fscale) with ((lo + 1) * G) in Hb by (unfold G; ring).
    assert (Hcg : c * G <= 10 ^ 15 * G) by nia.
    assert (Hlt : lo * G < (c + 1) * G) by lia. assert (Hgt : (c - 1) * G < (lo + 1) * G) by lia.
    apply Z.mul_lt_mono_pos_r in Hlt, Hgt; [|done..].
    assert (Hcase : lo = c \/ lo + 1 = c) by lia. pose proof (f_eqb_refl _ Hfp) as Hr. unfold p in Hr.
    destruct Hcase as [E|E]; [rewrite Ey, E in E1|rewrite Ey, E in E2]; unfold p in *; congruence.
Qed.
End Search.

(** A power of ten may convert to a double below it; the grid lemma needs two
    units.  These are checked one by one. *)
Lemma power_of_ten x : -35 <= x <= 40 ->
  exists r, dec_of_float (f_of_dec (Dec 1 x)) = Some r /\ x - 1 <= dexp r /\ dunits r = dunits (Dec 1 x).
Proof.
  intros Hx. set (ok := fun x => match dec_of_float (f_of_dec (Dec 1 x)) with
    | Some r => (x - 1 <=? dexp r) && (dunits r =? dunits (Dec 1 x)) | None => false end).
  assert (H : forallb ok (seqZ (-35) 76) = true) by (vm_compute; reflexivity).
  rewrite forallb_forall in H. specialize (H x). cbv beta in H.
  assert (Hin : List.In x (seqZ (-35) 76)) by (apply list_elem_of_In, elem_of_seqZ; lia). specialize (H Hin). unfold ok in H.
  destruct (dec_of_float (f_of_dec (Dec 1 x))) as [r|]; [|discriminate H]. apply andb_true_iff in H as [H1 H2].
  exists r. split; [reflexivity|]. split; [by apply Z.leb_le|by apply Z.eqb_eq].
Qed.

(** The exponent the search starts from. *)
Lemma search_exponent c x m e : let p := Dec c x in
  2 <= c < 10 ^ 15 -> -36 <= x <= 40 -> f_of_dec p = S754_finite false m e ->
  let n := if e >=? 0 then Zpos m * 2 ^ e else Zpos m in
  let d := if e >=? 0 then 1 else 2 ^ (- e) in
  let a := ndig10 (n * 10 ^ 400 / d) - 401 in
  0 < d /\ fval (f_of_dec p) * d = n * fscale /\ x <= a <= x + 14 /\
  10 ^ (a + 36) * fscale <= 10 ^ 36 * fval (f_of_dec p) < 10 ^ (a + 37) * fscale.
Proof.
  intros p Hc Hx E n d a. assert (Hg : 0 < 10 ^ (x + 36)) by (apply pow10_pos; lia).
  assert (HW : 0 < fscale) by (apply Z.pow_pos_nonneg; lia).
  assert (Hu : dunits p = c * 10 ^ (x + 36)) by done.
  assert (Hbig : dunits p < 10 ^ 100).
  { rewrite Hu. apply (Z.lt_trans _ (10 ^ 15 * 10 ^ (x + 36))); [nia|]. rewrite <- Z.pow_add_r by lia. apply Z.pow_lt_mono_r; lia. }
  destruct (f_of_dec_close p) as [Hfp Hcl]; [cbn; lia|unfold on_grid; cbn; lia|done|].
  assert (He : -1074 <= e).
  { rewrite E in Hfp. apply bounded_iff in Hfp as [Hf _]. rewrite fexp64_eq in Hf. lia. }
  assert (Hd : 0 < d) by (unfold d; destruct (e >=? 0) eqn:Ee; [done|apply Z.pow_pos_nonneg; lia]).
  assert (HV : fval (f_of_dec p) * d = n * fscale).
  { rewrite E. cbn [fval]. unfold n, d, fscale. rewrite Z.geb_leb. destruct (Z.leb_spec 0 e).
    - rewrite Z.pow_add_r by lia. ring.
    - rewrite <- Z.mul_assoc, <- Z.pow_add_r by lia. do 2 f_equal. lia. }
  split; [done|]. split; [done|]. set (V := fval (f_of_dec p)) in *. rewrite Hu in Hcl.
  set (G := 10 ^ (x + 36) * fscale). assert (HG : 0 < G) by (unfold G; nia).
  replace (c * 10 ^ (x + 36) * fscale) with (c * G) in Hcl by (unfold G; ring).
  assert (Hc1 : 2 * G <= c * G) by nia. assert (Hc2 : (c + 1) * G <= 10 ^ 15 * G) by nia.
  assert (HYlo : G <= 10 ^ 36 * V) by lia. assert (HYhi : 10 ^ 36 * V < 10 ^ 15 * G) by lia.
  assert (Hn : d <= n * 10 ^ 36).
  { apply (Z.mul_le_mono_pos_r _ _ fscale); [done|]. replace (n * 10 ^ 36 * fscale) with (10 ^ 36 * V * d) by (transitivity (V * d * 10 ^ 36); [ring|rewrite HV; ring]).
    assert (fscale <= G) by (unfold G; nia). nia. }
  assert (Hk : 0 < 10 ^ 364) by (apply pow10_pos; lia).
  assert (HP : 10 ^ 400 = 10 ^ 364 * 10 ^ 36) by (rewrite <- Z.pow_add_r by lia; f_equal).
  assert (HK : forall y, 0 <= y -> 10 ^ (364 + y) = 10 ^ 364 * 10 ^ y) by (intros y Hy; apply Z.pow_add_r; lia).
  assert (HP36 : 10 ^ 36 <= 10 ^ 400) by (apply Z.pow_le_mono_r; lia).
  unfold a. clear a. generalize dependent (10 ^ 364). generalize dependent (10 ^ 400). intros P HP36 K Hk HP HK.
  set (T := n * P / d) in *. set (a := ndig10 T - 401).
  pose proof (Z.mul_div_le (n * P) d Hd) as HT1. pose proof (Z.mul_succ_div_gt (n * P) d Hd) as HT2. fold T in HT1, HT2.
  assert (HT : 0 < T).
  { apply Z.div_str_pos. split; [done|]. transitivity (n * 10 ^ 36); [done|]. apply Z.mul_le_mono_nonneg_l; [nia|done]. }
  pose proof (ndig10_spec T HT) as [Hl Hh]. replace (ndig10 T - 1) with (a + 400) in Hl by (unfold a; lia).
  replace (ndig10 T) with (a + 401) in Hh by (unfold a; lia).
  assert (HPV : P * V * d = n * P * fscale) by (transitivity (P * (V * d)); [|rewrite HV]; ring).
  assert (Hlow : 10 ^ (a + 400) * fscale <= P * V).
  { apply (Z.mul_le_mono_pos_r _ _ d); [done|]. rewrite HPV. replace (10 ^ (a + 400) * fscale * d) with (d * 10 ^ (a + 400) * fscale) by ring.
    apply Z.mul_le_mono_nonneg_r; [lia|]. apply (Z.le_trans _ (d * T)); [apply Z.mul_le_mono_nonneg_l; lia|done]. }
  assert (Hhigh : P * V < 10 ^ (a + 401) * fscale).
  { apply (Z.mul_lt_mono_pos_r d); [done|]. rewrite HPV. replace (10 ^ (a + 401) * fscale * d) with (d * 10 ^ (a + 401) * fscale) by ring.
    apply Z.mul_lt_mono_pos_r; [done|]. apply (Z.lt_le_trans _ (d * Z.succ T)); [done|apply Z.mul_le_mono_nonneg_l; lia]. }
  assert (Ek : P * V = K * (10 ^ 36 * V)) by (rewrite HP; ring).
  assert (Hax : x <= a).
  { assert (H : 10 ^ (x + 400) < 10 ^ (a + 401)); [|apply Z.pow_lt_mono_r_iff in H; [lia|lia|]].
    - apply (Z.mul_lt_mono_pos_r fscale); [done|]. apply (Z.le_lt_trans _ (P * V)); [|done]. rewrite Ek.
      replace (x + 400) with (364 + (x + 36)) by lia. rewrite HK by lia.
      replace (K * 10 ^ (x + 36) * fscale) with (K * G) by (unfold G; ring). nia.
    - pose proof (ndig10_aux_nonneg (S (Z.to_nat (Z.log2 T))) T) as Hnn. unfold a, ndig10. lia. }
  assert (Hfin : 10 ^ (a + 36) * fscale <= 10 ^ 36 * V < 10 ^ (a + 37) * fscale).
  { rewrite Ek in Hlow, Hhigh. replace (a + 400) with (364 + (a + 36)) in Hlow by lia. replace (a + 401) with (364 + (a + 37)) in Hhigh by lia.
    rewrite HK in Hlow, Hhigh by lia. split; [apply (Z.mul_le_mono_pos_l _ _ K)|apply (Z.mul_lt_mono_pos_l K)]; lia. }
  split; [|exact Hfin]. split; [exact Hax|]. assert (H : 10 ^ (a + 36) < 10 ^ (x + 51)); [|apply Z.pow_lt_mono_r_iff in H; lia].
  apply (Z.mul_lt_mono_pos_r fscale); [done|]. apply (Z.le_lt_trans _ (10 ^ 36 * V)); [lia|].
  replace (x + 51) with (15 + (x + 36)) by lia. rewrite Z.pow_add_r by lia. unfold G in HYhi. lia.
Qed.

(** a decimal of at most 15 digits survives [Decimal(str(float(d)))]. *)
Theorem decimal_roundtrip c x : 0 < c < 10 ^ 15 -> -35 <= x <= 40 ->
  exists r, dec_of_float (f_of_dec (Dec c x)) = Some r /\ x - 1 <= dexp r /\ dunits r = dunits (Dec c x).
Proof.
  intros Hc Hx. destruct (decide (c = 1)) as [->|Hc1]; [by apply power_of_ten|].
  assert (Hf : fpos (f_of_dec (Dec c x)) = true).
  { apply f_of_dec_close; [cbn; lia|unfold on_grid; cbn; lia|]. unfold dunits. cbn [dcoef dexp].
    apply (Z.lt_trans _ (10 ^ 15 * 10 ^ (x + 36))); [assert (0 < 10 ^ (x + 36)) by (apply pow10_pos; lia); nia|].
    rewrite <- Z.pow_add_r by lia. apply Z.pow_lt_mono_r; lia. }
  destruct (f_of_dec (Dec c x)) as [| | |[] m e] eqn:E; try discriminate Hf.
  destruct (search_exponent c x m e ltac:(lia) ltac:(lia) E) as (Hd & HV & Ha & Hva). unfold dec_of_float.
  set (n := if e >=? 0 then Zpos m * 2 ^ e else Zpos m) in *. set (d := if e >=? 0 then 1 else 2 ^ (- e)) in *.
  set (a := ndig10 (n * 10 ^ 400 / d) - 401) in *.
  destruct (repr_search_grid c x n d a ltac:(lia) ltac:(lia) Hd HV Ha Hva 17 1) as [H1 H2]; [lia|lia|].
  rewrite E in H1, H2. eexists. split; [reflexivity|]. split; [cbn in *; lia|exact H2].
Qed.

(** Whole quantities. *)
Corollary whole_roundtrip z : 0 < z < 10 ^ 15 ->
  f_of_dec (dec_of_Z z) = f_of_Z z /\
  exists d, dec_of_float (f_of_Z z) = Some d /\ -1 <= dexp d /\ dunits d = z * 10 ^ 36.
Proof.
  intros Hz. assert (E : f_of_dec (dec_of_Z z) = f_of_Z z).
  { unfold dec_of_Z. rewrite f_of_dec_whole; [f_equal; lia|done|]. assert (10 ^ 15 < 2 ^ 53) by (by vm_compute). lia. }
  split; [done|]. rewrite <- E. destruct (decimal_roundtrip z 0 Hz ltac:(lia)) as (d & H1 & H2 & H3). by exists d.
Qed.
