(* ===== verification/Models.v ===== *)
(** * Domain model: enums, database rows, exceptions, JSON values

    Models app/models/ (enums.py, order.py, balance.py, trade.py,
    trading_pair.py), the exception classes of the services and the values
    that travel in JSON payloads and Redis hashes. *)

From Stdlib Require Import ZArith Lia Bool Ascii String SpecFloat DecimalString DecimalZ.
From stdpp Require Import base tactics option decidable strings list gmap.
From S2P Require Import Prelude Float64 PyDecimal.
#[local] Open Scope Z_scope.

(** ** enums.py *)

Inductive OrderSide := BUY | SELL.
Inductive OrderType :=
  MARKET | LIMIT | STOP_MARKET | STOP_LIMIT | POST_ONLY | IOC | FOK | TRAILING_STOP | ICEBERG.
Inductive OrderStatus :=
  PENDING | NEW | PARTIALLY_FILLED | FILLED | CANCELED | REJECTED | EXPIRED.

#[export] Instance OrderSide_eq_dec : EqDecision OrderSide.
Proof. solve_decision. Defined.
#[export] Instance OrderType_eq_dec : EqDecision OrderType.
Proof. solve_decision. Defined.
#[export] Instance OrderStatus_eq_dec : EqDecision OrderStatus.
Proof. solve_decision. Defined.

Definition OrderSide_value (s : OrderSide) : string :=
  match s with BUY => "buy" | SELL => "sell" end.
Definition OrderType_value (t : OrderType) : string :=
  match t with
  | MARKET => "market" | LIMIT => "limit" | STOP_MARKET => "stop_market"
  | STOP_LIMIT => "stop_limit" | POST_ONLY => "post_only" | IOC => "ioc"
  | FOK => "fok" | TRAILING_STOP => "trailing_stop" | ICEBERG => "iceberg"
  end.
Definition OrderStatus_value (s : OrderStatus) : string :=
  match s with
  | PENDING => "pending" | NEW => "new" | PARTIALLY_FILLED => "partially_filled"
  | FILLED => "filled" | CANCELED => "canceled" | REJECTED => "rejected"
  | EXPIRED => "expired"
  end.

Definition all_sides := [BUY; SELL].
Definition all_types :=
  [MARKET; LIMIT; STOP_MARKET; STOP_LIMIT; POST_ONLY; IOC; FOK; TRAILING_STOP; ICEBERG].

(** [OrderSide(s)], [OrderType(s)]: [None] where Python raises ValueError. *)
Definition OrderSide_of (s : string) : option OrderSide :=
  snd <$> list_find (fun x => OrderSide_value x = s) all_sides.
Definition OrderType_of (s : string) : option OrderType :=
  snd <$> list_find (fun x => OrderType_value x = s) all_types.

Lemma OrderSide_of_value x : OrderSide_of (OrderSide_value x) = Some x.
Proof. by destruct x. Qed.
Lemma OrderType_of_value x : OrderType_of (OrderType_value x) = Some x.
Proof. by destruct x. Qed.

Lemma OrderSide_of_inv s x : OrderSide_of s = Some x -> s = OrderSide_value x.
Proof.
  unfold OrderSide_of. destruct (list_find _ _) as [[i y]|] eqn:E; [|done]. intros [= <-].
  apply list_find_Some in E as (_ & H & _). by symmetry.
Qed.
Lemma OrderType_of_inv s x : OrderType_of s = Some x -> s = OrderType_value x.
Proof.
  unfold OrderType_of. destruct (list_find _ _) as [[i y]|] eqn:E; [|done]. intros [= <-].
  apply list_find_Some in E as (_ & H & _). by symmetry.
Qed.

(** [s.lower()] of UTF-8 text, as far as ASCII can tell: the ASCII letters, and
    the Kelvin sign, the one other letter whose lower case is ASCII. *)
Definition lower_char (c : ascii) : ascii :=
  let n := nat_of_ascii c in if ((65 <=? n) && (n <=? 90))%nat then ascii_of_nat (n + 32) else c.
Definition is_kelvin (a b c : ascii) : bool :=
  ((nat_of_ascii a =? 226) && (nat_of_ascii b =? 132) && (nat_of_ascii c =? 170))%nat.
Fixpoint lower (s : string) : string :=
  match s with
  | "" => ""
  | String a s =>
      match s with
      | String b (String c s') => if is_kelvin a b c then String "k" (lower s') else String (lower_char a) (lower s)
      | _ => String (lower_char a) (lower s)
      end
  end.

Lemma lower_side x : lower (OrderSide_value x) = OrderSide_value x.
Proof. by destruct x. Qed.
Lemma lower_type x : lower (OrderType_value x) = OrderType_value x.
Proof. by destruct x. Qed.

(** ** Database rows *)

Record Order := MkOrder {
  o_id : Z;
  o_user_id : Z;
  o_symbol : string;
  o_side : OrderSide;
  o_type : OrderType;
  o_status : OrderStatus;
  o_price : option decimal;
  o_stop_price : option decimal;
  o_trailing_delta : option decimal;
  o_quantity : decimal;
  o_filled_quantity : decimal;
  o_filled_quote_qty : decimal;
  o_visible_quantity : option decimal;
  o_hidden_quantity : option decimal;
  o_replace_count : Z;
  o_replaces_id : option Z;
  o_replaced_by_id : option Z;
  o_parent_order_id : option Z;
  o_sl_order_id : option Z;
  o_tp_order_id : option Z;
  o_bulk_id : option string;
  o_version : Z
}.

(** Attribute assignments of the ORM object. *)
Definition set_o_status (v : OrderStatus) (o : Order) : Order :=
  {| o_id := o_id o;
     o_user_id := o_user_id o;
     o_symbol := o_symbol o;
     o_side := o_side o;
     o_type := o_type o;
     o_status := v;
     o_price := o_price o;
     o_stop_price := o_stop_price o;
     o_trailing_delta := o_trailing_delta o;
     o_quantity := o_quantity o;
     o_filled_quantity := o_filled_quantity o;
     o_filled_quote_qty := o_filled_quote_qty o;
     o_visible_quantity := o_visible_quantity o;
     o_hidden_quantity := o_hidden_quantity o;
     o_replace_count := o_replace_count o;
     o_replaces_id := o_replaces_id o;
     o_replaced_by_id := o_replaced_by_id o;
     o_parent_order_id := o_parent_order_id o;
     o_sl_order_id := o_sl_order_id o;
     o_tp_order_id := o_tp_order_id o;
     o_bulk_id := o_bulk_id o;
     o_version := o_version o |}.
Definition set_o_version (v : Z) (o : Order) : Order :=
  {| o_id := o_id o;
     o_user_id := o_user_id o;
     o_symbol := o_symbol o;
     o_side := o_side o;
     o_type := o_type o;
     o_status := o_status o;
     o_price := o_price o;
     o_stop_price := o_stop_price o;
     o_trailing_delta := o_trailing_delta o;
     o_quantity := o_quantity o;
     o_filled_quantity := o_filled_quantity o;
     o_filled_quote_qty := o_filled_quote_qty o;
     o_visible_quantity := o_visible_quantity o;
     o_hidden_quantity := o_hidden_quantity o;
     o_replace_count := o_replace_count o;
     o_replaces_id := o_replaces_id o;
     o_replaced_by_id := o_replaced_by_id o;
     o_parent_order_id := o_parent_order_id o;
     o_sl_order_id := o_sl_order_id o;
     o_tp_order_id := o_tp_order_id o;
     o_bulk_id := o_bulk_id o;
     o_version := v |}.
Definition set_o_filled_quantity (v : decimal) (o : Order) : Order :=
  {| o_id := o_id o;
     o_user_id := o_user_id o;
     o_symbol := o_symbol o;
     o_side := o_side o;
     o_type := o_type o;
     o_status := o_status o;
     o_price := o_price o;
     o_stop_price := o_stop_price o;
     o_trailing_delta := o_trailing_delta o;
     o_quantity := o_quantity o;
     o_filled_quantity := v;
     o_filled_quote_qty := o_filled_quote_qty o;
     o_visible_quantity := o_visible_quantity o;
     o_hidden_quantity := o_hidden_quantity o;
     o_replace_count := o_replace_count o;
     o_replaces_id := o_replaces_id o;
     o_replaced_by_id := o_replaced_by_id o;
     o_parent_order_id := o_parent_order_id o;
     o_sl_order_id := o_sl_order_id o;
     o_tp_order_id := o_tp_order_id o;
     o_bulk_id := o_bulk_id o;
     o_version := o_version o |}.
Definition set_o_filled_quote_qty (v : decimal) (o : Order) : Order :=
  {| o_id := o_id o;
     o_user_id := o_user_id o;
     o_symbol := o_symbol o;
     o_side := o_side o;
     o_type := o_type o;
     o_status := o_status o;
     o_price := o_price o;
     o_stop_price := o_stop_price o;
     o_trailing_delta := o_trailing_delta o;
     o_quantity := o_quantity o;
     o_filled_quantity := o_filled_quantity o;
     o_filled_quote_qty := v;
     o_visible_quantity := o_visible_quantity o;
     o_hidden_quantity := o_hidden_quantity o;
     o_replace_count := o_replace_count o;
     o_replaces_id := o_replaces_id o;
     o_replaced_by_id := o_replaced_by_id o;
     o_parent_order_id := o_parent_order_id o;
     o_sl_order_id := o_sl_order_id o;
     o_tp_order_id := o_tp_order_id o;
     o_bulk_id := o_bulk_id o;
     o_version := o_version o |}.
Definition set_o_replaced_by_id (v : option Z) (o : Order) : Order :=
  {| o_id := o_id o;
     o_user_id := o_user_id o;
     o_symbol := o_symbol o;
     o_side := o_side o;
     o_type := o_type o;
     o_status := o_status o;
     o_price := o_price o;
     o_stop_price := o_stop_price o;
     o_trailing_delta := o_trailing_delta o;
     o_quantity := o_quantity o;
     o_filled_quantity := o_filled_quantity o;
     o_filled_quote_qty := o_filled_quote_qty o;
     o_visible_quantity := o_visible_quantity o;
     o_hidden_quantity := o_hidden_quantity o;
     o_replace_count := o_replace_count o;
     o_replaces_id := o_replaces_id o;
     o_replaced_by_id := v;
     o_parent_order_id := o_parent_order_id o;
     o_sl_order_id := o_sl_order_id o;
     o_tp_order_id := o_tp_order_id o;
     o_bulk_id := o_bulk_id o;
     o_version := o_version o |}.
Definition set_o_sl_order_id (v : option Z) (o : Order) : Order :=
  {| o_id := o_id o;
     o_user_id := o_user_id o;
     o_symbol := o_symbol o;
     o_side := o_side o;
     o_type := o_type o;
     o_status := o_status o;
     o_price := o_price o;
     o_stop_price := o_stop_price o;
     o_trailing_delta := o_trailing_delta o;
     o_quantity := o_quantity o;
     o_filled_quantity := o_filled_quantity o;
     o_filled_quote_qty := o_filled_quote_qty o;
     o_visible_quantity := o_visible_quantity o;
     o_hidden_quantity := o_hidden_quantity o;
     o_replace_count := o_replace_count o;
     o_replaces_id := o_replaces_id o;
     o_replaced_by_id := o_replaced_by_id o;
     o_parent_order_id := o_parent_order_id o;
     o_sl_order_id := v;
     o_tp_order_id := o_tp_order_id o;
     o_bulk_id := o_bulk_id o;
     o_version := o_version o |}.
Definition set_o_tp_order_id (v : option Z) (o : Order) : Order :=
  {| o_id := o_id o;
     o_user_id := o_user_id o;
     o_symbol := o_symbol o;
     o_side := o_side o;
     o_type := o_type o;
     o_status := o_status o;
     o_price := o_price o;
     o_stop_price := o_stop_price o;
     o_trailing_delta := o_trailing_delta o;
     o_quantity := o_quantity o;
     o_filled_quantity := o_filled_quantity o;
     o_filled_quote_qty := o_filled_quote_qty o;
     o_visible_quantity := o_visible_quantity o;
     o_hidden_quantity := o_hidden_quantity o;
     o_replace_count := o_replace_count o;
     o_replaces_id := o_replaces_id o;
     o_replaced_by_id := o_replaced_by_id o;
     o_parent_order_id := o_parent_order_id o;
     o_sl_order_id := o_sl_order_id o;
     o_tp_order_id := v;
     o_bulk_id := o_bulk_id o;
     o_version := o_version o |}.

(** The derived properties of order.py. *)
Definition remaining_quantity (o : Order) : decimal :=
  dec_sub (o_quantity o) (o_filled_quantity o).
(** [None] inside is the Python None; the outer option is a raised error. *)
Definition avg_fill_price (o : Order) : option decimal :=
  if dec_eqb (o_filled_quantity o) dec_zero then None
  else dec_div (o_filled_quote_qty o) (o_filled_quantity o).
Definition is_iceberg (o : Order) : bool := bool_decide (o_type o = ICEBERG).
Definition is_stop_type (o : Order) : bool :=
  match o_type o with STOP_MARKET | STOP_LIMIT | TRAILING_STOP => true | _ => false end.
Definition is_active (o : Order) : bool :=
  match o_status o with NEW | PARTIALLY_FILLED | PENDING => true | _ => false end.

Record Balance := MkBalance {
  b_user_id : Z;
  b_asset : string;
  total_balance : decimal;
  locked_balance : decimal;
  available_balance : decimal;
  b_version : Z
}.

Record TradingPair := MkPair {
  p_symbol : string;
  base_asset : string;
  quote_asset : string;
  min_lot_size : decimal;
  max_lot_size : decimal;
  tick_size : decimal;
  p_is_active : bool;
  p_id : Z
}.

Record Trade := MkTrade {
  t_taker_order_id : Z;
  t_maker_order_id : Z;
  t_symbol : string;
  t_price : decimal;
  t_quantity : decimal;
  t_quote_quantity : decimal;
  t_side : OrderSide;
  t_taker_user_id : Z;
  t_maker_user_id : Z
}.
Definition set_t_maker_user_id (v : Z) (t : Trade) : Trade :=
  {| t_taker_order_id := t_taker_order_id t; t_maker_order_id := t_maker_order_id t;
     t_symbol := t_symbol t; t_price := t_price t; t_quantity := t_quantity t;
     t_quote_quantity := t_quote_quantity t; t_side := t_side t;
     t_taker_user_id := t_taker_user_id t; t_maker_user_id := v |}.

(** ** Exceptions (messages carry the data the code formats into them) *)

Inductive exn :=
  | ValueError (msg : string)
  | TypeError (msg : string)
  | RuntimeError (msg : string)
  | AssertionError
  | KeyError (key : string)
  | InvalidOperation
  | MemoryError
  | DBError                                   (* a statement PostgreSQL refuses *)
  | InsufficientBalanceError (user_id : Z) (asset : string) (needed available : decimal)
  | BalanceVersionConflict (user_id : Z) (asset : string) (retries : Z)
  | OrderValidationError (msg : string)
  | OrderNotFoundError (order_id user_id : Z)
  | OrderNotCancelableError (order_id : Z) (status : OrderStatus)
  | CannotModifyType (order_id : Z) (type : OrderType)
  (* core/exceptions.py *)
  | AppError (status_code : Z) (code : string)
  | AuthenticationError (msg : string)
  | InvalidSignatureError
  | ExpiredTimestampError
  | MissingApiKeyError
  | RevokedApiKeyError
  | InsufficientPermissionsError (perm : string)
  | RateLimitExceededError (limit current retry_after : Z).

(** ** Texts and JSON *)

(** Characters: ASCII digits and white space. *)
Definition is_digit (c : ascii) : bool := let n := nat_of_ascii c in ((48 <=? n) && (n <=? 57))%nat.
Definition is_space (c : ascii) : bool :=
  let n := nat_of_ascii c in ((9 <=? n) && (n <=? 13) || (28 <=? n) && (n <=? 32))%nat.
Fixpoint drop_spaces (l : list ascii) : list ascii :=
  match l with c :: l' => if is_space c then drop_spaces l' else l | [] => [] end.
Definition strip_list (l : list ascii) : list ascii := reverse (drop_spaces (reverse (drop_spaces l))).
(** [str.strip]. *)
Definition strip (s : string) : string := String.string_of_list_ascii (strip_list (String.list_ascii_of_string s)).

(** [str(n)]. *)
Definition str_of_Z (z : Z) : string := NilZero.string_of_int (Z.to_int z).
(** The digits of an integer literal, single underscores between them dropped;
    [after]: the previous character was a digit. *)
Fixpoint literal_digits (after : bool) (l : list ascii) : option (list ascii) :=
  match l with
  | [] => if after then Some [] else None
  | c :: l =>
      if is_digit c then cons c <$> literal_digits true l
      else if (c =? "_")%char && after then literal_digits false l
      else None
  end.
(** [int(s)]: white space around, a sign, digits. *)
Definition int_of_str (s : string) : option Z :=
  let read (sign : list ascii) (l : list ascii) :=
    ds ← literal_digits false l;
    Z.of_int <$> NilZero.int_of_string (String.string_of_list_ascii (sign ++ ds)) in
  match strip_list (String.list_ascii_of_string s) with
  | c :: l => if (c =? "-")%char then read [c] l else if (c =? "+")%char then read [] l else read [] (c :: l)
  | [] => None
  end.

(** A value of a Redis hash.  Redis stores texts; the text [str(d)] of a
    Decimal or [str(f)] of a float is represented by the number it prints,
    which [float(...)] reads back. *)
Inductive hval := HText (s : string) | HDecimal (d : decimal) | HDouble (f : float64).

#[export] Instance float64_eq_dec : EqDecision float64.
Proof. solve_decision. Defined.
#[export] Instance hval_eq_dec : EqDecision hval.
Proof. solve_decision. Defined.

Definition htext_int (z : Z) : hval := HText (str_of_Z z).
Definition hval_truthy (v : hval) : bool :=
  match v with HText "" => false | _ => true end.
(** [float(v)]; the texts the code stores in numeric fields are integers, the
    empty text or ["None"]. *)
Definition hval_float (v : hval) : option float64 :=
  match v with
  | HText s => f_of_Z <$> int_of_str s
  | HDecimal d => Some (f_of_dec d)
  | HDouble f => Some f
  end.
Definition hval_int (v : hval) : option Z :=
  match v with HText s => int_of_str s | _ => None end.

(** JSON values; the text of [json.dumps] is represented by the value. *)
Inductive jval :=
  | JNull
  | JBool (b : bool)
  | JInt (z : Z)
  | JFloat (f : float64)
  | JStr (s : string)
  | JList (l : list jval)
  | JObj (fields : list (string * jval)).

Definition jfield (k : string) (v : jval) : option jval :=
  match v with
  | JObj fs => snd <$> (snd <$> list_find (fun kv => kv.1 = k) fs)
  | _ => None
  end.
Definition jopt {A} (k : string) (f : A -> jval) (o : option A) : list (string * jval) :=
  match o with Some a => [(k, f a)] | None => [] end.

(** The text of an integer: an optional minus and digits, which [int] reads
    as they are. *)
Lemma digits_of_uint d : Forall (fun c => is_digit c = true) (String.list_ascii_of_string (NilEmpty.string_of_uint d)).
Proof. induction d; cbn; by constructor. Qed.
Lemma literal_digits_id after l : Forall (fun c => is_digit c = true) l -> after = true \/ l <> [] ->
  literal_digits after l = Some l.
Proof.
  intros H. revert after. induction H as [|c l Hc H IH]; intros after Ha; cbn [literal_digits].
  - by destruct Ha as [->|[]].
  - by rewrite Hc, IH by (by left).
Qed.
Lemma strip_list_id l : Forall (fun c => is_space c = false) l -> strip_list l = l.
Proof.
  intros H. assert (Hd : forall l, Forall (fun c => is_space c = false) l -> drop_spaces l = l).
  { intros l' H'. destruct H' as [|c l' Hc _]; cbn; [done|]. by rewrite Hc. }
  unfold strip_list. rewrite (Hd l) by done. rewrite Hd by by rewrite Forall_reverse. apply reverse_involutive.
Qed.
Lemma digit_facts c : is_digit c = true -> is_space c = false /\ (c =? "-")%char = false /\ (c =? "+")%char = false.
Proof. destruct c as [[] [] [] [] [] [] [] []]; by vm_compute. Qed.

Lemma int_of_str_of_Z z : int_of_str (str_of_Z z) = Some z.
Proof.
  assert (Hne : forall p, Pos.to_uint p <> Decimal.Nil) by apply DecimalPos.Unsigned.to_uint_nonnil.
  assert (Hread : Z.of_int <$> NilZero.int_of_string (str_of_Z z) = Some z).
  { unfold str_of_Z. rewrite NilZero.isi.
    - change (Z.of_int <$> Some (Z.to_int z)) with (Some (Z.of_int (Z.to_int z))). by rewrite DecimalZ.of_to.
    - destruct z as [|p|p]; try done. intros [= E]. by apply (Hne p).
    - destruct z as [|p|p]; try done. intros [= E]. by apply (Hne p). }
  assert (Hu : forall d, exists c l, String.list_ascii_of_string (NilZero.string_of_uint d) = c :: l /\
                 Forall (fun c => is_digit c = true) (c :: l)).
  { intros d. destruct d; cbn; (eexists _, _; split; [reflexivity|]); constructor; (done || apply digits_of_uint || constructor). }
  assert (Hsp : forall l, Forall (fun c => is_digit c = true) l -> Forall (fun c => is_space c = false) l).
  { intros l Hl. eapply Forall_impl; [exact Hl|]. intros c Hc. by apply digit_facts. }
  unfold int_of_str. revert Hread. unfold str_of_Z. destruct (Z.to_int z) as [d|d];
    cbn [NilZero.string_of_int String.list_ascii_of_string].
  - destruct (Hu d) as (c & l & E & Hl). rewrite E, strip_list_id by by apply Hsp.
    inversion_clear Hl as [|? ? Hc Hl']. destruct (digit_facts c Hc) as (_ & -> & ->).
    rewrite literal_digits_id by (by constructor || right). intros H.
    cbn [mbind option_bind app]. by rewrite <- E, String.string_of_list_ascii_of_string.
  - destruct (Hu d) as (c & l & E & Hl). rewrite E, strip_list_id by (constructor; [done|by apply Hsp]).
    rewrite Ascii.eqb_refl, literal_digits_id by (done || by right). intros H.
    cbn [mbind option_bind app].
    change (String.string_of_list_ascii ("-"%char :: c :: l)) with (String "-" (String.string_of_list_ascii (c :: l))).
    by rewrite <- E, String.string_of_list_ascii_of_string.
Qed.

#[export] Instance str_of_Z_inj : Inj (=) (=) str_of_Z.
Proof.
  intros x y H. apply (f_equal int_of_str) in H. rewrite !int_of_str_of_Z in H. by simplify_eq.
Qed.
