(* ===== verification/Engine.v ===== *)
(** * The matching engine: app/matching/engine.pyx (with _constants.py)

    [CMatchingEngine] as a state machine over C values: every [double] is a
    [float64], an [int] a [Z], the linked list of a price level the list of its
    nodes from head to tail (the pool addresses are not modelled, its size is).
    Levels are the first [size] slots of the array.  The Fixpoints are the
    loops; [match_level] takes fuel, which [match_level_fuel] provides and
    EngineMatch proves sufficient for every input. *)

From Stdlib Require Import ZArith Lia Bool SpecFloat.
From stdpp Require Import base tactics option list strings.
From S2P Require Import Prelude Float64 PyDecimal Models.
#[local] Open Scope Z_scope.

(** ** Constants *)

Definition C_BUY : Z := 0.
Definition C_SELL : Z := 1.

Definition C_MARKET : Z := 0.
Definition C_LIMIT : Z := 1.
Definition C_IOC : Z := 2.
Definition C_FOK : Z := 3.
Definition C_POST_ONLY : Z := 4.

Definition C_OK : Z := 0.
Definition C_FOK_REJECTED : Z := 1.
Definition C_POST_ONLY_CROSS : Z := 2.
Definition C_NO_LIQUIDITY : Z := 3.

Definition INITIAL_NODE_POOL_CAP : Z := 100000.
Definition INITIAL_TRADES_CAP : Z := 1024.
Definition INITIAL_LEVELS_CAP : Z := 1024.
Definition GROWTH_FACTOR : Z := 2.

(** ** Structures *)

Record OrderNode := MkNode {
  n_order_id : Z;
  n_remaining : float64;
  n_visible : float64;
  n_iceberg : bool
}.

Record PriceLevel := MkLevel {
  lvl_price : float64;
  lvl_orders : list OrderNode;
  lvl_volume : float64;
  lvl_count : Z
}.

Record OrderBookSide := MkSide {
  levels : list PriceLevel;
  capacity : Z;
  is_descending : bool
}.
Definition size (s : OrderBookSide) : Z := Z.of_nat (length (levels s)).
Definition set_levels (ls : list PriceLevel) (s : OrderBookSide) : OrderBookSide :=
  {| levels := ls; capacity := capacity s; is_descending := is_descending s |}.

Record COrder := MkCOrder {
  c_order_id : Z;
  c_side : Z;
  c_type : Z;
  c_price : float64;
  c_quantity : float64;
  c_remaining : float64;
  c_iceberg : bool;
  c_visible : float64;
  c_hidden : float64
}.

Record TradeResult := MkTradeResult {
  tr_taker : Z;
  tr_maker : Z;
  tr_price : float64;
  tr_quantity : float64;
  tr_side : Z
}.

Record CMatchingEngine := MkEngine {
  bids : OrderBookSide;
  asks : OrderBookSide;
  node_pool_size : Z;
  node_pool_cap : Z;
  trades_buf : list TradeResult;
  trades_cap : Z
}.

(** [__cinit__] *)
Definition new_engine : CMatchingEngine :=
  {| bids := MkSide [] INITIAL_LEVELS_CAP true;
     asks := MkSide [] INITIAL_LEVELS_CAP false;
     node_pool_size := 0; node_pool_cap := INITIAL_NODE_POOL_CAP;
     trades_buf := []; trades_cap := INITIAL_TRADES_CAP |}.

Definition reset (e : CMatchingEngine) : CMatchingEngine :=
  {| bids := set_levels [] (bids e); asks := set_levels [] (asks e);
     node_pool_size := 0; node_pool_cap := node_pool_cap e;
     trades_buf := []; trades_cap := trades_cap e |}.

Definition book_side (e : CMatchingEngine) (side : Z) : OrderBookSide :=
  if side =? C_BUY then bids e else asks e.
Definition opposite (e : CMatchingEngine) (side : Z) : OrderBookSide :=
  if side =? C_BUY then asks e else bids e.
Definition set_book_side (e : CMatchingEngine) (side : Z) (s : OrderBookSide) : CMatchingEngine :=
  {| bids := if side =? C_BUY then s else bids e;
     asks := if side =? C_BUY then asks e else s;
     node_pool_size := node_pool_size e; node_pool_cap := node_pool_cap e;
     trades_buf := trades_buf e; trades_cap := trades_cap e |}.

(** ** Price level management *)

(** The binary search of [_find_level_idx] on [lo..hi]. *)
Fixpoint find_loop (fuel : nat) (s : OrderBookSide) (price : float64) (lo hi : Z) : Z :=
  match fuel with
  | O => -1
  | S fuel =>
      if lo <=? hi then
        let mid := Z.quot (lo + hi) 2 in
        match levels s !! Z.to_nat mid with
        | None => -1
        | Some lvl =>
            let mid_price := lvl_price lvl in
            if f_eqb mid_price price then mid
            else if (is_descending s && f_ltb price mid_price)
                    || (negb (is_descending s) && f_ltb mid_price price)
            then find_loop fuel s price (mid + 1) hi
            else find_loop fuel s price lo (mid - 1)
        end
      else -1
  end.
Definition find_level_idx (s : OrderBookSide) (price : float64) : Z :=
  find_loop (S (length (levels s))) s price 0 (size s - 1).

(** The first index whose level must come after [price]. *)
Fixpoint insert_pos (desc : bool) (ls : list PriceLevel) (price : float64) : nat :=
  match ls with
  | [] => O
  | l :: ls =>
      if (desc && f_ltb (lvl_price l) price) || (negb desc && f_ltb price (lvl_price l))
      then O else S (insert_pos desc ls price)
  end.

Definition insert_level (s : OrderBookSide) (price : float64) : OrderBookSide * nat :=
  let cap := if size s >=? capacity s then capacity s * GROWTH_FACTOR else capacity s in
  let i := insert_pos (is_descending s) (levels s) price in
  let new := MkLevel price [] f_zero 0 in
  (MkSide (take i (levels s) ++ new :: drop i (levels s)) cap (is_descending s), i).

Definition append_order_to_level (lvl : PriceLevel) (node : OrderNode) : PriceLevel :=
  {| lvl_price := lvl_price lvl; lvl_orders := lvl_orders lvl ++ [node];
     lvl_volume := f_add (lvl_volume lvl) (n_remaining node);
     lvl_count := lvl_count lvl + 1 |}.

Definition remove_level (s : OrderBookSide) (idx : nat) : OrderBookSide :=
  set_levels (delete idx (levels s)) s.

Definition maybe_compact_level (s : OrderBookSide) (idx : nat) : OrderBookSide :=
  match levels s !! idx with
  | Some lvl => if lvl_count lvl =? 0 then remove_level s idx else s
  | None => s
  end.

(** ** add_passive_order *)

Definition add_passive_order (e : CMatchingEngine) (order_id side : Z) (price qty : float64)
    (iceberg : bool) (visible_qty hidden_qty : float64) : CMatchingEngine * (exn + bool) :=
  if negb (side =? C_BUY) && negb (side =? C_SELL) then (e, inl (ValueError "Invalid side"))
  else if f_leb qty f_zero then (e, inl (ValueError "qty must be positive"))
  else if node_pool_size e + 1 >? node_pool_cap e then (e, inl MemoryError)
  else
    let node := MkNode order_id qty (if iceberg then visible_qty else qty) iceberg in
    let s := book_side e side in
    let idx := find_level_idx s price in
    let '(s, i) := if idx =? -1 then insert_level s price else (s, Z.to_nat idx) in
    let s := set_levels (alter (fun lvl => append_order_to_level lvl node) i (levels s)) s in
    let e := {| bids := bids e; asks := asks e; node_pool_size := node_pool_size e + 1;
                node_pool_cap := node_pool_cap e; trades_buf := trades_buf e;
                trades_cap := trades_cap e |} in
    (set_book_side e side s, inr true).

(** ** Pre-checks *)

Definition would_cross (e : CMatchingEngine) (c : COrder) : bool :=
  match levels (opposite e (c_side c)) with
  | [] => false
  | best :: _ =>
      if c_side c =? C_BUY then f_leb (lvl_price best) (c_price c)
      else f_leb (c_price c) (lvl_price best)
  end.

(** The price test both walks of the opposite side stop on. *)
Definition too_far (c : COrder) (lvl : PriceLevel) : bool :=
  negb (f_isnan (c_price c))
  && (((c_side c =? C_BUY) && f_ltb (c_price c) (lvl_price lvl))
      || ((c_side c =? C_SELL) && f_ltb (lvl_price lvl) (c_price c))).

Fixpoint fok_loop (c : COrder) (ls : list PriceLevel) (cumulative : float64) : bool :=
  match ls with
  | [] => false
  | lvl :: ls =>
      if too_far c lvl then false
      else
        let cumulative := f_add cumulative (lvl_volume lvl) in
        if f_leb (c_quantity c) cumulative then true else fok_loop c ls cumulative
  end.
Definition precheck_fok (e : CMatchingEngine) (c : COrder) : bool :=
  fok_loop c (levels (opposite e (c_side c))) f_zero.

(** ** The hot loop *)

(** One fill between [maker] and a taker with [rem] left: the filled quantity,
    the maker afterwards, the taker's remaining quantity. *)
Definition fill_maker (m : OrderNode) (rem : float64) : float64 * OrderNode * float64 :=
  let visible_avail :=
    if n_iceberg m && f_ltb (n_visible m) (n_remaining m) then n_visible m else n_remaining m in
  if f_leb visible_avail rem then
    let mr := f_sub (n_remaining m) visible_avail in
    let mv := if n_iceberg m then (if f_ltb f_zero mr then mr else f_zero) else n_visible m in
    (visible_avail, MkNode (n_order_id m) mr mv (n_iceberg m), f_sub rem visible_avail)
  else
    let mv := if n_iceberg m then f_sub (n_visible m) rem else n_visible m in
    (rem, MkNode (n_order_id m) (f_sub (n_remaining m) rem) mv (n_iceberg m), f_zero).

(** The walk of one level: the nodes before the current maker, the nodes from
    it on, the level's totals, the trades so far. *)
Record LevelWalk := MkWalk {
  w_orders : list OrderNode;
  w_volume : float64;
  w_count : Z;
  w_trades : list TradeResult;
  w_rem : float64;
  w_overflow : bool
}.

Fixpoint match_level (fuel : nat) (c : COrder) (cap : Z) (price : float64)
    (pre rest : list OrderNode) (vol : float64) (cnt : Z) (buf : list TradeResult)
    (rem : float64) : option LevelWalk :=
  match fuel with
  | O => None
  | S fuel =>
      match rest with
      | [] => Some (MkWalk pre vol cnt buf rem false)
      | m :: tl =>
          if f_ltb f_zero rem then
            let '(fill, m', rem') := fill_maker m rem in
            let vol' := f_sub vol fill in
            if Z.of_nat (length buf) >=? cap
            then Some (MkWalk (pre ++ m' :: tl) vol' cnt buf rem' true)
            else
              let buf' := buf ++ [MkTradeResult (c_order_id c) (n_order_id m) price fill (c_side c)] in
              if f_leb (n_remaining m') f_zero
              then match_level fuel c cap price [] tl vol' (cnt - 1) buf' rem'
              else if f_leb (n_visible m') f_zero
              then match_level fuel c cap price (pre ++ [m']) tl vol' cnt buf' rem'
              else match_level fuel c cap price pre (m' :: tl) vol' cnt buf' rem'
          else Some (MkWalk (pre ++ rest) vol cnt buf rem false)
      end
  end.
Definition match_level_fuel (orders : list OrderNode) : nat := S (2 * length orders).

(** The walk over the opposite levels: levels already passed, levels to go. *)
Record SideWalk := MkSideWalk {
  s_levels : list PriceLevel;
  s_trades : list TradeResult;
  s_rem : float64;
  s_overflow : bool
}.

Fixpoint match_side (c : COrder) (cap : Z) (passed rest : list PriceLevel)
    (buf : list TradeResult) (rem : float64) : option SideWalk :=
  match rest with
  | [] => Some (MkSideWalk passed buf rem false)
  | lvl :: tl =>
      if f_ltb f_zero rem && negb (too_far c lvl) then
        match match_level (match_level_fuel (lvl_orders lvl)) c cap (lvl_price lvl) []
                (lvl_orders lvl) (lvl_volume lvl) (lvl_count lvl) buf rem with
        | None => None
        | Some w =>
            let lvl' := MkLevel (lvl_price lvl) (w_orders w) (w_volume w) (w_count w) in
            if w_overflow w then Some (MkSideWalk (passed ++ lvl' :: tl) (w_trades w) (w_rem w) true)
            else if w_count w =? 0
            then match_side c cap passed tl (w_trades w) (w_rem w)
            else match_side c cap (passed ++ [lvl']) tl (w_trades w) (w_rem w)
        end
      else Some (MkSideWalk (passed ++ rest) buf rem false)
  end.

Definition set_opposite (e : CMatchingEngine) (side : Z) (s : OrderBookSide)
    (buf : list TradeResult) : CMatchingEngine :=
  {| bids := if side =? C_BUY then bids e else s;
     asks := if side =? C_BUY then s else asks e;
     node_pool_size := node_pool_size e; node_pool_cap := node_pool_cap e;
     trades_buf := buf; trades_cap := trades_cap e |}.

(** [_match_internal]: the engine afterwards, the outcome and the taker's
    remaining quantity; [None] only if the fuel of a level ran out. *)
Definition match_internal (e : CMatchingEngine) (c : COrder)
    : option (CMatchingEngine * Z * float64) :=
  if c_type c =? C_POST_ONLY then
    Some (e, if would_cross e c then C_POST_ONLY_CROSS else C_OK, c_remaining c)
  else if (c_type c =? C_FOK) && negb (precheck_fok e c) then
    Some (e, C_FOK_REJECTED, c_remaining c)
  else
    let opp := opposite e (c_side c) in
    match match_side c (trades_cap e) [] (levels opp) (trades_buf e) (c_remaining c) with
    | None => None
    | Some w =>
        let e' := set_opposite e (c_side c) (set_levels (s_levels w) opp) (s_trades w) in
        let outcome :=
          if s_overflow w then C_NO_LIQUIDITY
          else if f_ltb f_zero (s_rem w) then
            if (c_type c =? C_MARKET) || (c_type c =? C_IOC) then
              if Z.of_nat (length (s_trades w)) =? 0 then C_NO_LIQUIDITY else C_OK
            else C_OK
          else C_OK in
        Some (e', outcome, s_rem w)
    end.

Definition clear_trades (e : CMatchingEngine) : CMatchingEngine :=
  {| bids := bids e; asks := asks e; node_pool_size := node_pool_size e;
     node_pool_cap := node_pool_cap e; trades_buf := []; trades_cap := trades_cap e |}.

(** [match_active_order]: (trades, outcome, remaining_qty). *)
Definition match_active_order (e : CMatchingEngine) (c : COrder)
    : option (CMatchingEngine * (list TradeResult * Z * float64)) :=
  match match_internal (clear_trades e) c with
  | None => None
  | Some (e', outcome, remaining) => Some (e', (trades_buf e', outcome, remaining))
  end.

(** ** cancel_order and snapshot *)

(** Unlink the first node with this id: the nodes left and the node. *)
Fixpoint unlink (order_id : Z) (orders : list OrderNode) : option (list OrderNode * OrderNode) :=
  match orders with
  | [] => None
  | n :: tl =>
      if n_order_id n =? order_id then Some (tl, n)
      else match unlink order_id tl with
           | Some (tl', found) => Some (n :: tl', found)
           | None => None
           end
  end.

Definition cancel_order (e : CMatchingEngine) (order_id side : Z) (price : float64)
    : CMatchingEngine * (exn + bool) :=
  if negb (side =? C_BUY) && negb (side =? C_SELL) then (e, inl (ValueError "Invalid side"))
  else
    let s := book_side e side in
    let idx := find_level_idx s price in
    if idx =? -1 then (e, inr false)
    else
      match levels s !! Z.to_nat idx with
      | None => (e, inr false)
      | Some lvl =>
          match unlink order_id (lvl_orders lvl) with
          | None => (e, inr false)
          | Some (orders, n) =>
              let lvl' := MkLevel (lvl_price lvl) orders
                            (f_sub (lvl_volume lvl) (n_remaining n)) (lvl_count lvl - 1) in
              let s := set_levels (<[Z.to_nat idx := lvl']> (levels s)) s in
              (set_book_side e side (maybe_compact_level s (Z.to_nat idx)), inr true)
          end
      end.

Definition snapshot (e : CMatchingEngine) (side depth : Z)
    : exn + (list float64 * list float64) :=
  if negb (side =? C_BUY) && negb (side =? C_SELL) then inl (ValueError "Invalid side")
  else
    let s := book_side e side in
    let n := Z.to_nat (if size s <? depth then size s else depth) in
    inr (lvl_price <$> take n (levels s), lvl_volume <$> take n (levels s)).
