(* ===== verification/EngineBook.v ===== *)
(** * The order book of the matching engine

    Invariants of [CMatchingEngine] and the correctness of the operations that
    maintain the book: the binary search, [add_passive_order], [cancel_order]
    and [snapshot].  A side is read as its priority queue: the pairs of a level
    price and a node, best price first and oldest first within a price. *)

From Stdlib Require Import ZArith Lia Bool SpecFloat Sorted.
From stdpp Require Import base tactics option list strings.
From S2P Require Import Prelude Float64 FloatPos PyDecimal Models Engine.
#[local] Open Scope Z_scope.

Create HintDb engine.

(** ** Priority *)

(** [p] has strictly better price priority than [q] on a side. *)
Definition better (desc : bool) (p q : float64) : bool :=
  if desc then f_ltb q p else f_ltb p q.

Definition level_better (desc : bool) (a b : PriceLevel) : Prop :=
  better desc (lvl_price a) (lvl_price b) = true.

Lemma better_trans desc p q r :
  better desc p q = true -> better desc q r = true -> better desc p r = true.
Proof. destruct desc; cbn; eauto using f_ltb_trans. Qed.
Lemma better_asym desc p q : better desc p q = true -> better desc q p = false.
Proof. destruct desc; cbn; apply f_ltb_asym. Qed.
Lemma better_eqb desc p q : f_eqb p q = true -> better desc p q = false.
Proof.
  intros H. destruct desc; cbn; apply f_eqb_ltb; [by rewrite f_eqb_sym|done].
Qed.
Lemma better_total desc p q :
  f_isnan p = false -> f_isnan q = false -> f_eqb p q = false ->
  better desc p q = false -> better desc q p = true.
Proof.
  intros Hp Hq He Hb. destruct (f_ltb_total p q Hp Hq) as [H|[H|H]];
    destruct desc; cbn in *; congruence.
Qed.

(** Better priority is invariant under numeric equality (+0 and -0). *)
Lemma better_eqb_l desc p p' q :
  f_eqb p p' = true -> better desc p q = better desc p' q.
Proof.
  intros H. destruct desc; cbn.
  - apply eq_true_iff_eq. split; intros; flex.
  - apply eq_true_iff_eq. split; intros; flex.
Qed.
Lemma better_eqb_r desc p q q' :
  f_eqb q q' = true -> better desc p q = better desc p q'.
Proof.
  intros H. destruct desc; cbn.
  - apply eq_true_iff_eq. split; intros; flex.
  - apply eq_true_iff_eq. split; intros; flex.
Qed.

#[export] Hint Resolve better_trans better_asym better_eqb : engine.

(** ** The priority queue and the invariant *)

Definition entry : Type := float64 * OrderNode.
Definition level_queue (l : PriceLevel) : list entry := pair (lvl_price l) <$> lvl_orders l.
Definition queue_of (ls : list PriceLevel) : list entry := ls ≫= level_queue.
Definition book_queue (s : OrderBookSide) : list entry := queue_of (levels s).

Definition node_ok (n : OrderNode) : Prop :=
  fpos (n_remaining n) = true /\ fpos (n_visible n) = true.

Record level_ok (l : PriceLevel) : Prop := {
  lok_price : f_isnan (lvl_price l) = false;
  lok_nonempty : lvl_orders l <> [];
  lok_count : lvl_count l = Z.of_nat (length (lvl_orders l));
  lok_nodes : Forall node_ok (lvl_orders l)
}.

Record side_ok (s : OrderBookSide) : Prop := {
  sok_sorted : StronglySorted (level_better (is_descending s)) (levels s);
  sok_levels : Forall level_ok (levels s);
  sok_cap : 1 <= capacity s /\ size s <= capacity s
}.

Record engine_ok (e : CMatchingEngine) : Prop := {
  eok_bids : side_ok (bids e);
  eok_asks : side_ok (asks e);
  eok_bids_dir : is_descending (bids e) = true;
  eok_asks_dir : is_descending (asks e) = false;
  eok_pool : node_pool_size e <= node_pool_cap e
}.

(** Facts on sorted lists used by every operation. *)
Lemma sorted_app_iff {A} (R : A -> A -> Prop) l1 l2 :
  StronglySorted R (l1 ++ l2) <->
  StronglySorted R l1 /\ StronglySorted R l2 /\ Forall (fun x => Forall (R x) l2) l1.
Proof.
  induction l1 as [|x l1 IH]; cbn.
  - split; [intros; split; [constructor|split; [done|constructor]]|tauto].
  - split.
    + intros H. apply StronglySorted_inv in H as [Hs Hx]. apply IH in Hs as (H1 & H2 & H12).
      apply Forall_app in Hx as [Hx1 Hx2].
      split; [by constructor|]. split; [done|]. by constructor.
    + intros (H1 & H2 & H12). apply StronglySorted_inv in H1 as [H1 Hx].
      inversion_clear H12. constructor; [by apply IH|]. by apply Forall_app.
Qed.

Lemma sorted_delete {A} (R : A -> A -> Prop) l i :
  StronglySorted R l -> StronglySorted R (delete i l).
Proof.
  intros H. rewrite delete_take_drop.
  rewrite <- (take_drop i l) in H. apply sorted_app_iff in H as (H1 & H2 & H12).
  apply sorted_app_iff. split; [done|]. destruct (drop i l) as [|x tl] eqn:E.
  - rewrite <- (Nat.add_1_r i), <- drop_drop, E. split; [constructor|].
    by eapply Forall_impl; [exact H12|].
  - rewrite <- (Nat.add_1_r i), <- drop_drop, E. cbn. rewrite drop_0.
    apply StronglySorted_inv in H2 as [H2 _]. split; [done|].
    eapply Forall_impl; [exact H12|]. intros y Hy. by inversion_clear Hy.
Qed.

Lemma sorted_relabel {A B} (R : B -> B -> Prop) (f : A -> B) l l' :
  f <$> l = f <$> l' ->
  StronglySorted (fun a b => R (f a) (f b)) l -> StronglySorted (fun a b => R (f a) (f b)) l'.
Proof.
  revert l'. induction l as [|x l IH]; intros [|y l'] Hm Hs; try done.
  cbn in Hm. injection Hm as Hxy Hm. apply StronglySorted_inv in Hs as [Hs Hx].
  constructor; [by apply IH|].
  apply Forall_fmap with (f := f) (P := fun b => R (f y) b). rewrite <- Hm, <- Hxy.
  by apply Forall_fmap.
Qed.

Lemma sorted_prices desc ls ls' :
  lvl_price <$> ls = lvl_price <$> ls' ->
  StronglySorted (level_better desc) ls -> StronglySorted (level_better desc) ls'.
Proof. apply (sorted_relabel (fun p q => better desc p q = true) lvl_price). Qed.

(** ** The binary search finds the level of a price *)

Lemma level_order_lookup s i j x y :
  side_ok s -> levels s !! i = Some x -> levels s !! j = Some y ->
  better (is_descending s) (lvl_price x) (lvl_price y) = true -> (i < j)%nat.
Proof.
  intros [Hs _ _] Hi Hj Hb. destruct (Nat.lt_total i j) as [H|[->|H]]; [done|..].
  - simplify_eq. rewrite (better_asym _ _ _ Hb) in Hb. done.
  - pose proof (StronglySorted_nth _ _ _ _ _ _ Hs H Hj Hi) as Hb'.
    unfold level_better in Hb'. rewrite (better_asym _ _ _ Hb') in Hb. done.
Qed.

Lemma find_loop_spec s price fuel lo hi :
  side_ok s -> f_isnan price = false -> 0 <= lo -> hi < size s -> hi - lo < Z.of_nat fuel ->
  let i := find_loop fuel s price lo hi in
  (exists lvl, 0 <= i /\ levels s !! Z.to_nat i = Some lvl /\ f_eqb (lvl_price lvl) price = true)
  \/ (i = -1 /\ forall j lvl, lo <= Z.of_nat j <= hi -> levels s !! j = Some lvl ->
                              f_eqb (lvl_price lvl) price = false).
Proof.
  intros Hok Hp. revert lo hi. induction fuel as [|fuel IH]; intros lo hi Hlo Hhi Hf; cbn.
  - right. split; [done|]. lia.
  - destruct (Z.leb_spec lo hi) as [Hle|Hgt]; [|right; split; [done|]; lia].
    set (mid := Z.quot (lo + hi) 2).
    assert (Hmid : lo <= mid <= hi) by (subst mid; rewrite Z.quot_div_nonneg by lia; split;
      [apply Z.div_le_lower_bound|apply Z.div_le_upper_bound]; lia).
    destruct (lookup_lt_is_Some_2 (levels s) (Z.to_nat mid)) as [lvl Hlvl];
      [unfold size in *; lia|]. rewrite Hlvl.
    destruct (f_eqb (lvl_price lvl) price) eqn:Heq; [left; eauto with lia|].
    assert (Hn : f_isnan (lvl_price lvl) = false).
    { pose proof (sok_levels s Hok) as Hl. rewrite Forall_lookup in Hl.
      apply lok_price. eauto. }
    change (is_descending s && _ || _) with
      (is_descending s && f_ltb price (lvl_price lvl)
       || negb (is_descending s) && f_ltb (lvl_price lvl) price).
    assert (Hb : is_descending s && f_ltb price (lvl_price lvl)
       || negb (is_descending s) && f_ltb (lvl_price lvl) price
       = better (is_descending s) (lvl_price lvl) price).
    { destruct (is_descending s); cbn; [by rewrite orb_false_r|done]. }
    rewrite Hb. destruct (better (is_descending s) (lvl_price lvl) price) eqn:Hbt.
    + destruct (IH (mid + 1) hi ltac:(lia) ltac:(lia) ltac:(lia)) as [H|[H1 H2]]; [by left|].
      right. split; [exact H1|]. intros j l Hj Hl.
      destruct (decide (mid < Z.of_nat j)) as [Hd|Hd]; [eapply H2; [|done]; lia|].
      destruct (f_eqb (lvl_price l) price) eqn:E; [|done].
      rewrite <- (better_eqb_r _ _ _ _ E) in Hbt.
      pose proof (level_order_lookup s _ _ _ _ Hok Hlvl Hl Hbt). lia.
    + destruct (IH lo (mid - 1) ltac:(lia) ltac:(lia) ltac:(lia)) as [H|[H1 H2]]; [by left|].
      right. split; [exact H1|]. intros j l Hj Hl.
      destruct (decide (Z.of_nat j < mid)) as [Hd|Hd]; [eapply H2; [|done]; lia|].
      destruct (f_eqb (lvl_price l) price) eqn:E; [|done].
      apply better_total in Hbt; [|done..]. rewrite <- (better_eqb_l _ _ _ _ E) in Hbt.
      pose proof (level_order_lookup s _ _ _ _ Hok Hl Hlvl Hbt). lia.
Qed.

Lemma find_level_cases s price :
  side_ok s -> f_isnan price = false ->
  (exists i lvl, find_level_idx s price = Z.of_nat i /\ levels s !! i = Some lvl
                 /\ f_eqb (lvl_price lvl) price = true)
  \/ (find_level_idx s price = -1
      /\ Forall (fun lvl => f_eqb (lvl_price lvl) price = false) (levels s)).
Proof.
  intros Hok Hp. unfold find_level_idx.
  destruct (find_loop_spec s price (S (length (levels s))) 0 (size s - 1) Hok Hp)
    as [(lvl & H0 & H1 & H2)|[H1 H2]]; try (unfold size; lia).
  - left. exists (Z.to_nat (find_loop (S (length (levels s))) s price 0 (size s - 1))), lvl.
    split; [lia|done].
  - right. split; [done|]. apply Forall_lookup. intros j l Hl. eapply H2; [|done].
    apply lookup_lt_Some in Hl. unfold size. lia.
Qed.

(** ** Insertion of a level, addition of a resting order *)

Lemma alter_split {A} (f : A -> A) l i x :
  l !! i = Some x -> alter f i l = take i l ++ f x :: drop (S i) l.
Proof.
  revert i. induction l as [|y l IH]; intros [|i] H; cbn in *; simplify_eq; [done|].
  f_equal. by apply IH.
Qed.

Lemma queue_app l1 l2 : queue_of (l1 ++ l2) = queue_of l1 ++ queue_of l2.
Proof. apply bind_app. Qed.
Lemma queue_cons l ls : queue_of (l :: ls) = level_queue l ++ queue_of ls.
Proof. done. Qed.

Lemma queue_Forall (P : entry -> Prop) ls :
  Forall P (queue_of ls) <-> Forall (fun l => Forall P (level_queue l)) ls.
Proof. unfold queue_of. rewrite Forall_bind. done. Qed.

Lemma level_queue_price (P : float64 -> Prop) l :
  P (lvl_price l) -> Forall (fun en => P en.1) (level_queue l).
Proof. intros H. apply Forall_fmap, Forall_true. done. Qed.

Lemma insert_pos_spec desc ls price :
  StronglySorted (level_better desc) ls -> f_isnan price = false ->
  Forall level_ok ls -> Forall (fun l => f_eqb (lvl_price l) price = false) ls ->
  let i := insert_pos desc ls price in
  Forall (fun l => better desc (lvl_price l) price = true) (take i ls) /\
  Forall (fun l => better desc price (lvl_price l) = true) (drop i ls).
Proof.
  intros Hs Hp Hok Hne. induction Hs as [|l ls Hs IH Hl]; cbn; [split; constructor|].
  inversion_clear Hok as [|? ? Hlok Hok']. inversion_clear Hne as [|? ? Hne0 Hne'].
  specialize (IH Hok' Hne'). cbn in IH.
  assert (E : desc && f_ltb (lvl_price l) price || negb desc && f_ltb price (lvl_price l)
              = better desc price (lvl_price l)).
  { destruct desc; cbn; [by rewrite orb_false_r|done]. }
  rewrite E. destruct (better desc price (lvl_price l)) eqn:Hb; cbn.
  - split; [constructor|]. constructor; [done|].
    eapply Forall_impl; [exact Hl|]. intros x Hx. eauto using better_trans.
  - destruct IH as [IH1 IH2]. split; [|done]. constructor; [|done].
    apply better_total; [done|apply Hlok| |done]. by rewrite f_eqb_sym.
Qed.

(** A level whose orders are empty may stand at one index while the order that
    fills it is being added. *)
Lemma side_ok_replace s i l l' :
  side_ok s -> levels s !! i = Some l -> lvl_price l' = lvl_price l -> level_ok l' ->
  side_ok (set_levels (take i (levels s) ++ l' :: drop (S i) (levels s)) s).
Proof.
  intros [Hs Hl Hc] Hi Hp Hok. pose proof (take_drop_middle _ _ _ Hi) as Hsp.
  split; cbn.
  - eapply sorted_prices; [|exact Hs]. rewrite <- Hsp at 1. by rewrite !fmap_app, !fmap_cons, Hp.
  - rewrite <- Hsp in Hl. apply Forall_app in Hl as [H1 H2]. inversion_clear H2.
    apply Forall_app. split; [done|]. by constructor.
  - unfold size in *. cbn. rewrite <- Hsp in Hc. rewrite !length_app in *. cbn in *. lia.
Qed.

Lemma side_ok_insert s price l' i :
  side_ok s -> lvl_price l' = price -> level_ok l' ->
  i = insert_pos (is_descending s) (levels s) price ->
  Forall (fun l => f_eqb (lvl_price l) price = false) (levels s) ->
  side_ok (MkSide (take i (levels s) ++ l' :: drop i (levels s))
             (if size s >=? capacity s then capacity s * GROWTH_FACTOR else capacity s)
             (is_descending s)).
Proof.
  intros [Hs Hl Hc] Hp Hok -> Hne.
  destruct (insert_pos_spec (is_descending s) (levels s) price Hs) as [H1 H2];
    [subst price; apply Hok|done|done|].
  set (i := insert_pos _ _ _) in *.
  rewrite <- (take_drop i (levels s)) in Hs, Hl.
  apply sorted_app_iff in Hs as (Hs1 & Hs2 & Hs12). apply Forall_app in Hl as [Hl1 Hl2].
  split; cbn.
  - apply sorted_app_iff. split; [done|]. split.
    + constructor; [done|]. eapply Forall_impl; [exact H2|]. intros x Hx.
      unfold level_better. by rewrite Hp.
    + apply Forall_forall. intros x Hx. rewrite Forall_forall in H1, Hs12.
      constructor; [unfold level_better; rewrite Hp; by apply H1|by apply Hs12].
  - apply Forall_app. split; [done|]. by constructor.
  - unfold size in *. cbn. rewrite length_app. cbn [length].
    assert (length (take i (levels s)) + length (drop i (levels s)) = length (levels s))%nat.
    { by rewrite <- length_app, take_drop. }
    unfold GROWTH_FACTOR. destruct (Z.geb_spec (Z.of_nat (length (levels s))) (capacity s)); lia.
Qed.

Lemma engine_ok_side e side : engine_ok e -> side_ok (book_side e side).
Proof. intros []. unfold book_side. by destruct (side =? C_BUY). Qed.
Lemma engine_ok_opposite e side : engine_ok e -> side_ok (opposite e side).
Proof. intros []. unfold opposite. by destruct (side =? C_BUY). Qed.

Lemma engine_ok_set e side s size_ :
  engine_ok e -> side_ok s -> is_descending s = is_descending (book_side e side) ->
  size_ <= node_pool_cap e ->
  engine_ok (set_book_side (MkEngine (bids e) (asks e) size_ (node_pool_cap e)
                              (trades_buf e) (trades_cap e)) side s).
Proof.
  intros [] Hs Hd Hp. unfold book_side, set_book_side in *. cbn.
  destruct (side =? C_BUY); split; cbn; congruence || done.
Qed.

Lemma book_side_set e side s : book_side (set_book_side e side s) side = s.
Proof. unfold book_side, set_book_side. cbn. by destruct (side =? C_BUY). Qed.
Lemma opposite_set e side s : opposite (set_book_side e side s) side = opposite e side.
Proof. unfold opposite, set_book_side. cbn. by destruct (side =? C_BUY). Qed.

#[export] Hint Resolve engine_ok_side engine_ok_opposite : engine.

Definition valid_side (side : Z) : Prop := side = C_BUY \/ side = C_SELL.
Lemma valid_side_test side :
  valid_side side -> negb (side =? C_BUY) && negb (side =? C_SELL) = false.
Proof. by intros [-> | ->]. Qed.

(** The queue [q'] is [q] with [x] behind every entry of priority at least
    [price] and before the others. *)
Definition enqueued (desc : bool) (price : float64) (x : OrderNode) (q q' : list entry) : Prop :=
  exists q1 q2 p,
    q = q1 ++ q2 /\ q' = q1 ++ (p, x) :: q2 /\ f_eqb p price = true /\
    Forall (fun en => better desc price en.1 = false) q1 /\
    Forall (fun en => better desc price en.1 = true) q2.

Lemma sorted_around s i l :
  side_ok s -> levels s !! i = Some l ->
  Forall (fun x => better (is_descending s) (lvl_price x) (lvl_price l) = true) (take i (levels s)) /\
  Forall (fun x => better (is_descending s) (lvl_price l) (lvl_price x) = true) (drop (S i) (levels s)).
Proof.
  intros [Hs _ _] Hi. rewrite <- (take_drop_middle _ _ _ Hi) in Hs.
  apply sorted_app_iff in Hs as (H1 & H2 & H12). apply StronglySorted_inv in H2 as [H2 H3].
  split; [|exact H3]. eapply Forall_impl; [exact H12|]. intros x Hx. by inversion_clear Hx.
Qed.

Lemma queue_forall_price (P : float64 -> Prop) ls :
  Forall (fun l => P (lvl_price l)) ls -> Forall (fun en => P en.1) (queue_of ls).
Proof.
  intros H. apply queue_Forall. eapply Forall_impl; [exact H|]. intros l Hl.
  by apply level_queue_price.
Qed.

Lemma append_existing s i l price node :
  side_ok s -> levels s !! i = Some l -> f_eqb (lvl_price l) price = true -> node_ok node ->
  let s' := set_levels (alter (fun lvl => append_order_to_level lvl node) i (levels s)) s in
  side_ok s' /\ enqueued (is_descending s) price node (book_queue s) (book_queue s').
Proof.
  intros Hok Hi He Hn s'. subst s'. rewrite (alter_split _ _ _ _ Hi). split.
  - eapply side_ok_replace; try done. pose proof (sok_levels s Hok) as Hl.
    rewrite Forall_lookup in Hl. destruct (Hl _ _ Hi) as [H1 H2 H3 H4]. split; cbn; try done.
    + by destruct (lvl_orders l).
    + rewrite length_app, H3. cbn. lia.
    + apply Forall_app. split; [done|]. by apply Forall_singleton.
  - destruct (sorted_around s i l Hok Hi) as [Ht Hd].
    exists (queue_of (take i (levels s)) ++ level_queue l), (queue_of (drop (S i) (levels s))), (lvl_price l).
    unfold book_queue. split; [|split; [|split; [done|split]]].
    + rewrite <- (take_drop_middle _ _ _ Hi) at 1. by rewrite queue_app, queue_cons, app_assoc.
    + cbn. rewrite queue_app, queue_cons. unfold level_queue at 2. cbn.
      rewrite fmap_app. cbn. by rewrite <- !app_assoc.
    + apply Forall_app. split.
      * apply (queue_forall_price (fun p => better (is_descending s) price p = false)).
        eapply Forall_impl; [exact Ht|]. cbn. intros x Hx.
        rewrite <- (better_eqb_l _ _ _ _ He). by apply better_asym.
      * apply (level_queue_price (fun p => better (is_descending s) price p = false)).
        apply better_eqb. by rewrite f_eqb_sym.
    + apply (queue_forall_price (fun p => better (is_descending s) price p = true)).
      eapply Forall_impl; [exact Hd|]. cbn. intros x Hx. by rewrite <- (better_eqb_l _ _ _ _ He).
Qed.

Lemma append_new s price node :
  side_ok s -> f_isnan price = false -> node_ok node ->
  Forall (fun l => f_eqb (lvl_price l) price = false) (levels s) ->
  let '(s1, i) := insert_level s price in
  let s' := set_levels (alter (fun lvl => append_order_to_level lvl node) i (levels s1)) s1 in
  side_ok s' /\ is_descending s' = is_descending s /\
  enqueued (is_descending s) price node (book_queue s) (book_queue s').
Proof.
  intros Hok Hp Hn Hne. unfold insert_level.
  set (i := insert_pos (is_descending s) (levels s) price).
  assert (Hlen : length (take i (levels s)) = i).
  { apply length_take_le. subst i. generalize (levels s). induction l as [|x l IH]; cbn; [lia|].
    destruct (_ || _); lia. }
  assert (Hmid : alter (fun lvl => append_order_to_level lvl node) i
                   (take i (levels s) ++ MkLevel price [] f_zero 0 :: drop i (levels s))
                 = take i (levels s) ++ MkLevel price [node] (f_add f_zero (n_remaining node)) 1
                     :: drop i (levels s)).
  { rewrite <- Hlen at 1. generalize (take i (levels s)) (drop i (levels s)). intros l1 l2.
    induction l1 as [|x l1 IH]; cbn; [done|]. by f_equal. }
  cbn [levels set_levels capacity is_descending]. rewrite Hmid.
  split; [|split; [done|]].
  - unfold set_levels. cbn [capacity is_descending levels].
    apply (side_ok_insert s price (MkLevel price [node] (f_add f_zero (n_remaining node)) 1) i);
      try done. split; cbn; try done. by constructor.
  - destruct (insert_pos_spec (is_descending s) (levels s) price) as [H1 H2]; try apply Hok; try done.
    exists (queue_of (take i (levels s))), (queue_of (drop i (levels s))), price.
    unfold book_queue. cbn [levels set_levels]. split; [|split; [|split; [|split]]].
    + by rewrite <- queue_app, take_drop.
    + by rewrite queue_app, queue_cons.
    + flex.
    + apply (queue_forall_price (fun p => better (is_descending s) price p = false)).
      eapply Forall_impl; [exact H1|]. cbn. intros x Hx. by apply better_asym.
    + apply (queue_forall_price (fun p => better (is_descending s) price p = true)). exact H2.
Qed.

(** ** Cancellation *)

Lemma unlink_spec order_id orders :
  match unlink order_id orders with
  | Some (tl, n) => exists o1 o2, orders = o1 ++ n :: o2 /\ tl = o1 ++ o2 /\ n_order_id n = order_id
                      /\ Forall (fun m => n_order_id m <> order_id) o1
  | None => Forall (fun m => n_order_id m <> order_id) orders
  end.
Proof.
  induction orders as [|m orders IH]; cbn; [done|].
  destruct (Z.eqb_spec (n_order_id m) order_id) as [E|E].
  - exists [], orders. repeat split; done.
  - destruct (unlink order_id orders) as [[tl n]|].
    + destruct IH as (o1 & o2 & -> & -> & Hn & Ho). exists (m :: o1), o2.
      split; [done|split; [done|split; [done|by constructor]]].
    + by constructor.
Qed.

(** [q'] is [q] without its first entry of this price and order id. *)
Definition dequeued (price : float64) (order_id : Z) (q q' : list entry) : Prop :=
  exists q1 p n q2,
    q = q1 ++ (p, n) :: q2 /\ q' = q1 ++ q2 /\ f_eqb p price = true /\ n_order_id n = order_id /\
    Forall (fun en => f_eqb en.1 price = true -> n_order_id en.2 <> order_id) q1.

Lemma sorted_around_ne s i l price :
  side_ok s -> levels s !! i = Some l -> f_eqb (lvl_price l) price = true ->
  Forall (fun x => f_eqb (lvl_price x) price = false) (take i (levels s)).
Proof.
  intros Hok Hi He. destruct (sorted_around s i l Hok Hi) as [Ht _].
  eapply Forall_impl; [exact Ht|]. cbn. intros x Hx.
  destruct (f_eqb (lvl_price x) price) eqn:E; [|done].
  rewrite (better_eqb_r _ _ _ _ He), better_eqb in Hx; done.
Qed.

Lemma before_not_cancelled s i l price order_id o1 :
  side_ok s -> levels s !! i = Some l -> f_eqb (lvl_price l) price = true ->
  Forall (fun m => n_order_id m <> order_id) o1 ->
  Forall (fun en : entry => f_eqb en.1 price = true -> n_order_id en.2 <> order_id)
    (queue_of (take i (levels s)) ++ (pair (lvl_price l) <$> o1)).
Proof.
  intros Hok Hi He Ho1. apply Forall_app. split.
  - apply (Forall_impl (fun en : entry => f_eqb en.1 price = false)).
    + apply (queue_forall_price (fun p => f_eqb p price = false)).
      exact (sorted_around_ne s i l price Hok Hi He).
    + intros en Hen H. by rewrite Hen in H.
  - apply Forall_fmap. eapply Forall_impl; [exact Ho1|]. intros m Hm _. exact Hm.
Qed.

Lemma delete_insert_same {A} (l : list A) i x :
  (i < length l)%nat -> delete i (<[i := x]> l) = delete i l.
Proof.
  revert i. induction l as [|y l IH]; intros [|i] H; cbn in *; [lia|lia|done|].
  f_equal. apply IH. lia.
Qed.

Lemma side_queue_at s i l :
  levels s !! i = Some l ->
  book_queue s = queue_of (take i (levels s)) ++ level_queue l ++ queue_of (drop (S i) (levels s)).
Proof.
  intros Hi. unfold book_queue. rewrite <- (take_drop_middle _ _ _ Hi) at 1.
  by rewrite queue_app, queue_cons.
Qed.

Lemma side_ok_delete s i l :
  side_ok s -> levels s !! i = Some l -> side_ok (set_levels (delete i (levels s)) s).
Proof.
  intros [Hs Hls Hcap] Hi. split; cbn.
  - by apply sorted_delete.
  - rewrite delete_take_drop. apply Forall_app. split; [by apply Forall_take|by apply Forall_drop].
  - unfold size in *. cbn. rewrite length_delete by (by exists l). lia.
Qed.

Lemma cancel_level s i l price order_id orders n vol :
  side_ok s -> levels s !! i = Some l -> f_eqb (lvl_price l) price = true ->
  unlink order_id (lvl_orders l) = Some (orders, n) ->
  let l' := MkLevel (lvl_price l) orders vol (lvl_count l - 1) in
  let s' := maybe_compact_level (set_levels (<[i := l']> (levels s)) s) i in
  side_ok s' /\ is_descending s' = is_descending s /\
  dequeued price order_id (book_queue s) (book_queue s').
Proof.
  intros Hok Hi He Hu l' s'. pose proof (unlink_spec order_id (lvl_orders l)) as Hsp.
  rewrite Hu in Hsp. destruct Hsp as (o1 & o2 & Hl & -> & Hid & Ho1).
  pose proof (sok_levels s Hok) as Hlv. rewrite Forall_lookup in Hlv.
  destruct (Hlv _ _ Hi) as [H1 H2 H3 H4].
  assert (Hlt : (i < length (levels s))%nat) by (by eapply lookup_lt_Some).
  pose proof (before_not_cancelled s i l price order_id o1 Hok Hi He Ho1) as Hne.
  assert (Hc : lvl_count l' = Z.of_nat (length (o1 ++ o2))).
  { subst l'. cbn. rewrite H3, Hl, !length_app. cbn. lia. }
  assert (Hdeq : forall q, q = queue_of (take i (levels s)) ++ (pair (lvl_price l) <$> o1)
      ++ (pair (lvl_price l) <$> o2) ++ queue_of (drop (S i) (levels s)) ->
      dequeued price order_id (book_queue s) q).
  { intros q ->. exists (queue_of (take i (levels s)) ++ (pair (lvl_price l) <$> o1)), (lvl_price l), n,
      ((pair (lvl_price l) <$> o2) ++ queue_of (drop (S i) (levels s))).
    rewrite (side_queue_at s i l Hi). unfold level_queue. rewrite Hl.
    rewrite fmap_app, fmap_cons, <- !app_assoc. repeat split; done. }
  subst s'. unfold maybe_compact_level. cbn [levels set_levels]. rewrite list_lookup_insert_eq by done.
  destruct (Z.eqb_spec (lvl_count l') 0) as [E|E].
  - assert (Hnil : o1 ++ o2 = []) by (apply length_zero_iff_nil; lia).
    unfold remove_level. cbn [levels set_levels]. rewrite delete_insert_same by done.
    split; [by eapply (side_ok_delete s)|split; [done|]]. apply Hdeq.
    apply app_nil in Hnil as [-> ->]. unfold book_queue. cbn [levels set_levels].
    by rewrite delete_take_drop, queue_app.
  - rewrite insert_take_drop by done. split; [|split; [done|]].
    + eapply side_ok_replace; try done. subst l'. split; cbn; try done.
      * intros Hnil. rewrite Hnil in Hc. done.
      * rewrite Hl in H4. apply Forall_app in H4 as [H4 H4']. inversion_clear H4'.
        by apply Forall_app.
    + apply Hdeq. unfold book_queue. cbn [levels set_levels]. rewrite queue_app, queue_cons.
      unfold level_queue. subst l'. cbn [lvl_orders lvl_price]. by rewrite fmap_app, <- !app_assoc.
Qed.

(** ** Theorems *)

Lemma new_engine_ok : engine_ok new_engine.
Proof.
  split; cbn; try done; split; cbn; try constructor; unfold size, INITIAL_LEVELS_CAP; cbn; lia.
Qed.

(** [_find_level_idx] returns the index of the level whose price equals
    the argument, and -1 exactly when no level of the side has this price. *)
Theorem find_level_idx_correct s price :
  side_ok s -> f_isnan price = false ->
  (find_level_idx s price = -1 <-> Forall (fun l => f_eqb (lvl_price l) price = false) (levels s))
  /\ (forall i l, levels s !! i = Some l -> f_eqb (lvl_price l) price = true ->
        find_level_idx s price = Z.of_nat i).
Proof.
  intros Hok Hp.
  destruct (find_level_cases s price Hok Hp) as [(i & l & Hi & Hl & He)|[Hi Hall]]; rewrite Hi.
  - split.
    + split; [lia|]. rewrite Forall_lookup. intros H. specialize (H _ _ Hl). congruence.
    + intros j l' Hl' He'. destruct (Nat.lt_total i j) as [H|[->|H]]; [|done|]; exfalso.
      * pose proof (StronglySorted_nth _ _ _ _ _ _ (sok_sorted s Hok) H Hl Hl') as Hb.
        unfold level_better in Hb. rewrite (better_eqb_l _ _ _ _ He), better_eqb in Hb; [done|].
        by rewrite f_eqb_sym.
      * pose proof (StronglySorted_nth _ _ _ _ _ _ (sok_sorted s Hok) H Hl' Hl) as Hb.
        unfold level_better in Hb. rewrite (better_eqb_l _ _ _ _ He'), better_eqb in Hb; [done|].
        by rewrite f_eqb_sym.
  - split; [done|]. rewrite Forall_lookup in Hall. intros j l' Hl' He'.
    specialize (Hall _ _ Hl'). congruence.
Qed.

Lemma add_passive_order_spec e order_id side price qty iceberg visible hidden :
  engine_ok e -> valid_side side -> f_isnan price = false ->
  fpos qty = true -> (iceberg = true -> fpos visible = true) ->
  node_pool_size e + 1 <= node_pool_cap e ->
  exists e', add_passive_order e order_id side price qty iceberg visible hidden = (e', inr true)
    /\ engine_ok e' /\ opposite e' side = opposite e side
    /\ enqueued (is_descending (book_side e side)) price
         (MkNode order_id qty (if iceberg then visible else qty) iceberg)
         (book_queue (book_side e side)) (book_queue (book_side e' side)).
Proof.
  intros Hok Hv Hp Hq Hvis Hpool. unfold add_passive_order.
  rewrite valid_side_test, fpos_not_leb by done.
  destruct (Z.gtb_spec (node_pool_size e + 1) (node_pool_cap e)); [lia|].
  set (node := MkNode order_id qty _ iceberg).
  assert (Hn : node_ok node) by (split; [done|]; destruct iceberg; cbn; auto).
  pose proof (engine_ok_side e side Hok) as Hs.
  destruct (find_level_cases (book_side e side) price Hs Hp) as [(i & l & Hi & Hl & He)|[Hi Hall]];
    rewrite Hi.
  - destruct (Z.eqb_spec (Z.of_nat i) (-1)); [lia|]. rewrite Nat2Z.id.
    destruct (append_existing _ _ _ price node Hs Hl He Hn) as [H1 H2].
    eexists. split; [reflexivity|]. rewrite book_side_set, opposite_set.
    split; [by apply engine_ok_set|]. split; [|exact H2].
    unfold opposite. by destruct (side =? C_BUY).
  - destruct (Z.eqb_spec (-1) (-1)); [|lia].
    pose proof (append_new _ price node Hs Hp Hn Hall) as Hnew.
    destruct (insert_level (book_side e side) price) as [s1 i]. destruct Hnew as (H1 & H2 & H3).
    eexists. split; [reflexivity|]. rewrite book_side_set, opposite_set.
    split; [by apply engine_ok_set|]. split; [|exact H3].
    unfold opposite. by destruct (side =? C_BUY).
Qed.

Lemma cancel_order_spec e order_id side price :
  engine_ok e -> valid_side side -> f_isnan price = false ->
  let r := cancel_order e order_id side price in
  engine_ok r.1 /\ opposite r.1 side = opposite e side /\
  ((r.2 = inr true /\ dequeued price order_id (book_queue (book_side e side)) (book_queue (book_side r.1 side)))
   \/ (r = (e, inr false) /\
       Forall (fun en => f_eqb en.1 price = true -> n_order_id en.2 <> order_id)
         (book_queue (book_side e side)))).
Proof.
  intros Hok Hv Hp r. subst r. unfold cancel_order. rewrite valid_side_test by done.
  pose proof (engine_ok_side e side Hok) as Hs.
  destruct (find_level_cases (book_side e side) price Hs Hp) as [(i & l & Hi & Hl & He)|[Hi Hall]];
    rewrite Hi.
  - destruct (Z.eqb_spec (Z.of_nat i) (-1)); [lia|]. rewrite Nat2Z.id, Hl.
    destruct (unlink order_id (lvl_orders l)) as [[orders n0]|] eqn:Hu.
    + destruct (cancel_level _ i l price order_id orders n0
                  (f_sub (lvl_volume l) (n_remaining n0)) Hs Hl He Hu) as (H1 & H2 & H3).
      cbn [fst snd]. split; [|split].
      * pose proof (engine_ok_set e side _ (node_pool_size e) Hok H1 H2 (eok_pool e Hok)) as H.
        destruct e; exact H.
      * apply opposite_set.
      * left. split; [done|]. rewrite book_side_set. exact H3.
    + cbn [fst snd]. split; [done|]. split; [done|]. right. split; [done|].
      pose proof (unlink_spec order_id (lvl_orders l)) as Hsp. rewrite Hu in Hsp.
      rewrite (side_queue_at _ i l Hl), app_assoc. apply Forall_app. split.
      * by apply before_not_cancelled.
      * apply (Forall_impl (fun en : entry => f_eqb en.1 price = false)); [|intros en H H'; congruence].
        apply (queue_forall_price (fun p => f_eqb p price = false)).
        destruct (sorted_around _ i l Hs Hl) as [_ Hd].
        eapply Forall_impl; [exact Hd|]. cbn. intros x Hx.
        destruct (f_eqb (lvl_price x) price) eqn:E; [|done].
        rewrite (better_eqb_l _ _ _ _ He), better_eqb in Hx; [done|]. by rewrite f_eqb_sym.
  - cbn. split; [done|]. split; [done|]. right. split; [done|].
    apply (Forall_impl (fun en : entry => f_eqb en.1 price = false)); [|intros en H H'; congruence].
    by apply (queue_forall_price (fun p => f_eqb p price = false)).
Qed.

(** a valid [add_passive_order] succeeds, keeps every invariant of the
    book, leaves the other side alone, and queues the new node behind every
    resting order of the same or a better price and ahead of every worse one. *)
Theorem add_passive_order_correct e order_id side price qty iceberg visible hidden :
  engine_ok e -> valid_side side -> f_isnan price = false ->
  fpos qty = true -> (iceberg = true -> fpos visible = true) ->
  node_pool_size e + 1 <= node_pool_cap e ->
  exists e', add_passive_order e order_id side price qty iceberg visible hidden = (e', inr true)
    /\ engine_ok e' /\ opposite e' side = opposite e side
    /\ enqueued (is_descending (book_side e side)) price
         (MkNode order_id qty (if iceberg then visible else qty) iceberg)
         (book_queue (book_side e side)) (book_queue (book_side e' side)).
Proof. apply add_passive_order_spec. Qed.

(** [cancel_order] keeps every invariant; it returns True exactly when the
    side holds the order at this price, then removing its first occurrence and
    nothing else, and otherwise leaves the engine as it was. *)
Theorem cancel_order_correct e order_id side price :
  engine_ok e -> valid_side side -> f_isnan price = false ->
  let r := cancel_order e order_id side price in
  engine_ok r.1 /\ opposite r.1 side = opposite e side /\
  ((r.2 = inr true /\ dequeued price order_id (book_queue (book_side e side)) (book_queue (book_side r.1 side)))
   \/ (r = (e, inr false) /\
       Forall (fun en => f_eqb en.1 price = true -> n_order_id en.2 <> order_id)
         (book_queue (book_side e side)))).
Proof. apply cancel_order_spec. Qed.

(** an order added to the book and then cancelled leaves the queue as it
    was, provided no older order at this price carries its id. *)
Theorem add_then_cancel e order_id side price qty :
  engine_ok e -> valid_side side -> f_isnan price = false -> fpos qty = true ->
  node_pool_size e + 1 <= node_pool_cap e ->
  Forall (fun en => n_order_id en.2 <> order_id) (book_queue (book_side e side)) ->
  let e1 := (add_passive_order e order_id side price qty false f_zero f_zero).1 in
  let e2 := cancel_order e1 order_id side price in
  e2.2 = inr true /\ book_queue (book_side e2.1 side) = book_queue (book_side e side).
Proof.
  intros Hok Hv Hp Hq Hpool Hfresh e1 e2.
  destruct (add_passive_order_spec e order_id side price qty false f_zero f_zero
              Hok Hv Hp Hq ltac:(done) Hpool)
    as (e' & He' & Hok' & _ & (q1 & q2 & p & Hq1 & Hq2 & Hpe & _)).
  subst e1 e2. rewrite He'. cbn [fst].
  destruct (cancel_order_spec e' order_id side price Hok' Hv Hp)
    as (_ & _ & [[-> Hd]|[_ Hd]]).
  - split; [done|]. destruct Hd as (r1 & p' & n & r2 & Hr & -> & _ & Hid & _).
    rewrite Hq1, Hr in *. rewrite Forall_app in Hfresh. destruct Hfresh as [Hf1 Hf2].
    clear -Hq2 Hf1 Hf2 Hid. revert q1 Hq2 Hf1. induction r1 as [|x r1 IH]; intros [|y q1] Hq2 Hf1;
      cbn in *; simplify_eq; try done.
    + inversion_clear Hf1. done.
    + exfalso. rewrite Forall_app in Hf2. destruct Hf2 as [_ Hf2]. by inversion_clear Hf2.
    + f_equal. inversion_clear Hf1. by apply IH.
  - exfalso. rewrite Hq2, Forall_app in Hd. destruct Hd as [_ Hd]. inversion_clear Hd as [|? ? H].
    by apply H.
Qed.

(** ** Witnesses: a book of two asks at 10 and 11 and a bid at 9 *)

Definition f10 : float64 := Eval vm_compute in f_of_Z 10.
Definition f11 : float64 := Eval vm_compute in f_of_Z 11.
Definition f9 : float64 := Eval vm_compute in f_of_Z 9.
Definition f1 : float64 := Eval vm_compute in f_of_Z 1.
Definition f2 : float64 := Eval vm_compute in f_of_Z 2.

Definition demo_book : CMatchingEngine := Eval vm_compute in
  let e := (add_passive_order new_engine 1 C_SELL f11 f2 false f_zero f_zero).1 in
  let e := (add_passive_order e 2 C_SELL f10 f1 false f_zero f_zero).1 in
  let e := (add_passive_order e 3 C_BUY f9 f1 false f_zero f_zero).1 in e.

Ltac side_ok_compute :=
  split; cbn;
  [ repeat constructor
  | repeat (constructor; [split; cbn; [done|done|done|repeat constructor]|]); constructor
  | unfold size; cbn; lia ].

Lemma demo_book_ok : engine_ok demo_book.
Proof. split; cbn; try done; side_ok_compute. Qed.

Lemma find_level_idx_correct_witness :
  side_ok (asks demo_book) /\ find_level_idx (asks demo_book) f11 = 1.
Proof.
  split; [apply demo_book_ok|].
  refine (proj2 (find_level_idx_correct (asks demo_book) f11 _ _) 1%nat _ _ _);
    [apply demo_book_ok|done|done|done].
Defined.

Lemma add_passive_order_correct_witness :
  exists e', add_passive_order demo_book 4 C_SELL f10 f2 true f1 f1 = (e', inr true) /\ engine_ok e'.
Proof.
  destruct (add_passive_order_correct demo_book 4 C_SELL f10 f2 true f1 f1)
    as (e' & H1 & H2 & _); [apply demo_book_ok|by right|done|done|done|done|].
  exists e'. split; [exact H1|exact H2].
Defined.

Lemma cancel_order_correct_witness : engine_ok (cancel_order demo_book 2 C_SELL f10).1.
Proof.
  apply (cancel_order_correct demo_book 2 C_SELL f10); [apply demo_book_ok|by right|done].
Defined.

Lemma add_then_cancel_witness :
  let e1 := (add_passive_order demo_book 4 C_BUY f9 f2 false f_zero f_zero).1 in
  (cancel_order e1 4 C_BUY f9).2 = inr true.
Proof.
  refine (proj1 (add_then_cancel demo_book 4 C_BUY f9 f2 _ _ _ _ _ _));
    [apply demo_book_ok|by left|done|done|done|].
  repeat constructor; discriminate.
Defined.
