(* ===== verification/EngineMatch.v ===== *)
(** * Matching: termination, price-time priority, conservation

    The abstract matcher [fills] only ever consumes the head of the opposite
    side's priority queue.  [match_active_order] refines it: its trades are the
    fills of one run of the abstract matcher that stops only when the taker is
    filled or the best opposite price is too far.  Termination holds for every
    input, NaN and infinities included; exact conservation and the
    all-or-nothing behaviour of fill-or-kill orders hold for quantities on a
    dyadic grid, and fail for general doubles. *)

From Stdlib Require Import ZArith Lia Bool SpecFloat Sorted.
From stdpp Require Import base tactics option list strings.
From S2P Require Import Prelude Float64 FloatPos PyDecimal Models Engine EngineBook.
#[local] Open Scope Z_scope.

(** ** Termination for every input *)

(** The iterations the walk of a level may still need. *)
Definition need (rest : list OrderNode) (rem : float64) : nat :=
  match rest with
  | [] => 1
  | m :: tl =>
      if negb (f_ltb f_zero rem) then 1
      else if f_isnan (n_remaining m) then 2
      else if n_iceberg m && f_ltb (n_visible m) (n_remaining m) then 2 * length tl + 3
      else if f_isfinite (n_remaining m) then 2 * length tl + 2
      else if f_ltb f_zero (n_remaining m) then 2
      else 2 * length tl + 3
  end.

Lemma need_fuel rest rem : (need rest rem <= match_level_fuel rest)%nat.
Proof.
  unfold need, match_level_fuel. destruct rest as [|m tl]; cbn [length]; [lia|].
  destruct (negb _); [lia|]. destruct (f_isnan _); [lia|]. destruct (_ && _); [lia|].
  destruct (f_isfinite _); [lia|]. destruct (f_ltb _ _); lia.
Qed.

Lemma need_pos rest rem : (1 <= need rest rem)%nat.
Proof.
  unfold need. destruct rest as [|m tl]; [lia|].
  destruct (negb _); [lia|]. destruct (f_isnan _); [lia|]. destruct (_ && _); [lia|].
  destruct (f_isfinite _); [lia|]. destruct (f_ltb _ _); lia.
Qed.

Lemma need_le rest rem : (need rest rem <= 2 * length rest + 1)%nat.
Proof. pose proof (need_fuel rest rem). unfold match_level_fuel in *. lia. Qed.

Lemma f_sub_inf_gt r rem :
  f_isnan r = false -> f_isfinite r = false -> f_leb r rem = true -> f_ltb f_zero rem = true ->
  f_isnan (f_sub r r) = true /\ (f_ltb f_zero (f_sub rem r) = false \/ f_ltb r f_zero = true).
Proof.
  intros H1 H2 H3 H4. rewrite f_sub_diag_nonfinite by done. split; [done|].
  destruct r as [| [] | |]; try done; destruct rem as [|[]| |[]]; try done; auto.
Qed.

Definition measure_ok (m' : OrderNode) (tl : list OrderNode) (rem' : float64) (n : nat) : Prop :=
  if f_leb (n_remaining m') f_zero || f_leb (n_visible m') f_zero
  then (need tl rem' <= n)%nat else (need (m' :: tl) rem' <= n)%nat.

Lemma need_zero rest : need rest f_zero = 1%nat.
Proof. by destruct rest. Qed.

Lemma need_stop rest rem : f_ltb f_zero rem = false -> need rest rem = 1%nat.
Proof. intros H. destruct rest as [|m tl]; cbn; [done|]. by rewrite H. Qed.

(** One fill decreases the measure. *)
Lemma fill_measure m tl rem n :
  f_ltb f_zero rem = true -> (need (m :: tl) rem <= S n)%nat ->
  let '(fill, m', rem') := fill_maker m rem in measure_ok m' tl rem' n.
Proof.
  intros Hr Hn. unfold fill_maker, need in *. rewrite Hr in Hn. cbn [negb] in Hn.
  destruct (f_isnan (n_remaining m)) eqn:Enan.
  { destruct (n_remaining m) eqn:Em; try done.
    assert (Hf : f_ltb (n_visible m) S754_nan = false) by (by destruct (n_visible m)).
    rewrite Hf, andb_false_r. assert (Hl : f_leb S754_nan rem = false) by done. rewrite Hl.
    unfold measure_ok. rewrite !need_zero. destruct (_ || _); lia. }
  destruct (n_iceberg m && f_ltb (n_visible m) (n_remaining m)) eqn:Ei.
  - apply andb_true_iff in Ei as [Ei Ev]. rewrite Ei.
    destruct (f_leb (n_visible m) rem) eqn:El.
    + set (mr := f_sub (n_remaining m) (n_visible m)).
      unfold measure_ok. cbn [n_remaining n_visible].
      pose proof (need_le tl (f_sub rem (n_visible m))).
      destruct (f_leb mr f_zero) eqn:E1; cbn [orb]; [lia|].
      destruct (f_ltb f_zero mr) eqn:E2; [|assert (f_leb f_zero f_zero = true) as -> by done; lia].
      rewrite E1. unfold need. cbn [n_remaining n_visible n_iceberg].
      assert (f_ltb mr mr = false) as -> by apply f_ltb_irrefl. cbn [andb].
      destruct (f_ltb f_zero (f_sub rem (n_visible m))) eqn:E3; cbn [negb]; [|lia].
      assert (f_isnan mr = false) as -> by (clear -E2; flex).
      rewrite E2. destruct (f_isfinite mr); lia.
    + unfold measure_ok. rewrite !need_zero. destruct (_ || _); lia.
  - destruct (f_leb (n_remaining m) rem) eqn:El.
    + unfold measure_ok. cbn [n_remaining n_visible].
      destruct (f_isfinite (n_remaining m)) eqn:Ef.
      * rewrite f_sub_diag by done. cbn [orb].
        assert (f_leb f_zero f_zero = true) as -> by done. cbn [orb].
        pose proof (need_le tl (f_sub rem (n_remaining m))). lia.
      * destruct (f_sub_inf_gt _ _ Enan Ef El Hr) as [Hnan Hrem].
        destruct (f_leb _ f_zero || _) eqn:E.
        -- pose proof (need_le tl (f_sub rem (n_remaining m))).
           destruct (f_ltb f_zero (n_remaining m)) eqn:Eg; [|lia].
           destruct Hrem as [Hrem|Hrem]; [rewrite need_stop by done; lia|].
           by rewrite (f_ltb_asym _ _ Eg) in Hrem.
        -- unfold need. cbn [n_remaining]. rewrite Hnan.
           destruct (f_ltb f_zero (n_remaining m)) eqn:Eg; [|destruct (negb _); lia].
           destruct Hrem as [-> |Hrem]; [simpl; lia|]. by rewrite (f_ltb_asym _ _ Eg) in Hrem.
    + unfold measure_ok. rewrite !need_zero. repeat case_match; lia.
Qed.

Lemma match_level_total fuel c cap price pre rest vol cnt buf rem :
  (need rest rem <= fuel)%nat ->
  is_Some (match_level fuel c cap price pre rest vol cnt buf rem).
Proof.
  revert pre rest vol cnt buf rem. induction fuel as [|fuel IH]; intros pre rest vol cnt buf rem Hf.
  - pose proof (need_pos rest rem). lia.
  - cbn. destruct rest as [|m tl]; [eauto|]. destruct (f_ltb f_zero rem) eqn:Er; [|eauto].
    pose proof (fill_measure m tl rem fuel Er Hf) as Hm.
    destruct (fill_maker m rem) as [[fill m'] rem']. unfold measure_ok in Hm.
    destruct (_ >=? cap); [eauto|].
    destruct (f_leb (n_remaining m') f_zero); cbn [orb] in Hm; [by apply IH|].
    destruct (f_leb (n_visible m') f_zero); by apply IH.
Qed.

Lemma match_side_total c cap passed rest buf rem : is_Some (match_side c cap passed rest buf rem).
Proof.
  revert passed buf rem. induction rest as [|l tl IH]; intros passed buf rem; cbn [match_side]; [eauto|].
  destruct (_ && _); [|eauto].
  destruct (match_level_total (match_level_fuel (lvl_orders l)) c cap (lvl_price l) []
              (lvl_orders l) (lvl_volume l) (lvl_count l) buf rem (need_fuel _ _)) as [w ->].
  destruct (w_overflow w); [eauto|]. destruct (_ =? 0); apply IH.
Qed.

(** C30: [match_active_order] terminates on every engine state and every
    order, including NaN and infinite quantities: the fuel of the model (two
    iterations per resting order of a level, and one) never runs out. *)
Theorem match_active_order_total e c : exists r, match_active_order e c = Some r.
Proof.
  unfold match_active_order, match_internal.
  destruct (_ =? C_POST_ONLY); [eauto|]. destruct (_ && _); [eauto|].
  destruct (match_side_total c (trades_cap (clear_trades e)) []
              (levels (opposite (clear_trades e) (c_side c))) (trades_buf (clear_trades e)) (c_remaining c))
    as [w ->].
  eauto.
Qed.

(** ** The abstract matcher *)

Definition qty_ok (r : float64) : Prop := r = f_zero \/ fpos r = true.

(** The price test of the walk, on a price. *)
Definition price_out (c : COrder) (p : float64) : bool :=
  negb (f_isnan (c_price c))
  && (((c_side c =? C_BUY) && f_ltb (c_price c) p) || ((c_side c =? C_SELL) && f_ltb p (c_price c))).

Lemma too_far_price c l : too_far c l = price_out c (lvl_price l).
Proof. done. Qed.

Definition trade_of (c : COrder) (p : float64) (m : OrderNode) (f : float64) : TradeResult :=
  MkTradeResult (c_order_id c) (n_order_id m) p f (c_side c).

(** A run of the abstract matcher: it fills the taker against the head of the
    queue, at the price of the head, and drops the head once it is exhausted. *)
Inductive fills (c : COrder) : list entry -> float64 -> list TradeResult -> list entry -> float64 -> Prop :=
  | fills_nil q rem : fills c q rem [] q rem
  | fills_done p m tl rem f m' rem' ts q' r' :
      f_ltb f_zero rem = true -> price_out c p = false ->
      fill_maker m rem = (f, m', rem') -> f_leb (n_remaining m') f_zero = true ->
      fills c tl rem' ts q' r' ->
      fills c ((p, m) :: tl) rem (trade_of c p m f :: ts) q' r'
  | fills_more p m tl rem f m' rem' ts q' r' :
      f_ltb f_zero rem = true -> price_out c p = false ->
      fill_maker m rem = (f, m', rem') -> f_leb (n_remaining m') f_zero = false ->
      fills c ((p, m') :: tl) rem' ts q' r' ->
      fills c ((p, m) :: tl) rem (trade_of c p m f :: ts) q' r'.

(** Nothing more can be filled. *)
Definition halted (c : COrder) (q : list entry) (rem : float64) : Prop :=
  match q with
  | [] => True
  | (p, _) :: _ => f_ltb f_zero rem = false \/ price_out c p = true
  end.

Lemma fills_app c q1 r1 ts1 q2 r2 ts2 q3 r3 :
  fills c q1 r1 ts1 q2 r2 -> fills c q2 r2 ts2 q3 r3 -> fills c q1 r1 (ts1 ++ ts2) q3 r3.
Proof. induction 1; intros; cbn; eauto using fills. Qed.

Lemma fills_frame c q r ts q' r' tail :
  fills c q r ts q' r' -> fills c (q ++ tail) r ts (q' ++ tail) r'.
Proof. induction 1; cbn; eauto using fills. Qed.

(** ** One fill *)

(** The trades one maker may still take part in. *)
Definition weight (m : OrderNode) : nat :=
  if n_iceberg m && f_ltb (n_visible m) (n_remaining m) then 2 else 1.
Definition budget (ns : list OrderNode) : nat := sum_list (weight <$> ns).

Lemma fpos_total x y : fpos x = true -> fpos y = true -> f_leb x y = false -> f_ltb y x = true.
Proof. intros Hx Hy H. rewrite f_ltb_not_leb by auto using fpos_notnan. by rewrite H. Qed.

Lemma qty_ok_sub x y : fpos x = true -> fpos y = true -> f_leb y x = true -> qty_ok (f_sub x y).
Proof. intros Hx Hy H. destruct (fpos_sub_le x y Hx Hy H) as [?|[? _]]; [by left|by right]. Qed.

Record fill_facts (m : OrderNode) (rem f : float64) (m' : OrderNode) (rem' : float64) : Prop := {
  ff_fill : fpos f = true;
  ff_le_taker : f_leb f rem = true;
  ff_le_maker : f_leb f (n_remaining m) = true;
  ff_taker : rem' = f_sub rem f \/ (f = rem /\ rem' = f_zero);
  ff_maker : n_remaining m' = f_sub (n_remaining m) f;
  ff_rem : qty_ok rem';
  ff_maker_qty : qty_ok (n_remaining m');
  ff_id : n_order_id m' = n_order_id m;
  ff_alive : f_leb (n_remaining m') f_zero = false -> node_ok m';
  ff_weight : f_ltb f_zero rem' = true -> f_leb (n_remaining m') f_zero = false ->
              weight m = S (weight m')
}.

Ltac fill_facts_tac :=
  split; cbn; auto using f_leb_refl, fpos_notnan, f_ltb_leb, qty_ok_sub;
  try (by left); try (by right); try (by split); try (by intros); try done.

Lemma fill_maker_facts m rem f m' rem' :
  node_ok m -> fpos rem = true -> fill_maker m rem = (f, m', rem') -> fill_facts m rem f m' rem'.
Proof.
  intros [Hr Hv] Hrem. unfold fill_maker.
  destruct (n_iceberg m && f_ltb (n_visible m) (n_remaining m)) eqn:Ei.
  - pose proof Ei as [Ei1 Ei2]%andb_true_iff. rewrite Ei1.
    destruct (fpos_sub _ _ Hr Hv Ei2) as [Hmr _].
    destruct (f_leb (n_visible m) rem) eqn:El; intros [= <- <- <-].
    + rewrite (fpos_ltb _ Hmr). fill_facts_tac.
      intros _ _. unfold weight. rewrite Ei. cbn. rewrite ?Ei1, f_ltb_irrefl. done.
    + apply fpos_total in El; [|done..]. pose proof (f_ltb_trans _ _ _ El Ei2) as Hlt.
      destruct (fpos_sub _ _ Hr Hrem Hlt) as [Hmr' _]. destruct (fpos_sub _ _ Hv Hrem El) as [Hmv _].
      fill_facts_tac.
  - destruct (f_leb (n_remaining m) rem) eqn:El; intros [= <- <- <-].
    + rewrite f_sub_diag by auto using fpos_finite. fill_facts_tac.
      by rewrite f_sub_diag by auto using fpos_finite.
    + apply fpos_total in El; [|done..]. destruct (fpos_sub _ _ Hr Hrem El) as [Hmr' _].
      fill_facts_tac.
      intros _. split; cbn; [done|]. destruct (n_iceberg m) eqn:Ei1; [|done].
      apply fpos_sub; [done..|]. cbn in Ei. apply (f_ltb_leb_trans _ (n_remaining m)); [done|].
      rewrite f_ltb_not_leb in Ei by auto using fpos_notnan. by apply negb_false_iff in Ei.
Qed.

(** ** The walk of a level is a run of the abstract matcher *)

(** The trades a taker with [rem] left may still make against [ns]. *)
Definition trade_bound (ns : list OrderNode) (rem : float64) : nat :=
  if f_ltb f_zero rem then budget ns else 0.

Lemma weight_pos m : (1 <= weight m)%nat.
Proof. unfold weight. destruct (_ && _); lia. Qed.

Lemma qty_ok_pos r : qty_ok r -> f_ltb f_zero r = true -> fpos r = true.
Proof. by intros [->|H]. Qed.

Lemma trade_bound_le ns rem : (trade_bound ns rem <= budget ns)%nat.
Proof. unfold trade_bound. destruct (f_ltb _ _); lia. Qed.

Record walk_refines (c : COrder) (price : float64) (rest : list OrderNode) (cnt : Z)
    (buf : list TradeResult) (rem : float64) (w : LevelWalk)
    (ts : list TradeResult) (rest' : list OrderNode) : Prop := {
  wr_orders : w_orders w = rest';
  wr_trades : w_trades w = buf ++ ts;
  wr_overflow : w_overflow w = false;
  wr_nodes : Forall node_ok rest';
  wr_rem : qty_ok (w_rem w);
  wr_fills : fills c (pair price <$> rest) rem ts (pair price <$> rest') (w_rem w);
  wr_length : (length ts <= trade_bound rest rem)%nat;
  wr_count : w_count w = cnt - Z.of_nat (length rest) + Z.of_nat (length rest');
  wr_halt : rest' = [] \/ f_ltb f_zero (w_rem w) = false
}.

Lemma match_level_refines fuel c cap price rest vol cnt buf rem w :
  match_level fuel c cap price [] rest vol cnt buf rem = Some w ->
  Forall node_ok rest -> qty_ok rem -> price_out c price = false ->
  Z.of_nat (length buf + trade_bound rest rem) <= cap ->
  exists ts rest', walk_refines c price rest cnt buf rem w ts rest'.
Proof.
  revert rest vol cnt buf rem. induction fuel as [|fuel IH]; intros rest vol cnt buf rem Hw Hn Hr Hp Hcap;
    [done|]. cbn in Hw. destruct rest as [|m tl].
  { simplify_eq. exists [], []. split; cbn; auto using fills_nil with lia.
    by rewrite app_nil_r. }
  destruct (f_ltb f_zero rem) eqn:Er.
  2:{ simplify_eq. exists [], (m :: tl). split; cbn; auto using fills_nil with lia.
      by rewrite app_nil_r. }
  destruct (fill_maker m rem) as [[f m'] rem'] eqn:Ef. inversion_clear Hn as [|? ? Hm Htl].
  pose proof (fill_maker_facts _ _ _ _ _ Hm (qty_ok_pos _ Hr Er) Ef) as F.
  pose proof (weight_pos m) as Hwp. unfold trade_bound in Hcap. rewrite Er in Hcap.
  change (budget (m :: tl)) with (weight m + budget tl)%nat in Hcap.
  assert (Hlen : length (buf ++ [trade_of c price m f]) = S (length buf))
    by (rewrite length_app; cbn; lia).
  destruct (Z.geb_spec (Z.of_nat (length buf)) cap) as [Hov|_]; [lia|].
  change (MkTradeResult _ _ _ _ _) with (trade_of c price m f) in Hw.
  pose proof (trade_bound_le tl rem') as Htb.
  destruct (f_leb (n_remaining m') f_zero) eqn:Ed.
  - apply IH in Hw as (ts & rest' & [H1 H2 H3 H4 H5 H6 H7 H8 H9]);
      [|done|apply F|done|rewrite Hlen; lia].
    exists (trade_of c price m f :: ts), rest'. split; try done.
    + by rewrite H2, <- app_assoc.
    + cbn. by eapply fills_done.
    + unfold trade_bound. rewrite Er. change (budget (m :: tl)) with (weight m + budget tl)%nat. cbn. lia.
    + cbn [length]. lia.
  - pose proof (ff_alive _ _ _ _ _ F Ed) as Hm'.
    rewrite (fpos_not_leb (n_visible m')) in Hw by apply Hm'.
    assert (Hb : (trade_bound (m' :: tl) rem' + 1 <= weight m + budget tl)%nat).
    { unfold trade_bound. destruct (f_ltb f_zero rem') eqn:Er'; [|lia].
      rewrite (ff_weight _ _ _ _ _ F Er' Ed).
      change (budget (m' :: tl)) with (weight m' + budget tl)%nat. lia. }
    apply IH in Hw as (ts & rest' & [H1 H2 H3 H4 H5 H6 H7 H8 H9]);
      [|by constructor|apply F|done|rewrite Hlen; lia].
    exists (trade_of c price m f :: ts), rest'. split; try done.
    + by rewrite H2, <- app_assoc.
    + cbn. by eapply fills_more.
    + unfold trade_bound at 1. rewrite Er. change (budget (m :: tl)) with (weight m + budget tl)%nat.
      cbn [length]. lia.
Qed.

(** ** The walk over the levels *)

Definition side_budget (ls : list PriceLevel) : nat := sum_list (budget ∘ lvl_orders <$> ls).

(** The levels left: a suffix of the levels, its head possibly with fewer orders. *)
Definition levels_left (ls ls' : list PriceLevel) : Prop :=
  exists k, lvl_price <$> ls' = drop k (lvl_price <$> ls).

Lemma match_side_refines c cap rest buf rem w :
  match_side c cap [] rest buf rem = Some w ->
  Forall level_ok rest -> qty_ok rem ->
  Z.of_nat (length buf + side_budget rest) <= cap ->
  exists ts, s_trades w = buf ++ ts /\ s_overflow w = false /\ qty_ok (s_rem w)
    /\ Forall level_ok (s_levels w) /\ levels_left rest (s_levels w)
    /\ fills c (queue_of rest) rem ts (queue_of (s_levels w)) (s_rem w)
    /\ halted c (queue_of (s_levels w)) (s_rem w)
    /\ (length ts <= side_budget rest)%nat.
Proof.
  revert buf rem. induction rest as [|l tl IH]; intros buf rem Hw Hok Hr Hcap.
  { cbn in Hw. simplify_eq. cbn. exists []. rewrite app_nil_r.
    do 4 (split; [done|]). split; [by exists 0%nat|]. split; [constructor|]. split; [done|cbn; lia]. }
  cbn [match_side] in Hw. inversion_clear Hok as [|? ? Hl Htl].
  rewrite too_far_price in Hw.
  assert (Hhalt : forall rem0 os, os <> [] ->
    f_ltb f_zero rem0 = false \/ price_out c (lvl_price l) = true ->
    halted c ((pair (lvl_price l) <$> os) ++ queue_of tl) rem0).
  { intros rem0 [|n os] Hnil Hh; [done|]. exact Hh. }
  destruct (f_ltb f_zero rem && negb (price_out c (lvl_price l))) eqn:Eg.
  2:{ simplify_eq. cbn [app s_trades s_levels s_rem s_overflow]. exists []. rewrite app_nil_r.
      split; [done|]. split; [done|]. split; [done|]. split; [by constructor|].
      split; [by exists 0%nat|]. split; [constructor|]. split; [|cbn; lia].
      apply Hhalt; [apply Hl|]. apply andb_false_iff in Eg as [E|E]; [by left|right].
      by apply negb_false_iff in E. }
  apply andb_true_iff in Eg as [Er Ep]. apply negb_true_iff in Ep.
  change (side_budget (l :: tl)) with (budget (lvl_orders l) + side_budget tl)%nat in *.
  destruct (match_level _ _ _ _ _ _ _ _ _ _) as [lw|] eqn:El; [|done].
  pose proof (trade_bound_le (lvl_orders l) rem) as Htb.
  apply match_level_refines in El as (ts & rest' & [H1 H2 H3 H4 H5 H6 H7 H8 H9]);
    [|apply Hl|done|done|lia].
  rewrite H3 in Hw.
  pose proof (fills_frame _ _ _ _ _ _ (queue_of tl) H6) as Hf.
  rewrite (lok_count l Hl), H1 in *.
  destruct (Z.eqb_spec (w_count lw) 0) as [Ec|Ec].
  - assert (rest' = []) as -> by (apply length_zero_iff_nil; lia).
    apply IH in Hw as (ts' & G1 & G2 & G3 & G4 & [k G5] & G6 & G7 & G8);
      [|done|done|rewrite H2, length_app; lia].
    exists (ts ++ ts'). rewrite G1, H2, app_assoc. do 4 (split; [done|]).
    split; [by exists (S k)|]. split; [by eapply fills_app|]. split; [done|].
    rewrite length_app. lia.
  - assert (Hne : rest' <> []) by (intros ->; cbn in *; lia).
    destruct H9 as [?|H9]; [done|]. cbn [app] in Hw.
    assert (Hw' : w = MkSideWalk (MkLevel (lvl_price l) rest' (w_volume lw) (w_count lw) :: tl)
                        (w_trades lw) (w_rem lw) false).
    { destruct tl as [|l2 tl]; cbn [match_side] in Hw; rewrite ?H9 in Hw; cbn in Hw; by simplify_eq. }
    rewrite Hw'. cbn [s_trades s_levels s_rem s_overflow]. exists ts.
    split; [done|]. split; [done|]. split; [done|].
    split. { constructor; [|done]. split; cbn; [apply Hl|done|lia|done]. }
    split; [by exists 0%nat|]. split; [exact Hf|]. split; [by apply Hhalt; auto|]. lia.
Qed.

(** ** Consequences of being a run of the abstract matcher *)

Lemma fills_trades c q r ts q' r' :
  fills c q r ts q' r' ->
  Forall (fun t => price_out c (tr_price t) = false /\ tr_taker t = c_order_id c /\ tr_side t = c_side c) ts.
Proof. induction 1; constructor; done. Qed.

(** The queue left is the queue without its first [k] entries, its head
    possibly with less to fill, and only the first [k + 1] entries traded. *)
Definition consumed (ts : list TradeResult) (q q' : list entry) (k : nat) : Prop :=
  (length q' + k = length q)%nat /\ tail q' = drop (S k) q /\
  (forall p n, head q' = Some (p, n) -> exists n0, q !! k = Some (p, n0) /\ n_order_id n0 = n_order_id n) /\
  Forall (fun t => exists p n, (p, n) ∈ take (S k) q /\ tr_maker t = n_order_id n /\ tr_price t = p) ts.

Lemma fill_maker_id m rem f m' rem' : fill_maker m rem = (f, m', rem') -> n_order_id m' = n_order_id m.
Proof.
  unfold fill_maker. destruct (_ && _); destruct (f_leb _ _); by intros [= <- <- <-].
Qed.

Lemma fills_consumed c q r ts q' r' : fills c q r ts q' r' -> exists k, consumed ts q q' k.
Proof.
  induction 1 as [q rem|p m tl rem f m' rem' ts q' r' _ _ _ _ _ [k IH]
                 |p m tl rem f m' rem' ts q' r' _ _ Hf _ _ [k IH]].
  - exists 0%nat. split; [lia|]. split; [by destruct q|]. split; [|constructor].
    intros p n Hq. destruct q as [|e q]; [done|]. cbn in *. simplify_eq. eauto.
  - destruct IH as (H1 & H2 & H3 & H4). exists (S k). split; [cbn; lia|]. split; [done|].
    split; [exact H3|]. constructor.
    + exists p, m. split; [by left|done].
    + eapply Forall_impl; [exact H4|]. intros t (p0 & n0 & Hin & Ht). exists p0, n0.
      split; [by right|done].
  - destruct IH as (H1 & H2 & H3 & H4). exists k. apply fill_maker_id in Hf.
    split; [done|]. split; [done|]. split.
    + intros p0 n Hq. destruct (H3 p0 n Hq) as (n0 & Hk & Hid). destruct k as [|k]; cbn in *.
      * simplify_eq. exists m. split; [done|congruence].
      * eauto.
    + constructor; [exists p, m; split; [by left|done]|].
      eapply Forall_impl; [exact H4|]. cbn [take]. intros t (p0 & n0 & Hin & Ht & Hp).
      apply elem_of_cons in Hin as [Hin|Hin].
      * injection Hin as -> ->. exists p, m. split; [by left|]. split; [congruence|done].
      * exists p0, n0. split; [by right|done].
Qed.

(** ** match_active_order *)

(** Enough room in the trade buffer: one trade per plain order of the opposite
    side and two per iceberg. *)
Definition fits_buffer (e : CMatchingEngine) (c : COrder) : Prop :=
  Z.of_nat (side_budget (levels (opposite e (c_side c)))) <= trades_cap e.

Definition valid_taker (c : COrder) : Prop := valid_side (c_side c) /\ qty_ok (c_remaining c).

(** The engine with its trade buffer cleared and the opposite side replaced. *)
Definition after_match (e : CMatchingEngine) (c : COrder) (ls : list PriceLevel) (ts : list TradeResult) :=
  set_opposite e (c_side c) (set_levels ls (opposite e (c_side c))) ts.

Lemma match_walk_spec e c :
  engine_ok e -> valid_taker c -> fits_buffer e c ->
  c_type c <> C_POST_ONLY -> (c_type c = C_FOK -> precheck_fok e c = true) ->
  exists ls ts outcome rem,
    match_active_order e c = Some (after_match e c ls ts, (ts, outcome, rem))
    /\ Forall level_ok ls /\ levels_left (levels (opposite e (c_side c))) ls
    /\ fills c (book_queue (opposite e (c_side c))) (c_remaining c) ts (queue_of ls) rem
    /\ halted c (queue_of ls) rem /\ qty_ok rem
    /\ outcome = (if f_ltb f_zero rem && ((c_type c =? C_MARKET) || (c_type c =? C_IOC))
                     && (Z.of_nat (length ts) =? 0) then C_NO_LIQUIDITY else C_OK).
Proof.
  intros Hok [Hside Hrem] Hfit Hpost Hfok. unfold match_active_order, match_internal.
  replace (c_type c =? C_POST_ONLY) with false by (symmetry; by apply Z.eqb_neq).
  replace ((c_type c =? C_FOK) && negb (precheck_fok (clear_trades e) c)) with false.
  2:{ destruct (Z.eqb_spec (c_type c) C_FOK) as [E|E]; [|done]. cbn.
      specialize (Hfok E). unfold precheck_fok, opposite in *. cbn. by rewrite Hfok. }
  assert (Hopp : opposite (clear_trades e) (c_side c) = opposite e (c_side c)) by done.
  rewrite Hopp. change (trades_buf (clear_trades e)) with (@nil TradeResult).
  change (trades_cap (clear_trades e)) with (trades_cap e).
  destruct (match_side_total c (trades_cap e) [] (levels (opposite e (c_side c))) [] (c_remaining c))
    as [w Hw]. rewrite Hw.
  apply match_side_refines in Hw as (ts & H1 & H2 & H3 & H4 & H5 & H6 & H7 & _);
    [|by apply (sok_levels _ (engine_ok_opposite e (c_side c) Hok))|done|exact Hfit].
  cbn [app] in H1. eexists (s_levels w), ts, _, (s_rem w). split.
  { rewrite H1. reflexivity. }
  split; [done|]. split; [done|]. split; [done|]. split; [done|]. split; [done|].
  rewrite H2. destruct (f_ltb f_zero (s_rem w)); [|done]. cbn [andb].
  by destruct (_ || _), (_ =? 0).
Qed.

Lemma levels_left_sorted desc ls ls' :
  levels_left ls ls' -> StronglySorted (level_better desc) ls -> StronglySorted (level_better desc) ls'.
Proof.
  intros [k Hk] Hs. rewrite <- fmap_drop in Hk. apply (sorted_prices desc (drop k ls)); [done|].
  rewrite <- (take_drop k ls) in Hs. by apply sorted_app_iff in Hs as (_ & Hs & _).
Qed.

Lemma levels_left_length ls ls' : levels_left ls ls' -> (length ls' <= length ls)%nat.
Proof.
  intros [k Hk]. apply (f_equal length) in Hk. rewrite length_drop, !length_fmap in Hk. lia.
Qed.

Lemma after_match_ok e c ls ts :
  engine_ok e -> Forall level_ok ls -> levels_left (levels (opposite e (c_side c))) ls ->
  engine_ok (after_match e c ls ts).
Proof.
  intros Hok Hls Hleft. pose proof (engine_ok_opposite e (c_side c) Hok) as [Hs _ Hc].
  assert (Hside : side_ok (set_levels ls (opposite e (c_side c)))).
  { split; cbn; [by eapply levels_left_sorted|done|].
    apply levels_left_length in Hleft. unfold size in *. cbn. lia. }
  destruct Hok as [Hb Ha Hbd Had Hp]. unfold after_match, set_opposite, opposite in *.
  destruct (c_side c =? C_BUY); split; cbn; done.
Qed.

Definition rejects (e : CMatchingEngine) (c : COrder) : Prop :=
  c_type c = C_POST_ONLY \/ (c_type c = C_FOK /\ precheck_fok e c = false).

Lemma engine_ok_clear e : engine_ok e -> engine_ok (clear_trades e).
Proof. by intros []. Qed.

Lemma match_reject e c :
  rejects e c ->
  match_active_order e c =
    Some (clear_trades e,
          ([], if c_type c =? C_POST_ONLY
               then if would_cross e c then C_POST_ONLY_CROSS else C_OK
               else C_FOK_REJECTED, c_remaining c)).
Proof.
  intros H. unfold match_active_order, match_internal. destruct (Z.eqb_spec (c_type c) C_POST_ONLY).
  - done.
  - destruct H as [H|[H1 H2]]; [done|]. rewrite H1. cbn.
    unfold precheck_fok, opposite in *. cbn. by rewrite H2.
Qed.

Lemma rejects_dec e c :
  rejects e c \/ (c_type c <> C_POST_ONLY /\ (c_type c = C_FOK -> precheck_fok e c = true)).
Proof.
  unfold rejects. destruct (decide (c_type c = C_POST_ONLY)); [tauto|].
  destruct (precheck_fok e c); [tauto|]. destruct (decide (c_type c = C_FOK)); tauto.
Qed.

(** ** Theorems on matching *)

(** C3: refinement: unless the order is post-only or a rejected fill-or-kill,
    [match_active_order] returns the fills of a run of the abstract
    price-time-priority matcher on the opposite side's queue, and the run has
    halted: the taker is filled, the side is empty or its best price is beyond
    the limit.  C_NO_LIQUIDITY is returned exactly for a market or IOC order
    that is left with quantity and has not traded. *)
Theorem match_refines_fifo e c :
  engine_ok e -> valid_taker c -> fits_buffer e c -> ~ rejects e c ->
  exists e' ts outcome rem,
    match_active_order e c = Some (e', (ts, outcome, rem))
    /\ fills c (book_queue (opposite e (c_side c))) (c_remaining c) ts
         (book_queue (opposite e' (c_side c))) rem
    /\ halted c (book_queue (opposite e' (c_side c))) rem
    /\ book_side e' (c_side c) = book_side e (c_side c)
    /\ (outcome = C_OK \/ outcome = C_NO_LIQUIDITY)
    /\ (outcome = C_NO_LIQUIDITY <->
          f_ltb f_zero rem = true /\ (c_type c = C_MARKET \/ c_type c = C_IOC) /\ ts = []).
Proof.
  intros Hok Hv Hfit Hrej. destruct (rejects_dec e c) as [|[Hp Hf]]; [done|].
  destruct (match_walk_spec e c Hok Hv Hfit Hp Hf) as (ls & ts & outcome & rem & Hm & _ & _ & Hfl & Hh & _ & Ho).
  exists (after_match e c ls ts), ts, outcome, rem. split; [done|].
  assert (Hopp : opposite (after_match e c ls ts) (c_side c) = set_levels ls (opposite e (c_side c))).
  { unfold after_match, set_opposite, opposite. cbn. by destruct (c_side c =? C_BUY). }
  rewrite Hopp. split; [done|]. split; [done|]. split.
  { unfold after_match, set_opposite, book_side. cbn. by destruct (c_side c =? C_BUY). }
  rewrite Ho. clear Ho Hm. assert (C_OK <> C_NO_LIQUIDITY) by done.
  destruct (f_ltb f_zero rem), (Z.eqb_spec (c_type c) C_MARKET),
    (Z.eqb_spec (c_type c) C_IOC), ts; cbn; (split; [by auto|]); intuition congruence.
Qed.

(** price-time priority: the trades of a match consume a prefix of the
    opposite queue.  All entries before the [k]-th are gone, the [k]-th may
    stay with less quantity, every later entry is untouched, and every trade is
    at the price of the maker it fills, one of the first [k + 1] entries. *)
Theorem match_price_time_priority e c e' ts outcome rem :
  engine_ok e -> valid_taker c -> fits_buffer e c ->
  match_active_order e c = Some (e', (ts, outcome, rem)) ->
  exists k, consumed ts (book_queue (opposite e (c_side c))) (book_queue (opposite e' (c_side c))) k.
Proof.
  intros Hok Hv Hfit Hm. destruct (rejects_dec e c) as [Hr|[Hp Hf]].
  - rewrite (match_reject e c Hr) in Hm. simplify_eq. exists 0%nat.
    change (opposite (clear_trades e) _) with (opposite e (c_side c)).
    split; [lia|]. split; [by destruct (book_queue _)|]. split; [|constructor].
    intros p n Hq. destruct (book_queue _); cbn in *; [done|]. simplify_eq. eauto.
  - destruct (match_walk_spec e c Hok Hv Hfit Hp Hf) as (ls & ts' & o' & r' & Hm' & _ & _ & Hfl & _).
    rewrite Hm in Hm'. simplify_eq.
    assert (Hq : book_queue (opposite (after_match e c ls ts') (c_side c)) = queue_of ls).
    { unfold after_match, set_opposite, opposite, book_queue. cbn. by destruct (c_side c =? C_BUY). }
    rewrite Hq. by eapply fills_consumed.
Qed.

(** The price a trade may have under the taker's limit. *)
Definition within_limit (c : COrder) (p : float64) : Prop :=
  f_isnan (c_price c) = false ->
  if c_side c =? C_BUY then f_leb p (c_price c) = true else f_leb (c_price c) p = true.

Lemma queue_notnan s : side_ok s -> Forall (fun en => f_isnan en.1 = false) (book_queue s).
Proof.
  intros Hok. apply (queue_forall_price (fun p => f_isnan p = false)).
  eapply Forall_impl; [apply (sok_levels s Hok)|]. by intros l [].
Qed.

Lemma price_out_limit c p :
  valid_side (c_side c) -> f_isnan p = false -> price_out c p = false -> within_limit c p.
Proof.
  unfold price_out, within_limit. intros [-> | ->] Hp H Hn; rewrite Hn in H; cbn in *.
  - rewrite orb_false_r in H. rewrite f_ltb_not_leb in H by done. by apply negb_false_iff in H.
  - rewrite f_ltb_not_leb in H by done. by apply negb_false_iff in H.
Qed.

(** C28: price protection: a buy never trades above its limit and a sell never
    below; every trade names the taker and its side. *)
Theorem match_price_protection e c e' ts outcome rem :
  engine_ok e -> valid_taker c -> fits_buffer e c ->
  match_active_order e c = Some (e', (ts, outcome, rem)) ->
  Forall (fun t => within_limit c (tr_price t) /\ tr_taker t = c_order_id c /\ tr_side t = c_side c) ts.
Proof.
  intros Hok Hv Hfit Hm. destruct (rejects_dec e c) as [Hr|[Hp Hf]].
  - rewrite (match_reject e c Hr) in Hm. simplify_eq. constructor.
  - destruct (match_walk_spec e c Hok Hv Hfit Hp Hf) as (ls & ts' & o' & r' & Hm' & _ & _ & Hfl & _).
    rewrite Hm in Hm'. simplify_eq.
    pose proof (fills_trades _ _ _ _ _ _ Hfl) as Ht.
    destruct (fills_consumed _ _ _ _ _ _ Hfl) as [k (_ & _ & _ & Hc)].
    pose proof (queue_notnan _ (engine_ok_opposite e (c_side c) Hok)) as Hn.
    rewrite Forall_forall in Hn. rewrite Forall_forall in Ht, Hc.
    apply Forall_forall. intros t Hin. destruct (Ht t Hin) as (H1 & H2 & H3).
    split; [|done]. apply price_out_limit; [apply Hv| |done].
    destruct (Hc t Hin) as (p & n & Hp' & _ & ->). apply (Hn (p, n)).
    apply elem_of_take in Hp' as (i & Hi & _). by eapply list_elem_of_lookup_2.
Qed.

(** C29: [match_active_order] preserves every invariant of the book (strictly
    sorted levels, no empty level, order counts, positive quantities) whatever
    the order type and outcome. *)
Theorem match_preserves_ok e c e' r :
  engine_ok e -> valid_taker c -> fits_buffer e c ->
  match_active_order e c = Some (e', r) -> engine_ok e'.
Proof.
  intros Hok Hv Hfit Hm. destruct (rejects_dec e c) as [Hr|[Hp Hf]].
  - rewrite (match_reject e c Hr) in Hm. simplify_eq. by apply engine_ok_clear.
  - destruct (match_walk_spec e c Hok Hv Hfit Hp Hf) as (ls & ts & o' & r' & Hm' & H1 & H2 & _).
    rewrite Hm in Hm'. simplify_eq. by apply after_match_ok.
Qed.

(** a post-only order and a rejected fill-or-kill order never trade and
    never change the book; a post-only order is refused exactly when the best
    opposite price is acceptable to it. *)
Theorem match_rejects_untouched e c :
  rejects e c ->
  exists outcome,
    match_active_order e c = Some (clear_trades e, ([], outcome, c_remaining c))
    /\ (c_type c <> C_POST_ONLY -> outcome = C_FOK_REJECTED)
    /\ (c_type c = C_POST_ONLY ->
          outcome = C_POST_ONLY_CROSS \/ outcome = C_OK)
    /\ (c_type c = C_POST_ONLY ->
          (outcome = C_POST_ONLY_CROSS <->
           exists best, head (levels (opposite e (c_side c))) = Some best /\
             if c_side c =? C_BUY then f_leb (lvl_price best) (c_price c) = true
             else f_leb (c_price c) (lvl_price best) = true)).
Proof.
  intros Hr. rewrite (match_reject e c Hr). eexists. split; [reflexivity|].
  destruct (Z.eqb_spec (c_type c) C_POST_ONLY) as [E|E].
  - split; [done|]. split; [intros _; destruct (would_cross e c); auto|]. intros _.
    unfold would_cross. destruct (levels (opposite e (c_side c))) as [|best ls]; cbn.
    + split; [done|]. by intros (? & ? & _).
    + destruct (c_side c =? C_BUY), (f_leb _ _) eqn:El; split; intros H; try done;
        try (by exists best); destruct H as (b & Hb & H); simplify_eq; congruence.
  - split; [done|]. split; done.
Qed.

(** ** The book is never crossed *)

(** No bid at or above an ask. *)
Definition uncrossed (e : CMatchingEngine) : Prop :=
  Forall (fun b => Forall (fun a => f_ltb b.1 a.1 = true) (book_queue (asks e))) (book_queue (bids e)).

Lemma Forall_enqueued desc price x q q' (P : entry -> Prop) :
  (forall p, f_eqb p price = true -> P (p, x)) -> enqueued desc price x q q' -> Forall P q -> Forall P q'.
Proof.
  intros HP (q1 & q2 & p & -> & -> & He & _) H. apply Forall_app in H as [H1 H2].
  apply Forall_app. split; [done|]. constructor; [by apply HP|done].
Qed.

Lemma consumed_prices ts q q' k (P : float64 -> Prop) :
  consumed ts q q' k -> Forall (fun en => P en.1) q -> Forall (fun en => P en.1) q'.
Proof.
  intros (_ & Ht & Hh & _) H. destruct q' as [|[p n] q']; [done|]. cbn in Ht. constructor.
  - destruct (Hh p n eq_refl) as (n0 & Hk & _). rewrite Forall_lookup in H. by apply (H _ _ Hk).
  - rewrite Ht. by apply Forall_drop.
Qed.

Lemma halted_all c s rem :
  side_ok s -> is_descending s = negb (c_side c =? C_BUY) -> valid_side (c_side c) ->
  halted c (book_queue s) rem -> f_ltb f_zero rem = true ->
  Forall (fun en => price_out c en.1 = true) (book_queue s).
Proof.
  intros Hok Hd Hside Hh Hrem. apply (queue_forall_price (fun p => price_out c p = true)).
  destruct Hok as [Hs Hl _]. unfold book_queue in Hh. destruct (levels s) as [|l ls]; [constructor|].
  apply StronglySorted_inv in Hs as [_ Hs]. inversion_clear Hl as [|? ? [_ Hne _ _] _].
  assert (Hout : price_out c (lvl_price l) = true).
  { rewrite queue_cons in Hh. unfold level_queue in Hh. destruct (lvl_orders l) as [|n ns]; [done|].
    destruct Hh as [Hh|Hh]; [congruence|exact Hh]. }
  constructor; [done|]. eapply Forall_impl; [exact Hs|]. intros l' Hb. unfold level_better in Hb.
  rewrite Hd in Hb. unfold price_out in *. apply andb_true_iff in Hout as [Hn Hout]. rewrite Hn.
  destruct Hside as [E|E]; rewrite E in *; cbn in *.
  - rewrite orb_false_r in *. by eapply f_ltb_trans.
  - by eapply f_ltb_trans.
Qed.

Lemma fits_side e c : engine_ok e -> valid_side (c_side c) ->
  is_descending (opposite e (c_side c)) = negb (c_side c =? C_BUY).
Proof. intros [_ _ H1 H2 _] [-> | ->]; cbn; done. Qed.

Lemma walk_opposite e c ls ts :
  opposite (after_match e c ls ts) (c_side c) = set_levels ls (opposite e (c_side c)).
Proof. unfold after_match, set_opposite, opposite. cbn. by destruct (c_side c =? C_BUY). Qed.
Lemma walk_same_side e c ls ts : book_side (after_match e c ls ts) (c_side c) = book_side e (c_side c).
Proof. unfold after_match, set_opposite, book_side. cbn. by destruct (c_side c =? C_BUY). Qed.

Lemma uncrossed_sides e side :
  valid_side side ->
  uncrossed e <->
  Forall (fun x => Forall (fun y => (if side =? C_BUY then f_ltb x.1 y.1 else f_ltb y.1 x.1) = true)
            (book_queue (opposite e side))) (book_queue (book_side e side)).
Proof.
  unfold uncrossed. intros [-> | ->]; cbn; [done|].
  unfold opposite, book_side. cbn. rewrite !Forall_forall. setoid_rewrite Forall_forall. naive_solver.
Qed.

Lemma f_ltb_eqb_l x y z : f_eqb x y = true -> f_ltb x z = f_ltb y z.
Proof. exact (better_eqb_l false x y z). Qed.
Lemma f_ltb_eqb_r x y z : f_eqb x y = true -> f_ltb z x = f_ltb z y.
Proof. exact (better_eqb_l true x y z). Qed.

(** C31: matching a limit order and resting what is left of it at its limit
    price never leaves the book crossed: afterwards every bid is again strictly
    below every ask. *)
Theorem limit_order_uncrossed e c e1 ts outcome rem e2 :
  engine_ok e -> valid_taker c -> fits_buffer e c -> uncrossed e ->
  c_type c = C_LIMIT -> f_isnan (c_price c) = false ->
  match_active_order e c = Some (e1, (ts, outcome, rem)) ->
  (if f_ltb f_zero rem
   then add_passive_order e1 (c_order_id c) (c_side c) (c_price c) rem false f_zero f_zero
   else (e1, inr true)) = (e2, inr true) ->
  uncrossed e2.
Proof.
  intros Hok Hv Hfit Hun Ht Hp Hm Hadd.
  destruct (match_walk_spec e c Hok Hv Hfit) as (ls & ts' & o' & r' & Hm' & H1 & H2 & Hfl & Hh & Hr & _);
    [by rewrite Ht|by rewrite Ht|]. rewrite Hm in Hm'. simplify_eq.
  pose proof (after_match_ok e c ls ts' Hok H1 H2) as Hok1.
  pose proof (fills_consumed _ _ _ _ _ _ Hfl) as [k Hc].
  destruct Hv as [Hside Hrem].
  assert (Hun1 : uncrossed (after_match e c ls ts')).
  { apply (uncrossed_sides _ _ Hside). rewrite walk_opposite, walk_same_side.
    apply (uncrossed_sides _ _ Hside) in Hun.
    eapply Forall_impl; [exact Hun|]. cbn. intros x Hx.
    by apply (consumed_prices _ _ _ _ (fun p => (if c_side c =? C_BUY then f_ltb x.1 p else f_ltb p x.1) = true)
                (Hc)). }
  destruct (f_ltb f_zero r') eqn:Er; [|by simplify_eq].
  destruct (Z.gtb_spec (node_pool_size (after_match e c ls ts') + 1) (node_pool_cap (after_match e c ls ts')))
    as [Hg|Hg].
  { unfold add_passive_order in Hadd. rewrite valid_side_test in Hadd by done.
    rewrite fpos_not_leb in Hadd by auto using qty_ok_pos.
    destruct (Z.gtb_spec (node_pool_size (after_match e c ls ts') + 1) (node_pool_cap (after_match e c ls ts')));
      [done|lia]. }
  destruct (add_passive_order_spec (after_match e c ls ts') (c_order_id c) (c_side c) (c_price c) r'
              false f_zero f_zero Hok1 Hside Hp (qty_ok_pos _ Hr Er) ltac:(done) Hg)
    as (e' & He' & Hok' & Hopp & Henq).
  rewrite He' in Hadd. simplify_eq.
  apply (uncrossed_sides _ _ Hside). apply (uncrossed_sides _ _ Hside) in Hun1. rewrite Hopp.
  eapply Forall_enqueued; [|exact Henq|exact Hun1]. intros p Hpe. cbn [fst].
  rewrite walk_opposite.
  assert (Hall : Forall (fun en => price_out c en.1 = true) (queue_of ls)).
  { apply (halted_all c (set_levels ls (opposite e (c_side c))) r'); try done.
    - pose proof (engine_ok_opposite _ (c_side c) Hok1) as Ho. by rewrite walk_opposite in Ho.
    - by apply fits_side. }
  eapply Forall_impl; [exact Hall|]. intros [y n]. cbn [fst]. unfold price_out.
  rewrite Hp. cbn [negb andb]. destruct Hside as [E|E]; rewrite E; cbn; rewrite ?orb_false_r; intros.
  - by rewrite (f_ltb_eqb_l _ _ _ Hpe).
  - by rewrite (f_ltb_eqb_r _ _ _ Hpe).
Qed.

(** ** Witnesses: a limit buy of 2 at 11 against the demo book *)

Definition demo_taker (type : Z) (price qty : float64) : COrder :=
  MkCOrder 9 C_BUY type price qty qty false f_zero f_zero.
Definition demo_buy : COrder := demo_taker C_LIMIT f11 f2.
Definition demo_matched : CMatchingEngine := Eval vm_compute in
  match match_active_order demo_book demo_buy with Some (e, _) => e | None => demo_book end.
Definition demo_trades : list TradeResult := Eval vm_compute in
  match match_active_order demo_book demo_buy with Some (_, (ts, _, _)) => ts | None => [] end.

Lemma demo_taker_ok type price : valid_taker (demo_taker type price f2).
Proof. split; [by left|by right]. Qed.
Lemma demo_fits type price : fits_buffer demo_book (demo_taker type price f2).
Proof. done. Qed.
Lemma demo_uncrossed : uncrossed demo_book.
Proof. repeat constructor. Qed.

Lemma match_refines_fifo_witness :
  exists e' ts outcome rem, match_active_order demo_book demo_buy = Some (e', (ts, outcome, rem))
    /\ halted demo_buy (book_queue (asks e')) rem.
Proof.
  destruct (match_refines_fifo demo_book demo_buy) as (e' & ts & o & r & H1 & _ & H2 & _);
    [apply demo_book_ok|apply demo_taker_ok|apply demo_fits|intros [H|[H _]]; discriminate H|].
  exists e', ts, o, r. split; [exact H1|exact H2].
Defined.

Lemma match_price_time_priority_witness :
  exists k, consumed demo_trades (book_queue (asks demo_book)) (book_queue (asks demo_matched)) k.
Proof.
  apply (match_price_time_priority demo_book demo_buy demo_matched demo_trades C_OK f_zero);
    [apply demo_book_ok|apply demo_taker_ok|apply demo_fits|vm_compute; reflexivity].
Defined.

Lemma match_price_protection_witness :
  Forall (fun t => within_limit demo_buy (tr_price t) /\ tr_taker t = 9 /\ tr_side t = C_BUY) demo_trades.
Proof.
  apply (match_price_protection demo_book demo_buy demo_matched demo_trades C_OK f_zero);
    [apply demo_book_ok|apply demo_taker_ok|apply demo_fits|vm_compute; reflexivity].
Defined.

Lemma match_preserves_ok_witness : engine_ok demo_matched.
Proof.
  apply (match_preserves_ok demo_book demo_buy demo_matched (demo_trades, C_OK, f_zero));
    [apply demo_book_ok|apply demo_taker_ok|apply demo_fits|vm_compute; reflexivity].
Defined.

Lemma match_rejects_untouched_witness :
  exists outcome, match_active_order demo_book (demo_taker C_POST_ONLY f11 f2)
    = Some (clear_trades demo_book, ([], outcome, f2)).
Proof.
  destruct (match_rejects_untouched demo_book (demo_taker C_POST_ONLY f11 f2)) as (o & H & _);
    [by left|]. exists o. exact H.
Defined.

Lemma limit_order_uncrossed_witness : uncrossed demo_matched.
Proof.
  apply (limit_order_uncrossed demo_book demo_buy demo_matched demo_trades C_OK f_zero demo_matched);
    [apply demo_book_ok|apply demo_taker_ok|apply demo_fits|apply demo_uncrossed|reflexivity
    |reflexivity|vm_compute; reflexivity|vm_compute; reflexivity].
Defined.
