(* ===== verification/EngineExact.v ===== *)
(** * Matching: exact arithmetic

    Quantities that are multiples of one power of two below 2^53 units are
    added and subtracted exactly by the engine's doubles.  On such a book a
    match conserves quantity exactly and a fill-or-kill order is filled
    completely or rejected; on general doubles the second fails. *)

From Stdlib Require Import ZArith Lia Bool SpecFloat Sorted.
From stdpp Require Import base tactics option list strings.
From S2P Require Import Prelude Float64 FloatPos PyDecimal Models Engine EngineBook EngineMatch.
#[local] Open Scope Z_scope.

(** The number of [2^u] units of a double. *)
Definition uval (u : Z) (x : float64) : Z :=
  match x with
  | S754_finite s m e =>
      let v := if u <=? e then Zpos m * 2 ^ (e - u) else Zpos m / 2 ^ (u - e) in
      if s then - v else v
  | _ => 0
  end.

Definition on_units (u : Z) (x : float64) : Prop := grid u (uval u x) /\ x = f_units u (uval u x).

Lemma uval_units u z : grid u z -> uval u (f_units u z) = z.
Proof.
  intros [Hu Hz]. destruct z as [|p|p]; [done| |lia].
  assert (Hf : fits53 u p) by (split; lia). rewrite f_units_pos by done.
  pose proof (fits53_cexp u p Hf). pose proof (cmant_val u p Hf) as Hm. unfold uval. cbv zeta.
  assert (0 < 2 ^ (u - cexp u p)) by (apply Z.pow_pos_nonneg; lia).
  destruct (Z.leb_spec u (cexp u p)).
  - assert (E : cexp u p = u) by lia. rewrite E, Z.sub_diag in *. lia.
  - rewrite Hm. by apply Z.div_mul; lia.
Qed.

Lemma on_units_intro u z : grid u z -> on_units u (f_units u z).
Proof. intros H. split; rewrite uval_units by done; done. Qed.

Lemma on_units_elim u x : on_units u x -> exists z, grid u z /\ x = f_units u z /\ uval u x = z.
Proof. intros [H1 H2]. by exists (uval u x). Qed.

Lemma on_units_zero u x : on_units u x -> on_units u f_zero.
Proof. intros [[Hu _] _]. apply (on_units_intro u 0). split; [done|lia]. Qed.

Lemma uval_pos u x : on_units u x -> f_ltb f_zero x = (0 <? uval u x).
Proof.
  intros [Hg ->]. rewrite uval_units by done. apply (f_ltb_units u 0); [|done].
  split; [apply Hg|lia].
Qed.

Lemma uval_sub u x y :
  on_units u x -> on_units u y -> uval u y <= uval u x ->
  on_units u (f_sub x y) /\ uval u (f_sub x y) = uval u x - uval u y.
Proof.
  intros [Hx Ex] [Hy Ey] Hle. rewrite Ex, Ey, f_sub_units by done.
  rewrite !(uval_units u (uval u _)) by done.
  assert (grid u (uval u x - uval u y)) by (split; [apply Hx|destruct Hx, Hy; lia]).
  split; [by apply on_units_intro|by apply uval_units].
Qed.

Lemma uval_add u x y :
  on_units u x -> on_units u y -> uval u x + uval u y < 2 ^ 53 ->
  on_units u (f_add x y) /\ uval u (f_add x y) = uval u x + uval u y.
Proof.
  intros [Hx Ex] [Hy Ey] Hle. rewrite Ex, Ey, f_add_units by (done || by rewrite <- Ex, <- Ey).
  rewrite !(uval_units u (uval u _)) by done.
  assert (grid u (uval u x + uval u y)) by (split; [apply Hx|destruct Hx, Hy; lia]).
  split; [by apply on_units_intro|by apply uval_units].
Qed.

Lemma uval_leb u x y : on_units u x -> on_units u y -> f_leb x y = (uval u x <=? uval u y).
Proof. intros [Hx Ex] [Hy Ey]. rewrite Ex, Ey at 1. by apply f_leb_units. Qed.
Lemma uval_ltb u x y : on_units u x -> on_units u y -> f_ltb x y = (uval u x <? uval u y).
Proof. intros [Hx Ex] [Hy Ey]. rewrite Ex, Ey at 1. by apply f_ltb_units. Qed.

Lemma uval_range u x : on_units u x -> 0 <= uval u x < 2 ^ 53.
Proof. by intros [[_ H] _]. Qed.

(** ** One fill, in units *)

Definition node_units (u : Z) (n : OrderNode) : Prop :=
  on_units u (n_remaining n) /\ on_units u (n_visible n).

Definition avail (u : Z) (m : OrderNode) : Z :=
  if n_iceberg m then Z.min (uval u (n_visible m)) (uval u (n_remaining m)) else uval u (n_remaining m).

Record fill_exact (u : Z) (m : OrderNode) (rem f : float64) (m' : OrderNode) (rem' : float64) : Prop := {
  fe_fill : uval u f = Z.min (uval u rem) (avail u m);
  fe_taker : uval u rem = uval u f + uval u rem';
  fe_maker : uval u (n_remaining m) = uval u f + uval u (n_remaining m');
  fe_rem : on_units u rem';
  fe_node : node_units u m'
}.

Lemma fill_maker_exact u m rem f m' rem' :
  node_units u m -> on_units u rem -> fill_maker m rem = (f, m', rem') ->
  fill_exact u m rem f m' rem'.
Proof.
  intros [Hr Hv] Hrem. pose proof (on_units_zero _ _ Hr) as Hz.
  pose proof (uval_range _ _ Hr). pose proof (uval_range _ _ Hv). pose proof (uval_range _ _ Hrem).
  assert (Hz0 : uval u f_zero = 0) by done.
  unfold fill_maker. rewrite (uval_ltb u) by done.
  destruct (n_iceberg m) eqn:Ei; cbn [andb]; [destruct (Z.ltb_spec (uval u (n_visible m)) (uval u (n_remaining m)))|];
    rewrite (uval_leb u) by done.
  - destruct (Z.leb_spec (uval u (n_visible m)) (uval u rem)); intros [= <- <- <-].
    + destruct (uval_sub u (n_remaining m) (n_visible m)) as [S1 V1]; [done|done|lia|].
      destruct (uval_sub u rem (n_visible m)) as [S2 V2]; [done|done|lia|].
      split; unfold avail; rewrite ?Ei; cbn; try done; try lia.
      split; cbn; [done|]. by destruct (f_ltb _ _).
    + destruct (uval_sub u (n_remaining m) rem) as [S1 V1]; [done|done|lia|].
      destruct (uval_sub u (n_visible m) rem) as [S2 V2]; [done|done|lia|].
      split; unfold avail; rewrite ?Ei; cbn [n_remaining]; try done; try lia.
  - destruct (Z.leb_spec (uval u (n_remaining m)) (uval u rem)); intros [= <- <- <-].
    + destruct (uval_sub u (n_remaining m) (n_remaining m)) as [S1 V1]; [done|done|lia|].
      destruct (uval_sub u rem (n_remaining m)) as [S2 V2]; [done|done|lia|].
      split; unfold avail; rewrite ?Ei; cbn [n_remaining]; try done; try lia.
      split; cbn; [done|]. by destruct (f_ltb _ _).
    + destruct (uval_sub u (n_remaining m) rem) as [S1 V1]; [done|done|lia|].
      destruct (uval_sub u (n_visible m) rem) as [S2 V2]; [done|done|lia|].
      split; unfold avail; rewrite ?Ei; cbn [n_remaining]; try done; try lia.
  - destruct (Z.leb_spec (uval u (n_remaining m)) (uval u rem)); intros [= <- <- <-].
    + destruct (uval_sub u (n_remaining m) (n_remaining m)) as [S1 V1]; [done|done|lia|].
      destruct (uval_sub u rem (n_remaining m)) as [S2 V2]; [done|done|lia|].
      split; unfold avail; rewrite ?Ei; cbn [n_remaining]; try done; try lia.
    + destruct (uval_sub u (n_remaining m) rem) as [S1 V1]; [done|done|lia|].
      split; unfold avail; rewrite ?Ei; cbn [n_remaining]; try done; try lia.
Qed.

(** ** Runs conserve quantity *)

Definition queue_total (u : Z) (q : list entry) : Z := zsum (fun en => uval u (n_remaining en.2)) q.
Definition traded (u : Z) (ts : list TradeResult) : Z := zsum (fun t => uval u (tr_quantity t)) ts.
Definition queue_units (u : Z) (q : list entry) : Prop := Forall (fun en => node_units u en.2) q.

Lemma queue_total_nonneg u q : queue_units u q -> 0 <= queue_total u q.
Proof.
  intros H. apply zsum_nonneg. intros x Hx. unfold queue_units in H. rewrite Forall_forall in H.
  destruct (H x Hx) as [Hr _]. apply (uval_range _ _ Hr).
Qed.

Lemma maker_done u m' : node_units u m' -> f_leb (n_remaining m') f_zero = true -> uval u (n_remaining m') = 0.
Proof.
  intros [Hr _] H. pose proof (uval_range _ _ Hr).
  rewrite (uval_leb u _ _ Hr (on_units_zero _ _ Hr)) in H. apply Z.leb_le in H. cbn in H. lia.
Qed.

Lemma fills_conserve u c q r ts q' r' :
  fills c q r ts q' r' -> queue_units u q -> on_units u r ->
  uval u r = traded u ts + uval u r' /\ queue_total u q = traded u ts + queue_total u q'
  /\ queue_units u q' /\ on_units u r'.
Proof.
  unfold queue_units, queue_total, traded.
  induction 1 as [q r|p m tl r f m' r1 ts q' r' _ _ Hf Hd _ IH|p m tl r f m' r1 ts q' r' _ _ Hf _ _ IH];
    intros Hq Hr.
  - rewrite zsum_nil. split; [lia|]. split; [lia|done].
  - inversion_clear Hq as [|? ? Hm Htl].
    destruct (fill_maker_exact u m r f m' r1 Hm Hr Hf) as [_ H2 H3 H4 H5].
    apply (maker_done u) in Hd; [|done]. destruct (IH Htl H4) as (I1 & I2 & I3 & I4).
    rewrite !zsum_cons. cbn [snd tr_quantity trade_of].
    split; [lia|]. split; [lia|done].
  - inversion_clear Hq as [|? ? Hm Htl].
    destruct (fill_maker_exact u m r f m' r1 Hm Hr Hf) as [_ H2 H3 H4 H5].
    destruct IH as (I1 & I2 & I3 & I4); [by constructor|done|].
    rewrite !zsum_cons in *. cbn [snd tr_quantity trade_of] in *.
    split; [lia|]. split; [lia|done].
Qed.

(** A halted run has filled the taker if the acceptable prefix of the queue
    was large enough. *)
Lemma fills_complete u c q r ts q' r' q1 q2 :
  fills c q r ts q' r' -> halted c q' r' -> q = q1 ++ q2 ->
  queue_units u q -> on_units u r ->
  Forall (fun en => price_out c en.1 = false) q1 -> uval u r <= queue_total u q1 ->
  uval u r' = 0.
Proof.
  intros Hfl. revert q1. unfold queue_units, queue_total.
  induction Hfl as [q r|p m tl r f m' r1 ts q' r' Hr0 _ Hf Hd _ IH|p m tl r f m' r1 ts q' r' Hr0 _ Hf _ _ IH];
    intros q1 Hh Hq Hu Hr Hp Htot; pose proof (uval_range _ _ Hr) as Hrr;
    destruct q1 as [|[p1 m1] q1]; rewrite ?zsum_nil, ?zsum_cons in Htot; cbn [snd] in Htot;
    try lia.
  - subst q. cbn in Hh. inversion_clear Hp as [|? ? Hp1 _]. cbn in Hp1.
    destruct Hh as [Hh|Hh]; [|congruence]. rewrite (uval_pos u) in Hh by done.
    apply Z.ltb_ge in Hh. lia.
  - rewrite (uval_pos u r Hr) in Hr0. apply Z.ltb_lt in Hr0. lia.
  - cbn in Hq. simplify_eq. inversion_clear Hu as [|? ? Hm Htl]. inversion_clear Hp.
    destruct (fill_maker_exact u m1 r f m' r1 Hm Hr Hf) as [_ H2 H3 H4 H5].
    apply (maker_done u) in Hd; [|done]. apply (IH q1); try done. lia.
  - rewrite (uval_pos u r Hr) in Hr0. apply Z.ltb_lt in Hr0. lia.
  - cbn in Hq. simplify_eq. inversion_clear Hu as [|? ? Hm Htl]. inversion_clear Hp.
    destruct (fill_maker_exact u m1 r f m' r1 Hm Hr Hf) as [_ H2 H3 H4 H5].
    apply (IH ((p1, m') :: q1)); try done; [by constructor..|].
    rewrite zsum_cons. cbn [snd]. lia.
Qed.

(** ** Books on a grid *)

Definition level_total (u : Z) (l : PriceLevel) : Z := zsum (fun n => uval u (n_remaining n)) (lvl_orders l).

(** Every quantity of the level is on the grid and the cached volume is the
    sum of the remaining quantities. *)
Record level_units (u : Z) (l : PriceLevel) : Prop := {
  lu_nodes : Forall (node_units u) (lvl_orders l);
  lu_volume : on_units u (lvl_volume l) /\ uval u (lvl_volume l) = level_total u l
}.

Record side_units (u : Z) (s : OrderBookSide) : Prop := {
  su_levels : Forall (level_units u) (levels s);
  su_total : queue_total u (book_queue s) < 2 ^ 53
}.

Lemma level_queue_total u l : queue_total u (level_queue l) = level_total u l.
Proof.
  unfold queue_total, level_total, level_queue, zsum. induction (lvl_orders l) as [|n ns IH]; cbn; [done|].
  by rewrite IH.
Qed.

Lemma queue_total_app u q1 q2 : queue_total u (q1 ++ q2) = queue_total u q1 + queue_total u q2.
Proof. apply zsum_app. Qed.

Lemma side_queue_units u ls : Forall (level_units u) ls -> queue_units u (queue_of ls).
Proof.
  intros H. apply queue_Forall. eapply Forall_impl; [exact H|]. intros l [Hn _].
  apply Forall_fmap. eapply Forall_impl; [exact Hn|]. done.
Qed.

(** The liquidity a taker accepts: the levels up to the first too far. *)
Fixpoint acceptable_total (u : Z) (c : COrder) (ls : list PriceLevel) : Z :=
  match ls with
  | [] => 0
  | l :: ls => if price_out c (lvl_price l) then 0 else level_total u l + acceptable_total u c ls
  end.

Lemma acceptable_prefix u c ls :
  exists k, acceptable_total u c ls = queue_total u (queue_of (take k ls))
            /\ Forall (fun l => price_out c (lvl_price l) = false) (take k ls).
Proof.
  induction ls as [|l ls (k & IH1 & IH2)]; [by exists 0%nat|]. cbn.
  destruct (price_out c (lvl_price l)) eqn:E; [by exists 0%nat|].
  exists (S k). cbn [take]. rewrite queue_cons, queue_total_app, level_queue_total, IH1.
  split; [done|by constructor].
Qed.

Lemma level_total_nonneg u l : Forall (node_units u) (lvl_orders l) -> 0 <= level_total u l.
Proof.
  intros H. apply zsum_nonneg. intros n Hn. rewrite Forall_forall in H.
  destruct (H n Hn) as [Hr _]. apply (uval_range _ _ Hr).
Qed.

Lemma acceptable_nonneg u c ls : Forall (level_units u) ls -> 0 <= acceptable_total u c ls.
Proof.
  induction 1 as [|l ls [Hn _] _ IH]; cbn; [lia|]. pose proof (level_total_nonneg u l Hn).
  destruct (price_out _ _); lia.
Qed.

(** The fill-or-kill precheck decides whether the acceptable liquidity covers
    the order. *)
Lemma fok_loop_exact u c ls cum :
  Forall (level_units u) ls -> on_units u cum -> on_units u (c_quantity c) ->
  uval u cum < uval u (c_quantity c) ->
  uval u cum + queue_total u (queue_of ls) < 2 ^ 53 ->
  fok_loop c ls cum = (uval u (c_quantity c) <=? uval u cum + acceptable_total u c ls).
Proof.
  intros Hls. revert cum. induction Hls as [|l ls [Hn [Hv Ev]] Hls IH]; intros cum Hc Hq Hlt Hsum; cbn.
  - symmetry. apply Z.leb_gt. lia.
  - rewrite too_far_price. rewrite queue_cons, queue_total_app, level_queue_total in Hsum.
    pose proof (queue_total_nonneg u _ (side_queue_units u ls Hls)).
    pose proof (acceptable_nonneg u c ls Hls).
    destruct (price_out c (lvl_price l)); [symmetry; apply Z.leb_gt; lia|].
    destruct (uval_add u cum (lvl_volume l)) as [Ha Va]; [done|done|lia|].
    rewrite (uval_leb u) by done. rewrite Va, Ev.
    destruct (Z.leb_spec (uval u (c_quantity c)) (uval u cum + level_total u l)).
    + symmetry. apply Z.leb_le. lia.
    + rewrite IH by (done || lia). rewrite Va, Ev. f_equal. lia.
Qed.

Lemma on_units_fpos u x : on_units u x -> qty_ok x -> uval u x <> 0 -> 0 < uval u x.
Proof. intros Hx _ H. pose proof (uval_range u x Hx). lia. Qed.

Lemma on_units_zero_inv u x : on_units u x -> uval u x = 0 -> x = f_zero.
Proof. intros [_ E] Hz. rewrite Hz in E. by rewrite E. Qed.

(** on a grid a match conserves quantity exactly: what the taker loses,
    what the opposite side loses and the sum of the fills are the same number. *)
Theorem match_conserves_quantity u e c e' ts outcome rem :
  engine_ok e -> valid_taker c -> fits_buffer e c ->
  side_units u (opposite e (c_side c)) -> on_units u (c_remaining c) ->
  match_active_order e c = Some (e', (ts, outcome, rem)) ->
  uval u (c_remaining c) = traded u ts + uval u rem /\
  queue_total u (book_queue (opposite e (c_side c)))
    = traded u ts + queue_total u (book_queue (opposite e' (c_side c))).
Proof.
  intros Hok Hv Hfit [Hls _] Hrem Hm. destruct (rejects_dec e c) as [Hr|[Hp Hf]].
  - rewrite (match_reject e c Hr) in Hm. simplify_eq. cbn [traded]. unfold traded. rewrite zsum_nil.
    split; [lia|]. done.
  - destruct (match_walk_spec e c Hok Hv Hfit Hp Hf) as (ls & ts' & o' & r' & Hm' & _ & _ & Hfl & _).
    rewrite Hm in Hm'. simplify_eq.
    destruct (fills_conserve u _ _ _ _ _ _ Hfl) as (H1 & H2 & _);
      [by apply side_queue_units|done|]. by rewrite walk_opposite.
Qed.

(** C32: on a grid fill-or-kill is exact: the order is rejected (untouched
    book, no trade) exactly when the acceptable liquidity is smaller than its
    quantity, and otherwise it is filled completely. *)
Theorem fok_all_or_nothing u e c :
  engine_ok e -> valid_taker c -> fits_buffer e c ->
  side_units u (opposite e (c_side c)) -> on_units u (c_quantity c) ->
  c_type c = C_FOK -> c_remaining c = c_quantity c -> 0 < uval u (c_quantity c) ->
  exists e' ts outcome rem,
    match_active_order e c = Some (e', (ts, outcome, rem)) /\
    if acceptable_total u c (levels (opposite e (c_side c))) <? uval u (c_quantity c)
    then outcome = C_FOK_REJECTED /\ ts = [] /\ rem = c_quantity c /\ e' = clear_trades e
    else outcome = C_OK /\ rem = f_zero /\ traded u ts = uval u (c_quantity c).
Proof.
  intros Hok Hv Hfit Hsu Hq Ht Hrem Hpos. pose proof Hsu as [Hls Htot].
  pose proof (on_units_zero _ _ Hq) as Hz.
  assert (Hpre : precheck_fok e c =
    (uval u (c_quantity c) <=? acceptable_total u c (levels (opposite e (c_side c))))).
  { unfold precheck_fok. rewrite (fok_loop_exact u) by done. done. }
  destruct (Z.ltb_spec (acceptable_total u c (levels (opposite e (c_side c)))) (uval u (c_quantity c)))
    as [Hl|Hl].
  - assert (Hr : rejects e c) by (right; split; [done|]; rewrite Hpre; by apply Z.leb_gt).
    rewrite (match_reject e c Hr), Ht. do 4 eexists. split; [reflexivity|]. done.
  - destruct (match_walk_spec e c Hok Hv Hfit) as (ls & ts & o & r & Hm & _ & _ & Hfl & Hh & Hr & Ho);
      [by rewrite Ht|by intros; rewrite Hpre; apply Z.leb_le|].
    exists (after_match e c ls ts), ts, o, r. split; [done|].
    pose proof (side_queue_units u _ Hls) as Hqu. rewrite <- Hrem in Hq, Hl |- *.
    destruct (fills_conserve u _ _ _ _ _ _ Hfl Hqu Hq) as (H1 & _ & _ & H4).
    destruct (acceptable_prefix u c (levels (opposite e (c_side c)))) as (k & Hk1 & Hk2).
    assert (Hr0 : uval u r = 0).
    { apply (fills_complete u c _ _ _ _ _ (queue_of (take k (levels (opposite e (c_side c)))))
               (queue_of (drop k (levels (opposite e (c_side c))))) Hfl Hh); try done.
      - by rewrite <- queue_app, take_drop.
      - by apply (queue_forall_price (fun p => price_out c p = false)).
      - lia. }
    rewrite Ho, (on_units_zero_inv u r H4 Hr0). split; [done|]. split; [done|]. lia.
Qed.

(** in doubles fill-or-kill is not all-or-nothing: with 0.1 and 0.2
    resting, the cached volumes add up to 0.30000000000000004, so a
    fill-or-kill order of that size passes the precheck and is matched with
    C_OK, but subtracting the fills leaves a positive quantity unfilled. *)
Theorem fok_partial_fill_in_doubles :
  exists c ts rem e e',
    c_type c = C_FOK /\ c_remaining c = c_quantity c /\
    match_active_order e c = Some (e', (ts, C_OK, rem)) /\
    f_ltb f_zero rem = true /\ ts <> [].
Proof.
  pose (q1 := f_of_dec (Dec 1 (-1))). pose (q2 := f_of_dec (Dec 2 (-1))). pose (p := f_of_Z 10).
  pose (p' := f_of_Z 11).
  pose (e := (add_passive_order (add_passive_order new_engine 1 C_SELL p q1 false f_zero f_zero).1
               2 C_SELL p' q2 false f_zero f_zero).1).
  pose (c := MkCOrder 9 C_BUY C_FOK p' (f_add q1 q2) (f_add q1 q2) false f_zero f_zero).
  exists c. destruct (match_active_order e c) as [[e' [[ts o] rem]]|] eqn:E; [|by vm_compute in E].
  exists ts, rem, e, e'. vm_compute in E. injection E as <- <- <- <-.
  split; [done|]. split; [done|]. split; [vm_compute; reflexivity|]. split; [vm_compute; reflexivity|done].
Qed.

(** ** Witnesses *)

Lemma demo_asks_units : side_units 0 (asks demo_book).
Proof.
  assert (H1 : on_units 0 f1) by (apply (on_units_intro 0 1); split; lia).
  assert (H2 : on_units 0 f2) by (apply (on_units_intro 0 2); split; lia).
  split; [|done].
  repeat (apply Forall_cons; split); try apply Forall_nil; try done; split; cbn;
    try (by repeat constructor); (split; [assumption|reflexivity]).
Qed.

Lemma match_conserves_quantity_witness :
  uval 0 f2 = traded 0 demo_trades + uval 0 f_zero.
Proof.
  refine (proj1 (match_conserves_quantity 0 demo_book demo_buy demo_matched demo_trades C_OK f_zero _ _ _ _ _ _));
    [apply demo_book_ok|apply demo_taker_ok|apply demo_fits|apply demo_asks_units
    |apply (on_units_intro 0 2); split; lia|vm_compute; reflexivity].
Defined.

Lemma fok_all_or_nothing_witness :
  exists e' ts outcome rem,
    match_active_order demo_book (demo_taker C_FOK f11 f2) = Some (e', (ts, outcome, rem))
    /\ outcome = C_OK /\ rem = f_zero /\ traded 0 ts = 2.
Proof.
  destruct (fok_all_or_nothing 0 demo_book (demo_taker C_FOK f11 f2)) as (e' & ts & o & r & H & Hr);
    [apply demo_book_ok|apply demo_taker_ok|apply demo_fits|apply demo_asks_units
    |apply (on_units_intro 0 2); split; lia|reflexivity|reflexivity|reflexivity|].
  exists e', ts, o, r. split; [exact H|exact Hr].
Defined.
