(* ===== verification/RedisIface.v ===== *)
(** * The Redis server, as an interface

    Redis is not part of the repository.  [Redis] is the class of servers: an
    opaque state and one function per command the code issues.  [RedisSpec]
    states the documented behaviour of each command against a [Keyspace], an
    abstract view of the server's contents.  [MemRedis] is an instance: a
    server whose state is its keyspace.  Every key of the code is used with
    one data type, so a key space per type loses nothing; connection failures
    and key expiry are not part of the interface. *)

From Stdlib Require Import ZArith Lia Bool SpecFloat Sorted.
From stdpp Require Import base tactics option list strings gmap sets sorting.
From S2P Require Import Prelude Float64 PyDecimal Models.
#[local] Open Scope Z_scope.

(** ** The abstract key space *)

Record Keyspace := MkKeyspace {
  zsets : gmap string (gmap string float64);
  hashes : gmap string (gmap string hval);
  lists : gmap string (list jval);
  rsets : gmap string (gset string);
  counters : gmap string Z;
  published : list (string * jval)
}.

Definition empty_keyspace : Keyspace := MkKeyspace ∅ ∅ ∅ ∅ ∅ [].

Definition ks_zset (ks : Keyspace) (k : string) : gmap string float64 := default ∅ (zsets ks !! k).
Definition ks_hash (ks : Keyspace) (k : string) : gmap string hval := default ∅ (hashes ks !! k).
Definition ks_list (ks : Keyspace) (k : string) : list jval := default [] (lists ks !! k).
Definition ks_set (ks : Keyspace) (k : string) : gset string := default ∅ (rsets ks !! k).
Definition ks_counter (ks : Keyspace) (k : string) : Z := default 0 (counters ks !! k).

Definition upd_zset (k : string) (f : gmap string float64 -> gmap string float64) (ks : Keyspace) : Keyspace :=
  {| zsets := (let v := f (ks_zset ks k) in
               if decide (v = ∅) then delete k (zsets ks) else <[k := v]> (zsets ks));
     hashes := hashes ks; lists := lists ks; rsets := rsets ks;
     counters := counters ks; published := published ks |}.
Definition upd_hash (k : string) (f : gmap string hval -> gmap string hval) (ks : Keyspace) : Keyspace :=
  {| zsets := zsets ks;
     hashes := (let v := f (ks_hash ks k) in
                if decide (v = ∅) then delete k (hashes ks) else <[k := v]> (hashes ks));
     lists := lists ks; rsets := rsets ks; counters := counters ks; published := published ks |}.
Definition upd_list (k : string) (f : list jval -> list jval) (ks : Keyspace) : Keyspace :=
  {| zsets := zsets ks; hashes := hashes ks;
     lists := (match f (ks_list ks k) with [] => delete k (lists ks) | v => <[k := v]> (lists ks) end);
     rsets := rsets ks; counters := counters ks; published := published ks |}.
Definition upd_set (k : string) (f : gset string -> gset string) (ks : Keyspace) : Keyspace :=
  {| zsets := zsets ks; hashes := hashes ks; lists := lists ks;
     rsets := (let v := f (ks_set ks k) in
               if decide (v = ∅) then delete k (rsets ks) else <[k := v]> (rsets ks));
     counters := counters ks; published := published ks |}.
Definition ks_incr (k : string) (ks : Keyspace) : Keyspace :=
  {| zsets := zsets ks; hashes := hashes ks; lists := lists ks; rsets := rsets ks;
     counters := <[k := ks_counter ks k + 1]> (counters ks); published := published ks |}.
Definition ks_publish (chan : string) (m : jval) (ks : Keyspace) : Keyspace :=
  {| zsets := zsets ks; hashes := hashes ks; lists := lists ks; rsets := rsets ks;
     counters := counters ks; published := published ks ++ [(chan, m)] |}.
Definition ks_del (k : string) (ks : Keyspace) : Keyspace :=
  {| zsets := delete k (zsets ks); hashes := delete k (hashes ks); lists := delete k (lists ks);
     rsets := delete k (rsets ks); counters := delete k (counters ks); published := published ks |}.
Definition ks_exists (k : string) (ks : Keyspace) : bool :=
  bool_decide (is_Some (zsets ks !! k)) || bool_decide (is_Some (hashes ks !! k))
  || bool_decide (is_Some (lists ks !! k)) || bool_decide (is_Some (rsets ks !! k))
  || bool_decide (is_Some (counters ks !! k)).

(** The keys that begin with [p]. *)
Definition ks_scan (p : string) (ks : Keyspace) : list string :=
  filter (fun k => String.prefix p k = true)
    (elements (dom (zsets ks) ∪ dom (hashes ks) ∪ dom (lists ks) ∪ dom (rsets ks) ∪ dom (counters ks))).
Lemma ks_scan_spec p ks k : k ∈ ks_scan p ks <-> String.prefix p k = true /\ ks_exists k ks = true.
Proof.
  unfold ks_scan, ks_exists. rewrite list_elem_of_filter, elem_of_elements, !elem_of_union, !elem_of_dom.
  rewrite !orb_true_iff, !bool_decide_eq_true. done.
Qed.

(** A sorted set in rank order: by score, equal scores by member. *)
Definition zle (a b : string * float64) : Prop :=
  f_ltb a.2 b.2 = true \/ (f_ltb b.2 a.2 = false /\ String.leb a.1 b.1 = true).
#[export] Instance zle_dec a b : Decision (zle a b).
Proof. unfold zle. apply _. Defined.

#[export] Instance zle_total : Total zle.
Proof.
  intros a b. unfold zle.
  destruct (f_ltb a.2 b.2) eqn:E1; [by left; left|]. destruct (f_ltb b.2 a.2) eqn:E2; [by right; left|].
  destruct (String.leb_total a.1 b.1); auto.
Qed.

Definition zrank (z : gmap string float64) : list (string * float64) := merge_sort zle (map_to_list z).

(** Ranks [start..stop] of a list; negative ranks count from the end. *)
Definition rank_slice {A} (l : list A) (start stop : Z) : list A :=
  let n := Z.of_nat (length l) in
  let fix_rank r := if r <? 0 then n + r else r in
  let lo := Z.max 0 (fix_rank start) in
  let hi := Z.min (n - 1) (fix_rank stop) in
  if lo >? hi then [] else take (Z.to_nat (hi - lo + 1)) (drop (Z.to_nat lo) l).

Definition in_scores (lo hi : float64) (e : string * float64) : bool :=
  f_leb lo e.2 && f_leb e.2 hi.
Definition ks_zrangebyscore (ks : Keyspace) (k : string) (lo hi : float64) : list string :=
  fst <$> filter (fun e => in_scores lo hi e = true) (zrank (ks_zset ks k)).

(** ** The interface *)

Class Redis := {
  rstate : Type;
  r_zadd : string -> string -> float64 -> rstate -> rstate;
  r_zrem : string -> string -> rstate -> rstate;
  r_zcard : string -> rstate -> Z;
  r_zscore : string -> string -> rstate -> option float64;
  r_zrange : string -> Z -> Z -> rstate -> list (string * float64);
  r_zrevrange : string -> Z -> Z -> rstate -> list (string * float64);
  r_zrangebyscore : string -> float64 -> float64 -> rstate -> list string;
  r_zremrangebyscore : string -> float64 -> float64 -> rstate -> rstate;
  r_hset : string -> gmap string hval -> rstate -> rstate;
  r_hgetall : string -> rstate -> gmap string hval;
  r_del : string -> rstate -> rstate;
  r_exists : string -> rstate -> bool;
  r_scan : string -> rstate -> list string;
  r_lpush : string -> jval -> rstate -> rstate;
  r_rpop : string -> rstate -> rstate * option jval;
  r_llen : string -> rstate -> Z;
  r_lrange : string -> Z -> Z -> rstate -> list jval;
  r_sadd : string -> string -> rstate -> rstate;
  r_srem : string -> string -> rstate -> rstate;
  r_smembers : string -> rstate -> list string;
  r_scard : string -> rstate -> Z;
  r_sismember : string -> string -> rstate -> bool;
  r_incr : string -> rstate -> rstate * Z;
  r_publish : string -> jval -> rstate -> rstate
}.

Class RedisSpec (R : Redis) := {
  view : rstate -> Keyspace;
  zadd_view k m s st : view (r_zadd k m s st) = upd_zset k (<[m := s]>) (view st);
  zrem_view k m st : view (r_zrem k m st) = upd_zset k (delete m) (view st);
  zcard_view k st : r_zcard k st = Z.of_nat (size (ks_zset (view st) k));
  zscore_view k m st : r_zscore k m st = ks_zset (view st) k !! m;
  zrange_view k a b st : r_zrange k a b st = rank_slice (zrank (ks_zset (view st) k)) a b;
  zrevrange_view k a b st : r_zrevrange k a b st = rank_slice (reverse (zrank (ks_zset (view st) k))) a b;
  zrangebyscore_view k lo hi st : r_zrangebyscore k lo hi st = ks_zrangebyscore (view st) k lo hi;
  zremrangebyscore_view k lo hi st :
    view (r_zremrangebyscore k lo hi st) =
    upd_zset k (filter (fun e => in_scores lo hi e = false)) (view st);
  hset_view k fs st : view (r_hset k fs st) = upd_hash k (fun h => fs ∪ h) (view st);
  hgetall_view k st : r_hgetall k st = ks_hash (view st) k;
  del_view k st : view (r_del k st) = ks_del k (view st);
  exists_view k st : r_exists k st = ks_exists k (view st);
  scan_view p st k : k ∈ r_scan p st <-> String.prefix p k = true /\ ks_exists k (view st) = true;
  lpush_view k x st : view (r_lpush k x st) = upd_list k (cons x) (view st);
  rpop_view k st :
    match r_rpop k st with
    | (st', Some x) => exists l, ks_list (view st) k = l ++ [x] /\ view st' = upd_list k (fun _ => l) (view st)
    | (st', None) => ks_list (view st) k = [] /\ view st' = view st
    end;
  llen_view k st : r_llen k st = Z.of_nat (length (ks_list (view st) k));
  lrange_view k a b st : r_lrange k a b st = rank_slice (ks_list (view st) k) a b;
  sadd_view k m st : view (r_sadd k m st) = upd_set k (union {[m]}) (view st);
  srem_view k m st : view (r_srem k m st) = upd_set k (.∖ {[m]}) (view st);
  smembers_view k st : r_smembers k st ≡ₚ elements (ks_set (view st) k);
  scard_view k st : r_scard k st = Z.of_nat (size (ks_set (view st) k));
  sismember_view k m st : r_sismember k m st = bool_decide (m ∈ ks_set (view st) k);
  incr_view k st : view (r_incr k st).1 = ks_incr k (view st) /\ (r_incr k st).2 = ks_counter (view st) k + 1;
  publish_view c m st : view (r_publish c m st) = ks_publish c m (view st)
}.

(** ** Commands as programs *)

Abbreviation rprog := (prog rstate exn).

Section Commands.
Context {R : Redis}.
Implicit Types k m c : string.

Definition zadd k m s : rprog unit := modify (r_zadd k m s).
(** ZREM replies with the number of members removed. *)
Definition zrem k m : rprog Z :=
  old ← gets (r_zscore k m);
  _ ← modify (r_zrem k m);
  mret (match old with Some _ => 1 | None => 0 end).
Definition zcard k : rprog Z := gets (r_zcard k).
Definition zrange k a b : rprog (list (string * float64)) := gets (r_zrange k a b).
Definition zrevrange k a b : rprog (list (string * float64)) := gets (r_zrevrange k a b).
Definition zrangebyscore k lo hi : rprog (list string) := gets (r_zrangebyscore k lo hi).
Definition zremrangebyscore k lo hi : rprog unit := modify (r_zremrangebyscore k lo hi).
Definition hset k (fs : gmap string hval) : rprog unit := modify (r_hset k fs).
Definition hgetall k : rprog (gmap string hval) := gets (r_hgetall k).
(** DEL replies with the number of keys deleted. *)
Definition del (k : string) : rprog Z :=
  b ← gets (r_exists k);
  _ ← modify (r_del k);
  mret (Z.b2z b).
(** SCAN MATCH p*, to its end; it may report a key more than once. *)
Definition scan (p : string) : rprog (list string) := gets (r_scan p).
Definition lpush k x : rprog unit := modify (r_lpush k x).
Definition rpop (k : string) : rprog (option jval) := fun st => let '(st', x) := r_rpop k st in (st', inr x).
Definition llen (k : string) : rprog Z := gets (r_llen k).
Definition lrange k a b : rprog (list jval) := gets (r_lrange k a b).
Definition sadd k m : rprog unit := modify (r_sadd k m).
Definition srem k m : rprog unit := modify (r_srem k m).
Definition smembers k : rprog (list string) := gets (r_smembers k).
Definition scard k : rprog Z := gets (r_scard k).
Definition sismember k m : rprog bool := gets (r_sismember k m).
Definition incr (k : string) : rprog Z := fun st => let '(st', n) := r_incr k st in (st', inr n).
Definition publish c (msg : jval) : rprog unit := modify (r_publish c msg).

End Commands.

(** ** A server that is its key space *)

#[export] Instance MemRedis : Redis := {|
  rstate := Keyspace;
  r_zadd k m s := upd_zset k (<[m := s]>);
  r_zrem k m := upd_zset k (delete m);
  r_zcard k st := Z.of_nat (size (ks_zset st k));
  r_zscore k m st := ks_zset st k !! m;
  r_zrange k a b st := rank_slice (zrank (ks_zset st k)) a b;
  r_zrevrange k a b st := rank_slice (reverse (zrank (ks_zset st k))) a b;
  r_zrangebyscore k lo hi st := ks_zrangebyscore st k lo hi;
  r_zremrangebyscore k lo hi := upd_zset k (filter (fun e => in_scores lo hi e = false));
  r_hset k fs := upd_hash k (fun h => fs ∪ h);
  r_hgetall k st := ks_hash st k;
  r_del := ks_del;
  r_exists := ks_exists;
  r_scan := ks_scan;
  r_lpush k x := upd_list k (cons x);
  r_rpop k st := match last (ks_list st k) with
                 | Some x => (upd_list k (fun _ => removelast (ks_list st k)) st, Some x)
                 | None => (st, None)
                 end;
  r_llen k st := Z.of_nat (length (ks_list st k));
  r_lrange k a b st := rank_slice (ks_list st k) a b;
  r_sadd k m := upd_set k (union {[m]});
  r_srem k m := upd_set k (.∖ {[m]});
  r_smembers k st := elements (ks_set st k);
  r_scard k st := Z.of_nat (size (ks_set st k));
  r_sismember k m st := bool_decide (m ∈ ks_set st k);
  r_incr k st := (ks_incr k st, ks_counter st k + 1);
  r_publish := ks_publish
|}.

#[export] Instance MemRedisSpec : RedisSpec MemRedis.
Proof.
  refine {| view := id |}; try done.
  { intros p st k. apply ks_scan_spec. }
  intros k st. cbn. destruct (last (ks_list st k)) as [x|] eqn:E.
  - exists (removelast (ks_list st k)). split; [|done].
    apply last_Some in E as [l E]. unfold id. rewrite E. f_equal. symmetry. apply removelast_last.
  - by apply last_None in E.
Defined.

(** ** Reading back an update *)

Section Updates.
Implicit Types ks : Keyspace.

Lemma ks_zset_upd k f ks : ks_zset (upd_zset k f ks) k = f (ks_zset ks k).
Proof.
  unfold ks_zset at 1, upd_zset. cbn. destruct (decide _) as [E|E].
  - by rewrite lookup_delete_eq, E.
  - by rewrite lookup_insert_eq.
Qed.
Lemma ks_zset_upd_ne k k' f ks : k <> k' -> ks_zset (upd_zset k f ks) k' = ks_zset ks k'.
Proof.
  intros H. unfold ks_zset, upd_zset. cbn.
  destruct (decide _); [by rewrite lookup_delete_ne|by rewrite lookup_insert_ne].
Qed.
Lemma ks_hash_upd k f ks : ks_hash (upd_hash k f ks) k = f (ks_hash ks k).
Proof.
  unfold ks_hash at 1, upd_hash. cbn. destruct (decide _) as [E|E].
  - by rewrite lookup_delete_eq, E.
  - by rewrite lookup_insert_eq.
Qed.
Lemma ks_hash_upd_ne k k' f ks : k <> k' -> ks_hash (upd_hash k f ks) k' = ks_hash ks k'.
Proof.
  intros H. unfold ks_hash, upd_hash. cbn.
  destruct (decide _); [by rewrite lookup_delete_ne|by rewrite lookup_insert_ne].
Qed.
Lemma ks_list_upd k f ks : ks_list (upd_list k f ks) k = f (ks_list ks k).
Proof.
  unfold ks_list at 1, upd_list. cbn. destruct (f (ks_list ks k)).
  - by rewrite lookup_delete_eq.
  - by rewrite lookup_insert_eq.
Qed.
Lemma ks_list_upd_ne k k' f ks : k <> k' -> ks_list (upd_list k f ks) k' = ks_list ks k'.
Proof.
  intros H. unfold ks_list, upd_list. cbn.
  destruct (f _); [by rewrite lookup_delete_ne|by rewrite lookup_insert_ne].
Qed.
Lemma ks_set_upd k f ks : ks_set (upd_set k f ks) k = f (ks_set ks k).
Proof.
  unfold ks_set at 1, upd_set. cbn. destruct (decide _) as [E|E].
  - by rewrite lookup_delete_eq, E.
  - by rewrite lookup_insert_eq.
Qed.
Lemma ks_set_upd_ne k k' f ks : k <> k' -> ks_set (upd_set k f ks) k' = ks_set ks k'.
Proof.
  intros H. unfold ks_set, upd_set. cbn.
  destruct (decide _); [by rewrite lookup_delete_ne|by rewrite lookup_insert_ne].
Qed.
Lemma ks_zset_del k ks : ks_zset (ks_del k ks) k = ∅.
Proof. unfold ks_zset, ks_del. cbn. by rewrite lookup_delete_eq. Qed.
Lemma ks_hash_del k ks : ks_hash (ks_del k ks) k = ∅.
Proof. unfold ks_hash, ks_del. cbn. by rewrite lookup_delete_eq. Qed.
Lemma ks_set_del k ks : ks_set (ks_del k ks) k = ∅.
Proof. unfold ks_set, ks_del. cbn. by rewrite lookup_delete_eq. Qed.
Lemma ks_zset_del_ne k k' ks : k <> k' -> ks_zset (ks_del k ks) k' = ks_zset ks k'.
Proof. intros H. unfold ks_zset, ks_del. cbn. by rewrite lookup_delete_ne. Qed.
Lemma ks_hash_del_ne k k' ks : k <> k' -> ks_hash (ks_del k ks) k' = ks_hash ks k'.
Proof. intros H. unfold ks_hash, ks_del. cbn. by rewrite lookup_delete_ne. Qed.
Lemma ks_set_del_ne k k' ks : k <> k' -> ks_set (ks_del k ks) k' = ks_set ks k'.
Proof. intros H. unfold ks_set, ks_del. cbn. by rewrite lookup_delete_ne. Qed.
End Updates.

Create Rewrite HintDb redis.
#[export] Hint Rewrite ks_zset_upd ks_hash_upd ks_list_upd ks_set_upd ks_zset_del ks_hash_del ks_set_del : redis.

(** Updates of one data type leave the others alone. *)
Ltac redis_frame := repeat first [reflexivity | progress autorewrite with redis].

(** ** Sorted sets *)

Lemma zrank_perm z : zrank z ≡ₚ map_to_list z.
Proof. apply merge_sort_Permutation. Qed.

Lemma zrank_elem z m s : (m, s) ∈ zrank z <-> z !! m = Some s.
Proof. rewrite zrank_perm. apply elem_of_map_to_list. Qed.

Lemma zrank_nodup z : NoDup (fst <$> zrank z).
Proof. rewrite zrank_perm. apply NoDup_fst_map_to_list. Qed.

Lemma zrank_length z : length (zrank z) = size z.
Proof. rewrite zrank_perm. apply length_map_to_list. Qed.

(** No NaN scores: Redis refuses them. *)
Definition zset_ok (z : gmap string float64) : Prop := map_Forall (fun _ s => f_isnan s = false) z.

Definition score_le (a b : string * float64) : Prop := f_leb a.2 b.2 = true.

Lemma Sorted_weaken {A} (R1 R2 : A -> A -> Prop) l :
  (forall x y, x ∈ l -> y ∈ l -> R1 x y -> R2 x y) -> Sorted R1 l -> Sorted R2 l.
Proof.
  intros Hi H. induction H as [|x l Hs IH Hd]; constructor.
  - apply IH. intros a b Ha Hb. apply Hi; by right.
  - destruct Hd as [|y l Hr]; constructor. apply Hi; [by left|right; by left|done].
Qed.

(** A sorted set is returned in increasing order of scores. *)
Lemma zrank_sorted z : zset_ok z -> StronglySorted score_le (zrank z).
Proof.
  intros Hz. apply Sorted_StronglySorted.
  - intros x y w. unfold score_le. apply f_leb_trans.
  - apply (Sorted_weaken zle); [|apply Sorted_merge_sort, _].
    intros [m s] [m' s'] Hx Hy. apply zrank_elem in Hx, Hy.
    apply Hz in Hx, Hy. unfold zle, score_le. cbn in *.
    intros [H|[H _]]; [by apply f_ltb_leb|].
    rewrite f_ltb_not_leb in H by done. by apply negb_false_iff in H.
Qed.

Lemma rank_slice_prefix {A} (l : list A) n :
  0 <= n -> rank_slice l 0 n = take (Z.to_nat (n + 1)) l.
Proof.
  intros Hn. unfold rank_slice. destruct (Z.ltb_spec n 0); [lia|].
  replace (if 0 <? 0 then Z.of_nat (length l) + 0 else 0) with 0 by done. rewrite Z.max_id.
  destruct l as [|x l].
  { rewrite drop_nil, !take_nil. by destruct (_ >? _). }
  cbn [length]. destruct (Z.gtb_spec 0 (Z.min (Z.of_nat (S (length l)) - 1) n)); [lia|].
  rewrite drop_0, Z.sub_0_r. destruct (decide (Z.of_nat (S (length l)) - 1 <= n)).
  - rewrite Z.min_l by lia. rewrite !take_ge by (cbn [length]; lia). done.
  - by rewrite Z.min_r by lia.
Qed.

Lemma rank_slice_all {A} (l : list A) : rank_slice l 0 (-1) = l.
Proof.
  unfold rank_slice. destruct l as [|x l]; [done|].
  change (if 0 <? 0 then Z.of_nat (length (x :: l)) + 0 else 0) with 0. rewrite Z.max_id.
  change (-1 <? 0) with true. cbn [length].
  destruct (Z.gtb_spec 0 (Z.min (Z.of_nat (S (length l)) - 1) (Z.of_nat (S (length l)) + -1))); [lia|].
  rewrite drop_0. apply take_ge. cbn [length]. lia.
Qed.

Lemma rank_slice_sublist {A} (l : list A) a b : sublist (rank_slice l a b) l.
Proof.
  unfold rank_slice. destruct (_ >? _); [apply sublist_nil_l|].
  etransitivity; [apply sublist_take|apply sublist_drop].
Qed.
