(* ===== verification/OrderBook.v ===== *)
(** * The order book in Redis: app/redis_client/orderbook.py

    Scores pack a price and a sequence number; a side is a sorted set of order
    ids; the metadata of an order is a hash.  Theorems: the score encoding
    round-trips and orders by price then sequence below 2^53, and not above;
    asks are served in price-time order; bids of one price are served newest
    first. *)

From Stdlib Require Import ZArith Lia Bool SpecFloat Sorted.
From stdpp Require Import base tactics option list strings gmap sets sorting.
From S2P Require Import Prelude Float64 FloatPos PyDecimal DecFloat Models RedisIface.
#[local] Open Scope Z_scope.

(** ** Keys *)

Definition bids_key (symbol : string) : string := "ob:" +:+ symbol +:+ ":bids".
Definition asks_key (symbol : string) : string := "ob:" +:+ symbol +:+ ":asks".
Definition order_hash_key (order_id : Z) : string := "order:" +:+ str_of_Z order_id.
Definition seq_key (symbol : string) : string := "seq:orders:" +:+ symbol.

(** On a text; a member of the enum stands for its value, which [lower] keeps. *)
Definition side_key (symbol side : string) : exn + string :=
  if String.eqb (lower side) "buy" then inr (bids_key symbol)
  else if String.eqb (lower side) "sell" then inr (asks_key symbol)
  else inl (ValueError "Invalid side").
Definition opposite_side_key (symbol side : string) : exn + string :=
  if String.eqb (lower side) "buy" then inr (asks_key symbol)
  else if String.eqb (lower side) "sell" then inr (bids_key symbol)
  else inl (ValueError "Invalid side").

(** ** Scores *)

Definition PRICE_SCALE : Z := 10000.
Definition SCORE_MULTIPLIER : Z := 1000000.

(** [encode_score(price, seq)], on [p = float(price)]. *)
Definition encode_score (p : float64) (seq : Z) : exn + float64 :=
  if f_ltb p f_zero then inl (ValueError "price must be non-negative")
  else if f_ltb (f_of_Z 9200000000) p then inl (ValueError "price too large for score encoding")
  else if negb ((0 <=? seq) && (seq <? SCORE_MULTIPLIER)) then inl (ValueError "seq out of range")
  else match f_round (f_mul p (f_of_Z PRICE_SCALE)) with
       | None => inl (ValueError "cannot convert float NaN to integer")
       | Some price_int => inr (f_of_Z (price_int * SCORE_MULTIPLIER + seq))
       end.

Definition decode_score (score : float64) : exn + (float64 * Z) :=
  match f_round score with
  | None => inl (ValueError "cannot convert float to integer")
  | Some s =>
      let price_int := s / SCORE_MULTIPLIER in
      let seq := s - price_int * SCORE_MULTIPLIER in
      inr (f_of_ratio price_int (Z.to_pos PRICE_SCALE), seq)
  end.

(** ** Order metadata *)

Definition ORDER_HASH_FIELDS : list string :=
  ["order_id"; "user_id"; "symbol"; "side"; "type"; "status"; "price"; "stop_price";
   "quantity"; "filled_quantity"; "visible_quantity"; "hidden_quantity"; "is_iceberg";
   "parent_order_id"; "sl_order_id"; "tp_order_id"; "bulk_id"; "created_at_ts"].

(** A metadata dict: Python's None inside is stored as the empty text. *)
Definition metadata : Type := gmap string (option hval).
Definition flat_fields (m : metadata) : gmap string hval := default (HText "") <$> m.
Definition known_fields (m : metadata) : metadata :=
  filter (fun kv => kv.1 ∈ ORDER_HASH_FIELDS) m.

(** [h.get(k1) or h.get(k2) or ... or dflt] *)
Fixpoint hget_or (h : gmap string hval) (ks : list string) (dflt : hval) : hval :=
  match ks with
  | [] => dflt
  | k :: ks => match h !! k with
               | Some v => if hval_truthy v then v else hget_or h ks dflt
               | None => hget_or h ks dflt
               end
  end.
Definition hval_text (v : hval) : string := match v with HText s => s | _ => "" end.

(** What the matcher needs of a resting order. *)
Record MakerOrder := MkMaker {
  mo_order_id : Z;
  mo_side : string;
  mo_price : float64;
  mo_quantity : float64;
  mo_visible : float64;
  mo_hidden : float64;
  mo_is_iceberg : bool;
  mo_seq : Z
}.

Section OrderBookOps.
Context {R : Redis}.

Definition lift_exn {A} (r : exn + A) : rprog A := fun st => (st, r).
Definition or_raise {A} (e : exn) (o : option A) : rprog A :=
  match o with Some a => mret a | None => raise e end.

Definition hset_flat (key : string) (flat : gmap string hval) : rprog unit :=
  if decide (flat = ∅) then mret tt else hset key flat.

Definition store_order_hash (order_id : Z) (m : metadata) : rprog unit :=
  hset_flat (order_hash_key order_id) (flat_fields (known_fields m)).

Definition get_order_hash (order_id : Z) : rprog (option (gmap string hval)) :=
  raw ← hgetall (order_hash_key order_id);
  mret (if decide (raw = ∅) then None else Some raw).

Definition delete_order_hash (order_id : Z) : rprog unit :=
  _ ← del (order_hash_key order_id); mret tt.

Definition update_order_hash_fields (order_id : Z) (fields : metadata) : rprog unit :=
  hset_flat (order_hash_key order_id) (flat_fields fields).

Definition next_seq (symbol : string) : rprog Z :=
  seq ← incr (seq_key symbol);
  mret (seq mod SCORE_MULTIPLIER).

Definition add_resting_order (order_id : Z) (symbol side : string) (price : decimal)
    (m : metadata) : rprog Z :=
  seq ← next_seq symbol;
  score ← lift_exn (encode_score (f_of_dec price) seq);
  zset_key ← lift_exn (side_key symbol side);
  _ ← hset_flat (order_hash_key order_id) (flat_fields (known_fields m));
  _ ← zadd zset_key (str_of_Z order_id) score;
  mret seq.

Definition remove_resting_order (order_id : Z) (symbol side : string) : rprog bool :=
  zset_key ← lift_exn (side_key symbol side);
  removed_count ← zrem zset_key (str_of_Z order_id);
  mret (0 <? removed_count).

Definition best_of (res : list (string * float64)) : rprog (option (float64 * Z)) :=
  match res with
  | [] => mret None
  | (member, score) :: _ =>
      ps ← lift_exn (decode_score score);
      oid ← or_raise (ValueError "int") (int_of_str member);
      mret (Some (ps.1, oid))
  end.
Definition get_best_bid (symbol : string) : rprog (option (float64 * Z)) :=
  res ← zrevrange (bids_key symbol) 0 0; best_of res.
Definition get_best_ask (symbol : string) : rprog (option (float64 * Z)) :=
  res ← zrange (asks_key symbol) 0 0; best_of res.

Definition get_spread (symbol : string)
    : rprog (option float64 * option float64 * option float64) :=
  bid ← get_best_bid symbol;
  ask ← get_best_ask symbol;
  let bid_price := fst <$> bid in
  let ask_price := fst <$> ask in
  mret (bid_price, ask_price,
        match bid_price, ask_price with Some b, Some a => Some (f_sub a b) | _, _ => None end).

(** The pipeline of HGETALLs: one hash per member. *)
Fixpoint load_hashes (raw : list (string * float64)) : rprog (list (string * float64 * gmap string hval)) :=
  match raw with
  | [] => mret []
  | (member, score) :: raw =>
      oid ← or_raise (ValueError "int") (int_of_str member);
      h ← hgetall (order_hash_key oid);
      rest ← load_hashes raw;
      mret ((member, score, h) :: rest)
  end.

Definition maker_of_hash (order_id : Z) (score : float64) (h : gmap string hval) : exn + MakerOrder :=
  match decode_score score,
        hval_float (hget_or h ["quantity"] (HText "0")),
        hval_float (hget_or h ["visible_quantity"; "quantity"] (HText "0")),
        hval_float (hget_or h ["hidden_quantity"] (HText "0")) with
  | inr (price, seq), Some q, Some v, Some hid =>
      inr (MkMaker order_id (hval_text (hget_or h ["side"] (HText ""))) price q v hid
             (bool_decide (h !! "is_iceberg" = Some (HText "1"))) seq)
  | inl e, _, _, _ => inl e
  | _, _, _, _ => inl (ValueError "could not convert string to float")
  end.

Fixpoint makers_of (rows : list (string * float64 * gmap string hval)) : exn + list MakerOrder :=
  match rows with
  | [] => inr []
  | (member, score, h) :: rows =>
      if decide (h = ∅) then makers_of rows
      else match int_of_str member with
           | None => inl (ValueError "int")
           | Some oid =>
               match maker_of_hash oid score h, makers_of rows with
               | inr mo, inr mos => inr (mo :: mos)
               | inl e, _ => inl e
               | _, inl e => inl e
               end
           end
  end.

Definition get_opposite_orders_for_match (symbol taker_side : string) (limit : Z)
    : rprog (list MakerOrder) :=
  zset_key ← lift_exn (opposite_side_key symbol taker_side);
  raw ← (if String.eqb (lower taker_side) "buy" then zrange zset_key 0 (limit - 1)
         else zrevrange zset_key 0 (limit - 1));
  rows ← load_hashes raw;
  lift_exn (makers_of rows).

(** [levels[price] = levels.get(price, 0.0) + qty] on an insertion-ordered dict. *)
Fixpoint level_add (levels : list (float64 * float64)) (price qty : float64) : list (float64 * float64) :=
  match levels with
  | [] => [(price, f_add f_zero qty)]
  | (p, v) :: levels => if f_eqb p price then (p, f_add v qty) :: levels
                        else (p, v) :: level_add levels price qty
  end.

Fixpoint aggregate (rows : list (string * float64 * gmap string hval)) (levels : list (float64 * float64))
    : exn + list (float64 * float64) :=
  match rows with
  | [] => inr levels
  | (_, score, h) :: rows =>
      if decide (h = ∅) then aggregate rows levels
      else match decode_score score, hval_float (hget_or h ["visible_quantity"; "quantity"] (HText "0")) with
           | inr (price, _), Some qty => aggregate rows (level_add levels price qty)
           | inl e, _ => inl e
           | _, None => inl (ValueError "could not convert string to float")
           end
  end.

(** [sorted(levels.items(), reverse)] on pairs. *)
Definition pair_le (a b : float64 * float64) : Prop :=
  f_ltb a.1 b.1 = true \/ (f_ltb b.1 a.1 = false /\ f_ltb b.2 a.2 = false).
#[local] Instance pair_le_dec a b : Decision (pair_le a b).
Proof. unfold pair_le. apply _. Defined.
Definition sorted_levels (rev : bool) (l : list (float64 * float64)) : list (float64 * float64) :=
  if rev then merge_sort (fun a b => pair_le b a) l else merge_sort pair_le l.

Definition get_book_snapshot (symbol : string) (depth : Z)
    : rprog (list (float64 * float64) * list (float64 * float64)) :=
  bids_raw ← zrevrange (bids_key symbol) 0 (depth - 1);
  asks_raw ← zrange (asks_key symbol) 0 (depth - 1);
  brows ← load_hashes bids_raw;
  bids ← lift_exn (aggregate brows []);
  arows ← load_hashes asks_raw;
  asks ← lift_exn (aggregate arows []);
  mret (sorted_levels true bids, sorted_levels (bool_decide (asks_raw = bids_raw)) asks).

Fixpoint touch_makers (taker_order_id : Z) (trades : list (Z * float64)) : rprog unit :=
  match trades with
  | [] => mret tt
  | (maker_id, qty) :: trades =>
      _ ← hset (order_hash_key maker_id)
            {[ "_last_taker_id" := htext_int taker_order_id; "_last_trade_qty" := HDouble qty ]};
      touch_makers taker_order_id trades
  end.
Definition apply_match_results (trades : list (Z * float64)) (taker_order_id : Z)
    (taker_metadata : metadata) : rprog unit :=
  _ ← touch_makers taker_order_id trades;
  hset_flat (order_hash_key taker_order_id) (flat_fields (known_fields taker_metadata)).

Fixpoint member_ids (members : list string) : exn + list Z :=
  match members with
  | [] => inr []
  | m :: members =>
      match int_of_str m, member_ids members with
      | Some i, inr ids => inr (i :: ids)
      | None, _ => inl (ValueError "int")
      | _, inl e => inl e
      end
  end.
Fixpoint del_hashes (ids : list Z) : rprog Z :=
  match ids with
  | [] => mret 0
  | oid :: ids => n ← del (order_hash_key oid); rest ← del_hashes ids; mret (n + rest)
  end.
(** The pipeline is executed after the members have been read. *)
Definition clear_symbol_book (symbol : string) : rprog Z :=
  bid_members ← zrange (bids_key symbol) 0 (-1);
  ask_members ← zrange (asks_key symbol) 0 (-1);
  ids ← lift_exn (member_ids (fst <$> (bid_members ++ ask_members)));
  b ← del (bids_key symbol);
  a ← del (asks_key symbol);
  s ← del (seq_key symbol);
  n ← del_hashes ids;
  mret (b + a + s + n).

End OrderBookOps.

(** ** The score encoding *)

(** The price in ticks of 1/10000, as [encode_score] computes it. *)
Definition price_ticks (p : float64) : option Z := f_round (f_mul p (f_of_Z PRICE_SCALE)).
Definition raw_score (ticks seq : Z) : Z := ticks * SCORE_MULTIPLIER + seq.
Definition valid_seq (seq : Z) : Prop := 0 <= seq < SCORE_MULTIPLIER.
(** The scores a double holds exactly. *)
Definition exact_score (ticks seq : Z) : Prop :=
  0 <= ticks /\ valid_seq seq /\ raw_score ticks seq < 2 ^ 53.

Lemma encode_score_inv p seq s :
  encode_score p seq = inr s ->
  exists ticks, price_ticks p = Some ticks /\ valid_seq seq /\ s = f_of_Z (raw_score ticks seq).
Proof.
  unfold encode_score, price_ticks, valid_seq. destruct (f_ltb p f_zero); [done|].
  destruct (f_ltb _ p); [done|]. destruct (_ && _) eqn:E; [|done]. cbn.
  destruct (f_round _) as [t|]; [|done]. intros [= <-]. exists t. split; [done|].
  apply andb_true_iff in E as [?%Z.leb_le ?%Z.ltb_lt]. done.
Qed.

Lemma raw_score_nonneg ticks seq : exact_score ticks seq -> 0 <= raw_score ticks seq < 2 ^ 53.
Proof. unfold exact_score, raw_score, valid_seq, SCORE_MULTIPLIER. lia. Qed.

Lemma decode_raw ticks seq :
  exact_score ticks seq ->
  decode_score (f_of_Z (raw_score ticks seq)) = inr (f_of_ratio ticks (Z.to_pos PRICE_SCALE), seq).
Proof.
  intros H. pose proof (raw_score_nonneg _ _ H). destruct H as (Ht & Hs & _).
  unfold decode_score. rewrite f_round_of_Z by done.
  assert (Hd : raw_score ticks seq / SCORE_MULTIPLIER = ticks).
  { unfold raw_score, valid_seq, SCORE_MULTIPLIER in *. rewrite Z.div_add_l by lia.
    rewrite Z.div_small by lia. lia. }
  rewrite Hd. do 2 f_equal. unfold raw_score. lia.
Qed.

Lemma raw_score_lt t1 s1 t2 s2 :
  exact_score t1 s1 -> exact_score t2 s2 ->
  f_ltb (f_of_Z (raw_score t1 s1)) (f_of_Z (raw_score t2 s2)) = true <->
  t1 < t2 \/ (t1 = t2 /\ s1 < s2).
Proof.
  intros H1 H2. rewrite f_of_Z_lt by auto using raw_score_nonneg. rewrite Z.ltb_lt.
  unfold exact_score, raw_score, valid_seq, SCORE_MULTIPLIER in *. lia.
Qed.

(** Scaling the double next to [k / 10000] by 10000 and rounding gives [k]. *)
Lemma grid_price_close k : 0 < k < 2 ^ 34 ->
  let x := f_of_ratio k 10000 in
  fpos x = true /\ Z.abs (10000 * fval x - k * fscale) * 2 ^ 52 <= k * fscale.
Proof.
  intros Hk. destruct k as [|k|k]; try lia. apply (ratio_close k 10000).
  pose proof (ndigits_bounds k) as [Hk1 _]. assert (0 < ndigits k) by done.
  assert (ndigits k - 1 < 34) by (apply (Z.pow_lt_mono_r_iff 2); lia). change (ndigits 10000) with 14. lia.
Qed.

Lemma grid_price_ticks k : 0 <= k < 2 ^ 34 -> price_ticks (f_of_ratio k 10000) = Some k.
Proof.
  intros Hk. destruct (decide (k = 0)) as [->|Hk0]; [by vm_compute|]. unfold price_ticks.
  destruct (grid_price_close k ltac:(lia)) as [Hp Hc]. set (x := f_of_ratio k 10000) in *.
  assert (Hy : exists my, f_of_Z PRICE_SCALE = S754_finite false my (-39) /\ Zpos my = 10000 * 2 ^ 39)
    by (eexists; split; vm_compute; reflexivity).
  destruct Hy as (my & -> & Hmy). destruct x as [| | |[] mx ex]; try done.
  pose proof (proj1 (bounded_iff _ _) Hp) as [Hcx _]. rewrite fexp64_eq in Hcx. cbn [fval] in Hc.
  assert (HF : 0 < fscale) by (apply Z.pow_pos_nonneg; lia). assert (Hkf : k * fscale < 2 ^ 34 * fscale) by nia.
  assert (H1f : fscale <= k * fscale) by nia. set (V := Zpos mx * 2 ^ (ex + 1074)) in *. set (K := k * fscale) in *.
  pose proof (ndigits_bounds mx) as [Hm1 Hm2]. assert (Hnx : 0 < ndigits mx) by done.
  assert (Hpw : 0 < 2 ^ (ex + 1074)) by (apply Z.pow_pos_nonneg; lia).
  assert (Hlow : 1059 < ndigits mx + (ex + 1074)).
  { apply (Z.pow_lt_mono_r_iff 2); [lia..|]. rewrite Z.pow_add_r by lia.
    apply (Z.lt_le_trans _ V); [|subst V; nia]. assert (2 ^ 1059 * 2 ^ 15 = fscale) by (vm_compute; reflexivity). lia. }
  assert (Hhigh : ndigits mx - 1 + (ex + 1074) < 1109).
  { apply (Z.pow_lt_mono_r_iff 2); [lia..|]. rewrite Z.pow_add_r by lia.
    apply (Z.le_lt_trans _ V); [subst V; nia|]. assert (fscale * 2 ^ 35 = 2 ^ 1109) by (vm_compute; reflexivity). lia. }
  assert (Hprod : ndigits (mx * my) - 1 < ndigits mx + 53).
  { apply (Z.pow_lt_mono_r_iff 2); [lia..|]. rewrite Z.pow_add_r by lia. pose proof (ndigits_bounds (mx * my)) as [Hq _].
    apply (Z.le_lt_trans _ _ _ Hq). rewrite Pos2Z.inj_mul, Hmy. change (2 ^ 53) with (8192 * 2 ^ 40). nia. }
  destruct (mul_close mx ex my (-39)) as [Hpm Hm]; [rewrite Hmy; by vm_compute|lia..|].
  apply f_round_near; [exact Hpm|]. set (W := fval _) in *.
  replace (Zpos mx * Zpos my * 2 ^ (ex + -39 + 1074)) with (10000 * V) in Hm.
  - fold K. lia.
  - rewrite Hmy. subst V. replace (ex + 1074) with (39 + (ex + -39 + 1074)) by lia. rewrite Z.pow_add_r by lia. ring.
Qed.

Lemma grid_price_bounds k : 0 <= k < 2 ^ 34 ->
  f_ltb (f_of_ratio k 10000) f_zero = false /\ f_ltb (f_of_Z 9200000000) (f_of_ratio k 10000) = false.
Proof.
  intros Hk. destruct (decide (k = 0)) as [->|Hk0]; [by vm_compute|].
  destruct (grid_price_close k ltac:(lia)) as [Hp Hc]. set (x := f_of_ratio k 10000) in *.
  split; [by apply f_ltb_asym, fpos_ltb|]. destruct (f_ltb _ x) eqn:E; [|done]. exfalso.
  apply fval_mono in E; [|done|by vm_compute].
  assert (Hv : fval (f_of_Z 9200000000) = 9200000000 * fscale) by (vm_compute; reflexivity). rewrite Hv in E.
  assert (HF : 0 < fscale) by (apply Z.pow_pos_nonneg; lia). assert (Hkf : k * fscale < 2 ^ 34 * fscale) by nia.
  set (K := k * fscale) in *. lia.
Qed.

(** C35: scores round-trip.  For a price of [k] ten-thousandths and a sequence
    number below a million, packed below 2^53: [encode_score] of the price as a
    float succeeds with the score [k * 1000000 + seq], and [decode_score] gives
    back that very float and the sequence number.  A negative price and a
    sequence number out of range are refused. *)
Theorem score_roundtrip k seq :
  (0 <= k -> 0 <= seq < 1000000 -> k * 1000000 + seq < 2 ^ 53 ->
   let price := f_of_dec (Dec k (-4)) in
   encode_score price seq = inr (f_of_Z (k * 1000000 + seq)) /\
   decode_score (f_of_Z (k * 1000000 + seq)) = inr (price, seq)) /\
  (forall p, f_ltb p f_zero = true \/ ~ 0 <= seq < 1000000 -> exists msg, encode_score p seq = inl (ValueError msg)).
Proof.
  split.
  - intros Hk Hs Hb price. assert (Hex : exact_score k seq) by by split_and!.
    change price with (f_of_ratio k 10000). split; [|by apply decode_raw].
    destruct (grid_price_bounds k) as [H1 H2]; [lia|]. pose proof (grid_price_ticks k ltac:(lia)) as Ht. unfold price_ticks in Ht.
    unfold encode_score. rewrite H1, H2, Ht. unfold SCORE_MULTIPLIER.
    destruct (Z.leb_spec 0 seq), (Z.ltb_spec seq 1000000); try lia. done.
  - intros p Hp. unfold encode_score. destruct (f_ltb p f_zero); [by eexists|]. destruct (f_ltb _ p); [by eexists|].
    destruct Hp as [|Hp]; [done|]. unfold SCORE_MULTIPLIER.
    destruct (Z.leb_spec 0 seq), (Z.ltb_spec seq 1000000); try (by eexists). lia.
Qed.

(** below 2^53 the order of scores is the order of the pairs (price in
    ticks, sequence number). *)
Theorem score_order p1 q1 s1 t1 p2 q2 s2 t2 :
  encode_score p1 q1 = inr s1 -> price_ticks p1 = Some t1 -> exact_score t1 q1 ->
  encode_score p2 q2 = inr s2 -> price_ticks p2 = Some t2 -> exact_score t2 q2 ->
  f_ltb s1 s2 = true <-> t1 < t2 \/ (t1 = t2 /\ q1 < q2).
Proof.
  intros He1 Ht1 H1 He2 Ht2 H2.
  apply encode_score_inv in He1 as (u1 & Hu1 & _ & ->). rewrite Ht1 in Hu1. injection Hu1 as <-.
  apply encode_score_inv in He2 as (u2 & Hu2 & _ & ->). rewrite Ht2 in Hu2. injection Hu2 as <-.
  by apply raw_score_lt.
Qed.

(** above 2^53 time priority is lost: at the price 1,000,000 the source
    names as safe, two consecutive orders get the same score. *)
Theorem score_collision :
  exists s, encode_score (f_of_Z 1000000) 1 = inr s /\ encode_score (f_of_Z 1000000) 0 = inr s.
Proof. eexists. split; vm_compute; reflexivity. Qed.

(** ** The orders handed to the matcher *)

(** Every score of the side is an exact encoding. *)
Definition scores_exact (z : gmap string float64) : Prop :=
  map_Forall (fun _ s => exists t q, exact_score t q /\ s = f_of_Z (raw_score t q)) z.

Definition served (z : gmap string float64) (e : string * float64) (mo : MakerOrder) : Prop :=
  z !! e.1 = Some e.2 /\ int_of_str e.1 = Some (mo_order_id mo)
  /\ decode_score e.2 = inr (mo_price mo, mo_seq mo).

Section Serving.
Context {R : Redis} {RS : RedisSpec R}.

Lemma load_hashes_state raw st : (load_hashes raw st).1 = st.
Proof.
  revert st. induction raw as [|[m s] raw IH]; intros st; [done|]. cbn [load_hashes].
  destruct (int_of_str m) as [oid|]; [|done]. unfold or_raise, hgetall. run_prog.
  specialize (IH st). destruct (load_hashes raw st) as [st' [e|rows]]; done.
Qed.

Lemma load_hashes_rows raw st st' rows :
  load_hashes raw st = (st', inr rows) -> (fst <$> rows) = raw.
Proof.
  revert rows st'. induction raw as [|[m s] raw IH]; intros rows st' H; cbn [load_hashes] in H.
  - run_prog in H. by simplify_eq.
  - destruct (int_of_str m) as [oid|]; [|done]. unfold or_raise, hgetall in H. run_prog in H.
    destruct (load_hashes raw st) as [st1 [e|rows1]] eqn:E; [done|]. simplify_eq. cbn.
    f_equal. by eapply IH.
Qed.

Lemma makers_of_served rows mos :
  makers_of rows = inr mos ->
  exists es, sublist es (fst <$> rows) /\
    Forall2 (fun e mo => int_of_str e.1 = Some (mo_order_id mo)
                         /\ decode_score e.2 = inr (mo_price mo, mo_seq mo)) es mos.
Proof.
  revert mos. induction rows as [|[[m s] h] rows IH]; intros mos H; cbn [makers_of] in H.
  - simplify_eq. exists []. split; [done|constructor].
  - destruct (decide (h = ∅)).
    + apply IH in H as (es & H1 & H2). exists es. split; [by apply sublist_cons|done].
    + destruct (int_of_str m) as [oid|] eqn:Em; [|done].
      destruct (maker_of_hash oid s h) as [|mo] eqn:Eh; [done|].
      destruct (makers_of rows) as [|mos'] eqn:Er; [done|]. simplify_eq.
      destruct (IH mos' eq_refl) as (es & H1 & H2). exists ((m, s) :: es). cbn.
      split; [by apply sublist_skip|]. constructor; [|done]. cbn. unfold maker_of_hash in Eh.
      destruct (decode_score s) as [|[pr sq]]; [done|].
      destruct (hval_float _) as [q|]; [|done]. destruct (hval_float _) as [v|]; [|done].
      destruct (hval_float _) as [hid|]; [|done]. by simplify_eq.
Qed.

Lemma load_served raw st st' mos :
  (rows ← load_hashes raw; lift_exn (makers_of rows)) st = (st', inr mos) ->
  st' = st /\ exists es, sublist es raw /\
    Forall2 (fun e mo => int_of_str e.1 = Some (mo_order_id mo)
                         /\ decode_score e.2 = inr (mo_price mo, mo_seq mo)) es mos.
Proof.
  unfold lift_exn. intros H. run_prog in H. pose proof (load_hashes_state raw st) as Hst.
  destruct (load_hashes raw st) as [st1 [e|rows]] eqn:El; [done|]. cbn in Hst. subst st1.
  apply load_hashes_rows in El. simplify_eq.
  destruct (makers_of rows) as [e|mos'] eqn:Em; [done|]. simplify_eq.
  split; [done|]. by apply makers_of_served.
Qed.

Lemma opposite_orders_inv symbol side limit st st' mos :
  get_opposite_orders_for_match symbol side limit st = (st', inr mos) ->
  exists key raw es,
    opposite_side_key symbol side = inr key /\ st' = st /\
    raw = (if String.eqb (lower side) "buy" then rank_slice (zrank (ks_zset (view st) key)) 0 (limit - 1)
           else rank_slice (reverse (zrank (ks_zset (view st) key))) 0 (limit - 1)) /\
    sublist es raw /\
    Forall2 (fun e mo => int_of_str e.1 = Some (mo_order_id mo)
                         /\ decode_score e.2 = inr (mo_price mo, mo_seq mo)) es mos.
Proof.
  unfold get_opposite_orders_for_match. intros H. unfold lift_exn at 1 in H.
  destruct (opposite_side_key symbol side) as [|key]; [done|]. exists key.
  rewrite <- zrange_view, <- zrevrange_view.
  destruct (String.eqb (lower side) "buy"); apply load_served in H as [-> (es & H1 & H2)]; by repeat eexists.
Qed.

Definition not_after (x y : Z * Z) : Prop := x.1 < y.1 \/ (x.1 = y.1 /\ x.2 <= y.2).

Lemma exact_order s1 s2 t1 q1 t2 q2 :
  exact_score t1 q1 -> exact_score t2 q2 -> s1 = f_of_Z (raw_score t1 q1) -> s2 = f_of_Z (raw_score t2 q2) ->
  f_leb s1 s2 = true -> not_after (t1, q1) (t2, q2).
Proof.
  intros H1 H2 -> -> Hle. unfold not_after. cbn.
  pose proof (f_leb_units 0 (raw_score t1 q1) (raw_score t2 q2)) as Hu.
  unfold f_of_Z in Hle. rewrite Hu in Hle by (split; [lia|by apply raw_score_nonneg]).
  apply Z.leb_le in Hle. unfold exact_score, raw_score, valid_seq, SCORE_MULTIPLIER in *. lia.
Qed.

(** Reading the book raises nothing but ValueError. *)
Definition value_error (e : exn) : Prop := exists msg, e = ValueError msg.
Definition value_errors {A} (m : rprog A) : Prop := triple (fun _ => True) m (fun _ _ => True) (fun e _ => value_error e).
Lemma value_errors_bind {A B} (m : rprog A) (f : A -> rprog B) :
  value_errors m -> (forall a, value_errors (f a)) -> value_errors (m ≫= f).
Proof. intros Hm Hf. apply (triple_bind _ m f _ (fun _ _ => True)); [exact Hm|exact Hf]. Qed.
Lemma value_errors_lift {A} (r : exn + A) : (forall e, r = inl e -> value_error e) -> value_errors (lift_exn r).
Proof. intros H st _. unfold lift_exn. destruct r as [e|a]; [by apply H|done]. Qed.
Lemma value_errors_require {A} msg (o : option A) : value_errors (or_raise (ValueError msg) o).
Proof. intros st _. destruct o; [done|]. by exists msg. Qed.
Lemma decode_value_error s e : decode_score s = inl e -> value_error e.
Proof. unfold decode_score. destruct (f_round s); [done|]. intros [= <-]. by eexists. Qed.
Lemma load_hashes_value_errors raw : value_errors (load_hashes raw).
Proof.
  induction raw as [|[m s] raw IH]; [by intros st _|]. cbn [load_hashes].
  apply value_errors_bind; [apply value_errors_require|intros oid]. apply value_errors_bind; [by intros st _|intros h].
  apply value_errors_bind; [exact IH|]. by intros rows st _.
Qed.
Lemma aggregate_value_error rows levels e : aggregate rows levels = inl e -> value_error e.
Proof.
  revert levels. induction rows as [|[[m s] h] rows IH]; intros levels; cbn [aggregate]; [done|].
  destruct (decide (h = ∅)); [apply IH|]. destruct (decode_score s) as [e'|[p q]] eqn:E; [intros [= <-]; by eapply decode_value_error|].
  destruct (hval_float _); [apply IH|]. intros [= <-]. by eexists.
Qed.
Lemma snapshot_value_error symbol depth st e : (get_book_snapshot symbol depth st).2 = inl e -> value_error e.
Proof.
  intros E. assert (H : value_errors (get_book_snapshot symbol depth)).
  { unfold get_book_snapshot. do 2 (apply value_errors_bind; [by intros st' _|intros ?]).
    do 2 (apply value_errors_bind; [apply load_hashes_value_errors|intros ?];
          apply value_errors_bind; [apply value_errors_lift; intros ?; apply aggregate_value_error|intros ?]).
    by intros st' _. }
  specialize (H st Logic.I). destruct (get_book_snapshot symbol depth st) as [st' [e'|r]]; cbn in E; [by simplify_eq|done].
Qed.

(** C36: the orders loaded for the matcher come in price priority: for a buyer
    the asks by increasing price and, within a price, oldest first; for a seller
    the bids by decreasing price but, within a price, NEWEST first, because the
    reversed range also reverses the sequence numbers. *)
Theorem opposite_orders_order symbol side limit st st' mos key :
  get_opposite_orders_for_match symbol side limit st = (st', inr mos) ->
  opposite_side_key symbol side = inr key ->
  scores_exact (ks_zset (view st) key) ->
  st' = st /\
  forall i j a b, (i < j)%nat -> mos !! i = Some a -> mos !! j = Some b ->
    exists ta tb,
      mo_price a = f_of_ratio ta (Z.to_pos PRICE_SCALE) /\ mo_price b = f_of_ratio tb (Z.to_pos PRICE_SCALE) /\
      if String.eqb (lower side) "buy" then not_after (ta, mo_seq a) (tb, mo_seq b)
      else not_after (tb, mo_seq b) (ta, mo_seq a).
Proof.
  intros H Hk Hex. apply opposite_orders_inv in H as (key' & raw & es & Hk' & -> & Hraw & Hsub & Hall).
  rewrite Hk in Hk'. injection Hk' as <-. split; [done|].
  set (z := ks_zset (view st) key) in *.
  assert (Hok : zset_ok z).
  { intros m s Hm. destruct (Hex m s Hm) as (t & q & Hq & ->). apply (f_units_notnan 0).
    split; [lia|by apply raw_score_nonneg]. }
  pose proof (zrank_sorted z Hok) as Hs.
  assert (Hin : forall e, e ∈ es -> z !! e.1 = Some e.2).
  { intros [m s] He. apply (sublist_elem _ _ _ Hsub) in He. apply zrank_elem. rewrite Hraw in He.
    destruct (String.eqb (lower side) "buy"); apply (sublist_elem _ _ _ (rank_slice_sublist _ _ _)) in He; [done|].
    by apply elem_of_reverse. }
  intros i j a b Hij Ha Hb.
  destruct (Forall2_lookup_r _ _ _ _ _ Hall Ha) as (ea & Hea & _ & Hda).
  destruct (Forall2_lookup_r _ _ _ _ _ Hall Hb) as (eb & Heb & _ & Hdb).
  destruct (Hex _ _ (Hin ea (list_elem_of_lookup_2 _ _ _ Hea))) as (ta & qa & Hqa & Hsa).
  destruct (Hex _ _ (Hin eb (list_elem_of_lookup_2 _ _ _ Heb))) as (tb & qb & Hqb & Hsb).
  rewrite Hsa, decode_raw in Hda by done. rewrite Hsb, decode_raw in Hdb by done.
  injection Hda as Hpa Hqa'. injection Hdb as Hpb Hqb'. rewrite <- Hqa', <- Hqb'.
  exists ta, tb. split; [done|]. split; [done|].
  destruct (String.eqb (lower side) "buy"); eapply exact_order; try done.
  - assert (Hs' : StronglySorted score_le es).
    { eapply StronglySorted_sublist; [|exact Hs]. rewrite Hraw in Hsub.
      etransitivity; [exact Hsub|apply rank_slice_sublist]. }
    exact (StronglySorted_nth _ _ _ _ _ _ Hs' Hij Hea Heb).
  - assert (Hs' : StronglySorted (fun x y => score_le y x) es).
    { eapply StronglySorted_sublist; [|exact (StronglySorted_reverse _ _ Hs)]. rewrite Hraw in Hsub.
      etransitivity; [exact Hsub|apply rank_slice_sublist]. }
    exact (StronglySorted_nth _ _ _ _ _ _ Hs' Hij Hea Heb).
Qed.

End Serving.

(** ** Adding and removing resting orders *)

Section Resting.
Context {R : Redis} {RS : RedisSpec R}.

Lemma hset_flat_view key flat st :
  exists st', hset_flat key flat st = (st', inr tt) /\
    view st' = (if decide (flat = ∅) then view st else upd_hash key (fun h => flat ∪ h) (view st)).
Proof.
  unfold hset_flat. destruct (decide (flat = ∅)).
  - by exists st.
  - exists (r_hset key flat st). split; [done|]. apply hset_view.
Qed.

Lemma hset_flat_frame key flat st st' :
  hset_flat key flat st = (st', inr tt) ->
  zsets (view st') = zsets (view st) /\ rsets (view st') = rsets (view st) /\
  lists (view st') = lists (view st) /\ counters (view st') = counters (view st) /\
  published (view st') = published (view st) /\
  ks_hash (view st') key = flat ∪ ks_hash (view st) key /\
  (forall k, k <> key -> ks_hash (view st') k = ks_hash (view st) k).
Proof.
  destruct (hset_flat_view key flat st) as (st1 & -> & Hv). intros [= <-]. rewrite Hv.
  destruct (decide (flat = ∅)) as [->|]; cbn.
  - split_and!; try done. by rewrite (left_id_L ∅ (∪)).
  - split_and!; try done.
    + by rewrite ks_hash_upd.
    + intros k Hk. by rewrite ks_hash_upd_ne by done.
Qed.

Lemma add_resting_order_spec order_id symbol side price m st :
  let seq := (ks_counter (view st) (seq_key symbol) + 1) mod SCORE_MULTIPLIER in
  let r := add_resting_order order_id symbol side price m st in
  match r.2 with
  | inl e => zsets (view r.1) = zsets (view st) /\ hashes (view r.1) = hashes (view st)
  | inr seq' =>
      seq' = seq /\ exists key score,
        side_key symbol side = inr key /\ encode_score (f_of_dec price) seq = inr score /\
        ks_zset (view r.1) key = <[str_of_Z order_id := score]> (ks_zset (view st) key) /\
        (forall k, k <> key -> ks_zset (view r.1) k = ks_zset (view st) k) /\
        ks_hash (view r.1) (order_hash_key order_id) =
          flat_fields (known_fields m) ∪ ks_hash (view st) (order_hash_key order_id) /\
        (forall k, k <> order_hash_key order_id -> ks_hash (view r.1) k = ks_hash (view st) k)
  end.
Proof.
  intros seq r. subst r. unfold add_resting_order, next_seq, incr, lift_exn, zadd. run_prog.
  pose proof (incr_view (seq_key symbol) st) as [Hv Hn].
  destruct (r_incr (seq_key symbol) st) as [st1 n]. cbn in Hv, Hn. subst n. fold seq.
  destruct (encode_score (f_of_dec price) seq) as [e|score]; [by cbn; rewrite Hv|].
  destruct (side_key symbol side) as [e|key]; [by cbn; rewrite Hv|].
  destruct (hset_flat_view (order_hash_key order_id) (flat_fields (known_fields m)) st1) as (st2 & Hs & _).
  rewrite Hs. apply hset_flat_frame in Hs as (Hz & _ & _ & _ & _ & Hh1 & Hh2). cbn [fst snd].
  split; [done|]. exists key, score. rewrite zadd_view.
  assert (Hz1 : forall k, ks_zset (view st2) k = ks_zset (view st) k).
  { intros k. unfold ks_zset. by rewrite Hz, Hv. }
  assert (Hk1 : forall k, ks_hash (view st1) k = ks_hash (view st) k) by (intros; by rewrite Hv).
  split; [done|]. split; [done|]. split; [by rewrite ks_zset_upd, Hz1|].
  split; [intros k Hk; by rewrite ks_zset_upd_ne, Hz1 by done|].
  split; [by rewrite <- Hk1, <- Hh1|]. intros k Hk. by rewrite <- Hk1, <- Hh2.
Qed.

(** [add_resting_order] either fails without touching the book (only a
    sequence number is consumed), or stores the order under the next sequence
    number with the encoded score, merges its metadata into the order's hash
    and leaves every other order and the other side alone. *)
Theorem add_resting_order_correct order_id symbol side price m st :
  let seq := (ks_counter (view st) (seq_key symbol) + 1) mod SCORE_MULTIPLIER in
  let r := add_resting_order order_id symbol side price m st in
  match r.2 with
  | inl e => zsets (view r.1) = zsets (view st) /\ hashes (view r.1) = hashes (view st)
  | inr seq' =>
      seq' = seq /\ exists key score,
        side_key symbol side = inr key /\ encode_score (f_of_dec price) seq = inr score /\
        ks_zset (view r.1) key = <[str_of_Z order_id := score]> (ks_zset (view st) key) /\
        (forall k, k <> key -> ks_zset (view r.1) k = ks_zset (view st) k) /\
        ks_hash (view r.1) (order_hash_key order_id) =
          flat_fields (known_fields m) ∪ ks_hash (view st) (order_hash_key order_id) /\
        (forall k, k <> order_hash_key order_id -> ks_hash (view r.1) k = ks_hash (view st) k)
  end.
Proof. apply add_resting_order_spec. Qed.

(** The sets and lists are not touched. *)
Lemma add_resting_frame order_id symbol side price m st :
  let st' := (add_resting_order order_id symbol side price m st).1 in
  rsets (view st') = rsets (view st) /\ lists (view st') = lists (view st).
Proof.
  unfold add_resting_order, next_seq, incr, lift_exn, zadd. run_prog.
  pose proof (incr_view (seq_key symbol) st) as [Hv _].
  destruct (r_incr (seq_key symbol) st) as [st1 n]. cbn in Hv.
  destruct (encode_score _ _) as [e|score]; [by cbn; rewrite Hv|].
  destruct (side_key symbol side) as [e|key]; [by cbn; rewrite Hv|].
  destruct (hset_flat_view (order_hash_key order_id) (flat_fields (known_fields m)) st1) as (st2 & Hs & _).
  rewrite Hs. apply hset_flat_frame in Hs as (_ & Hr & Hl & _). cbn [fst]. rewrite zadd_view. cbn.
  by rewrite Hr, Hl, Hv.
Qed.

Lemma remove_resting_view order_id symbol side st key :
  side_key symbol side = inr key ->
  let r := remove_resting_order order_id symbol side st in
  r.2 = inr (bool_decide (is_Some (ks_zset (view st) key !! str_of_Z order_id))) /\
  view r.1 = upd_zset key (delete (str_of_Z order_id)) (view st).
Proof.
  intros Hk. unfold remove_resting_order, zrem, lift_exn. rewrite Hk. run_prog.
  cbn [fst snd]. rewrite zscore_view, zrem_view. split; [|done].
  by destruct (ks_zset (view st) key !! str_of_Z order_id).
Qed.

(** [remove_resting_order] reports whether the order rested on that side
    and afterwards it does not; adding a fresh order and removing it restores
    both sides of the book. *)
Theorem add_then_remove_resting order_id symbol side price m st st1 seq key :
  side_key symbol side = inr key ->
  ks_zset (view st) key !! str_of_Z order_id = None ->
  add_resting_order order_id symbol side price m st = (st1, inr seq) ->
  let r := remove_resting_order order_id symbol side st1 in
  r.2 = inr true /\ (forall k, ks_zset (view r.1) k = ks_zset (view st) k).
Proof.
  intros Hk Hfresh Hadd r. subst r.
  unfold add_resting_order, next_seq, incr, lift_exn, zadd in Hadd. run_prog in Hadd.
  pose proof (incr_view (seq_key symbol) st) as [Hv _].
  destruct (r_incr (seq_key symbol) st) as [st0 n]. cbn in Hv.
  destruct (encode_score _ _) as [e|score]; [done|]. rewrite Hk in Hadd.
  destruct (hset_flat_view (order_hash_key order_id) (flat_fields (known_fields m)) st0) as (st2 & Hs & _).
  rewrite Hs in Hadd. apply hset_flat_frame in Hs as (Hz & _). simplify_eq.
  assert (Hz1 : forall k, ks_zset (view st2) k = ks_zset (view st) k).
  { intros k. unfold ks_zset. by rewrite Hz, Hv. }
  destruct (remove_resting_view order_id symbol side
              (r_zadd key (str_of_Z order_id) score st2) key Hk) as [-> ->].
  rewrite zadd_view, ks_zset_upd, Hz1, lookup_insert_eq. split.
  { reflexivity. }
  intros k. destruct (decide (k = key)) as [->|Hne].
  - rewrite !ks_zset_upd, Hz1. by apply delete_insert_id.
  - by rewrite !ks_zset_upd_ne, Hz1 by done.
Qed.

End Resting.

(** ** Time priority on the bid side *)

Definition two_bids : rprog (list MakerOrder) :=
  _ ← add_resting_order 1 "BTC/USDT" "buy" (Dec 100 0) {[ "quantity" := Some (HDecimal (Dec 1 0)) ]};
  _ ← add_resting_order 2 "BTC/USDT" "buy" (Dec 100 0) {[ "quantity" := Some (HDecimal (Dec 1 0)) ]};
  get_opposite_orders_for_match "BTC/USDT" "sell" 100.

(** of two bids at one price the later one is handed to the matcher
    first: time priority is reversed on the bid side. *)
Theorem bids_newest_first :
  exists st mos p, two_bids empty_keyspace = (st, inr mos) /\
    mo_order_id <$> mos = [2; 1] /\ mo_seq <$> mos = [2; 1] /\ mo_price <$> mos = [p; p].
Proof. do 3 eexists. split; [vm_compute; reflexivity|]. split; [|split]; vm_compute; reflexivity. Qed.

(** ** Witnesses *)

Definition demo_ask_meta : metadata :=
  {[ "user_id" := Some (HText "7"); "side" := Some (HText "sell"); "quantity" := Some (HDecimal (Dec 1 0)) ]}.
Definition two_asks : rprog Z :=
  _ ← add_resting_order 1 "BTC/USDT" "sell" (Dec 101 0) demo_ask_meta;
  add_resting_order 2 "BTC/USDT" "sell" (Dec 100 0) demo_ask_meta.
Definition demo_keyspace : Keyspace := Eval vm_compute in (two_asks empty_keyspace).1.
Definition demo_makers : list MakerOrder := Eval vm_compute in
  match (get_opposite_orders_for_match (R := MemRedis) "BTC/USDT" "buy" 10 demo_keyspace).2 with inr l => l | _ => [] end.

Lemma demo_scores_exact : scores_exact (ks_zset demo_keyspace (asks_key "BTC/USDT")).
Proof.
  assert (H : ks_zset demo_keyspace (asks_key "BTC/USDT")
              = {[ "1" := f_of_Z (raw_score 1010000 1); "2" := f_of_Z (raw_score 1000000 2) ]})
    by (vm_compute; reflexivity).
  rewrite H. intros m s Hm. apply lookup_insert_Some in Hm as [[_ <-]|[_ Hm]].
  - exists 1010000, 1. split; [|done]. unfold exact_score, valid_seq, raw_score, SCORE_MULTIPLIER. lia.
  - apply lookup_singleton_Some in Hm as [_ <-].
    exists 1000000, 2. split; [|done]. unfold exact_score, valid_seq, raw_score, SCORE_MULTIPLIER. lia.
Qed.

Lemma opposite_orders_order_witness :
  exists a b ta tb, demo_makers !! 0%nat = Some a /\ demo_makers !! 1%nat = Some b /\
    not_after (ta, mo_seq a) (tb, mo_seq b).
Proof.
  destruct (opposite_orders_order (RS := MemRedisSpec) "BTC/USDT" "buy" 10 demo_keyspace demo_keyspace demo_makers
              (asks_key "BTC/USDT")) as [_ H];
    [vm_compute; reflexivity|reflexivity|exact demo_scores_exact|].
  destruct (H 0%nat 1%nat _ _ (Nat.lt_0_succ 0) eq_refl eq_refl) as (ta & tb & _ & _ & Hn).
  eexists _, _, ta, tb. split; [reflexivity|split; [reflexivity|exact Hn]].
Defined.

Lemma score_roundtrip_witness :
  decode_score (f_of_Z (1000000 * 1000000 + 7)) = inr (f_of_dec (Dec 1000000 (-4)), 7).
Proof. apply (score_roundtrip 1000000 7); [lia..|vm_compute; reflexivity]. Defined.

Lemma score_order_witness :
  exists s1 s2, encode_score (f_of_Z 100) 7 = inr s1 /\ encode_score (f_of_Z 100) 8 = inr s2 /\
    f_ltb s1 s2 = true.
Proof.
  destruct (encode_score (f_of_Z 100) 7) as [e|s1] eqn:E1; [exfalso; vm_compute in E1; discriminate E1|].
  destruct (encode_score (f_of_Z 100) 8) as [e|s2] eqn:E2; [exfalso; vm_compute in E2; discriminate E2|].
  exists s1, s2. split; [reflexivity|split; [reflexivity|]].
  apply (score_order (f_of_Z 100) 7 s1 1000000 (f_of_Z 100) 8 s2 1000000);
    [exact E1|vm_compute; reflexivity| |exact E2|vm_compute; reflexivity| |];
    unfold exact_score, valid_seq, raw_score, SCORE_MULTIPLIER; lia.
Defined.

Lemma add_then_remove_resting_witness :
  exists st1 seq, add_resting_order (R := MemRedis) 3 "BTC/USDT" "buy" (Dec 99 0) ∅ demo_keyspace = (st1, inr seq) /\
    (remove_resting_order (R := MemRedis) 3 "BTC/USDT" "buy" st1).2 = inr true.
Proof.
  destruct (add_resting_order (R := MemRedis) 3 "BTC/USDT" "buy" (Dec 99 0) ∅ demo_keyspace) as [st1 [e|seq]] eqn:E;
    [exfalso; vm_compute in E; discriminate E|].
  exists st1, seq. split; [reflexivity|].
  refine (proj1 (add_then_remove_resting (RS := MemRedisSpec) 3 "BTC/USDT" "buy" (Dec 99 0) ∅ demo_keyspace st1 seq
                   (bids_key "BTC/USDT") _ _ E)); [reflexivity|vm_compute; reflexivity].
Defined.
