(* ===== verification/Queues.v ===== *)
(** * FIFO queues: app/redis_client/queues.py, OrderActionPayload of worker.py

    Producers LPUSH, the consumer BRPOPs: the queue, read from its oldest
    item, is a FIFO.  The payload builder and the worker's parser are
    inverses up to the falsy values the parser drops. *)

From Stdlib Require Import ZArith Lia Bool SpecFloat Sorted.
From stdpp Require Import base tactics option list strings gmap sets.
From S2P Require Import Prelude Float64 PyDecimal Models RedisIface.
#[local] Open Scope Z_scope.

Definition ORDERS_QUEUE : string := "queue:orders".
Definition TRADES_QUEUE : string := "queue:trades".
Definition DEADLETTER_QUEUE : string := "queue:events.deadletter".

(** ** Payloads *)

(** The keyword arguments of [build_order_action_payload], and the dataclass
    [OrderActionPayload] the worker parses (with its [ts]). *)
Record OrderActionPayload := MkPayload {
  pl_action : string;
  pl_order_id : Z;
  pl_symbol : string;
  pl_user_id : Z;
  pl_side : string;
  pl_type : string;
  pl_price : option float64;
  pl_stop_price : option float64;
  pl_quantity : float64;
  pl_is_iceberg : bool;
  pl_visible_qty : option float64;
  pl_hidden_qty : option float64;
  pl_parent_order_id : option Z;
  pl_replaces_id : option Z;
  pl_bulk_id : option string;
  pl_ts : Z
}.

(** Python's None in JSON. *)
Definition jfloat_opt (o : option float64) : jval :=
  match o with Some f => JFloat f | None => JNull end.

Definition build_order_action_payload (p : OrderActionPayload) : jval :=
  JObj ([("action", JStr (pl_action p)); ("order_id", JInt (pl_order_id p));
         ("symbol", JStr (pl_symbol p)); ("user_id", JInt (pl_user_id p));
         ("side", JStr (pl_side p)); ("type", JStr (pl_type p)); ("ts", JInt (pl_ts p))]
        ++ jopt "price" JFloat (pl_price p)
        ++ jopt "stop_price" JFloat (pl_stop_price p)
        ++ [("quantity", JFloat (pl_quantity p))]
        ++ (if pl_is_iceberg p
            then [("is_iceberg", JBool true); ("visible_qty", jfloat_opt (pl_visible_qty p));
                  ("hidden_qty", jfloat_opt (pl_hidden_qty p))]
            else [])
        ++ jopt "parent_order_id" JInt (pl_parent_order_id p)
        ++ jopt "replaces_id" JInt (pl_replaces_id p)
        ++ jopt "bulk_id" JStr (pl_bulk_id p)).

(** [float(v)], [int(v)] and truthiness on the JSON values of a payload. *)
Definition jfloat (v : jval) : option float64 :=
  match v with JFloat f => Some f | JInt z => Some (f_of_Z z) | _ => None end.
Definition jint (v : jval) : option Z :=
  match v with JInt z => Some z | JFloat f => f_trunc f | JStr s => int_of_str s | _ => None end.
Definition jstr (v : jval) : option string := match v with JStr s => Some s | _ => None end.
Definition jtruthy (v : jval) : bool :=
  match v with
  | JNull => false | JBool b => b | JInt z => negb (z =? 0)
  | JFloat f => negb (f_eqb f f_zero)
  | JStr s => negb (String.eqb s "") | JList l => negb (Nat.eqb (length l) 0)
  | JObj l => negb (Nat.eqb (length l) 0)
  end.

(** [conv(d[k]) if d.get(k) else None] *)
Definition get_truthy {A} (conv : jval -> option A) (k : string) (d : jval) : option (option A) :=
  match jfield k d with
  | Some v => if jtruthy v then Some <$> conv v else Some None
  | None => Some None
  end.
(** [conv(d[k]) if d.get(k) is not None else None] *)
Definition get_present {A} (conv : jval -> option A) (k : string) (d : jval) : option (option A) :=
  match jfield k d with
  | Some JNull | None => Some None
  | Some v => Some <$> conv v
  end.

(** [OrderActionPayload.from_dict]: [None] where it raises. *)
Definition from_dict (d : jval) : option OrderActionPayload :=
  action ← jfield "action" d ≫= jstr;
  order_id ← jfield "order_id" d ≫= jint;
  symbol ← jfield "symbol" d ≫= jstr;
  user_id ← jfield "user_id" d ≫= jint;
  side ← jfield "side" d ≫= jstr;
  type ← jfield "type" d ≫= jstr;
  price ← get_present jfloat "price" d;
  stop_price ← get_truthy jfloat "stop_price" d;
  quantity ← jfield "quantity" d ≫= jfloat;
  visible_qty ← get_truthy jfloat "visible_qty" d;
  hidden_qty ← get_truthy jfloat "hidden_qty" d;
  parent_order_id ← get_truthy jint "parent_order_id" d;
  replaces_id ← get_truthy jint "replaces_id" d;
  ts ← match jfield "ts" d with Some v => jint v | None => Some 0 end;
  Some (MkPayload action order_id symbol user_id side type price stop_price quantity
          (match jfield "is_iceberg" d with Some v => jtruthy v | None => false end)
          visible_qty hidden_qty parent_order_id replaces_id
          (match jfield "bulk_id" d with Some v => jstr v | None => None end) ts).

(** What the parser makes of a payload: falsy optional numbers are absent, and
    the iceberg quantities travel only with the iceberg flag. *)
Definition drop_falsy_float (o : option float64) : option float64 :=
  f ← o; if f_eqb f f_zero then None else Some f.
Definition drop_zero (o : option Z) : option Z := z ← o; if z =? 0 then None else Some z.
Definition normalized (p : OrderActionPayload) : OrderActionPayload :=
  MkPayload (pl_action p) (pl_order_id p) (pl_symbol p) (pl_user_id p) (pl_side p) (pl_type p)
    (pl_price p) (drop_falsy_float (pl_stop_price p)) (pl_quantity p) (pl_is_iceberg p)
    (if pl_is_iceberg p then drop_falsy_float (pl_visible_qty p) else None)
    (if pl_is_iceberg p then drop_falsy_float (pl_hidden_qty p) else None)
    (drop_zero (pl_parent_order_id p)) (drop_zero (pl_replaces_id p)) (pl_bulk_id p) (pl_ts p).

Lemma jfield_app k l1 l2 :
  jfield k (JObj (l1 ++ l2)) =
  match jfield k (JObj l1) with Some v => Some v | None => jfield k (JObj l2) end.
Proof.
  unfold jfield. induction l1 as [|[k' v] l1 IH]; cbn; [done|].
  destruct (decide (k' = k)); [done|]. cbn. revert IH.
  destruct (list_find _ (l1 ++ l2)) as [[? [? ?]]|], (list_find _ l1) as [[? [? ?]]|],
    (list_find _ l2) as [[? [? ?]]|]; cbn; congruence.
Qed.

Lemma jfield_jopt {A} k k' (f : A -> jval) o :
  jfield k (JObj (jopt k' f o)) = if decide (k' = k) then f <$> o else None.
Proof. destruct o; cbn; [|by destruct (decide _)]. by destruct (decide (k' = k)). Qed.

Lemma get_truthy_float k d o :
  jfield k d = JFloat <$> o -> get_truthy jfloat k d = Some (drop_falsy_float o).
Proof.
  intros H. unfold get_truthy. rewrite H. destruct o as [f|]; cbn; [|done]. by destruct (f_eqb f f_zero).
Qed.
Lemma get_truthy_float_null k d o :
  jfield k d = Some (jfloat_opt o) -> get_truthy jfloat k d = Some (drop_falsy_float o).
Proof.
  intros H. unfold get_truthy. rewrite H. destruct o as [f|]; cbn; [|done]. by destruct (f_eqb f f_zero).
Qed.
Lemma get_truthy_int k d o : jfield k d = JInt <$> o -> get_truthy jint k d = Some (drop_zero o).
Proof.
  intros H. unfold get_truthy. rewrite H. destruct o as [z|]; cbn; [|done]. by destruct (z =? 0).
Qed.
Lemma get_present_float k d o : jfield k d = JFloat <$> o -> get_present jfloat k d = Some o.
Proof. intros H. unfold get_present. rewrite H. by destruct o. Qed.

(** Look a key up in a built payload. *)
Ltac payload_field := unfold build_order_action_payload; rewrite ?jfield_app, ?jfield_jopt; reflexivity.

Section PayloadFields.
Variable p : OrderActionPayload.
Local Abbreviation d := (build_order_action_payload p).

Lemma field_price : jfield "price" d = JFloat <$> pl_price p.
Proof. unfold build_order_action_payload. rewrite !jfield_app, !jfield_jopt. cbn.
  by destruct (pl_price p), (pl_is_iceberg p). Qed.
Lemma field_stop_price : jfield "stop_price" d = JFloat <$> pl_stop_price p.
Proof. unfold build_order_action_payload. rewrite !jfield_app, !jfield_jopt. cbn.
  by destruct (pl_stop_price p), (pl_is_iceberg p). Qed.
Lemma field_quantity : jfield "quantity" d = Some (JFloat (pl_quantity p)).
Proof. unfold build_order_action_payload. by rewrite !jfield_app, !jfield_jopt. Qed.
Lemma field_iceberg :
  jfield "is_iceberg" d = if pl_is_iceberg p then Some (JBool true) else None.
Proof. unfold build_order_action_payload. rewrite !jfield_app, !jfield_jopt. cbn.
  by destruct (pl_is_iceberg p). Qed.
Lemma field_visible :
  jfield "visible_qty" d = if pl_is_iceberg p then Some (jfloat_opt (pl_visible_qty p)) else None.
Proof. unfold build_order_action_payload. rewrite !jfield_app, !jfield_jopt. cbn.
  by destruct (pl_is_iceberg p). Qed.
Lemma field_hidden :
  jfield "hidden_qty" d = if pl_is_iceberg p then Some (jfloat_opt (pl_hidden_qty p)) else None.
Proof. unfold build_order_action_payload. rewrite !jfield_app, !jfield_jopt. cbn.
  by destruct (pl_is_iceberg p). Qed.
Lemma field_parent : jfield "parent_order_id" d = JInt <$> pl_parent_order_id p.
Proof. unfold build_order_action_payload. rewrite !jfield_app, !jfield_jopt. cbn.
  by destruct (pl_parent_order_id p), (pl_is_iceberg p). Qed.
Lemma field_replaces : jfield "replaces_id" d = JInt <$> pl_replaces_id p.
Proof. unfold build_order_action_payload. rewrite !jfield_app, !jfield_jopt. cbn.
  by destruct (pl_replaces_id p), (pl_is_iceberg p). Qed.
Lemma field_bulk : jfield "bulk_id" d = JStr <$> pl_bulk_id p.
Proof. unfold build_order_action_payload. rewrite !jfield_app, !jfield_jopt. cbn.
  by destruct (pl_is_iceberg p). Qed.
End PayloadFields.

(** the worker parses every payload the producers build, into the same
    order action up to falsy optional numbers; prices of 0 survive. *)
Theorem payload_roundtrip p : from_dict (build_order_action_payload p) = Some (normalized p).
Proof.
  unfold from_dict.
  rewrite (get_present_float _ _ _ (field_price p)), (get_truthy_float _ _ _ (field_stop_price p)),
    field_quantity, field_iceberg, (get_truthy_int _ _ _ (field_parent p)),
    (get_truthy_int _ _ _ (field_replaces p)), field_bulk.
  assert (Hv : get_truthy jfloat "visible_qty" (build_order_action_payload p)
               = Some (pl_visible_qty (normalized p))).
  { unfold normalized. cbn. destruct (pl_is_iceberg p) eqn:E.
    - apply get_truthy_float_null. by rewrite field_visible, E.
    - apply (get_truthy_float _ _ None). by rewrite field_visible, E. }
  assert (Hh : get_truthy jfloat "hidden_qty" (build_order_action_payload p)
               = Some (pl_hidden_qty (normalized p))).
  { unfold normalized. cbn. destruct (pl_is_iceberg p) eqn:E.
    - apply get_truthy_float_null. by rewrite field_hidden, E.
    - apply (get_truthy_float _ _ None). by rewrite field_hidden, E. }
  rewrite Hv, Hh. unfold normalized. cbn.
  destruct (pl_is_iceberg p), (pl_bulk_id p); reflexivity.
Qed.

(** ** Operations *)

Section QueueOps.
Context {R : Redis}.

Definition enqueue_order_action (payload : jval) : rprog unit := lpush ORDERS_QUEUE payload.

(** [now_ms] is [int(time.time() * 1000)]. *)
Definition enqueue_trade_batch (now_ms : Z) (trades : list jval) : rprog unit :=
  match trades with
  | [] => mret tt
  | _ => lpush TRADES_QUEUE (JObj [("trades", JList trades); ("ts", JInt now_ms)])
  end.

Definition enqueue_deadletter (now_ms : Z) (original : jval) (error queue_name : string) : rprog unit :=
  lpush DEADLETTER_QUEUE (JObj [("queue", JStr queue_name); ("original", original);
                                ("error", JStr error); ("ts", JInt now_ms)]).

(** BRPOP once an item is there or the timeout has passed. *)
Definition brpop_order_action : rprog (option jval) := rpop ORDERS_QUEUE.
Definition brpop_trade_batch : rprog (option jval) := rpop TRADES_QUEUE.

Definition queue_length (queue : string) : rprog Z := llen queue.
Definition peek_queue (queue : string) (n : Z) : rprog (list jval) := lrange queue 0 (n - 1).

Definition clear_queue (queue : string) : rprog Z :=
  deleted ← del queue;
  if deleted =? 0 then mret 0 else llen queue.

Fixpoint enqueue_all (ps : list jval) : rprog unit :=
  match ps with
  | [] => mret tt
  | p :: ps => _ ← enqueue_order_action p; enqueue_all ps
  end.
Fixpoint brpop_all (n : nat) : rprog (list (option jval)) :=
  match n with
  | O => mret []
  | S n => x ← brpop_order_action; xs ← brpop_all n; mret (x :: xs)
  end.
End QueueOps.

Section QueueFacts.
Context {R : Redis} {RS : RedisSpec R}.

(** The abstract FIFO: the items of a queue, oldest first. *)
Definition fifo (queue : string) (st : rstate) : list jval := reverse (ks_list (view st) queue).

Lemma fifo_lpush queue x st : fifo queue (r_lpush queue x st) = fifo queue st ++ [x].
Proof. unfold fifo. by rewrite lpush_view, ks_list_upd, reverse_cons. Qed.

Lemma fifo_rpop queue st :
  let '(st', x) := r_rpop queue st in
  x = head (fifo queue st) /\ fifo queue st' = tail (fifo queue st).
Proof.
  pose proof (rpop_view queue st) as H. destruct (r_rpop queue st) as [st' [x|]].
  - destruct H as (l & Hl & Hv). unfold fifo. rewrite Hv, ks_list_upd, Hl, reverse_app. done.
  - destruct H as [H1 H2]. unfold fifo. by rewrite H2, H1.
Qed.

Lemma fifo_enqueue_all ps st :
  (enqueue_all ps st).2 = inr tt /\ fifo ORDERS_QUEUE (enqueue_all ps st).1 = fifo ORDERS_QUEUE st ++ ps.
Proof.
  revert st. induction ps as [|p ps IH]; intros st; cbn [enqueue_all].
  - by rewrite app_nil_r.
  - unfold enqueue_order_action, lpush. run_prog. destruct (IH (r_lpush ORDERS_QUEUE p st)) as [H1 H2].
    split; [exact H1|]. by rewrite H2, fifo_lpush, <- app_assoc.
Qed.

Lemma fifo_brpop_all n st :
  (n <= length (fifo ORDERS_QUEUE st))%nat ->
  (brpop_all n st).2 = inr (Some <$> take n (fifo ORDERS_QUEUE st)) /\
  fifo ORDERS_QUEUE (brpop_all n st).1 = drop n (fifo ORDERS_QUEUE st).
Proof.
  revert st. induction n as [|n IH]; intros st Hn; cbn [brpop_all]; [by rewrite drop_0|].
  unfold brpop_order_action, rpop. run_prog.
  pose proof (fifo_rpop ORDERS_QUEUE st) as Hp. destruct (r_rpop ORDERS_QUEUE st) as [st1 x].
  destruct Hp as [Hx Hq]. destruct (fifo ORDERS_QUEUE st) as [|y q] eqn:E; [cbn in Hn; lia|].
  cbn in Hx, Hq, Hn. destruct (IH st1) as [H1 H2]; [rewrite Hq; lia|].
  destruct (brpop_all n st1) as [st2 [e|xs]]; cbn in H1, H2 |- *; [done|].
  simplify_eq. split; [done|]. done.
Qed.

(** the order queue is a FIFO: after enqueueing [ps] behind the waiting
    items, popping as many items returns the waiting ones and then [ps], each
    exactly once and in order, and leaves the queue empty. *)
Theorem orders_queue_fifo ps st :
  let st1 := (enqueue_all ps st).1 in
  let n := length (fifo ORDERS_QUEUE st ++ ps) in
  (brpop_all n st1).2 = inr (Some <$> (fifo ORDERS_QUEUE st ++ ps)) /\
  fifo ORDERS_QUEUE (brpop_all n st1).1 = [].
Proof.
  intros st1 n. destruct (fifo_enqueue_all ps st) as [_ Hq]. fold st1 in Hq.
  destruct (fifo_brpop_all n st1) as [H1 H2]; [by rewrite Hq|].
  rewrite H1, H2, Hq. split; [by rewrite take_ge|]. by apply drop_ge.
Qed.

(** [peek_queue] shows the newest items, newest first, not the next ones
    to be consumed; and [clear_queue] empties the queue but always reports 0
    items removed. *)
Theorem queue_introspection queue n st :
  0 < n ->
  (peek_queue queue n st).2 = inr (take (Z.to_nat n) (reverse (fifo queue st))) /\
  (clear_queue queue st).2 = inr 0 /\ fifo queue (clear_queue queue st).1 = [].
Proof.
  intros Hn. unfold peek_queue, clear_queue, lrange, del, llen, fifo. run_prog. cbn [fst snd].
  rewrite lrange_view, rank_slice_prefix, reverse_involutive by lia.
  replace (n - 1 + 1) with n by lia.
  assert (Hd : ks_list (view (r_del queue st)) queue = []).
  { rewrite del_view. unfold ks_list, ks_del. cbn. by rewrite lookup_delete_eq. }
  split; [done|]. destruct (r_exists queue st) eqn:E; cbn [Z.b2z Z.eqb fst snd].
  - rewrite llen_view, Hd. done.
  - by rewrite Hd.
Qed.
End QueueFacts.

Lemma queue_introspection_witness :
  (clear_queue (R := MemRedis) ORDERS_QUEUE
     (enqueue_all (R := MemRedis) [JInt 1; JInt 2] empty_keyspace).1).2 = inr 0.
Proof.
  apply (queue_introspection (RS := MemRedisSpec) ORDERS_QUEUE 1
           (enqueue_all (R := MemRedis) [JInt 1; JInt 2] empty_keyspace).1).
  reflexivity.
Defined.
