(* ===== verification/OrdersIndex.v ===== *)
(** * Open-order indexes: app/redis_client/orders_index.py

    Three Redis sets per order: the user's orders, the user's orders on the
    symbol and the symbol's orders.  The keys of the three never collide, the
    operations keep the indexes consistent, and draining a user returns every
    open order exactly once, in increasing order. *)

From Stdlib Require Import ZArith Lia Bool SpecFloat Sorted Ascii DecimalString.
From stdpp Require Import base tactics option list strings gmap sets sorting.
From S2P Require Import Prelude Float64 PyDecimal Models RedisIface OrderBook.
#[local] Open Scope Z_scope.

(** ** Keys *)

Definition user_open_orders_key (uid : Z) : string := "user:" +:+ str_of_Z uid +:+ ":open_orders".
Definition user_open_orders_by_symbol_key (uid : Z) (symbol : string) : string :=
  "user:" +:+ str_of_Z uid +:+ ":open_orders:" +:+ symbol.
Definition symbol_open_orders_key (symbol : string) : string := "symbol:" +:+ symbol +:+ ":open_orders".

Fixpoint no_colon (s : string) : bool :=
  match s with
  | EmptyString => true
  | String c s => negb (Ascii.eqb c ":"%char) && no_colon s
  end.

Lemma colon_split a b x y :
  no_colon a = true -> no_colon b = true ->
  a +:+ String ":"%char x = b +:+ String ":"%char y -> a = b /\ x = y.
Proof.
  revert b. induction a as [|c a IH]; intros [|c' b] Ha Hb H; cbn in *; simplify_eq; try done.
  apply andb_true_iff in Ha as [_ Ha], Hb as [_ Hb].
  destruct (IH b Ha Hb) as [-> ->]; done.
Qed.

Lemma uint_no_colon d : no_colon (NilEmpty.string_of_uint d) = true.
Proof. induction d; cbn; done. Qed.

Lemma str_of_Z_no_colon z : no_colon (str_of_Z z) = true.
Proof.
  unfold str_of_Z, NilZero.string_of_int, NilZero.string_of_uint.
  destruct (Z.to_int z) as [d|d].
  - destruct d; try apply uint_no_colon; done.
  - cbn. destruct d; try apply uint_no_colon; done.
Qed.

Lemma user_key_inj u1 u2 : user_open_orders_key u1 = user_open_orders_key u2 -> u1 = u2.
Proof.
  unfold user_open_orders_key. intros H. apply (inj (String.append "user:")) in H.
  apply colon_split in H as [H _]; [by apply (inj str_of_Z)|apply str_of_Z_no_colon..].
Qed.
Lemma user_symbol_key_inj u1 u2 s1 s2 :
  user_open_orders_by_symbol_key u1 s1 = user_open_orders_by_symbol_key u2 s2 -> u1 = u2 /\ s1 = s2.
Proof.
  unfold user_open_orders_by_symbol_key. intros H. apply (inj (String.append "user:")) in H.
  apply colon_split in H as [H1 H2]; [|apply str_of_Z_no_colon..].
  split; [by apply (inj str_of_Z)|]. by apply (inj (String.append "open_orders:")) in H2.
Qed.
Lemma user_key_symbol_ne u1 u2 s : user_open_orders_key u1 <> user_open_orders_by_symbol_key u2 s.
Proof.
  unfold user_open_orders_key, user_open_orders_by_symbol_key. intros H.
  apply (inj (String.append "user:")) in H.
  apply colon_split in H as [_ H]; [|apply str_of_Z_no_colon..]. discriminate H.
Qed.
Lemma symbol_key_user_ne u s : symbol_open_orders_key s <> user_open_orders_key u.
Proof. discriminate. Qed.
Lemma symbol_key_user_symbol_ne u s s' : symbol_open_orders_key s <> user_open_orders_by_symbol_key u s'.
Proof. discriminate. Qed.
Lemma string_length_app a b : String.length (a +:+ b) = (String.length a + String.length b)%nat.
Proof. induction a as [|c a IH]; [done|]. exact (f_equal S IH). Qed.
Lemma append_cancel_r a b s : a +:+ s = b +:+ s -> a = b.
Proof.
  intros H. assert (Hl : String.length a = String.length b).
  { apply (f_equal String.length) in H. rewrite !string_length_app in H. lia. }
  revert b H Hl. induction a as [|c a IH]; intros [|c' b] H Hl; cbn in *; try done; try lia.
  simplify_eq. f_equal. apply IH; [done|lia].
Qed.
Lemma symbol_key_inj s1 s2 : symbol_open_orders_key s1 = symbol_open_orders_key s2 -> s1 = s2.
Proof.
  unfold symbol_open_orders_key. intros H. apply (inj (String.append "symbol:")) in H.
  by apply append_cancel_r in H.
Qed.

(** ** Operations *)

Section IndexOps.
Context {R : Redis}.

Definition add_open_order (user_id : Z) (symbol : string) (order_id : Z) : rprog unit :=
  _ ← sadd (user_open_orders_key user_id) (str_of_Z order_id);
  _ ← sadd (user_open_orders_by_symbol_key user_id symbol) (str_of_Z order_id);
  sadd (symbol_open_orders_key symbol) (str_of_Z order_id).

Definition remove_open_order (user_id : Z) (symbol : string) (order_id : Z) : rprog unit :=
  _ ← srem (user_open_orders_key user_id) (str_of_Z order_id);
  _ ← srem (user_open_orders_by_symbol_key user_id symbol) (str_of_Z order_id);
  srem (symbol_open_orders_key symbol) (str_of_Z order_id).

(** [sorted(int(m) for m in members)] *)
Definition sorted_ids (members : list string) : rprog (list Z) :=
  ids ← lift_exn (member_ids members); mret (merge_sort Z.le ids).

Definition get_user_open_orders (user_id : Z) : rprog (list Z) :=
  members ← smembers (user_open_orders_key user_id); sorted_ids members.
Definition get_user_open_orders_for_symbol (user_id : Z) (symbol : string) : rprog (list Z) :=
  members ← smembers (user_open_orders_by_symbol_key user_id symbol); sorted_ids members.
Definition get_symbol_open_orders (symbol : string) : rprog (list Z) :=
  members ← smembers (symbol_open_orders_key symbol); sorted_ids members.
Definition count_user_open_orders (user_id : Z) : rprog Z := scard (user_open_orders_key user_id).
Definition count_symbol_open_orders (symbol : string) : rprog Z := scard (symbol_open_orders_key symbol).
Definition is_order_open (user_id order_id : Z) : rprog bool :=
  sismember (user_open_orders_key user_id) (str_of_Z order_id).

(** The second pipeline of the all-symbols drain: the symbols are those the
    order hashes had when the first pipeline ran. *)
Fixpoint read_symbols (ids : list Z) : rprog (list (Z * option hval)) :=
  match ids with
  | [] => mret []
  | oid :: ids =>
      h ← hgetall (order_hash_key oid);
      rest ← read_symbols ids;
      mret ((oid, h !! "symbol") :: rest)
  end.
Fixpoint drop_from_symbols (user_id : Z) (l : list (Z * option hval)) : rprog unit :=
  match l with
  | [] => mret tt
  | (oid, sym) :: l =>
      _ ← match sym with
          | Some v => if hval_truthy v
                      then _ ← srem (user_open_orders_by_symbol_key user_id (hval_text v)) (str_of_Z oid);
                           srem (symbol_open_orders_key (hval_text v)) (str_of_Z oid)
                      else mret tt
          | None => mret tt
          end;
      drop_from_symbols user_id l
  end.
Fixpoint drop_ids (user_id : Z) (symbol : string) (ids : list Z) : rprog unit :=
  match ids with
  | [] => mret tt
  | oid :: ids =>
      _ ← srem (user_open_orders_key user_id) (str_of_Z oid);
      _ ← srem (symbol_open_orders_key symbol) (str_of_Z oid);
      drop_ids user_id symbol ids
  end.

Definition cancel_all_user_orders (user_id : Z) (symbol : option string) : rprog (list Z) :=
  match symbol with
  | None =>
      members ← smembers (user_open_orders_key user_id);
      ids ← lift_exn (member_ids members);
      _ ← del (user_open_orders_key user_id);
      syms ← read_symbols ids;
      _ ← drop_from_symbols user_id syms;
      mret (merge_sort Z.le ids)
  | Some symbol =>
      members ← smembers (user_open_orders_by_symbol_key user_id symbol);
      ids ← lift_exn (member_ids members);
      _ ← del (user_open_orders_by_symbol_key user_id symbol);
      _ ← drop_ids user_id symbol ids;
      mret (merge_sort Z.le ids)
  end.

(** The number of keys deleted. *)
Fixpoint del_all (keys : list string) : rprog Z :=
  match keys with
  | [] => mret 0
  | k :: keys => n ← del k; rest ← del_all keys; mret (n + rest)
  end.
Definition clear_user_indexes (user_id : Z) : rprog Z :=
  subsets ← scan (user_open_orders_by_symbol_key user_id "");
  del_all (user_open_orders_key user_id :: subsets).
Definition clear_symbol_indexes (symbol : string) : rprog Z := del (symbol_open_orders_key symbol).
End IndexOps.

(** ** The indexes as a set of open orders *)

(** Membership of an order in the three sets. *)
Record indexed (ks : Keyspace) (uid : Z) (symbol : string) (oid : Z) : Prop := {
  ix_user : str_of_Z oid ∈ ks_set ks (user_open_orders_key uid);
  ix_user_symbol : str_of_Z oid ∈ ks_set ks (user_open_orders_by_symbol_key uid symbol);
  ix_symbol : str_of_Z oid ∈ ks_set ks (symbol_open_orders_key symbol)
}.

(** The index represents the open orders [open] (id to user and symbol). *)
Definition represents (ks : Keyspace) (opn : gmap Z (Z * string)) : Prop :=
  (forall uid m, m ∈ ks_set ks (user_open_orders_key uid) <->
     exists oid s, m = str_of_Z oid /\ opn !! oid = Some (uid, s)) /\
  (forall uid s m, m ∈ ks_set ks (user_open_orders_by_symbol_key uid s) <->
     exists oid, m = str_of_Z oid /\ opn !! oid = Some (uid, s)) /\
  (forall s m, m ∈ ks_set ks (symbol_open_orders_key s) <->
     exists oid uid, m = str_of_Z oid /\ opn !! oid = Some (uid, s)).

Section IndexFacts.
Context {R : Redis} {RS : RedisSpec R}.

Lemma index_set_upd f g h uid s ks k :
  let ks' := upd_set (symbol_open_orders_key s) h
               (upd_set (user_open_orders_by_symbol_key uid s) g (upd_set (user_open_orders_key uid) f ks)) in
  ks_set ks' k =
    if decide (k = user_open_orders_key uid) then f (ks_set ks k)
    else if decide (k = user_open_orders_by_symbol_key uid s) then g (ks_set ks k)
    else if decide (k = symbol_open_orders_key s) then h (ks_set ks k)
    else ks_set ks k.
Proof.
  intros ks'. subst ks'.
  destruct (decide (k = user_open_orders_key uid)) as [->|H1].
  { rewrite (ks_set_upd_ne (symbol_open_orders_key s)) by apply symbol_key_user_ne.
    rewrite (ks_set_upd_ne (user_open_orders_by_symbol_key uid s)) by (intros E; by apply (user_key_symbol_ne uid uid s)).
    by rewrite ks_set_upd. }
  destruct (decide (k = user_open_orders_by_symbol_key uid s)) as [->|H2].
  { rewrite (ks_set_upd_ne (symbol_open_orders_key s)) by apply symbol_key_user_symbol_ne.
    by rewrite ks_set_upd, ks_set_upd_ne by done. }
  destruct (decide (k = symbol_open_orders_key s)) as [->|H3].
  { by rewrite ks_set_upd, !ks_set_upd_ne by done. }
  by rewrite !ks_set_upd_ne by done.
Qed.

Lemma add_open_order_view uid s oid st :
  (add_open_order uid s oid st).2 = inr tt /\
  view (add_open_order uid s oid st).1 =
    upd_set (symbol_open_orders_key s) (union {[str_of_Z oid]})
      (upd_set (user_open_orders_by_symbol_key uid s) (union {[str_of_Z oid]})
        (upd_set (user_open_orders_key uid) (union {[str_of_Z oid]}) (view st))).
Proof. unfold add_open_order, sadd. run_prog. cbn [fst snd]. by rewrite !sadd_view. Qed.

Lemma remove_open_order_view uid s oid st :
  (remove_open_order uid s oid st).2 = inr tt /\
  view (remove_open_order uid s oid st).1 =
    upd_set (symbol_open_orders_key s) (.∖ {[str_of_Z oid]})
      (upd_set (user_open_orders_by_symbol_key uid s) (.∖ {[str_of_Z oid]})
        (upd_set (user_open_orders_key uid) (.∖ {[str_of_Z oid]}) (view st))).
Proof. unfold remove_open_order, srem. run_prog. cbn [fst snd]. by rewrite !srem_view. Qed.

(** The three sets after an update by [f] of the sets of one user and symbol. *)
Lemma represents_upd (f : gset string -> gset string) uid s ks opn opn' :
  represents ks opn ->
  (forall u m, m ∈ (if decide (u = uid) then f else id) (ks_set ks (user_open_orders_key u)) <->
     exists oid s', m = str_of_Z oid /\ opn' !! oid = Some (u, s')) ->
  (forall u s' m, m ∈ (if decide (u = uid /\ s' = s) then f else id)
                        (ks_set ks (user_open_orders_by_symbol_key u s')) <->
     exists oid, m = str_of_Z oid /\ opn' !! oid = Some (u, s')) ->
  (forall s' m, m ∈ (if decide (s' = s) then f else id) (ks_set ks (symbol_open_orders_key s')) <->
     exists oid u, m = str_of_Z oid /\ opn' !! oid = Some (u, s')) ->
  represents (upd_set (symbol_open_orders_key s) f
                (upd_set (user_open_orders_by_symbol_key uid s) f
                   (upd_set (user_open_orders_key uid) f ks))) opn'.
Proof.
  intros Hrep H1 H2 H3. split; [|split].
  - intros u m. rewrite <- H1, index_set_upd. destruct (decide (u = uid)) as [->|Hne].
    + by rewrite decide_True by done.
    + rewrite decide_False by (intros E; by apply user_key_inj in E).
      rewrite decide_False by apply user_key_symbol_ne.
      by rewrite decide_False by (intros E; by apply (symbol_key_user_ne u s)).
  - intros u s' m. rewrite <- H2, index_set_upd.
    rewrite decide_False by (intros E; by apply (user_key_symbol_ne uid u s')).
    destruct (decide (u = uid /\ s' = s)) as [[-> ->]|Hne].
    + by rewrite decide_True by done.
    + rewrite decide_False by (intros E; by apply user_symbol_key_inj in E).
      by rewrite decide_False by (intros E; by apply (symbol_key_user_symbol_ne u s s')).
  - intros s' m. rewrite <- H3, index_set_upd.
    rewrite decide_False by apply symbol_key_user_ne.
    rewrite decide_False by apply symbol_key_user_symbol_ne.
    destruct (decide (s' = s)) as [->|Hne].
    + by rewrite decide_True by done.
    + by rewrite decide_False by (intros E; by apply symbol_key_inj in E).
Qed.

Lemma add_represents uid s oid ks opn :
  represents ks opn -> (opn !! oid = None \/ opn !! oid = Some (uid, s)) ->
  represents (upd_set (symbol_open_orders_key s) (union {[str_of_Z oid]})
      (upd_set (user_open_orders_by_symbol_key uid s) (union {[str_of_Z oid]})
        (upd_set (user_open_orders_key uid) (union {[str_of_Z oid]}) ks)))
    (<[oid := (uid, s)]> opn).
Proof.
  intros Hrep Hold. pose proof Hrep as (R1 & R2 & R3).
  assert (Hlk : forall i v, <[oid := (uid, s)]> opn !! i = Some v <->
                 (i = oid /\ v = (uid, s)) \/ opn !! i = Some v).
  { intros i v. destruct (decide (i = oid)) as [->|Hne].
    - rewrite lookup_insert_eq. destruct Hold as [E|E]; rewrite E; naive_solver.
    - rewrite lookup_insert_ne by done. naive_solver. }
  apply (represents_upd _ uid s ks opn); [done|..].
  - intros u m. setoid_rewrite Hlk. destruct (decide (u = uid)) as [->|]; cbn;
      [rewrite elem_of_union, elem_of_singleton|]; rewrite R1; naive_solver.
  - intros u s' m. setoid_rewrite Hlk. destruct (decide (u = uid /\ s' = s)) as [[-> ->]|]; cbn;
      [rewrite elem_of_union, elem_of_singleton|]; rewrite R2; naive_solver.
  - intros s' m. setoid_rewrite Hlk. destruct (decide (s' = s)) as [->|]; cbn;
      [rewrite elem_of_union, elem_of_singleton|]; rewrite R3; naive_solver.
Qed.

Lemma remove_represents uid s oid ks opn :
  represents ks opn -> opn !! oid = Some (uid, s) ->
  represents (upd_set (symbol_open_orders_key s) (.∖ {[str_of_Z oid]})
      (upd_set (user_open_orders_by_symbol_key uid s) (.∖ {[str_of_Z oid]})
        (upd_set (user_open_orders_key uid) (.∖ {[str_of_Z oid]}) ks)))
    (delete oid opn).
Proof.
  intros Hrep Hold. pose proof Hrep as (R1 & R2 & R3).
  assert (Hlk : forall i v, delete oid opn !! i = Some v <-> i <> oid /\ opn !! i = Some v)
    by (intros i v; rewrite lookup_delete_Some; naive_solver).
  assert (Hinj : forall i j, str_of_Z i = str_of_Z j -> i = j) by (intros; by apply (inj str_of_Z)).
  apply (represents_upd _ uid s ks opn); [done|..].
  - intros u m. setoid_rewrite Hlk. destruct (decide (u = uid)) as [->|Hu]; cbn;
      [rewrite elem_of_difference, elem_of_singleton|]; rewrite R1.
    + split; [intros [(o & s' & -> & Ho) Hm]|intros (o & s' & -> & Ho & Hs)].
      * exists o, s'. naive_solver.
      * split; [by exists o, s'|]. intros E. by apply Hinj in E.
    + split; intros (o & s' & H); exists o, s'; naive_solver.
  - intros u s' m. setoid_rewrite Hlk. destruct (decide (u = uid /\ s' = s)) as [[-> ->]|Hu]; cbn;
      [rewrite elem_of_difference, elem_of_singleton|]; rewrite R2.
    + split; [intros [(o & -> & Ho) Hm]|intros (o & -> & Ho & Hs)].
      * exists o. naive_solver.
      * split; [by exists o|]. intros E. by apply Hinj in E.
    + split; intros (o & H); exists o; naive_solver.
  - intros s' m. setoid_rewrite Hlk. destruct (decide (s' = s)) as [->|Hu]; cbn;
      [rewrite elem_of_difference, elem_of_singleton|]; rewrite R3.
    + split; [intros [(o & u & -> & Ho) Hm]|intros (o & u & -> & Ho & Hs)].
      * exists o, u. naive_solver.
      * split; [by exists o, u|]. intros E. by apply Hinj in E.
    + split; intros (o & u & H); exists o, u; naive_solver.
Qed.

(** ** Reading the indexes back *)

Lemma member_ids_map l : member_ids (str_of_Z <$> l) = inr l.
Proof. induction l as [|z l IH]; cbn; [done|]. by rewrite int_of_str_of_Z, IH. Qed.

(** The ids of the orders [P] selects. *)
Definition open_ids (P : Z * string -> bool) (opn : gmap Z (Z * string)) : gset Z :=
  dom (filter (fun kv => P kv.2 = true) opn).

Lemma elem_open_ids P opn oid : oid ∈ open_ids P opn <-> exists us, opn !! oid = Some us /\ P us = true.
Proof.
  unfold open_ids. rewrite elem_of_dom. unfold is_Some. setoid_rewrite map_lookup_filter_Some. naive_solver.
Qed.

Lemma StronglySorted_lt l : NoDup l -> StronglySorted Z.le l -> StronglySorted Z.lt l.
Proof.
  intros Hnd Hs. induction Hs as [|x l Hs IH Hx]; [constructor|]. apply NoDup_cons in Hnd as [Hn Hnd].
  constructor; [by apply IH|]. rewrite Forall_forall in Hx |- *. intros y Hy.
  specialize (Hx y Hy). assert (x <> y) by (intros ->; done). lia.
Qed.

Lemma sorted_ids_of members (ids : gset Z) st :
  NoDup members -> (forall m, m ∈ members <-> exists oid, m = str_of_Z oid /\ oid ∈ ids) ->
  exists l0, member_ids members = inr l0 /\ members = str_of_Z <$> l0 /\
    sorted_ids members st = (st, inr (merge_sort Z.le l0)) /\
    StronglySorted Z.lt (merge_sort Z.le l0) /\ (forall oid, oid ∈ merge_sort Z.le l0 <-> oid ∈ ids).
Proof.
  intros Hnd Hm.
  assert (Hl : exists l0, members = str_of_Z <$> l0).
  { assert (Hall : forall m, m ∈ members -> exists oid, m = str_of_Z oid) by (intros m Hi; apply Hm in Hi; naive_solver).
    clear Hm Hnd. induction members as [|m members IH]; [by exists []|].
    destruct IH as [l0 ->]; [intros x Hx; apply Hall; by right|].
    destruct (Hall m) as [o ->]; [by left|]. by exists (o :: l0). }
  destruct Hl as [l0 ->]. exists l0. split; [apply member_ids_map|]. split; [done|].
  split. { unfold sorted_ids, lift_exn. run_prog. by rewrite member_ids_map. }
  assert (Hin : forall oid, oid ∈ merge_sort Z.le l0 <-> oid ∈ ids).
  { intros oid. rewrite merge_sort_Permutation. split.
    - intros Ho. destruct (proj1 (Hm (str_of_Z oid))) as (o & E & Hi); [by apply list_elem_of_fmap_2|].
      by apply (inj str_of_Z) in E as ->.
    - intros Ho. assert (Hs : str_of_Z oid ∈ str_of_Z <$> l0) by (apply Hm; by exists oid).
      apply list_elem_of_fmap_1 in Hs as (o & E & Hi). by apply (inj str_of_Z) in E as ->. }
  split; [|done]. apply StronglySorted_lt.
  - rewrite merge_sort_Permutation. by apply NoDup_fmap_1 in Hnd.
  - apply StronglySorted_merge_sort; apply _.
Qed.

Lemma user_orders_read uid opn ks st :
  view st = ks -> represents ks opn ->
  exists l0, member_ids (r_smembers (user_open_orders_key uid) st) = inr l0 /\
    get_user_open_orders uid st = (st, inr (merge_sort Z.le l0)) /\
    StronglySorted Z.lt (merge_sort Z.le l0) /\
    (forall oid, oid ∈ merge_sort Z.le l0 <-> exists s, opn !! oid = Some (uid, s)).
Proof.
  intros Hv (R1 & _ & _).
  destruct (sorted_ids_of (r_smembers (user_open_orders_key uid) st)
              (open_ids (fun us => bool_decide (us.1 = uid)) opn) st) as (l0 & H1 & _ & H2 & H3 & H4).
  - rewrite smembers_view. apply NoDup_elements.
  - intros m. rewrite smembers_view, elem_of_elements, Hv, R1. setoid_rewrite elem_open_ids. split.
    + intros (o & s' & -> & Ho). exists o. split; [done|]. exists (uid, s'). split; [done|]. by apply bool_decide_eq_true.
    + intros (o & -> & [u s'] & Ho & Hb). apply bool_decide_eq_true in Hb. cbn in Hb. subst u. eauto.
  - exists l0. split; [done|]. split; [exact H2|]. split; [done|]. intros oid. rewrite H4, elem_open_ids. split.
    + intros ([u s'] & Ho & Hb). apply bool_decide_eq_true in Hb. cbn in Hb. subst u. eauto.
    + intros (s' & Ho). exists (uid, s'). split; [done|]. by apply bool_decide_eq_true.
Qed.

Lemma user_symbol_orders_read uid symbol opn ks st :
  view st = ks -> represents ks opn ->
  exists l0, member_ids (r_smembers (user_open_orders_by_symbol_key uid symbol) st) = inr l0 /\
    StronglySorted Z.lt (merge_sort Z.le l0) /\
    (forall oid, oid ∈ merge_sort Z.le l0 <-> opn !! oid = Some (uid, symbol)).
Proof.
  intros Hv (_ & R2 & _).
  destruct (sorted_ids_of (r_smembers (user_open_orders_by_symbol_key uid symbol) st)
              (open_ids (fun us => bool_decide (us = (uid, symbol))) opn) st) as (l0 & H1 & _ & H2 & H3 & H4).
  - rewrite smembers_view. apply NoDup_elements.
  - intros m. rewrite smembers_view, elem_of_elements, Hv, R2. setoid_rewrite elem_open_ids. split.
    + intros (o & -> & Ho). exists o. split; [done|]. exists (uid, symbol). split; [done|]. by apply bool_decide_eq_true.
    + intros (o & -> & us & Ho & Hb). apply bool_decide_eq_true in Hb. subst us. eauto.
  - exists l0. split; [done|]. split; [done|]. intros oid. rewrite H4, elem_open_ids. split.
    + intros (us & Ho & Hb). apply bool_decide_eq_true in Hb. by subst us.
    + intros Ho. exists (uid, symbol). split; [done|]. by apply bool_decide_eq_true.
Qed.

(** C37: the three Redis sets are an index of the open orders: adding and
    removing an order act on the represented map as insert and delete, the
    listing of a user is the strictly increasing list of exactly that user's
    open orders, and [is_order_open] is membership. *)
Theorem open_orders_index_correct uid symbol oid opn st :
  represents (view st) opn ->
  ((opn !! oid = None \/ opn !! oid = Some (uid, symbol)) ->
     represents (view (add_open_order uid symbol oid st).1) (<[oid := (uid, symbol)]> opn)) /\
  (opn !! oid = Some (uid, symbol) ->
     represents (view (remove_open_order uid symbol oid st).1) (delete oid opn)) /\
  (exists l, get_user_open_orders uid st = (st, inr l) /\ StronglySorted Z.lt l /\
     forall o, o ∈ l <-> exists s, opn !! o = Some (uid, s)) /\
  (exists b, is_order_open uid oid st = (st, inr b) /\ (b = true <-> exists s, opn !! oid = Some (uid, s))).
Proof.
  intros Hrep. split; [|split; [|split]].
  - intros H. rewrite (proj2 (add_open_order_view uid symbol oid st)). by apply add_represents.
  - intros H. rewrite (proj2 (remove_open_order_view uid symbol oid st)). by apply remove_represents.
  - destruct (user_orders_read uid opn (view st) st eq_refl Hrep) as (l0 & _ & H1 & H2 & H3). eauto.
  - unfold is_order_open, sismember. run_prog. eexists. split; [reflexivity|].
    rewrite sismember_view, bool_decide_eq_true. destruct Hrep as (R1 & _ & _). rewrite R1. split.
    + intros (o & s & E & Ho). apply (inj str_of_Z) in E as ->. eauto.
    + intros (s & Ho). eauto.
Qed.

Lemma drop_ids_view uid symbol ids st :
  (drop_ids uid symbol ids st).2 = inr tt /\
  forall k, ks_set (view (drop_ids uid symbol ids st).1) k =
    if decide (k = user_open_orders_key uid \/ k = symbol_open_orders_key symbol)
    then ks_set (view st) k ∖ list_to_set (str_of_Z <$> ids) else ks_set (view st) k.
Proof.
  revert st. induction ids as [|oid ids IH]; intros st; cbn [drop_ids].
  - split; [done|]. intros k. cbn. rewrite difference_empty_L. by destruct (decide _).
  - unfold srem. run_prog.
    destruct (IH (r_srem (symbol_open_orders_key symbol) (str_of_Z oid)
                   (r_srem (user_open_orders_key uid) (str_of_Z oid) st))) as [H1 H2].
    split; [exact H1|]. intros k. rewrite H2, !srem_view. cbn [fmap list_fmap list_to_set].
    destruct (decide (k = user_open_orders_key uid)) as [->|Hu].
    { rewrite !decide_True by auto. rewrite ks_set_upd_ne by apply symbol_key_user_ne.
      rewrite ks_set_upd. set_solver. }
    destruct (decide (k = symbol_open_orders_key symbol)) as [->|Hs].
    { rewrite !decide_True by auto. rewrite ks_set_upd, ks_set_upd_ne by done. set_solver. }
    rewrite !decide_False by naive_solver. by rewrite !ks_set_upd_ne by done.
Qed.

(** draining a user's orders on one symbol returns exactly those orders,
    increasing and without duplicates, and leaves an index that represents the
    remaining open orders. *)
Theorem cancel_all_symbol_drains uid symbol opn st :
  represents (view st) opn ->
  exists st' l, cancel_all_user_orders uid (Some symbol) st = (st', inr l) /\
    StronglySorted Z.lt l /\ (forall o, o ∈ l <-> opn !! o = Some (uid, symbol)) /\
    represents (view st') (filter (fun kv => kv.2 <> (uid, symbol)) opn).
Proof.
  intros Hrep. destruct (user_symbol_orders_read uid symbol opn (view st) st eq_refl Hrep)
    as (l0 & H1 & H2 & H3).
  unfold cancel_all_user_orders, smembers, lift_exn, del. run_prog. rewrite H1.
  pose proof (drop_ids_view uid symbol l0 (r_del (user_open_orders_by_symbol_key uid symbol) st)) as [D1 D2].
  destruct (drop_ids uid symbol l0 _) as [st' [e|[]]]; cbn in D1, D2; [done|].
  exists st', (merge_sort Z.le l0). split; [done|]. split; [done|]. split; [done|].
  assert (Hin : forall o, str_of_Z o ∈ str_of_Z <$> l0 <-> opn !! o = Some (uid, symbol)).
  { intros o. rewrite <- H3, merge_sort_Permutation. split.
    - intros H. apply list_elem_of_fmap_1 in H as (o' & E & Ho). by apply (inj str_of_Z) in E as ->.
    - apply list_elem_of_fmap_2. }
  assert (Hf : forall o us, filter (fun kv => kv.2 <> (uid, symbol)) opn !! o = Some us <->
                 opn !! o = Some us /\ us <> (uid, symbol)) by (intros; apply map_lookup_filter_Some).
  destruct Hrep as (R1 & R2 & R3). split; [|split].
  - intros u m. rewrite D2, del_view. rewrite ks_set_del_ne by (intros E; by apply (user_key_symbol_ne u uid symbol)).
    setoid_rewrite Hf. destruct (decide _) as [[E|E]|Hne].
    + apply user_key_inj in E as ->. rewrite elem_of_difference, elem_of_list_to_set, R1. split.
      * intros [(o & s & -> & Ho) Hn]. exists o, s. rewrite Hin in Hn. naive_solver.
      * intros (o & s & -> & Ho & Hs). split; [eauto|]. rewrite Hin. congruence.
    + by apply eq_sym, symbol_key_user_ne in E.
    + rewrite R1. split; intros (o & s & H); exists o, s; [|naive_solver].
      destruct H as [-> H]. split_and!; [done|done|]. intros [= -> ->]. apply Hne. by left.
  - intros u s m. rewrite D2, del_view. setoid_rewrite Hf.
    rewrite decide_False.
    2:{ intros [E|E]; [by apply (user_key_symbol_ne uid u s)|by apply (symbol_key_user_symbol_ne u symbol s)]. }
    destruct (decide (u = uid /\ s = symbol)) as [[-> ->]|Hne].
    + rewrite ks_set_del. split; [set_solver|]. by intros (o & _ & _ & ?).
    + rewrite ks_set_del_ne by (intros E; apply user_symbol_key_inj in E; naive_solver).
      rewrite R2. split; intros (o & H); exists o; [|naive_solver].
      destruct H as [-> H]. split_and!; [done|done|]. intros [= -> ->]. by apply Hne.
  - intros s m. rewrite D2, del_view. setoid_rewrite Hf.
    rewrite ks_set_del_ne by (intros E; by apply (symbol_key_user_symbol_ne uid s symbol)).
    destruct (decide _) as [[E|E]|Hne].
    + by apply symbol_key_user_ne in E.
    + apply symbol_key_inj in E as ->. rewrite elem_of_difference, elem_of_list_to_set, R3. split.
      * intros [(o & u & -> & Ho) Hn]. exists o, u. rewrite Hin in Hn. naive_solver.
      * intros (o & u & -> & Ho & Hs). split; [eauto|]. rewrite Hin. congruence.
    + rewrite R3. split; intros (o & u & H); exists o, u; [|naive_solver].
      destruct H as [-> H]. split_and!; [done|done|]. intros [= -> ->]. apply Hne. by right.
Qed.

Lemma prefix_app p k : String.prefix p k = true <-> exists s, k = p +:+ s.
Proof.
  revert k. induction p as [|c p IH]; intros k.
  - split; intros _; [by exists k|by destruct k].
  - destruct k as [|c' k]; [split; [done|by intros [s ?]]|].
    simpl. destruct (ascii_dec c c') as [->|Hne].
    + etransitivity; [exact (IH k)|]. split; intros [s H]; exists s; [by rewrite H|]. by injection H.
    + split; [done|]. intros [s [= E _]]. by rewrite E in Hne.
Qed.
Lemma string_app_assoc a b c : (a +:+ b) +:+ c = a +:+ (b +:+ c).
Proof. induction a as [|x a IH]; [done|]. exact (f_equal (String x) IH). Qed.
Lemma user_symbol_key_app uid s :
  user_open_orders_by_symbol_key uid s = user_open_orders_by_symbol_key uid "" +:+ s.
Proof. unfold user_open_orders_by_symbol_key. cbn. by rewrite !string_app_assoc. Qed.

Lemma del_all_view keys st :
  exists n, del_all keys st = ((del_all keys st).1, inr n) /\ 0 <= n <= Z.of_nat (length keys) /\
    forall k, ks_set (view (del_all keys st).1) k = if decide (k ∈ keys) then ∅ else ks_set (view st) k.
Proof.
  revert st. induction keys as [|x keys IH]; intros st; cbn [del_all].
  { exists 0. split_and!; [done..|]. intros k. by rewrite decide_False by apply not_elem_of_nil. }
  unfold del. run_prog. destruct (IH (r_del x st)) as (n & E & Hn & Hk).
  destruct (del_all keys (r_del x st)) as [st1 r]. cbn [fst snd] in *. injection E as ->.
  exists (Z.b2z (r_exists x st) + n). split; [done|]. split.
  { cbn [length]. destruct (r_exists x st); cbn [Z.b2z]; lia. }
  intros k. rewrite Hk, del_view. destruct (decide (k = x)) as [->|Hne].
  - rewrite ks_set_del, (decide_True (P := x ∈ x :: keys)) by left. by destruct (decide _).
  - rewrite ks_set_del_ne by done. apply decide_ext. set_solver.
Qed.

(** clearing a user deletes the set of its orders and every one of its
    per-symbol sets that exists, and touches no set of another user; the sets
    of the symbols keep the ids, so an index that represented the open orders
    no longer does when the user had one. *)
Theorem clear_user_indexes_correct uid st :
  exists n st', clear_user_indexes uid st = (st', inr n) /\ 0 <= n /\
    ks_set (view st') (user_open_orders_key uid) = ∅ /\
    (forall s, ks_set (view st') (user_open_orders_by_symbol_key uid s) = ∅) /\
    (forall u s, u <> uid ->
       ks_set (view st') (user_open_orders_key u) = ks_set (view st) (user_open_orders_key u) /\
       ks_set (view st') (user_open_orders_by_symbol_key u s) = ks_set (view st) (user_open_orders_by_symbol_key u s)) /\
    (forall s, ks_set (view st') (symbol_open_orders_key s) = ks_set (view st) (symbol_open_orders_key s)).
Proof.
  unfold clear_user_indexes, scan. run_prog.
  destruct (del_all_view (user_open_orders_key uid :: r_scan (user_open_orders_by_symbol_key uid "") st) st)
    as (n & E & [Hn _] & Hk). rewrite E. eexists n, _. split; [reflexivity|]. split; [done|].
  assert (Hin : forall k, k ∈ user_open_orders_key uid :: r_scan (user_open_orders_by_symbol_key uid "") st ->
            k = user_open_orders_key uid \/ exists s, k = user_open_orders_by_symbol_key uid s).
  { intros k [->|H]%elem_of_cons; [by left|]. apply scan_view in H as [H _]. apply prefix_app in H as [s ->].
    right. exists s. symmetry. apply user_symbol_key_app. }
  split_and!.
  - by rewrite Hk, decide_True by left.
  - intros s. rewrite Hk. destruct (decide _) as [|Hn']; [done|]. apply not_elem_of_cons in Hn' as [_ Hs].
    unfold ks_set. destruct (rsets (view st) !! _) eqn:El; [|done]. exfalso. apply Hs, scan_view.
    split; [apply prefix_app; exists s; apply user_symbol_key_app|].
    unfold ks_exists. rewrite El. cbn. by rewrite orb_true_r.
  - intros u s Hu. rewrite !Hk. split; rewrite decide_False; try done; intros [H|[s' H]]%Hin;
      first [by apply user_key_inj in H|by apply user_symbol_key_inj in H as [? _]
            |by apply user_key_symbol_ne in H|by apply eq_sym, user_key_symbol_ne in H].
  - intros s. rewrite Hk, decide_False; [done|]. intros [H|[s' H]]%Hin; discriminate H.
Qed.

End IndexFacts.

(** ** Witnesses *)

Lemma represents_empty : represents empty_keyspace ∅.
Proof.
  split; [|split]; intros; (split; [intros H; apply not_elem_of_empty in H as []|]).
  - by intros (? & ? & _ & H).
  - by intros (? & _ & H).
  - by intros (? & ? & _ & H).
Qed.

Lemma open_orders_index_correct_witness :
  represents (add_open_order (R := MemRedis) 7 "BTC/USDT" 3 empty_keyspace).1 {[3 := (7, "BTC/USDT")]}.
Proof.
  apply (open_orders_index_correct (RS := MemRedisSpec) 7 "BTC/USDT" 3 ∅ empty_keyspace);
    [exact represents_empty|by left].
Defined.

Lemma cancel_all_symbol_drains_witness :
  exists st' l, cancel_all_user_orders (R := MemRedis) 7 (Some "BTC/USDT") empty_keyspace = (st', inr l).
Proof.
  destruct (cancel_all_symbol_drains (RS := MemRedisSpec) 7 "BTC/USDT" ∅ empty_keyspace represents_empty)
    as (st' & l & H & _). exists st', l. exact H.
Defined.
