(* ===== verification/RateLimit.v ===== *)
(** * Sliding-window rate limiting: app/redis_client/rate_limit.py and
      app/core/rate_limit.py

    A key's recent requests are a sorted set of timestamps.  A request is
    allowed exactly when fewer than [limit] entries are inside the window, and
    the set never holds more than [limit] entries; the member text has
    microsecond precision, so requests of one microsecond count once. *)

From Stdlib Require Import ZArith Lia Bool SpecFloat Sorted.
From stdpp Require Import base tactics option list strings gmap sets.
From S2P Require Import Prelude Float64 PyDecimal Models RedisIface OrderBook.
#[local] Open Scope Z_scope.

Definition ratelimit_key (api_key : string) : string := "ratelimit:" +:+ api_key.

(** [f"{now:.6f}"] of a finite double. *)
Definition micros (now : float64) : Z :=
  match now with
  | S754_finite s m e =>
      let v := if e >=? 0 then Zpos m * 2 ^ e * 10 ^ 6 else round_half_even (Zpos m * 10 ^ 6) (2 ^ (- e)) in
      if s then - v else v
  | _ => 0
  end.
Fixpoint pad_digits (n : nat) (z : Z) : string :=
  match n with
  | O => ""
  | S n => pad_digits n (z / 10) +:+ str_of_Z (z mod 10)
  end.
Definition format_micros (q : Z) : string :=
  (if q <? 0 then "-" else "") +:+ str_of_Z (Z.abs q / 10 ^ 6) +:+ "." +:+ pad_digits 6 (Z.abs q mod 10 ^ 6).

Section RateLimitOps.
Context {R : Redis}.

(** [check_and_consume] at time [now]: (allowed, count, retry_after). *)
Definition check_and_consume (api_key : string) (limit_per_min : Z) (window_seconds : Z) (now : float64)
    : rprog (bool * Z * Z) :=
  let key := ratelimit_key api_key in
  let window_start := f_sub now (f_of_Z window_seconds) in
  _ ← zremrangebyscore key f_zero window_start;
  current_count ← zcard key;
  if current_count <? limit_per_min then
    _ ← zadd key (format_micros (micros now)) now;
    mret (true, current_count + 1, 0)
  else
    oldest ← zrange key 0 0;
    match oldest with
    | (_, oldest_score) :: _ =>
        r ← or_raise (ValueError "int")
              (f_trunc (f_sub (f_add oldest_score (f_of_Z window_seconds)) now));
        mret (false, current_count, Z.max 1 (r + 1))
    | [] => mret (false, current_count, 1)
    end.

Definition get_current_count (api_key : string) (window_seconds : Z) (now : float64) : rprog Z :=
  let key := ratelimit_key api_key in
  _ ← zremrangebyscore key f_zero (f_sub now (f_of_Z window_seconds));
  zcard key.

Definition reset_bucket (api_key : string) : rprog unit := _ ← del (ratelimit_key api_key); mret tt.

(** What [enforce_rate_limit] attaches to the request. *)
Record RateLimitState := MkRateLimitState {
  rate_limit_limit : Z;
  rate_limit_remaining : Z;
  rate_limit_retry_after : Z
}.
Definition enforce_rate_limit (api_key : option string) (limit : Z) (now : float64) : rprog RateLimitState :=
  let key := match api_key with
             | Some k => if String.eqb k "" then "anonymous" else k
             | None => "anonymous"
             end in
  r ← check_and_consume key limit 60 now;
  let '(allowed, current_count, retry_after) := r in
  if allowed : bool
  then mret (MkRateLimitState limit (Z.max 0 (limit - current_count)) 0)
  else raise (RateLimitExceededError limit current_count retry_after).

End RateLimitOps.

Section RateLimitFacts.
Context {R : Redis} {RS : RedisSpec R}.

(** Two key spaces that differ in one sorted set at most. *)
Record only_zset (k : string) (ks ks' : Keyspace) : Prop := {
  oz_hashes : hashes ks' = hashes ks;
  oz_lists : lists ks' = lists ks;
  oz_rsets : rsets ks' = rsets ks;
  oz_counters : counters ks' = counters ks;
  oz_published : published ks' = published ks;
  oz_zsets k' : k' <> k -> ks_zset ks' k' = ks_zset ks k'
}.
Lemma only_zset_refl k ks : only_zset k ks ks.
Proof. by split. Qed.
Lemma only_zset_upd k f ks ks' : only_zset k ks ks' -> only_zset k ks (upd_zset k f ks').
Proof. intros [? ? ? ? ? Hz]. split; try done. intros k' Hk. rewrite ks_zset_upd_ne by done. by apply Hz. Qed.

(** A rate-limit check touches nothing but the bucket of its key. *)
Lemma enforce_only_bucket key limit now st : key <> "" ->
  only_zset (ratelimit_key key) (view st) (view (enforce_rate_limit (Some key) limit now st).1).
Proof.
  intros Hk. assert (E : String.eqb key "" = false) by by apply String.eqb_neq.
  set (I := fun st' => only_zset (ratelimit_key key) (view st) (view st')).
  assert (H : keeps I (enforce_rate_limit (Some key) limit now)).
  { unfold enforce_rate_limit, check_and_consume, or_raise, zremrangebyscore, zadd, zcard, zrange. rewrite E.
    keeps_tac; apply keeps_modify; intros st' Hst; unfold I; rewrite ?zremrangebyscore_view, ?zadd_view;
      by apply only_zset_upd. }
  specialize (H st (only_zset_refl _ _)). by destruct (enforce_rate_limit (Some key) limit now st) as [st' [e|r]].
Qed.

(** The entries of the window that ends at [now]. *)
Definition live (z : gmap string float64) (window : Z) (now : float64) : gmap string float64 :=
  filter (fun e => in_scores f_zero (f_sub now (f_of_Z window)) e = false) z.

(** The retry computation never raises. *)
Definition retry_defined (z : gmap string float64) (window : Z) (now : float64) : Prop :=
  map_Forall (fun _ s => is_Some (f_trunc (f_sub (f_add s (f_of_Z window)) now))) z.

Lemma check_spec api_key limit window now st :
  let z := live (ks_zset (view st) (ratelimit_key api_key)) window now in
  let n := Z.of_nat (size z) in
  let r := check_and_consume api_key limit window now st in
  if n <? limit
  then r.2 = inr (true, n + 1, 0) /\
       ks_zset (view r.1) (ratelimit_key api_key) = <[format_micros (micros now) := now]> z
  else ks_zset (view r.1) (ratelimit_key api_key) = z /\
       (retry_defined z window now -> exists retry, r.2 = inr (false, n, retry) /\ 1 <= retry).
Proof.
  intros z n r. subst r. unfold check_and_consume, zremrangebyscore, zcard, zrange, zadd. run_prog.
  set (st1 := r_zremrangebyscore _ _ _ st).
  assert (Hz : ks_zset (view st1) (ratelimit_key api_key) = z).
  { subst st1. by rewrite zremrangebyscore_view, ks_zset_upd. }
  rewrite zcard_view, Hz. fold n.
  destruct (n <? limit).
  - cbn [fst snd]. split; [done|]. by rewrite zadd_view, ks_zset_upd, Hz.
  - rewrite zrange_view, Hz. destruct (rank_slice (zrank z) 0 0) as [|[m s] l] eqn:E.
    + cbn [fst snd]. split; [done|]. intros _. exists 1. split; [done|lia].
    + unfold or_raise. destruct (f_trunc _) as [t|] eqn:Et; run_prog; cbn [fst snd].
      * split; [done|]. intros _. exists (Z.max 1 (t + 1)). split; [done|lia].
      * split; [done|]. intros Hd. exfalso.
        assert (Hms : z !! m = Some s).
        { apply zrank_elem. apply (sublist_elem (rank_slice (zrank z) 0 0)).
          - apply rank_slice_sublist.
          - rewrite E. by left. }
        destruct (Hd m s Hms) as [t Ht]. congruence.
Qed.

(** At the limit the check refuses, or raises in the computation of the delay. *)
Lemma check_and_consume_outcome api_key limit now st :
  limit <= Z.of_nat (size (live (ks_zset (view st) (ratelimit_key api_key)) 60 now)) ->
  (exists n t, (check_and_consume api_key limit 60 now st).2 = inr (false, n, t)) \/
  (check_and_consume api_key limit 60 now st).2 = inl (ValueError "int").
Proof.
  intros Hl. unfold check_and_consume, zremrangebyscore, zcard, zrange, zadd. run_prog.
  set (st1 := r_zremrangebyscore _ _ _ st). rewrite zcard_view.
  assert (Hz : ks_zset (view st1) (ratelimit_key api_key) = live (ks_zset (view st) (ratelimit_key api_key)) 60 now).
  { subst st1. by rewrite zremrangebyscore_view, ks_zset_upd. }
  rewrite Hz, (proj2 (Z.ltb_ge _ _) Hl). destruct (r_zrange _ _ _ _) as [|[m s] l]; cbn [fst snd]; [left; by eexists _, _|].
  unfold or_raise. destruct (f_trunc _); run_prog; cbn [fst snd]; [left; by eexists _, _|by right].
Qed.

(** a request is allowed exactly when fewer than [limit] entries are in
    the window; allowing records the request, rejecting only evicts and gives
    a retry delay of at least one second. *)
Theorem check_and_consume_correct api_key limit window now st :
  let z := live (ks_zset (view st) (ratelimit_key api_key)) window now in
  let n := Z.of_nat (size z) in
  let r := check_and_consume api_key limit window now st in
  retry_defined z window now ->
  exists allowed count retry, r.2 = inr (allowed, count, retry) /\
    (allowed = true <-> n < limit) /\
    (if allowed
     then count = n + 1 /\ retry = 0 /\
          ks_zset (view r.1) (ratelimit_key api_key) = <[format_micros (micros now) := now]> z
     else count = n /\ 1 <= retry /\ ks_zset (view r.1) (ratelimit_key api_key) = z).
Proof.
  intros z n r Hd. pose proof (check_spec api_key limit window now st) as H. cbn zeta in H.
  fold z in H. fold n in H. fold r in H. destruct (Z.ltb_spec n limit) as [Hl|Hl].
  - destruct H as [H1 H2]. exists true, (n + 1), 0. split; [done|]. split; [by split|]. done.
  - destruct H as [H1 H2]. destruct (H2 Hd) as (t & H3 & H4). exists false, n, t.
    split; [done|]. split; [split; [done|lia]|]. done.
Qed.

(** A sequence of requests of one key. *)
Fixpoint requests (api_key : string) (limit window : Z) (times : list float64) (st : rstate) : rstate :=
  match times with
  | [] => st
  | t :: times => requests api_key limit window times (check_and_consume api_key limit window t st).1
  end.

(** whatever the request times, the bucket of a key never holds more than
    [limit] entries, so no window ever contains more than [limit] recorded
    requests. *)
Theorem bucket_bounded api_key limit window times st :
  0 <= limit -> Z.of_nat (size (ks_zset (view st) (ratelimit_key api_key))) <= limit ->
  Z.of_nat (size (ks_zset (view (requests api_key limit window times st)) (ratelimit_key api_key))) <= limit.
Proof.
  intros Hl. revert st. induction times as [|t times IH]; intros st Hst; cbn [requests]; [done|].
  apply IH. pose proof (check_spec api_key limit window t st) as H. cbn zeta in H.
  set (z := live (ks_zset (view st) (ratelimit_key api_key)) window t) in *.
  assert (Hz : (size z <= size (ks_zset (view st) (ratelimit_key api_key)))%nat).
  { apply map_size_filter. }
  destruct (Z.ltb_spec (Z.of_nat (size z)) limit).
  - destruct H as [_ ->]. rewrite map_size_insert. destruct (z !! _); unfold id; lia.
  - destruct H as [-> _]. lia.
Qed.
End RateLimitFacts.

(** requests made within one microsecond share a member and are counted
    once: with a limit of 2, three requests at one instant are all allowed. *)
Theorem same_microsecond_counts_once :
  let now := f_of_Z 1700000000 in
  let '(st1, r1) := check_and_consume (R := MemRedis) "k" 2 60 now empty_keyspace in
  let '(st2, r2) := check_and_consume (R := MemRedis) "k" 2 60 now st1 in
  let '(st3, r3) := check_and_consume (R := MemRedis) "k" 2 60 now st2 in
  r1 = inr (true, 1, 0) /\ r2 = inr (true, 2, 0) /\ r3 = inr (true, 2, 0).
Proof. vm_compute. done. Qed.

Lemma check_and_consume_correct_witness :
  exists count retry,
    (check_and_consume (R := MemRedis) "k" 1 60 (f_of_Z 1700000000) empty_keyspace).2
      = inr (true, count, retry) /\ count = 1.
Proof.
  destruct (check_and_consume_correct (RS := MemRedisSpec) "k" 1 60 (f_of_Z 1700000000) empty_keyspace)
    as (a & c & t & H & Hi & Hc).
  - intros m s Hm. exfalso. vm_compute in Hm. discriminate Hm.
  - destruct a; [|exfalso; destruct Hi as [_ Hi]; discriminate (Hi eq_refl)].
    exists c, t. split; [exact H|exact (proj1 Hc)].
Defined.

Lemma bucket_bounded_witness :
  Z.of_nat (size (ks_zset (requests (R := MemRedis) "k" 2 60 [f_of_Z 1; f_of_Z 2; f_of_Z 3] empty_keyspace)
                    (ratelimit_key "k"))) <= 2.
Proof.
  apply (bucket_bounded (RS := MemRedisSpec) "k" 2 60 [f_of_Z 1; f_of_Z 2; f_of_Z 3] empty_keyspace);
    [lia|]. vm_compute. discriminate.
Defined.
