(* ===== verification/Stops.v ===== *)
(** * Stop queues and trailing-stop state: app/redis_client/stops.py

    Stops wait in a sorted set scored by trigger price; a trailing stop keeps
    its extreme and trigger in a hash.  Theorems: the "all triggered" queries
    return every registered stop whatever the price; a trailing update acts on
    each stop as [trailing_step], and the extreme of a stop only ever moves in
    its favour. *)

From Stdlib Require Import ZArith Lia Bool SpecFloat Sorted.
From stdpp Require Import base tactics option list strings gmap sets sorting.
From S2P Require Import Prelude Float64 PyDecimal Models RedisIface OrderBook OrdersIndex.
#[local] Open Scope Z_scope.

Definition stops_key (symbol : string) : string := "stops:" +:+ symbol.
Definition trailing_key (symbol : string) : string := "trailing:" +:+ symbol.
Definition trailing_state_key (order_id : Z) : string := "trailing_state:" +:+ str_of_Z order_id.

(** [float(price) * SCORE_MULTIPLIER] *)
Definition stop_score (price : float64) : float64 := f_mul price (f_of_Z SCORE_MULTIPLIER).

(** The effect of a trade print on one trailing stop: the new extreme and
    trigger, if they move. *)
Definition trailing_step (side delta_type : string) (delta extreme : float64)
    (new_high new_low : option float64) : option (float64 * float64) :=
  if String.eqb side "sell" then
    match new_high with
    | Some h => if f_ltb extreme h
                then Some (h, if String.eqb delta_type "pct"
                              then f_mul h (f_sub (f_of_Z 1) (f_div delta (f_of_Z 100)))
                              else f_sub h delta)
                else None
    | None => None
    end
  else if String.eqb side "buy" then
    match new_low with
    | Some l => if f_ltb l extreme
                then Some (l, if String.eqb delta_type "pct"
                              then f_mul l (f_add (f_of_Z 1) (f_div delta (f_of_Z 100)))
                              else f_add l delta)
                else None
    | None => None
    end
  else None.

Section StopOps.
Context {R : Redis}.

Definition add_stop_order (order_id : Z) (symbol : string) (stop_price : decimal) : rprog unit :=
  zadd (stops_key symbol) (str_of_Z order_id) (stop_score (f_of_dec stop_price)).

Definition remove_stop_order (order_id : Z) (symbol : string) : rprog bool :=
  removed ← zrem (stops_key symbol) (str_of_Z order_id); mret (0 <? removed).

Definition int_members (members : list string) : rprog (list Z) := lift_exn (member_ids members).

Definition get_triggered_sell_stops (symbol : string) (last_trade_price : decimal) : rprog (list Z) :=
  members ← zrangebyscore (stops_key symbol) (stop_score (f_of_dec last_trade_price)) f_inf;
  int_members members.
Definition get_triggered_buy_stops (symbol : string) (last_trade_price : decimal) : rprog (list Z) :=
  members ← zrangebyscore (stops_key symbol) f_zero (stop_score (f_of_dec last_trade_price));
  int_members members.

(** The loop with [seen]: first occurrences, in order. *)
Fixpoint dedup (seen ids : list Z) : list Z :=
  match ids with
  | [] => []
  | oid :: ids => if bool_decide (oid ∈ seen) then dedup seen ids else oid :: dedup (oid :: seen) ids
  end.

Definition get_all_triggered_stops (symbol : string) (last_trade_price : decimal) : rprog (list Z) :=
  let price_score := stop_score (f_of_dec last_trade_price) in
  sell_stops ← zrangebyscore (stops_key symbol) f_zero price_score;
  buy_stops ← zrangebyscore (stops_key symbol) price_score f_inf;
  ids ← int_members (sell_stops ++ buy_stops);
  mret (dedup [] ids).

Definition register_trailing_stop (order_id : Z) (symbol side delta_type : string)
    (delta_value initial_extreme initial_trigger : decimal) : rprog unit :=
  _ ← zadd (trailing_key symbol) (str_of_Z order_id) (stop_score (f_of_dec initial_trigger));
  hset (trailing_state_key order_id)
    {[ "order_id" := htext_int order_id; "symbol" := HText symbol; "side" := HText (lower side);
       "delta_type" := HText delta_type; "delta_value" := HDecimal delta_value;
       "current_extreme" := HDecimal initial_extreme; "current_trigger" := HDecimal initial_trigger ]}.

Definition remove_trailing_stop (order_id : Z) (symbol : string) : rprog bool :=
  removed ← zrem (trailing_key symbol) (str_of_Z order_id);
  _ ← del (trailing_state_key order_id);
  mret (0 <? removed).

Definition get_trailing_state (order_id : Z) : rprog (option (gmap string hval)) :=
  raw ← hgetall (trailing_state_key order_id);
  mret (if decide (raw = ∅) then None else Some raw).

(** One ZADD and one HSET of the pipeline. *)
Definition update_trailing_trigger (order_id : Z) (symbol : string) (new_extreme new_trigger : float64)
    : rprog unit :=
  _ ← zadd (trailing_key symbol) (str_of_Z order_id) (stop_score new_trigger);
  hset (trailing_state_key order_id)
    {[ "current_extreme" := HDouble new_extreme; "current_trigger" := HDouble new_trigger ]}.

Definition get_triggered_trailing_stops (symbol : string) (last_trade_price : decimal) : rprog (list Z) :=
  let price_score := stop_score (f_of_dec last_trade_price) in
  sell_triggered ← zrangebyscore (trailing_key symbol) f_zero price_score;
  buy_triggered ← zrangebyscore (trailing_key symbol) price_score f_inf;
  ids ← int_members (sell_triggered ++ buy_triggered);
  mret (dedup [] ids).

(** The states of all trailing stops, loaded in one pipeline. *)
Fixpoint load_states (ids : list Z) : rprog (list (Z * gmap string hval)) :=
  match ids with
  | [] => mret []
  | oid :: ids =>
      state ← hgetall (trailing_state_key oid);
      rest ← load_states ids;
      mret ((oid, state) :: rest)
  end.

(** The step of one loaded state; an error is a field [float] cannot parse. *)
Definition state_step (state : gmap string hval) (new_high new_low : option float64)
    : option (option (float64 * float64)) :=
  delta ← hval_float (hget_or state ["delta_value"] (HText "0"));
  extreme ← hval_float (hget_or state ["current_extreme"] (HText "0"));
  Some (trailing_step (hval_text (hget_or state ["side"] (HText "")))
          (hval_text (hget_or state ["delta_type"] (HText "abs"))) delta extreme new_high new_low).

Fixpoint trailing_updates (states : list (Z * gmap string hval)) (new_high new_low : option float64)
    : exn + list (Z * float64 * float64) :=
  match states with
  | [] => inr []
  | (oid, state) :: states =>
      if decide (state = ∅) then trailing_updates states new_high new_low
      else match state_step state new_high new_low, trailing_updates states new_high new_low with
           | Some (Some (e, t)), inr us => inr ((oid, e, t) :: us)
           | Some None, inr us => inr us
           | None, _ => inl (ValueError "could not convert string to float")
           | _, inl err => inl err
           end
  end.

Fixpoint apply_updates (symbol : string) (us : list (Z * float64 * float64)) : rprog unit :=
  match us with
  | [] => mret tt
  | (oid, e, t) :: us => _ ← update_trailing_trigger oid symbol e t; apply_updates symbol us
  end.

Definition update_trailing_extremes (symbol : string) (new_high new_low : option float64) : rprog (list Z) :=
  members ← zrange (trailing_key symbol) 0 (-1);
  ids ← int_members (fst <$> members);
  states ← load_states ids;
  us ← lift_exn (trailing_updates states new_high new_low);
  _ ← apply_updates symbol us;
  mret ((fun u => u.1.1) <$> us).

Fixpoint del_states (ids : list Z) : rprog Z :=
  match ids with
  | [] => mret 0
  | oid :: ids => n ← del (trailing_state_key oid); rest ← del_states ids; mret (n + rest)
  end.
Definition clear_stops_for_symbol (symbol : string) : rprog Z :=
  members ← zrange (trailing_key symbol) 0 (-1);
  ids ← int_members (fst <$> members);
  a ← del (stops_key symbol);
  b ← del (trailing_key symbol);
  n ← del_states ids;
  mret (a + b + n).

End StopOps.

(** ** Every stop is reported *)

Lemma elem_dedup seen ids oid : oid ∈ dedup seen ids <-> oid ∈ ids /\ oid ∉ seen.
Proof.
  revert seen. induction ids as [|x ids IH]; intros seen; cbn [dedup].
  - split; [intros H; by apply not_elem_of_nil in H|intros [H _]; by apply not_elem_of_nil in H].
  - case_bool_decide as Hx.
    + rewrite IH, elem_of_cons. split; [tauto|]. intros [[->|?] ?]; tauto.
    + rewrite elem_of_cons, IH, !elem_of_cons. split; [|destruct (decide (oid = x)); tauto].
      intros [->|?]; tauto.
Qed.

Lemma dedup_nodup seen ids : NoDup (dedup seen ids).
Proof.
  revert seen. induction ids as [|x ids IH]; intros seen; cbn [dedup]; [constructor|].
  case_bool_decide; [done|]. constructor; [|done]. rewrite elem_dedup. intros [_ H1]. apply H1. by left.
Qed.

Section StopFacts.
Context {R : Redis} {RS : RedisSpec R}.

(** A sorted set of stops: ids as members, non-negative scores. *)
Definition stops_ok (z : gmap string float64) : Prop :=
  map_Forall (fun m s => (exists oid, m = str_of_Z oid) /\ f_leb f_zero s = true) z.

Lemma elem_range ks k lo hi m :
  m ∈ ks_zrangebyscore ks k lo hi <->
  exists s, ks_zset ks k !! m = Some s /\ f_leb lo s = true /\ f_leb s hi = true.
Proof.
  unfold ks_zrangebyscore. rewrite list_elem_of_fmap. split.
  - intros ([m' s] & -> & Hi). apply list_elem_of_filter in Hi as [Hs Hi]. apply zrank_elem in Hi.
    apply andb_true_iff in Hs as [H1 H2]. by exists s.
  - intros (s & Hm & H1 & H2). exists (m, s). split; [done|]. apply list_elem_of_filter. split.
    + unfold in_scores. cbn. by rewrite H1, H2.
    + by apply zrank_elem.
Qed.

Lemma member_ids_strs l : (forall m, m ∈ l -> exists oid, m = str_of_Z oid) ->
  exists ids, l = str_of_Z <$> ids /\ member_ids l = inr ids.
Proof.
  induction l as [|m l IH]; intros H; [by exists []|].
  destruct IH as (ids & -> & Hi); [intros x Hx; apply H; by right|].
  destruct (H m) as [o ->]; [by left|]. exists (o :: ids). split; [done|]. by rewrite <- member_ids_map.
Qed.

Lemma f_leb_inf s : f_isnan s = false -> f_leb s f_inf = true.
Proof. by destruct s as [[]|[]| |[]]. Qed.

Lemma ranges_cover ks k p :
  stops_ok (ks_zset ks k) -> f_isnan p = false ->
  let l := ks_zrangebyscore ks k f_zero p ++ ks_zrangebyscore ks k p f_inf in
  exists ids, member_ids l = inr ids /\ forall oid, oid ∈ ids <-> is_Some (ks_zset ks k !! str_of_Z oid).
Proof.
  intros Hok Hp l.
  assert (Hl : forall m, m ∈ l <-> is_Some (ks_zset ks k !! m)).
  { intros m. subst l. rewrite elem_of_app, !elem_range. split.
    - intros [(s & H & _)|(s & H & _)]; by exists s.
    - intros [s Hs]. destruct (Hok m s Hs) as [_ H0].
      assert (Hn : f_isnan s = false) by (by destruct s).
      destruct (f_ltb_total s p Hn Hp) as [H|[H|H]].
      + left. exists s. split_and!; [done|done|by apply f_ltb_leb].
      + left. exists s. split_and!; [done|done|]. clear -H. flex.
      + right. exists s. split_and!; [done|by apply f_ltb_leb|by apply f_leb_inf]. }
  destruct (member_ids_strs l) as (ids & Hi & Hm).
  - intros m Hm. apply Hl in Hm as [s Hs]. apply (Hok m s Hs).
  - exists ids. split; [done|]. intros oid. rewrite <- Hl, Hi. split.
    + apply list_elem_of_fmap_2.
    + intros H. apply list_elem_of_fmap_1 in H as (o & E & Ho). by apply (inj str_of_Z) in E as ->.
Qed.

(** [get_all_triggered_stops] returns every registered stop of the symbol,
    once each, whatever the trade price: the two score ranges it unites cover
    the whole sorted set.  The same holds for the trailing stops. *)
Theorem all_stops_reported symbol price st :
  f_isnan (stop_score (f_of_dec price)) = false ->
  (stops_ok (ks_zset (view st) (stops_key symbol)) ->
   exists l, get_all_triggered_stops symbol price st = (st, inr l) /\ NoDup l /\
     forall oid, oid ∈ l <-> is_Some (ks_zset (view st) (stops_key symbol) !! str_of_Z oid)) /\
  (stops_ok (ks_zset (view st) (trailing_key symbol)) ->
   exists l, get_triggered_trailing_stops symbol price st = (st, inr l) /\ NoDup l /\
     forall oid, oid ∈ l <-> is_Some (ks_zset (view st) (trailing_key symbol) !! str_of_Z oid)).
Proof.
  intros Hp. split; intros Hok; destruct (ranges_cover _ _ _ Hok Hp) as (ids & Hi & Hin); exists (dedup [] ids);
    (split; [|split; [apply dedup_nodup|]];
     [|intros oid; rewrite elem_dedup, Hin; split; [tauto|intros H; split; [done|apply not_elem_of_nil]]]).
  - unfold get_all_triggered_stops, zrangebyscore, int_members, lift_exn. run_prog.
    by rewrite !zrangebyscore_view, Hi.
  - unfold get_triggered_trailing_stops, zrangebyscore, int_members, lift_exn. run_prog.
    by rewrite !zrangebyscore_view, Hi.
Qed.

(** A registered stop can be removed exactly once. *)
Lemma add_then_remove_stop oid symbol price st :
  let st1 := (add_stop_order oid symbol price st).1 in
  let r := remove_stop_order oid symbol st1 in
  r.2 = inr true /\ ks_zset (view r.1) (stops_key symbol) !! str_of_Z oid = None.
Proof.
  intros st1 r. subst st1 r. unfold remove_stop_order, zrem, add_stop_order, zadd. run_prog. cbn [fst snd].
  rewrite zscore_view, zrem_view, zadd_view, !ks_zset_upd, lookup_insert_eq, lookup_delete_eq. done.
Qed.
End StopFacts.

(** ** The trailing ratchet *)

(** a trailing stop only ever moves in its owner's favour: a sell stop
    changes only on a strictly higher high, which becomes its extreme, and a
    buy stop only on a strictly lower low; the trigger is recomputed from the
    new extreme. *)
Theorem trailing_ratchet side delta_type delta extreme new_high new_low e t :
  trailing_step side delta_type delta extreme new_high new_low = Some (e, t) ->
  (side = "sell" /\ new_high = Some e /\ f_ltb extreme e = true /\
     (delta_type <> "pct" -> t = f_sub e delta)) \/
  (side = "buy" /\ new_low = Some e /\ f_ltb e extreme = true /\
     (delta_type <> "pct" -> t = f_add e delta)).
Proof.
  unfold trailing_step. destruct (String.eqb_spec side "sell") as [->|_].
  - destruct new_high as [h|]; [|done]. destruct (f_ltb extreme h) eqn:E; [|done].
    intros [= <- <-]. left. split_and!; [done|done|done|]. intros Hd.
    by destruct (String.eqb_spec delta_type "pct").
  - destruct (String.eqb_spec side "buy") as [->|_]; [|done].
    destruct new_low as [l|]; [|done]. destruct (f_ltb l extreme) eqn:E; [|done].
    intros [= <- <-]. right. split_and!; [done|done|done|]. intros Hd.
    by destruct (String.eqb_spec delta_type "pct").
Qed.

(** The update of [update_trailing_extremes] on a symbol with no trailing stop
    changes nothing. *)
Lemma update_without_stops {R : Redis} {RS : RedisSpec R} symbol h l st :
  ks_zset (view st) (trailing_key symbol) = ∅ ->
  update_trailing_extremes symbol h l st = (st, inr []).
Proof.
  intros Hz. unfold update_trailing_extremes, zrange, int_members, lift_exn. run_prog.
  by rewrite zrange_view, Hz.
Qed.

Lemma all_stops_reported_witness :
  exists l, get_all_triggered_stops (R := MemRedis) "BTC-USD" (dec_of_Z 100)
      (add_stop_order (R := MemRedis) 7 "BTC-USD" (dec_of_Z 90) empty_keyspace).1
    = ((add_stop_order (R := MemRedis) 7 "BTC-USD" (dec_of_Z 90) empty_keyspace).1, inr l) /\ NoDup l.
Proof.
  destruct (all_stops_reported (RS := MemRedisSpec) "BTC-USD" (dec_of_Z 100)
    (add_stop_order (R := MemRedis) 7 "BTC-USD" (dec_of_Z 90) empty_keyspace).1) as [H _].
  - vm_compute. reflexivity.
  - destruct H as (l & H1 & H2 & _); [|exists l; split; assumption].
    change (stops_ok {[ str_of_Z 7 := stop_score (f_of_dec (dec_of_Z 90)) ]}).
    apply map_Forall_singleton. split; [exists 7; reflexivity|vm_compute; reflexivity].
Defined.

Lemma trailing_ratchet_witness :
  trailing_step "sell" "abs" (f_of_Z 5) (f_of_Z 100) (Some (f_of_Z 110)) None
    = Some (f_of_Z 110, f_sub (f_of_Z 110) (f_of_Z 5)) /\ f_ltb (f_of_Z 100) (f_of_Z 110) = true.
Proof.
  split; [vm_compute; reflexivity|].
  destruct (trailing_ratchet "sell" "abs" (f_of_Z 5) (f_of_Z 100) (Some (f_of_Z 110)) None
    (f_of_Z 110) (f_sub (f_of_Z 110) (f_of_Z 5))) as [(_ & _ & H & _)|(H & _)];
    [vm_compute; reflexivity|exact H|discriminate H].
Defined.
