(* ===== verification/World.v ===== *)
(** * The state of the services: database, Redis, clock

    The tables the services write (SQLAlchemy models of app/models/), the
    transaction bracket [async with session.begin()] of app/db/session.py, the
    interface of PostgreSQL's NUMERIC arithmetic and the interference of
    concurrent transactions.

    Python objects attached to a session are represented by their rows: an
    attribute assignment followed by the flush is one update of the table.
    Reads see the writes of their own transaction. *)

From Stdlib Require Import ZArith Lia Bool SpecFloat.
From stdpp Require Import base tactics option list strings gmap sets.
From S2P Require Import Prelude Float64 PyDecimal Models RedisIface OrderBook.
#[local] Open Scope Z_scope.

(** ** The database *)

Abbreviation bkey := (prod Z string).

Record Database := MkDatabase {
  balances : gmap bkey Balance;
  orders : gmap Z Order;
  next_order_id : Z;
  trades : list Trade;
  pairs : gmap string TradingPair
}.

Definition set_balances (f : gmap bkey Balance -> gmap bkey Balance) (d : Database) : Database :=
  MkDatabase (f (balances d)) (orders d) (next_order_id d) (trades d) (pairs d).
Definition set_orders (f : gmap Z Order -> gmap Z Order) (d : Database) : Database :=
  MkDatabase (balances d) (f (orders d)) (next_order_id d) (trades d) (pairs d).
Definition set_trades (f : list Trade -> list Trade) (d : Database) : Database :=
  MkDatabase (balances d) (orders d) (next_order_id d) (f (trades d)) (pairs d).
(** INSERT of an order: the autoincremented key. *)
Definition insert_order (mk : Z -> Order) (d : Database) : Database :=
  MkDatabase (balances d) (<[next_order_id d := mk (next_order_id d)]> (orders d))
    (next_order_id d + 1) (trades d) (pairs d).

Record World {R : Redis} := MkWorld {
  db : Database;
  redis : rstate;
  now_ms : Z
}.
Arguments World : clear implicits.
Arguments World {R}.
Arguments MkWorld {R}.

Abbreviation wprog := (prog World exn).

(** ** PostgreSQL: NUMERIC(36, 18) columns and concurrent transactions *)

(** [SET c = c + x]: [None] is the error "numeric field overflow". *)
Class PgNumeric := {
  pg_add : decimal -> decimal -> option decimal;
  pg_sub : decimal -> decimal -> option decimal
}.

(** Documented: exact while the result has at most 18 decimals and 18 integer
    digits. *)
Class PgNumericSpec (P : PgNumeric) := {
  pg_add_money a b : money a -> money b -> Z.abs (dunits a + dunits b) < 10 ^ 46 ->
    exists r, pg_add a b = Some r /\ money r /\ dunits r = dunits a + dunits b;
  pg_sub_money a b : money a -> money b -> Z.abs (dunits a - dunits b) < 10 ^ 46 ->
    exists r, pg_sub a b = Some r /\ money r /\ dunits r = dunits a - dunits b
}.

(** What an optimistic operation does not control in attempt [n]: what other
    transactions commit to the balances between its read and its UPDATE, and
    which attributes the object has that the read returns for a row.  The
    session keeps one object per row, so a row that it has loaded before may
    come back with the attributes of an earlier read. *)
Class Interference := {
  interfere : Z -> gmap bkey Balance -> gmap bkey Balance;
  seen_as : Z -> Balance -> Balance
}.
Definition NoInterference : Interference := {| interfere _ t := t; seen_as _ b := b |}.

(** A computation by exact arithmetic, for closed examples. *)
Definition pg_store (u e : Z) : option decimal :=
  let c := if -18 <=? e then u * 10 ^ (e + 18)
           else Z.sgn u * ((2 * Z.abs u + 10 ^ (- e - 18)) / (2 * 10 ^ (- e - 18))) in
  if Z.abs c <? 10 ^ 36 then Some (Dec c (-18)) else None.
#[export] Instance PgExact : PgNumeric := {|
  pg_add a b := let e := Z.min (dexp a) (dexp b) in pg_store (dec_at e a + dec_at e b) e;
  pg_sub a b := let e := Z.min (dexp a) (dexp b) in pg_store (dec_at e a - dec_at e b) e
|}.

Lemma pg_store_money u e :
  -18 <= e -> Z.abs (u * 10 ^ (e + 36)) < 10 ^ 46 ->
  exists r, pg_store u e = Some r /\ money r /\ dunits r = u * 10 ^ (e + 36).
Proof.
  intros He Hu. unfold pg_store. destruct (Z.leb_spec (-18) e); [|lia].
  assert (Hp : 10 ^ (e + 36) = 10 ^ (e + 18) * 10 ^ 18)
    by (rewrite <- Z.pow_add_r by lia; f_equal; lia).
  rewrite Hp, Z.mul_assoc in Hu |- *. set (c := u * 10 ^ (e + 18)) in *.
  rewrite Z.abs_mul in Hu. change (Z.abs (10 ^ 18)) with (10 ^ 18) in Hu.
  assert (Hc : Z.abs c < 10 ^ 28) by lia.
  destruct (Z.ltb_spec (Z.abs c) (10 ^ 36)); [|lia].
  exists (Dec c (-18)). split; [done|]. unfold money, dunits. cbn [dcoef dexp].
  change (10 ^ (-18 + 36)) with (10 ^ 18). rewrite Z.abs_mul. change (Z.abs (10 ^ 18)) with (10 ^ 18). lia.
Qed.

#[export] Instance PgExactSpec : PgNumericSpec PgExact.
Proof.
  split; intros a b Ha Hb H; cbn [pg_add pg_sub PgExact];
    set (e := Z.min (dexp a) (dexp b));
    assert (He : -18 <= e) by (destruct Ha, Hb; lia);
    rewrite <- (dec_at_units e a), <- (dec_at_units e b) in H |- * by (unfold on_grid; lia).
  - rewrite <- Z.mul_add_distr_r in H |- *. by apply pg_store_money.
  - rewrite <- Z.mul_sub_distr_r in H |- *. by apply pg_store_money.
Defined.

(** ** Running on the parts of the world *)

Section WorldOps.
Context {R : Redis}.

Definition with_db (f : Database -> Database) (w : World) : World := MkWorld (f (db w)) (redis w) (now_ms w).

Definition on_redis {A} (m : rprog A) : wprog A := fun w =>
  let '(st, r) := m (redis w) in (MkWorld (db w) st (now_ms w), r).
Definition from_db {A} (f : Database -> A) : wprog A := gets (fun w => f (db w)).
Definition update_db (f : Database -> Database) : wprog unit := modify (with_db f).

(** [async with session.begin()]: an exception rolls the database back; Redis
    is not part of the transaction. *)
Definition transaction {A} (m : wprog A) : wprog A := fun w =>
  match m w with
  | (w', inl e) => (MkWorld (db w) (redis w') (now_ms w'), inl e)
  | r => r
  end.

Definition lift {A} (r : exn + A) : wprog A := fun w => (w, r).
Definition require {A} (e : exn) (o : option A) : wprog A :=
  match o with Some a => mret a | None => raise e end.

(** TradingPairRepository.get_by_symbol *)
Definition get_by_symbol (symbol : string) : wprog (option TradingPair) := from_db (fun d => pairs d !! symbol).

(** [session.add(order); flush()] *)
Definition add_order (mk : Z -> Order) : wprog Order := fun w =>
  (with_db (insert_order mk) w, inr (mk (next_order_id (db w)))).

(** ** Invariants of the database are not Redis's business *)

Definition on_db (P : Database -> Prop) (w : World) : Prop := P (db w).

Lemma keeps_on_redis {A} P (m : rprog A) : keeps (on_db P) (on_redis m).
Proof. intros w Hw. unfold on_redis. destruct (m (redis w)) as [st [e|a]]; done. Qed.
Lemma keeps_from_db {A} P (f : Database -> A) : keeps (on_db P) (from_db f).
Proof. by intros w. Qed.
Lemma keeps_update_db P f : (forall d, P d -> P (f d)) -> keeps (on_db P) (update_db f).
Proof. intros H w. apply H. Qed.
Lemma keeps_lift {A} P (r : exn + A) : keeps (on_db P) (lift r).
Proof. intros w. by destruct r. Qed.
Lemma keeps_require {A} P e (o : option A) : keeps (on_db P) (require e o).
Proof. intros w. by destruct o. Qed.
Lemma keeps_get_by_symbol P symbol : keeps (on_db P) (get_by_symbol symbol).
Proof. by intros w. Qed.
Lemma keeps_transaction {A} P (m : wprog A) : keeps (on_db P) m -> keeps (on_db P) (transaction m).
Proof.
  intros H w Hw. unfold transaction. specialize (H w Hw). by destruct (m w) as [w' [e|a]].
Qed.
Lemma transaction_rolls_back {A} (m : wprog A) w w' e : transaction m w = (w', inl e) -> db w' = db w.
Proof. unfold transaction. destruct (m w) as [w1 [e1|a]]; [|done]. by intros [= <- _]. Qed.
End WorldOps.

#[export] Hint Resolve keeps_on_redis keeps_from_db keeps_lift keeps_require keeps_get_by_symbol : keeps.
#[export] Hint Extern 1 (keeps _ (transaction _)) => apply keeps_transaction : keeps.
