(* ===== verification/Pubsub.v ===== *)
(** * Event broadcast: app/redis_client/pubsub.py

    Channel names, the envelope and the publishers.  Subscribers are the
    WebSocket gateway and the stop monitor; the connection handling of
    [subscribe] and [iter_messages] is I/O and is not modelled.  [publish]
    appends to the log of published messages of the key space. *)

From Stdlib Require Import ZArith Lia Bool SpecFloat.
From stdpp Require Import base tactics option list strings gmap.
From S2P Require Import Prelude Float64 PyDecimal Models RedisIface OrderBook World.
#[local] Open Scope Z_scope.

Definition orderbook_channel (symbol : string) : string := "pub:orderbook:" +:+ symbol.
Definition trades_channel (symbol : string) : string := "pub:trades:" +:+ symbol.
Definition orders_channel (user_id : Z) : string := "pub:orders:" +:+ str_of_Z user_id.
Definition balances_channel (user_id : Z) : string := "pub:balances:" +:+ str_of_Z user_id.
Definition bulk_channel (user_id : Z) : string := "pub:bulk:" +:+ str_of_Z user_id.

(** [_envelope]: the discriminator, the timestamp and the event's fields. *)
Definition envelope (event_type : string) (ts : Z) (data : list (string * jval)) : jval :=
  JObj ([("event", JStr event_type); ("ts", JInt ts)] ++ data).

(** The optional keyword arguments of [publish_order_update]. *)
Record OrderUpdateOpts := MkOpts {
  u_price : option float64;
  u_quantity : option float64;
  u_filled_quantity : option float64;
  u_remaining_quantity : option float64;
  u_avg_fill_price : option float64;
  u_last_trade_qty : option float64;
  u_last_trade_price : option float64;
  u_client_order_id : option string;
  u_bulk_id : option string
}.
Definition no_opts : OrderUpdateOpts := MkOpts None None None None None None None None None.

Definition jlevels (levels : list (float64 * float64)) : jval :=
  JList ((fun l => JList [JFloat l.1; JFloat l.2]) <$> levels).

Section Publishers.
Context {R : Redis}.

Definition publish_event (channel event_type : string) (data : list (string * jval)) : wprog unit :=
  ts ← gets now_ms;
  on_redis (publish channel (envelope event_type ts data)).

Definition publish_orderbook_snapshot (symbol : string) (bids asks : list (float64 * float64))
    (last_trade_price : option float64) : wprog unit :=
  publish_event (orderbook_channel symbol) "orderbook_snapshot"
    [("symbol", JStr symbol); ("bids", jlevels bids); ("asks", jlevels asks);
     ("last_trade_price", match last_trade_price with Some p => JFloat p | None => JNull end)].

(** One change of [publish_orderbook_update]: side, price, quantity. *)
Definition publish_orderbook_update (symbol : string) (changes : list (string * float64 * float64)) : wprog unit :=
  publish_event (orderbook_channel symbol) "orderbook_update"
    [("symbol", JStr symbol);
     ("changes", JList ((fun c => JObj [("side", JStr c.1.1); ("price", JFloat c.1.2); ("qty", JFloat c.2)])
                          <$> changes))].

Definition publish_trade (symbol : string) (trade_id : Z) (price quantity : float64) (side : string)
    (taker_order_id maker_order_id : option Z) : wprog unit :=
  publish_event (trades_channel symbol) "trade"
    ([("symbol", JStr symbol); ("trade_id", JInt trade_id); ("price", JFloat price);
      ("quantity", JFloat quantity); ("side", JStr side)]
     ++ jopt "taker_order_id" JInt taker_order_id ++ jopt "maker_order_id" JInt maker_order_id).

Definition publish_order_update (user_id : Z) (event : string) (order_id : Z)
    (symbol side type status : string) (o : OrderUpdateOpts) : wprog unit :=
  publish_event (orders_channel user_id) "order"
    ([("order_id", JInt order_id); ("symbol", JStr symbol); ("side", JStr side); ("type", JStr type);
      ("status", JStr status); ("status_event", JStr event)]
     ++ jopt "price" JFloat (u_price o) ++ jopt "quantity" JFloat (u_quantity o)
     ++ jopt "filled_quantity" JFloat (u_filled_quantity o)
     ++ jopt "remaining_quantity" JFloat (u_remaining_quantity o)
     ++ jopt "avg_fill_price" JFloat (u_avg_fill_price o)
     ++ jopt "last_trade_qty" JFloat (u_last_trade_qty o)
     ++ jopt "last_trade_price" JFloat (u_last_trade_price o)
     ++ jopt "client_order_id" JStr (u_client_order_id o) ++ jopt "bulk_id" JStr (u_bulk_id o)).

Definition publish_balance_update (user_id : Z) (asset : string) (total locked available : float64)
    (change : option float64) (reason : option string) (order_id : option Z) : wprog unit :=
  publish_event (balances_channel user_id) "balance"
    ([("asset", JStr asset); ("total", JFloat total); ("locked", JFloat locked);
      ("available", JFloat available)]
     ++ jopt "change" JFloat change ++ jopt "reason" JStr reason ++ jopt "order_id" JInt order_id).

Definition publish_bulk_result (user_id : Z) (bulk_id action : string) (total succeeded : Z)
    (failed : list jval) : wprog unit :=
  publish_event (bulk_channel user_id) "bulk_result"
    [("bulk_id", JStr bulk_id); ("action", JStr action); ("total", JInt total);
     ("succeeded", JInt succeeded); ("failed", JList failed)].

Definition publish_sl_tp_activated (user_id parent_order_id : Z) (sl_order_id tp_order_id : option Z) : wprog unit :=
  publish_event (orders_channel user_id) "sl_tp_activated"
    ([("parent_order_id", JInt parent_order_id)]
     ++ jopt "sl_order_id" JInt sl_order_id ++ jopt "tp_order_id" JInt tp_order_id).

(** ** Publishing touches the message log only *)

Context {RS : RedisSpec R}.

Definition with_log (log : list (string * jval)) (ks : Keyspace) : Keyspace :=
  MkKeyspace (zsets ks) (hashes ks) (lists ks) (rsets ks) (counters ks) log.

(** Redis and the clock are those of [w], up to the published messages. *)
Definition log_only (w w' : World) : Prop :=
  now_ms w' = now_ms w /\ exists log, view (redis w') = with_log log (view (redis w)).

#[export] Instance log_only_preorder : PreOrder log_only.
Proof.
  split.
  - intros w. split; [done|]. exists (published (view (redis w))). by destruct (view (redis w)).
  - intros w1 w2 w3 (H1 & log & H2) (H1' & log' & H2'). split; [by etrans|]. exists log'. by rewrite H2', H2.
Qed.

Lemma publish_event_spec channel ev data w :
  exists w', publish_event channel ev data w = (w', inr tt) /\ db w' = db w /\ log_only w w' /\
    published (view (redis w')) = published (view (redis w)) ++ [(channel, envelope ev (now_ms w) data)].
Proof.
  eexists. split; [reflexivity|]. unfold log_only. cbn [db redis now_ms].
  rewrite !publish_view. split_and!; [done|done|by eexists|done].
Qed.

Lemma keeps_log_publish w0 channel ev data : keeps (log_only w0) (publish_event channel ev data).
Proof.
  intros w Hw. destruct (publish_event_spec channel ev data w) as (w' & -> & _ & H & _). by etrans.
Qed.
Lemma keeps_log_db w0 f : keeps (log_only w0) (update_db f).
Proof. intros w Hw. exact Hw. Qed.
Lemma keeps_log_from_db {A} w0 (f : Database -> A) : keeps (log_only w0) (from_db f).
Proof. by intros w. Qed.
Lemma keeps_log_lift {A} w0 (r : exn + A) : keeps (log_only w0) (lift r).
Proof. intros w. by destruct r. Qed.
Lemma keeps_log_require {A} w0 e (o : option A) : keeps (log_only w0) (require e o).
Proof. intros w. by destruct o. Qed.
Lemma keeps_log_add_order w0 mk : keeps (log_only w0) (add_order mk).
Proof. intros w Hw. exact Hw. Qed.
End Publishers.

(** Every publisher preserves the database. *)
Lemma keeps_publish_event {R : Redis} P channel ev data : keeps (on_db P) (publish_event channel ev data).
Proof. unfold publish_event. keeps_tac. Qed.
#[export] Hint Resolve keeps_publish_event keeps_log_publish keeps_log_db keeps_log_from_db keeps_log_lift
  keeps_log_require keeps_log_add_order : keeps.
#[export] Hint Unfold publish_orderbook_snapshot publish_orderbook_update publish_trade publish_order_update
  publish_balance_update publish_bulk_result publish_sl_tp_activated : keeps.
