(* ===== verification/Balance.v ===== *)
(** * Balances: app/repositories/balance_repo.py, app/services/balance_service.py

    A balance is split into a locked and an available part.  The repository
    moves amounts either in one conditional UPDATE guarded by the row's version
    (optimistic) or on a row held FOR UPDATE (pessimistic); the service adds the
    retries and the events.  [moves] is the abstract effect of an operation on a
    row; every operation refines one, preserves [balance_ok] (the check of
    models/balance.py and no negative part) and never overdraws, under any
    interference of other transactions and whatever earlier state of the row a
    retry is shown by the session's identity map ([seen_balance]). *)

From Stdlib Require Import ZArith Lia Bool SpecFloat.
From stdpp Require Import base tactics option list strings gmap sets.
From S2P Require Import Prelude Float64 PyDecimal Models RedisIface OrderBook World Pubsub.
#[local] Open Scope Z_scope.

(** ** The model: check_invariant and the row operations *)

Definition check_invariant (b : Balance) : exn + Balance :=
  if dec_eqb (total_balance b) (dec_add (locked_balance b) (available_balance b)) then inr b
  else inl (RuntimeError "Balance invariant violated").

Definition new_balance (user_id : Z) (asset : string) : Balance :=
  MkBalance user_id asset dec_zero dec_zero dec_zero 1.

(** The static methods of BalanceRepository on a row held FOR UPDATE. *)
Definition repo_lock_pessimistic (b : Balance) (amount : decimal) : exn + Balance :=
  if dec_ltb amount dec_zero then inl (ValueError "lock amount must be non-negative")
  else if dec_ltb (available_balance b) amount then inl (ValueError "Insufficient available balance")
  else check_invariant
         (MkBalance (b_user_id b) (b_asset b) (total_balance b) (dec_add (locked_balance b) amount)
            (dec_sub (available_balance b) amount) (b_version b + 1)).

Definition repo_unlock_pessimistic (b : Balance) (amount : decimal) : exn + Balance :=
  if dec_ltb amount dec_zero then inl (ValueError "unlock amount must be non-negative")
  else if dec_ltb (locked_balance b) amount then inl (ValueError "Insufficient locked balance")
  else check_invariant
         (MkBalance (b_user_id b) (b_asset b) (total_balance b) (dec_sub (locked_balance b) amount)
            (dec_add (available_balance b) amount) (b_version b + 1)).

Definition repo_settle_pessimistic (b : Balance) (amount : decimal) : exn + Balance :=
  if dec_ltb amount dec_zero then inl (ValueError "settle amount must be non-negative")
  else if dec_ltb (locked_balance b) amount then inl (ValueError "Insufficient locked balance for settle")
  else check_invariant
         (MkBalance (b_user_id b) (b_asset b) (dec_sub (total_balance b) amount)
            (dec_sub (locked_balance b) amount) (available_balance b) (b_version b + 1)).

Definition repo_credit_pessimistic (b : Balance) (amount : decimal) : exn + Balance :=
  if dec_ltb amount dec_zero then inl (ValueError "credit amount must be non-negative")
  else check_invariant
         (MkBalance (b_user_id b) (b_asset b) (dec_add (total_balance b) amount) (locked_balance b)
            (dec_add (available_balance b) amount) (b_version b + 1)).

(** The new rows of the four UPDATE statements, in NUMERIC arithmetic. *)
Section Sql.
Context {P : PgNumeric}.
Definition sql_lock (amount : decimal) (b : Balance) : option Balance :=
  l ← pg_add (locked_balance b) amount; a ← pg_sub (available_balance b) amount;
  Some (MkBalance (b_user_id b) (b_asset b) (total_balance b) l a (b_version b + 1)).
Definition sql_unlock (amount : decimal) (b : Balance) : option Balance :=
  l ← pg_sub (locked_balance b) amount; a ← pg_add (available_balance b) amount;
  Some (MkBalance (b_user_id b) (b_asset b) (total_balance b) l a (b_version b + 1)).
Definition sql_settle (amount : decimal) (b : Balance) : option Balance :=
  l ← pg_sub (locked_balance b) amount; t ← pg_sub (total_balance b) amount;
  Some (MkBalance (b_user_id b) (b_asset b) t l (available_balance b) (b_version b + 1)).
Definition sql_credit (amount : decimal) (b : Balance) : option Balance :=
  t ← pg_add (total_balance b) amount; a ← pg_add (available_balance b) amount;
  Some (MkBalance (b_user_id b) (b_asset b) t (locked_balance b) a (b_version b + 1)).
End Sql.

Section BalanceService.
Context {R : Redis} {P : PgNumeric} {I : Interference}.

Definition get_by_user_asset (user_id : Z) (asset : string) : wprog (option Balance) :=
  from_db (fun d => balances d !! (user_id, asset)).
(** SELECT ... FOR UPDATE. *)
Definition get_for_update (user_id : Z) (asset : string) : wprog (option Balance) :=
  from_db (fun d => balances d !! (user_id, asset)).
(** The flush of a row's attributes. *)
Definition write_balance (b : Balance) : wprog unit :=
  update_db (set_balances <[(b_user_id b, b_asset b) := b]>).

Definition get_or_create (user_id : Z) (asset : string) : wprog Balance :=
  balance ← get_by_user_asset user_id asset;
  match balance with
  | Some b => mret b
  | None => _ ← write_balance (new_balance user_id asset); mret (new_balance user_id asset)
  end.

(** UPDATE ... WHERE version = expected AND guard: whether a row matched. *)
Definition conditional_update (user_id : Z) (asset : string) (expected_version : Z)
    (guard : Balance -> bool) (upd : Balance -> option Balance) : wprog bool :=
  row ← from_db (fun d => balances d !! (user_id, asset));
  match row with
  | Some b => if (b_version b =? expected_version) && guard b
              then b' ← require DBError (upd b); _ ← write_balance b'; mret true
              else mret false
  | None => mret false
  end.

Definition optimistic_lock (user_id : Z) (asset : string) (amount : decimal) (expected_version : Z) : wprog bool :=
  conditional_update user_id asset expected_version (fun b => dec_leb amount (available_balance b)) (sql_lock amount).
Definition optimistic_unlock (user_id : Z) (asset : string) (amount : decimal) (expected_version : Z) : wprog bool :=
  conditional_update user_id asset expected_version (fun b => dec_leb amount (locked_balance b)) (sql_unlock amount).
Definition optimistic_settle (user_id : Z) (asset : string) (amount : decimal) (expected_version : Z) : wprog bool :=
  conditional_update user_id asset expected_version (fun b => dec_leb amount (locked_balance b)) (sql_settle amount).
Definition optimistic_credit (user_id : Z) (asset : string) (amount : decimal) (expected_version : Z) : wprog bool :=
  conditional_update user_id asset expected_version (fun _ => true) (sql_credit amount).

(** [_publish_balance_update]: best effort. *)
Definition publish_balance (b : Balance) (change : decimal) (reason : string) (order_id : option Z) : wprog unit :=
  try_except
    (publish_balance_update (b_user_id b) (b_asset b) (f_of_dec (total_balance b)) (f_of_dec (locked_balance b))
       (f_of_dec (available_balance b)) (if dec_eqb change dec_zero then None else Some (f_of_dec change))
       (Some reason) order_id)
    (fun _ => mret tt).

Definition MAX_OPTIMISTIC_RETRIES : nat := 3.

(** [for attempt in range(n): ...] with an early return; [err] is raised when
    no attempt succeeds. *)
Fixpoint attempts (n : nat) (i : Z) (body : Z -> wprog (option Balance)) (err : exn) : wprog Balance :=
  match n with
  | O => raise err
  | S n => r ← body i; match r with Some b => mret b | None => attempts n (i + 1) body err end
  end.

(** Other transactions commit between the read and the UPDATE. *)
Definition others (i : Z) : wprog unit := update_db (set_balances (interfere i)).

(** The read of attempt [i], through the session's objects. *)
Definition seen_balance (i : Z) (user_id : Z) (asset : string) : wprog (option Balance) :=
  row ← get_by_user_asset user_id asset; mret (seen_as i <$> row).

(** After a successful UPDATE: the row as the session now sees it, and the event. *)
Definition updated (b : Balance) (change : decimal) (reason : string) (order_id : option Z) : wprog (option Balance) :=
  row ← get_by_user_asset (b_user_id b) (b_asset b);
  let b : Balance := match row with Some b => b | None => b end in
  _ ← publish_balance b change reason order_id;
  mret (Some b).

Definition lock_optimistic (user_id : Z) (asset : string) (amount : decimal) (reason : string)
    (order_id : option Z) : wprog Balance :=
  if dec_leb amount dec_zero then raise (ValueError "lock amount must be positive")
  else attempts MAX_OPTIMISTIC_RETRIES 0 (fun i =>
    row ← seen_balance i user_id asset;
    balance ← match row with Some b => mret b | None => get_or_create user_id asset end;
    if dec_ltb (available_balance balance) amount
    then raise (InsufficientBalanceError user_id asset amount (available_balance balance))
    else
      _ ← others i;
      success ← optimistic_lock user_id asset amount (b_version balance);
      match success with true => updated balance (dec_neg amount) reason order_id | false => mret None end)
    (BalanceVersionConflict user_id asset 3).

Definition unlock_optimistic (user_id : Z) (asset : string) (amount : decimal) (reason : string)
    (order_id : option Z) : wprog Balance :=
  if dec_leb amount dec_zero then raise (ValueError "unlock amount must be positive")
  else attempts MAX_OPTIMISTIC_RETRIES 0 (fun i =>
    row ← seen_balance i user_id asset;
    balance ← require (ValueError "Balance not found") row;
    _ ← others i;
    success ← optimistic_unlock user_id asset amount (b_version balance);
    match success with true => updated balance amount reason order_id | false => mret None end)
    (BalanceVersionConflict user_id asset 3).

Definition settle_optimistic (user_id : Z) (asset : string) (amount : decimal) (reason : string)
    (order_id : option Z) : wprog Balance :=
  if dec_leb amount dec_zero then raise (ValueError "settle amount must be positive")
  else attempts MAX_OPTIMISTIC_RETRIES 0 (fun i =>
    row ← seen_balance i user_id asset;
    balance ← require (ValueError "Balance not found") row;
    _ ← others i;
    success ← optimistic_settle user_id asset amount (b_version balance);
    match success with true => updated balance dec_zero reason order_id | false => mret None end)
    (BalanceVersionConflict user_id asset 3).

Definition credit_optimistic (user_id : Z) (asset : string) (amount : decimal) (reason : string)
    (order_id : option Z) : wprog Balance :=
  if dec_leb amount dec_zero then raise (ValueError "credit amount must be positive")
  else attempts MAX_OPTIMISTIC_RETRIES 0 (fun i =>
    row ← seen_balance i user_id asset;
    match row with
    | None => _ ← get_or_create user_id asset; mret None
    | Some balance =>
        _ ← others i;
        success ← optimistic_credit user_id asset amount (b_version balance);
        match success with true => updated balance amount reason order_id | false => mret None end
    end)
    (BalanceVersionConflict user_id asset 3).

(** A pessimistic operation: mutate, flush, publish; the mutated row. *)
Definition pessimistic (op : Balance -> decimal -> exn + Balance) (b : Balance) (amount change : decimal)
    (reason : string) (order_id : option Z) : wprog Balance :=
  b' ← lift (op b amount);
  _ ← write_balance b';
  _ ← publish_balance b' change reason order_id;
  mret b'.
Definition lock_pessimistic b amount := pessimistic repo_lock_pessimistic b amount (dec_neg amount).
Definition unlock_pessimistic b amount := pessimistic repo_unlock_pessimistic b amount amount.
Definition settle_pessimistic b amount := pessimistic repo_settle_pessimistic b amount dec_zero.
Definition credit_pessimistic b amount := pessimistic repo_credit_pessimistic b amount amount.

(** Both rows are attached to the session: when they are the same row, the
    credit sees the settled object. *)
Definition settle_trade_pessimistic (taker_balance maker_balance : Balance) (amount : decimal)
    (taker_order_id maker_order_id : Z) : wprog (Balance * Balance) :=
  taker' ← lift (repo_settle_pessimistic taker_balance amount);
  let same := bool_decide ((b_user_id taker_balance, b_asset taker_balance)
                           = (b_user_id maker_balance, b_asset maker_balance)) in
  maker' ← lift (repo_credit_pessimistic (if same then taker' else maker_balance) amount);
  let taker' := if same then maker' else taker' in
  _ ← write_balance taker';
  _ ← write_balance maker';
  _ ← publish_balance taker' dec_zero "trade_settled" (Some taker_order_id);
  _ ← publish_balance maker' amount "trade_received" (Some maker_order_id);
  mret (taker', maker').

Definition get_all_balances (user_id : Z) : wprog (list Balance) :=
  from_db (fun d => snd <$> filter (fun kb => kb.1.1 = user_id) (map_to_list (balances d))).

(** The row to adjust, locked; created empty when missing. *)
Definition admin_row (user_id : Z) (asset : string) : wprog Balance :=
  row ← get_for_update user_id asset;
  match row with
  | Some b => mret b
  | None => _ ← get_or_create user_id asset;
            row ← get_for_update user_id asset; require AssertionError row
  end.

Definition admin_adjust (user_id : Z) (asset : string) (delta : decimal) (reason : string) : wprog Balance :=
  balance ← admin_row user_id asset;
  let bump t a := MkBalance (b_user_id balance) (b_asset balance) t (locked_balance balance) a (b_version balance + 1) in
  b' ← (if dec_leb dec_zero delta
        then mret (bump (dec_add (total_balance balance) delta) (dec_add (available_balance balance) delta))
        else
          let abs_delta := dec_neg delta in
          if dec_ltb (available_balance balance) abs_delta
          then raise (InsufficientBalanceError user_id asset abs_delta (available_balance balance))
          else mret (bump (dec_sub (total_balance balance) abs_delta) (dec_sub (available_balance balance) abs_delta)));
  b' ← lift (check_invariant b');
  _ ← write_balance b';
  _ ← publish_balance b' delta (if String.eqb reason "admin_adjustment" then "admin_adjustment" else "deposit") None;
  mret b'.
End BalanceService.

(** ** Rows *)

Definition balance_ok (b : Balance) : Prop :=
  money (total_balance b) /\ money (locked_balance b) /\ money (available_balance b) /\
  0 <= dunits (locked_balance b) /\ 0 <= dunits (available_balance b) /\
  dunits (total_balance b) = dunits (locked_balance b) + dunits (available_balance b).

(** Every row is stored under its key and satisfies the invariant. *)
Definition balances_ok (t : gmap bkey Balance) : Prop :=
  map_Forall (fun k b => k = (b_user_id b, b_asset b) /\ balance_ok b) t.
Definition db_ok (d : Database) : Prop := balances_ok (balances d).

(** The abstract effect of an operation: the row's version is bumped, [dl] is
    added to the locked part and [da] to the available part. *)
Definition moves (b b' : Balance) (dl da : Z) : Prop :=
  b_user_id b' = b_user_id b /\ b_asset b' = b_asset b /\ b_version b' = b_version b + 1 /\
  dunits (locked_balance b') = dunits (locked_balance b) + dl /\
  dunits (available_balance b') = dunits (available_balance b) + da /\
  dunits (total_balance b') = dunits (total_balance b) + dl + da /\ balance_ok b'.

Lemma new_balance_ok uid asset : balance_ok (new_balance uid asset).
Proof. unfold balance_ok, new_balance. cbn. by vm_compute. Qed.

Lemma check_invariant_ok b : balance_ok b -> check_invariant b = inr b.
Proof.
  intros (Ht & Hl & Ha & Hl0 & Ha0 & Hs). unfold check_invariant.
  destruct (dec_add_money _ _ Hl Ha) as [Hu Hm]; [destruct Ht; lia|].
  rewrite dec_eqb_units by auto with money. by rewrite Hu, Hs, Z.eqb_refl.
Qed.

Lemma check_invariant_inv b b' : check_invariant b = inr b' -> b' = b.
Proof. unfold check_invariant. destruct (dec_eqb _ _); congruence. Qed.

Ltac row_ok :=
  unfold moves, balance_ok in *;
  cbn [total_balance locked_balance available_balance b_user_id b_asset b_version] in *;
  split_and!; first [done | lia].

Section RowOps.
Context (b : Balance) (a : decimal).
Hypotheses (Hb : balance_ok b) (Ha : money a).

(** What an operation on a row does, by its guard. *)
Definition row_outcome (guard : bool) (r : exn + Balance) (dl da : Z) : Prop :=
  if guard then exists b', r = inr b' /\ moves b b' dl da
  else exists msg, r = inl (ValueError msg).

Ltac row_op :=
  destruct Hb as (Ht & Hl & Hv & Hl0 & Hv0 & Hs);
  rewrite ?dec_ltb_units by first [by apply money_on_grid | unfold on_grid; cbn; lia];
  change (dunits dec_zero) with 0;
  pose proof (proj2 Ha); pose proof (proj2 Ht); pose proof (proj2 Hl); pose proof (proj2 Hv).

Lemma repo_lock_spec :
  row_outcome ((0 <=? dunits a) && (dunits a <=? dunits (available_balance b)))
    (repo_lock_pessimistic b a) (dunits a) (- dunits a).
Proof.
  unfold repo_lock_pessimistic, row_outcome. row_op.
  destruct (Z.ltb_spec (dunits a) 0), (Z.leb_spec 0 (dunits a)); try lia; cbn [andb]; [eexists; reflexivity|].
  destruct (Z.ltb_spec (dunits (available_balance b)) (dunits a)),
    (Z.leb_spec (dunits a) (dunits (available_balance b))); try lia; [eexists; reflexivity|].
  destruct (dec_add_money _ _ Hl Ha) as [U1 M1]; [lia|].
  destruct (dec_sub_money _ _ Hv Ha) as [U2 M2]; [lia|].
  assert (Hok : balance_ok (MkBalance (b_user_id b) (b_asset b) (total_balance b) (dec_add (locked_balance b) a)
            (dec_sub (available_balance b) a) (b_version b + 1))).
  { row_ok. }
  rewrite (check_invariant_ok _ Hok). eexists. split; [done|]. row_ok.
Qed.

Lemma repo_unlock_spec :
  row_outcome ((0 <=? dunits a) && (dunits a <=? dunits (locked_balance b)))
    (repo_unlock_pessimistic b a) (- dunits a) (dunits a).
Proof.
  unfold repo_unlock_pessimistic, row_outcome. row_op.
  destruct (Z.ltb_spec (dunits a) 0), (Z.leb_spec 0 (dunits a)); try lia; cbn [andb]; [eexists; reflexivity|].
  destruct (Z.ltb_spec (dunits (locked_balance b)) (dunits a)),
    (Z.leb_spec (dunits a) (dunits (locked_balance b))); try lia; [eexists; reflexivity|].
  destruct (dec_sub_money _ _ Hl Ha) as [U1 M1]; [lia|].
  destruct (dec_add_money _ _ Hv Ha) as [U2 M2]; [lia|].
  assert (Hok : balance_ok (MkBalance (b_user_id b) (b_asset b) (total_balance b) (dec_sub (locked_balance b) a)
            (dec_add (available_balance b) a) (b_version b + 1))).
  { row_ok. }
  rewrite (check_invariant_ok _ Hok). eexists. split; [done|]. row_ok.
Qed.

Lemma repo_settle_spec :
  row_outcome ((0 <=? dunits a) && (dunits a <=? dunits (locked_balance b)))
    (repo_settle_pessimistic b a) (- dunits a) 0.
Proof.
  unfold repo_settle_pessimistic, row_outcome. row_op.
  destruct (Z.ltb_spec (dunits a) 0), (Z.leb_spec 0 (dunits a)); try lia; cbn [andb]; [eexists; reflexivity|].
  destruct (Z.ltb_spec (dunits (locked_balance b)) (dunits a)),
    (Z.leb_spec (dunits a) (dunits (locked_balance b))); try lia; [eexists; reflexivity|].
  destruct (dec_sub_money _ _ Hl Ha) as [U1 M1]; [lia|].
  destruct (dec_sub_money _ _ Ht Ha) as [U2 M2]; [lia|].
  assert (Hok : balance_ok (MkBalance (b_user_id b) (b_asset b) (dec_sub (total_balance b) a)
            (dec_sub (locked_balance b) a) (available_balance b) (b_version b + 1))).
  { row_ok. }
  rewrite (check_invariant_ok _ Hok). eexists. split; [done|]. row_ok.
Qed.

Lemma repo_credit_spec :
  dunits (total_balance b) + dunits a < 10 ^ 46 ->
  row_outcome (0 <=? dunits a) (repo_credit_pessimistic b a) 0 (dunits a).
Proof.
  intros Hroom. unfold repo_credit_pessimistic, row_outcome. row_op.
  destruct (Z.ltb_spec (dunits a) 0), (Z.leb_spec 0 (dunits a)); try lia; cbn [andb]; [eexists; reflexivity|].
  destruct (dec_add_money _ _ Ht Ha) as [U1 M1]; [lia|].
  destruct (dec_add_money _ _ Hv Ha) as [U2 M2]; [lia|].
  assert (Hok : balance_ok (MkBalance (b_user_id b) (b_asset b) (dec_add (total_balance b) a)
            (locked_balance b) (dec_add (available_balance b) a) (b_version b + 1))).
  { row_ok. }
  rewrite (check_invariant_ok _ Hok). eexists. split; [done|]. row_ok.
Qed.

(** The UPDATE statements. *)
Context {P : PgNumeric} {PS : PgNumericSpec P}.

Lemma sql_lock_spec :
  0 <= dunits a <= dunits (available_balance b) ->
  exists b', sql_lock a b = Some b' /\ moves b b' (dunits a) (- dunits a).
Proof.
  intros Hg. unfold sql_lock. row_op.
  destruct (pg_add_money _ _ Hl Ha) as (l & -> & M1 & U1); [lia|].
  destruct (pg_sub_money _ _ Hv Ha) as (v & -> & M2 & U2); [lia|].
  eexists. split; [done|]. row_ok.
Qed.
Lemma sql_unlock_spec :
  0 <= dunits a <= dunits (locked_balance b) ->
  exists b', sql_unlock a b = Some b' /\ moves b b' (- dunits a) (dunits a).
Proof.
  intros Hg. unfold sql_unlock. row_op.
  destruct (pg_sub_money _ _ Hl Ha) as (l & -> & M1 & U1); [lia|].
  destruct (pg_add_money _ _ Hv Ha) as (v & -> & M2 & U2); [lia|].
  eexists. split; [done|]. row_ok.
Qed.
Lemma sql_settle_spec :
  0 <= dunits a <= dunits (locked_balance b) ->
  exists b', sql_settle a b = Some b' /\ moves b b' (- dunits a) 0.
Proof.
  intros Hg. unfold sql_settle. row_op.
  destruct (pg_sub_money _ _ Hl Ha) as (l & -> & M1 & U1); [lia|].
  destruct (pg_sub_money _ _ Ht Ha) as (v & -> & M2 & U2); [lia|].
  eexists. split; [done|]. row_ok.
Qed.
Lemma sql_credit_spec :
  0 <= dunits a -> dunits (total_balance b) + dunits a < 10 ^ 46 ->
  exists b', sql_credit a b = Some b' /\ moves b b' 0 (dunits a).
Proof.
  intros Hg Hroom. unfold sql_credit. row_op.
  destruct (pg_add_money _ _ Ht Ha) as (l & -> & M1 & U1); [lia|].
  destruct (pg_add_money _ _ Hv Ha) as (v & -> & M2 & U2); [lia|].
  eexists. split; [done|]. row_ok.
Qed.
End RowOps.

Lemma moves_ok b b' dl da : moves b b' dl da -> balance_ok b'.
Proof. by intros (_ & _ & _ & _ & _ & _ & H). Qed.

Lemma balances_ok_lookup t uid asset b :
  balances_ok t -> t !! (uid, asset) = Some b -> b_user_id b = uid /\ b_asset b = asset /\ balance_ok b.
Proof. intros Ht H. destruct (Ht _ _ H) as [[= -> ->] Hb]. done. Qed.

Lemma balances_ok_insert t b : balances_ok t -> balance_ok b -> balances_ok (<[(b_user_id b, b_asset b) := b]> t).
Proof. intros Ht Hb. by apply map_Forall_insert_2. Qed.

(** ** The service under interference *)

Section Optimistic.
Context {R : Redis} {P : PgNumeric} {PS : PgNumericSpec P} {I : Interference}.

(** What happens to the balances while an optimistic operation has not
    succeeded: other transactions commit, a missing row is created empty. *)
Inductive evolves (t : gmap bkey Balance) : gmap bkey Balance -> Prop :=
  | evolves_refl : evolves t t
  | evolves_others n t' : evolves t t' -> evolves t (interfere n t')
  | evolves_create uid asset t' : evolves t t' -> t' !! (uid, asset) = None ->
      evolves t (<[(uid, asset) := new_balance uid asset]> t').

(** One row has been moved, atomically, after an evolution. *)
Definition applied (t t' : gmap bkey Balance) (k : bkey) (dl da : Z) : Prop :=
  exists s row row', evolves t s /\ s !! k = Some row /\ moves row row' dl da /\ t' = <[k := row']> s.

(** Other transactions preserve the invariant too; an object of the session is
    that of the row, whatever its attributes. *)
Definition same_row (b b' : Balance) : Prop := b_user_id b' = b_user_id b /\ b_asset b' = b_asset b.
Definition rely : Prop :=
  (forall n t, balances_ok t -> balances_ok (interfere n t)) /\ (forall n b, same_row b (seen_as n b)).

Lemma evolves_trans t1 t2 t3 : evolves t1 t2 -> evolves t2 t3 -> evolves t1 t3.
Proof. intros H. induction 1; [done|by constructor|by constructor]. Qed.

Lemma evolves_ok t t' : rely -> balances_ok t -> evolves t t' -> balances_ok t'.
Proof.
  intros Hr Ht. induction 1 as [|n t' H IH|uid asset t' H IH Hn]; [done|by apply (proj1 Hr)|].
  apply (balances_ok_insert t' (new_balance uid asset) IH), new_balance_ok.
Qed.

Lemma applied_ok t t' k dl da : rely -> balances_ok t -> applied t t' k dl da -> balances_ok t'.
Proof.
  intros Hr Ht (s & row & row' & He & Hk & Hm & ->). pose proof (evolves_ok _ _ Hr Ht He) as Hs.
  destruct (Hs _ _ Hk) as [-> Hb].
  replace (b_user_id row, b_asset row) with (b_user_id row', b_asset row')
    by (by destruct Hm as (-> & -> & _)).
  apply balances_ok_insert; [done|by eapply moves_ok].
Qed.

(** The outcome of one attempt, and of the whole operation. *)
Definition attempt_outcome (t : gmap bkey Balance) k dl da (r : World * (exn + option Balance)) : Prop :=
  match r with
  | (w', inr (Some b)) => applied t (balances (db w')) k dl da /\ balances (db w') !! k = Some b
  | (w', _) => evolves t (balances (db w'))
  end.
Definition operation_outcome (t : gmap bkey Balance) k dl da (r : World * (exn + Balance)) : Prop :=
  match r with
  | (w', inr b) => applied t (balances (db w')) k dl da /\ balances (db w') !! k = Some b
  | (w', inl _) => evolves t (balances (db w'))
  end.

Lemma attempts_spec k dl da body err : rely ->
  (forall i w, balances_ok (balances (db w)) -> attempt_outcome (balances (db w)) k dl da (body i w)) ->
  forall n i w, balances_ok (balances (db w)) ->
    operation_outcome (balances (db w)) k dl da (attempts n i body err w).
Proof.
  intros Hr Hb. induction n as [|n IH]; intros i w Hw; cbn [attempts]; [constructor|].
  specialize (Hb i w Hw). unfold mbind, prog_bind. destruct (body i w) as [w1 [e|[b|]]]; try done.
  cbn in Hb. pose proof (evolves_ok _ _ Hr Hw Hb) as Hw1. specialize (IH (i + 1) w1 Hw1).
  destruct (attempts n (i + 1) body err w1) as [w2 [e|b]]; cbn in IH |- *; [by eapply evolves_trans|].
  destruct IH as [(s & row & row' & He & H) Hk]. split; [|done]. exists s, row, row'.
  split; [by eapply evolves_trans|done].
Qed.

Lemma publish_balance_db b change reason oid w :
  exists w', publish_balance b change reason oid w = (w', inr tt) /\ db w' = db w.
Proof. eexists. split; [reflexivity|done]. Qed.

Lemma conditional_update_spec uid asset ver guard upd dl da w :
  (forall b, balance_ok b -> guard b = true -> exists b', upd b = Some b' /\ moves b b' dl da) ->
  balances_ok (balances (db w)) ->
  (exists b b', balances (db w) !! (uid, asset) = Some b /\ b_version b = ver /\ guard b = true /\
     moves b b' dl da /\
     conditional_update uid asset ver guard upd w =
       (with_db (set_balances <[(uid, asset) := b']>) w, inr true)) \/
  conditional_update uid asset ver guard upd w = (w, inr false) /\
    (forall b, balances (db w) !! (uid, asset) = Some b -> (b_version b =? ver) && guard b = false).
Proof.
  intros Hu Hw. unfold conditional_update, from_db, write_balance, update_db. run_prog.
  destruct (balances (db w) !! (uid, asset)) as [b|] eqn:E; [|by right].
  destruct (balances_ok_lookup _ _ _ _ Hw E) as (Hi & Hs & Hb).
  destruct ((b_version b =? ver) && guard b) eqn:G; [|right; split; [done|by intros ? [= <-]]].
  apply andb_true_iff in G as [G1 G2]. apply Z.eqb_eq in G1.
  destruct (Hu b Hb G2) as (b' & E' & Hm). left. exists b, b'. split_and!; try done.
  rewrite E'. cbn. destruct Hm as (-> & -> & _). by rewrite Hi, Hs.
Qed.

(** Others commit, then the conditional UPDATE, then the event. *)
Lemma attempt_spec uid asset i ver guard upd dl da b change reason oid w : rely ->
  (forall b, balance_ok b -> guard b = true -> exists b', upd b = Some b' /\ moves b b' dl da) ->
  balances_ok (balances (db w)) -> b_user_id b = uid -> b_asset b = asset ->
  attempt_outcome (balances (db w)) (uid, asset) dl da
    ((_ ← others i; success ← conditional_update uid asset ver guard upd;
      match success with true => updated b change reason oid | false => mret None end) w).
Proof.
  intros Hr Hu Hw Hi Hs. unfold mbind at 1, prog_bind at 1. unfold others, update_db, modify.
  set (w1 := with_db (set_balances (interfere i)) w).
  assert (He : evolves (balances (db w)) (balances (db w1))) by (by apply evolves_others, evolves_refl).
  pose proof (evolves_ok _ _ Hr Hw He) as Hw1.
  destruct (conditional_update_spec uid asset ver guard upd dl da w1 Hu Hw1)
    as [(c & c' & Hk & _ & _ & Hm & E)|[E _]]; unfold mbind, prog_bind; rewrite E; [|exact He].
  unfold updated, get_by_user_asset, from_db. run_prog. cbn [with_db db set_balances balances].
  rewrite Hi, Hs, lookup_insert_eq. cbn. split.
  - exists (balances (db w1)), c, c'. done.
  - apply lookup_insert_eq.
Qed.

Lemma pos_units amount : money amount -> dec_leb amount dec_zero = false <-> 0 < dunits amount.
Proof.
  intros Ha. rewrite dec_leb_units by first [by apply money_on_grid | unfold on_grid; cbn; lia].
  change (dunits dec_zero) with 0. rewrite Z.leb_gt. done.
Qed.
Lemma leb_units a b : money a -> money b -> dec_leb a b = true <-> dunits a <= dunits b.
Proof. intros Ha Hb. rewrite dec_leb_units by (by apply money_on_grid). apply Z.leb_le. Qed.

Lemma seen_balance_spec i uid asset w :
  seen_balance i uid asset w = (w, inr (seen_as i <$> balances (db w) !! (uid, asset))).
Proof. reflexivity. Qed.

Lemma lock_optimistic_spec uid asset amount reason oid w :
  rely -> money amount -> balances_ok (balances (db w)) ->
  operation_outcome (balances (db w)) (uid, asset) (dunits amount) (- dunits amount)
    (lock_optimistic uid asset amount reason oid w).
Proof.
  intros Hr Ha Hw. unfold lock_optimistic. destruct (dec_leb amount dec_zero) eqn:Hp; [constructor|].
  apply pos_units in Hp; [|done]. apply attempts_spec; [done| |done]. clear w Hw. intros i w Hw.
  assert (Hu : forall b, balance_ok b -> dec_leb amount (available_balance b) = true ->
    exists b', sql_lock amount b = Some b' /\ moves b b' (dunits amount) (- dunits amount)).
  { intros b Hb Hg. apply sql_lock_spec; try done. apply leb_units in Hg; [lia|done|apply Hb]. }
  unfold optimistic_lock, get_or_create, from_db, write_balance, update_db.
  unfold mbind at 1, prog_bind at 1. rewrite seen_balance_spec. cbn beta iota.
  destruct (balances (db w) !! (uid, asset)) as [b|] eqn:E; cbn [fmap option_fmap option_map].
  - destruct (proj2 Hr i b) as [Hsi Hss]. destruct (balances_ok_lookup _ _ _ _ Hw E) as (Hi & Hs & Hb).
    unfold mbind at 1, prog_bind at 1, mret at 1, prog_ret at 1. cbn beta iota.
    destruct (dec_ltb _ _); [constructor|]. apply attempt_spec; try done; congruence.
  - unfold mbind at 1, prog_bind at 1. unfold get_by_user_asset, from_db. run_prog. rewrite E. cbn beta iota.
    set (w1 := with_db _ w).
    assert (He : evolves (balances (db w)) (balances (db w1))).
    { apply evolves_create; [constructor|done]. }
    destruct (dec_ltb _ _); [exact He|].
    pose proof (attempt_spec uid asset i (b_version (new_balance uid asset)) _ _ _ _ (new_balance uid asset)
      (dec_neg amount) reason oid w1 Hr Hu (evolves_ok _ _ Hr Hw He) eq_refl eq_refl) as H.
    revert H. unfold attempt_outcome, mbind, prog_bind. destruct (others i w1) as [w2 [e|[]]]; cbn beta iota.
    + apply evolves_trans, He.
    + destruct (conditional_update _ _ _ _ _ w2) as [w3 [e|[]]]; [by apply evolves_trans| |by apply evolves_trans].
      destruct (updated _ _ _ _ w3) as [w4 [e|[b|]]]; [by apply evolves_trans| |by apply evolves_trans].
      intros [(s & row & row' & He' & H) Hk]. split; [|done]. exists s, row, row'.
      split; [by eapply evolves_trans|done].
Qed.

(** The three operations that need an existing row, and the credit. *)
Lemma attempt_on_row uid asset i ver_of guard upd dl da change reason oid w : rely ->
  (forall b, balance_ok b -> guard b = true -> exists b', upd b = Some b' /\ moves b b' dl da) ->
  balances_ok (balances (db w)) ->
  attempt_outcome (balances (db w)) (uid, asset) dl da
    ((row ← seen_balance i uid asset;
      balance ← require (ValueError "Balance not found") row;
      _ ← others i;
      success ← conditional_update uid asset (ver_of balance) guard upd;
      match success with true => updated balance change reason oid | false => mret None end) w).
Proof.
  intros Hr Hu Hw. unfold mbind at 1, prog_bind at 1. rewrite seen_balance_spec. cbn beta iota.
  destruct (balances (db w) !! (uid, asset)) as [b|] eqn:E; [|constructor]. destruct (proj2 Hr i b) as [Hsi Hss].
  destruct (balances_ok_lookup _ _ _ _ Hw E) as (Hi & Hs & Hb).
  cbn [fmap option_fmap option_map].
  unfold mbind at 1, prog_bind at 1, require, mret at 1, prog_ret at 1. cbn beta iota. apply attempt_spec; try done; congruence.
Qed.

Lemma unlock_optimistic_spec uid asset amount reason oid w :
  rely -> money amount -> balances_ok (balances (db w)) ->
  operation_outcome (balances (db w)) (uid, asset) (- dunits amount) (dunits amount)
    (unlock_optimistic uid asset amount reason oid w).
Proof.
  intros Hr Ha Hw. unfold unlock_optimistic. destruct (dec_leb amount dec_zero) eqn:Hp; [constructor|].
  apply pos_units in Hp; [|done]. apply attempts_spec; [done| |done]. clear w Hw. intros i w Hw.
  apply attempt_on_row; [done| |done].
  intros b Hb Hg. apply sql_unlock_spec; try done. apply leb_units in Hg; [lia|done|apply Hb].
Qed.

Lemma settle_optimistic_spec uid asset amount reason oid w :
  rely -> money amount -> balances_ok (balances (db w)) ->
  operation_outcome (balances (db w)) (uid, asset) (- dunits amount) 0
    (settle_optimistic uid asset amount reason oid w).
Proof.
  intros Hr Ha Hw. unfold settle_optimistic. destruct (dec_leb amount dec_zero) eqn:Hp; [constructor|].
  apply pos_units in Hp; [|done]. apply attempts_spec; [done| |done]. clear w Hw. intros i w Hw.
  apply attempt_on_row; [done| |done].
  intros b Hb Hg. apply sql_settle_spec; try done. apply leb_units in Hg; [lia|done|apply Hb].
Qed.

(** C7: optimistic locking is safe under any interference that preserves the
    balance invariant, and whichever attributes the session's objects show.  If [lock_optimistic] (resp. [unlock], [settle]) returns,
    then exactly one row was changed, atomically, by exactly the amount, from a
    state other transactions can have produced; the row covered the amount and
    its version was bumped.  If it raises, no amount was moved.  In both cases
    every balance still satisfies total = locked + available with no negative
    part. *)
Theorem optimistic_operations_safe uid asset amount reason oid w :
  rely -> money amount -> balances_ok (balances (db w)) ->
  let t := balances (db w) in
  let a := dunits amount in
  let lock := lock_optimistic uid asset amount reason oid w in
  let unlock := unlock_optimistic uid asset amount reason oid w in
  let settle := settle_optimistic uid asset amount reason oid w in
  (operation_outcome t (uid, asset) a (- a) lock /\ db_ok (db lock.1)) /\
  (operation_outcome t (uid, asset) (- a) a unlock /\ db_ok (db unlock.1)) /\
  (operation_outcome t (uid, asset) (- a) 0 settle /\ db_ok (db settle.1)).
Proof.
  intros Hr Ha Hw t a lock unlock settle.
  assert (Hok : forall dl da (r : World * (exn + Balance)),
    operation_outcome t (uid, asset) dl da r -> operation_outcome t (uid, asset) dl da r /\ db_ok (db r.1)).
  { intros dl da [w' [e|b]] H; (split; [done|]); cbn in H |- *; [by eapply evolves_ok|].
    destruct H as [H _]. by eapply applied_ok. }
  split; [|split]; apply Hok; [by apply lock_optimistic_spec|by apply unlock_optimistic_spec|by apply settle_optimistic_spec].
Qed.

End Optimistic.

(** ** Without interference *)

Section Alone.
Context {R : Redis} {P : PgNumeric} {PS : PgNumericSpec P}.

Lemma others_none i w : others (I := NoInterference) i w = (w, inr tt).
Proof. by destruct w as [[]]. Qed.

Lemma conditional_update_hit uid asset guard upd b b' w :
  balances (db w) !! (uid, asset) = Some b -> guard b = true -> upd b = Some b' ->
  b_user_id b' = uid -> b_asset b' = asset ->
  conditional_update uid asset (b_version b) guard upd w = (with_db (set_balances <[(uid, asset) := b']>) w, inr true).
Proof.
  intros Hk Hg Hu Hi Hs. unfold conditional_update, from_db, write_balance, update_db. run_prog.
  rewrite Hk, Z.eqb_refl, Hg. cbn [andb]. rewrite Hu. cbn. by rewrite Hi, Hs.
Qed.

Lemma updated_spec b b' change reason oid w :
  balances (db w) !! (b_user_id b, b_asset b) = Some b' ->
  exists w', updated b change reason oid w = (w', inr (Some b')) /\ db w' = db w.
Proof.
  intros Hk. unfold updated, get_by_user_asset, from_db. run_prog. rewrite Hk.
  destruct (publish_balance_db b' change reason oid w) as (w' & -> & Hd). by exists w'.
Qed.

Lemma attempt_alone uid asset i guard upd b b' dl da change reason oid w :
  balances_ok (balances (db w)) -> balances (db w) !! (uid, asset) = Some b ->
  guard b = true -> upd b = Some b' -> moves b b' dl da ->
  exists w', (_ ← others (I := NoInterference) i; success ← conditional_update uid asset (b_version b) guard upd;
      match success with true => updated b change reason oid | false => mret None end) w = (w', inr (Some b')) /\
    db w' = set_balances <[(uid, asset) := b']> (db w).
Proof.
  intros Hw Hk Hg Hu Hm. destruct (balances_ok_lookup _ _ _ _ Hw Hk) as (Hi & Hs & Hb).
  destruct Hm as (Hi' & Hs' & _). unfold mbind, prog_bind. rewrite others_none.
  rewrite (conditional_update_hit _ _ _ _ b b') by (by rewrite ?Hi', ?Hs').
  destruct (updated_spec b b' change reason oid (with_db (set_balances <[(uid, asset) := b']>) w)) as (w' & -> & Hd).
  { cbn. rewrite Hi, Hs. apply lookup_insert_eq. }
  by exists w'.
Qed.

Lemma attempts_hit n i body err w w' b : body i w = (w', inr (Some b)) -> attempts (S n) i body err w = (w', inr b).
Proof. intros H. cbn [attempts]. unfold mbind, prog_bind. by rewrite H. Qed.
Lemma attempts_raise n i body err w w' e : body i w = (w', inl e) -> attempts (S n) i body err w = (w', inl e).
Proof. intros H. cbn [attempts]. unfold mbind, prog_bind. by rewrite H. Qed.

Lemma bind_run {A B} (m : wprog A) (f : A -> wprog B) w a : m w = (w, inr a) -> (m ≫= f) w = f a w.
Proof. intros H. unfold mbind, prog_bind. by rewrite H. Qed.

Lemma lock_optimistic_alone uid asset amount reason oid w b :
  balances_ok (balances (db w)) -> money amount -> balances (db w) !! (uid, asset) = Some b ->
  0 < dunits amount ->
  let r := lock_optimistic (I := NoInterference) uid asset amount reason oid w in
  if dunits amount <=? dunits (available_balance b)
  then exists b', r.2 = inr b' /\ moves b b' (dunits amount) (- dunits amount) /\
         db r.1 = set_balances <[(uid, asset) := b']> (db w)
  else r = (w, inl (InsufficientBalanceError uid asset amount (available_balance b))).
Proof.
  intros Hw Ha Hk Hp r. subst r. unfold lock_optimistic. rewrite (proj2 (pos_units _ Ha) Hp).
  destruct (balances_ok_lookup _ _ _ _ Hw Hk) as (Hi & Hs & Hb). pose proof Hb as (Ht & Hl & Hv & _).
  assert (Hget : forall i, seen_balance (I := NoInterference) i uid asset w = (w, inr (Some b)))
    by (intros i; rewrite seen_balance_spec; by rewrite Hk).
  destruct (Z.leb_spec (dunits amount) (dunits (available_balance b))) as [Hle|Hgt].
  - destruct (sql_lock_spec b amount Hb Ha) as (b' & E & Hm); [lia|].
    destruct (attempt_alone uid asset 0 (fun b => dec_leb amount (available_balance b)) (sql_lock amount)
      b b' (dunits amount) (- dunits amount) (dec_neg amount) reason oid w Hw Hk) as (w' & E' & Hd); [by apply leb_units|done..|].
    unfold MAX_OPTIMISTIC_RETRIES. rewrite (attempts_hit _ _ _ _ w w' b'); [exists b'; split; [done|split; [exact Hm|exact Hd]]|].
    rewrite (bind_run _ _ _ _ (Hget _)). rewrite (bind_run _ _ _ b eq_refl).
    rewrite dec_ltb_leb, (proj2 (leb_units _ _ Ha Hv) Hle). exact E'.
  - unfold MAX_OPTIMISTIC_RETRIES. rewrite (attempts_raise _ _ _ _ w w (InsufficientBalanceError uid asset amount (available_balance b))); [done|].
    rewrite (bind_run _ _ _ _ (Hget _)). rewrite (bind_run _ _ _ b eq_refl).
    rewrite dec_ltb_units by (by apply money_on_grid).
    destruct (Z.ltb_spec (dunits (available_balance b)) (dunits amount)); [done|lia].
Qed.

Lemma unlock_optimistic_alone uid asset amount reason oid w b :
  balances_ok (balances (db w)) -> money amount -> balances (db w) !! (uid, asset) = Some b ->
  0 < dunits amount <= dunits (locked_balance b) ->
  let r := unlock_optimistic (I := NoInterference) uid asset amount reason oid w in
  exists b', r.2 = inr b' /\ moves b b' (- dunits amount) (dunits amount) /\
    db r.1 = set_balances <[(uid, asset) := b']> (db w).
Proof.
  intros Hw Ha Hk [Hp Hle] r. subst r. unfold unlock_optimistic. rewrite (proj2 (pos_units _ Ha) Hp).
  destruct (balances_ok_lookup _ _ _ _ Hw Hk) as (Hi & Hs & Hb). pose proof Hb as (_ & Hl & _).
  destruct (sql_unlock_spec b amount Hb Ha) as (b' & E & Hm); [lia|].
  destruct (attempt_alone uid asset 0 (fun b => dec_leb amount (locked_balance b)) (sql_unlock amount)
    b b' (- dunits amount) (dunits amount) amount reason oid w Hw Hk) as (w' & E' & Hd); [by apply leb_units|done..|].
  unfold MAX_OPTIMISTIC_RETRIES. rewrite (attempts_hit _ _ _ _ w w' b'); [exists b'; split; [done|split; [exact Hm|exact Hd]]|].
  assert (Hget : forall i, seen_balance (I := NoInterference) i uid asset w = (w, inr (Some b)))
    by (intros i; rewrite seen_balance_spec; by rewrite Hk).
  rewrite (bind_run _ _ _ _ (Hget _)). rewrite (bind_run _ _ _ b eq_refl). exact E'.
Qed.

(** alone, [lock_optimistic] locks exactly when the amount is available:
    the row moves by the amount and nothing else in the database changes;
    otherwise it raises InsufficientBalanceError and changes nothing at all.
    An amount that is not positive is refused. *)
Theorem lock_optimistic_exact uid asset amount reason oid w b :
  balances_ok (balances (db w)) -> money amount -> balances (db w) !! (uid, asset) = Some b ->
  let r := lock_optimistic (I := NoInterference) uid asset amount reason oid w in
  (dunits amount <= 0 -> r = (w, inl (ValueError "lock amount must be positive"))) /\
  (0 < dunits amount -> dunits (available_balance b) < dunits amount ->
   r = (w, inl (InsufficientBalanceError uid asset amount (available_balance b)))) /\
  (0 < dunits amount <= dunits (available_balance b) ->
   exists b', r.2 = inr b' /\ moves b b' (dunits amount) (- dunits amount) /\
     db r.1 = set_balances <[(uid, asset) := b']> (db w)).
Proof.
  intros Hw Ha Hk r. split; [|split].
  - intros Hp. subst r. unfold lock_optimistic. destruct (dec_leb amount dec_zero) eqn:E; [done|].
    apply pos_units in E; [lia|done].
  - intros Hp Hlt. pose proof (lock_optimistic_alone uid asset amount reason oid w b Hw Ha Hk Hp) as H.
    cbn zeta in H. by destruct (Z.leb_spec (dunits amount) (dunits (available_balance b))); [lia|].
  - intros [Hp Hle]. pose proof (lock_optimistic_alone uid asset amount reason oid w b Hw Ha Hk Hp) as H.
    cbn zeta in H. by destruct (Z.leb_spec (dunits amount) (dunits (available_balance b))); [|lia].
Qed.
End Alone.

(** ** Pessimistic operations *)

Section Pessimistic.
Context {R : Redis}.

(** The outcome of an operation on a row: the moved row is written, or nothing
    happens but a ValueError. *)
Definition written (w : World) (b : Balance) (guard : bool) (dl da : Z) (r : World * (exn + Balance)) : Prop :=
  if guard
  then exists b', r.2 = inr b' /\ moves b b' dl da /\
         db r.1 = set_balances <[(b_user_id b, b_asset b) := b']> (db w)
  else exists msg, r = (w, inl (ValueError msg)).

Lemma pessimistic_spec op b amount change reason oid guard dl da w :
  row_outcome b guard (op b amount) dl da ->
  written w b guard dl da (pessimistic op b amount change reason oid w).
Proof.
  unfold row_outcome, written, pessimistic. destruct guard.
  - intros (b' & E & Hm). exists b'. rewrite E. unfold lift, write_balance, update_db. run_prog.
    set (w1 := with_db _ w). destruct (publish_balance_db b' change reason oid w1) as (w' & -> & Hd).
    split; [done|]. split; [done|]. cbn. rewrite Hd. subst w1. destruct Hm as (-> & -> & _). done.
  - intros (msg & E). exists msg. rewrite E. done.
Qed.

Lemma settle_spec b a reason oid w : balance_ok b -> money a ->
  written w b ((0 <=? dunits a) && (dunits a <=? dunits (locked_balance b))) (- dunits a) 0
    (settle_pessimistic b a reason oid w).
Proof. intros Hb Ha. by apply pessimistic_spec, repo_settle_spec. Qed.
Lemma credit_spec b a reason oid w : balance_ok b -> money a -> dunits (total_balance b) + dunits a < 10 ^ 46 ->
  written w b (0 <=? dunits a) 0 (dunits a) (credit_pessimistic b a reason oid w).
Proof. intros Hb Ha Hr. by apply pessimistic_spec, repo_credit_spec. Qed.
Lemma unlock_spec b a reason oid w : balance_ok b -> money a ->
  written w b ((0 <=? dunits a) && (dunits a <=? dunits (locked_balance b))) (- dunits a) (dunits a)
    (unlock_pessimistic b a reason oid w).
Proof. intros Hb Ha. by apply pessimistic_spec, repo_unlock_spec. Qed.

(** on a row held FOR UPDATE each operation succeeds exactly when the amount
    is non-negative and covered by the part it draws from; it then writes the
    row moved by exactly the amount, with total = locked + available, and
    otherwise raises ValueError leaving the world as it was.  The final
    [check_invariant] therefore never fires. *)
Theorem pessimistic_operations_exact b a reason oid w :
  balance_ok b -> money a -> dunits (total_balance b) + dunits a < 10 ^ 46 ->
  let u := dunits a in
  let covered x := (0 <=? u) && (u <=? dunits x) in
  written w b (covered (available_balance b)) u (- u) (lock_pessimistic b a reason oid w) /\
  written w b (covered (locked_balance b)) (- u) u (unlock_pessimistic b a reason oid w) /\
  written w b (covered (locked_balance b)) (- u) 0 (settle_pessimistic b a reason oid w) /\
  written w b (0 <=? u) 0 u (credit_pessimistic b a reason oid w).
Proof.
  intros Hb Ha Hr u covered. split; [|split; [by apply unlock_spec|split; [by apply settle_spec|by apply credit_spec]]].
  by apply pessimistic_spec, repo_lock_spec.
Qed.

(** The admin's adjustment of a row. *)
Lemma admin_adjust_row uid asset delta reason w b :
  balances (db w) !! (uid, asset) = Some b -> balances_ok (balances (db w)) -> money delta ->
  dunits (total_balance b) + dunits delta < 10 ^ 46 ->
  let r := admin_adjust uid asset delta reason w in
  if 0 <=? dunits (available_balance b) + dunits delta
  then exists b', r.2 = inr b' /\ moves b b' 0 (dunits delta) /\
         db r.1 = set_balances <[(uid, asset) := b']> (db w)
  else exists need, r = (w, inl (InsufficientBalanceError uid asset need (available_balance b))) /\
         dunits need = - dunits delta.
Proof.
  intros Hk Hw Hd Hroom r. destruct (balances_ok_lookup _ _ _ _ Hw Hk) as (Hi & Hs & Hb).
  pose proof Hb as (Ht & Hl & Hv & Hl0 & Hv0 & Hsum). pose proof (proj2 Hd) as Hd2. pose proof (proj2 Ht) as Ht2.
  subst r. unfold admin_adjust, admin_row, get_for_update, from_db. run_prog. rewrite Hk. cbn beta iota.
  rewrite dec_leb_units by first [by apply money_on_grid | unfold on_grid; cbn; lia].
  change (dunits dec_zero) with 0.
  destruct (dec_sub_money dec_zero delta) as [Un Mn]; [by vm_compute|done|change (dunits dec_zero) with 0; lia|].
  assert (Hneg : money (dec_neg delta) /\ dunits (dec_neg delta) = - dunits delta).
  { unfold dec_neg. destruct Hd as [He Hc]. rewrite dec_fix_money; unfold money, dunits in *; cbn [dcoef dexp] in *; nia. }
  destruct Hneg as [Mneg Uneg].
  assert (Hfin : forall t v, money t -> money v -> dunits t = dunits (total_balance b) + dunits delta ->
    dunits v = dunits (available_balance b) + dunits delta -> 0 <= dunits v ->
    let b' := MkBalance (b_user_id b) (b_asset b) t (locked_balance b) v (b_version b + 1) in
    moves b b' 0 (dunits delta) /\ check_invariant b' = inr b').
  { intros t v Mt Mv Ut Uv Hv'. assert (Hok : balance_ok (MkBalance (b_user_id b) (b_asset b) t (locked_balance b) v (b_version b + 1)))
      by row_ok. split; [row_ok|by apply check_invariant_ok]. }
  destruct (Z.leb_spec 0 (dunits delta)).
  - destruct (Z.leb_spec 0 (dunits (available_balance b) + dunits delta)); [|lia].
    destruct (dec_add_money _ _ Ht Hd) as [U1 M1]; [lia|]. destruct (dec_add_money _ _ Hv Hd) as [U2 M2]; [lia|].
    destruct (Hfin _ _ M1 M2 U1 U2) as [Hm ->]; [lia|]. cbn beta iota. unfold lift, write_balance, update_db. run_prog.
    edestruct publish_balance_db as (w' & -> & Hdb). eexists. split; [done|]. split; [done|]. cbn. rewrite Hdb.
    cbn. by rewrite Hi, Hs.
  - rewrite dec_ltb_units by (by apply money_on_grid).
    destruct (Z.leb_spec 0 (dunits (available_balance b) + dunits delta)),
      (Z.ltb_spec (dunits (available_balance b)) (dunits (dec_neg delta))); try lia.
    + destruct (dec_sub_money _ _ Ht Mneg) as [U1 M1]; [lia|]. destruct (dec_sub_money _ _ Hv Mneg) as [U2 M2]; [lia|].
      destruct (Hfin _ _ M1 M2) as [Hm ->]; [lia..|]. cbn beta iota. unfold lift, write_balance, update_db. run_prog.
      edestruct publish_balance_db as (w' & -> & Hdb). eexists. split; [done|]. split; [done|]. cbn. rewrite Hdb.
      cbn. by rewrite Hi, Hs.
    + eexists. split; [reflexivity|done].
Qed.

(** A missing row is created empty first. *)
Lemma admin_adjust_missing uid asset delta reason w :
  balances (db w) !! (uid, asset) = None ->
  admin_adjust uid asset delta reason w =
  admin_adjust uid asset delta reason (with_db (set_balances <[(uid, asset) := new_balance uid asset]>) w).
Proof.
  intros Hk. set (w1 := with_db _ w).
  assert (H : admin_row uid asset w = (w1, inr (new_balance uid asset))).
  { unfold admin_row, get_or_create, get_for_update, get_by_user_asset, from_db. run_prog. rewrite Hk.
    unfold write_balance, update_db. run_prog. rewrite Hk.
    cbn [new_balance b_user_id b_asset with_db db set_balances balances]. by rewrite lookup_insert_eq. }
  assert (H1 : admin_row uid asset w1 = (w1, inr (new_balance uid asset))).
  { unfold admin_row, get_for_update, from_db. run_prog. subst w1. cbn [with_db db set_balances balances].
    by rewrite lookup_insert_eq. }
  unfold admin_adjust, mbind, prog_bind. by rewrite H, H1.
Qed.

(** the admin adjustment adds the signed delta to the available part and to
    the total, never to the locked part, starting from an empty row when there
    is none; a debit larger than the available part raises
    InsufficientBalanceError and leaves every existing balance alone. *)
Theorem admin_adjust_correct uid asset delta reason w :
  let b := default (new_balance uid asset) (balances (db w) !! (uid, asset)) in
  balances_ok (balances (db w)) -> money delta -> dunits (total_balance b) + dunits delta < 10 ^ 46 ->
  let r := admin_adjust uid asset delta reason w in
  if 0 <=? dunits (available_balance b) + dunits delta
  then exists b', r.2 = inr b' /\ moves b b' 0 (dunits delta) /\
         balances (db r.1) = <[(uid, asset) := b']> (balances (db w))
  else (exists need, r.2 = inl (InsufficientBalanceError uid asset need (available_balance b))) /\
       forall k, is_Some (balances (db w) !! k) -> balances (db r.1) !! k = balances (db w) !! k.
Proof.
  intros b Hw Hd Hroom r. subst b r. destruct (balances (db w) !! (uid, asset)) as [b|] eqn:Hk; cbn [default].
  - pose proof (admin_adjust_row uid asset delta reason w b Hk Hw Hd Hroom) as H. cbn zeta in H. revert H.
    destruct (0 <=? _); [intros (b' & H1 & H2 & H3); exists b'; by rewrite H3|].
    intros (need & -> & _). split; [by eexists|done].
  - rewrite admin_adjust_missing by done. set (w1 := with_db _ w).
    assert (Hk1 : balances (db w1) !! (uid, asset) = Some (new_balance uid asset)) by apply lookup_insert_eq.
    assert (Hw1 : balances_ok (balances (db w1)))
      by (apply (balances_ok_insert _ (new_balance uid asset)); [done|apply new_balance_ok]).
    pose proof (admin_adjust_row uid asset delta reason w1 _ Hk1 Hw1 Hd Hroom) as H. cbn zeta in H. revert H.
    destruct (0 <=? _).
    + intros (b' & H1 & H2 & H3). exists b'. split_and!; [done|exact H2|]. rewrite H3. cbn. apply insert_insert_eq.
    + intros (need & -> & _). split; [by eexists|]. intros k [c Hc]. cbn. apply lookup_insert_ne.
      intros E. rewrite <- E in Hc. exact (proj1 (eq_None_not_Some _) Hk (ex_intro _ c Hc)).
Qed.
End Pessimistic.

(** ** The invariant of the table *)

Section Keeps.
Context {R : Redis} {P : PgNumeric} {PS : PgNumericSpec P} {I : Interference}.
Hypothesis others_ok : rely.

Lemma operation_keeps t k dl da (r : World * (exn + Balance)) :
  balances_ok t -> operation_outcome t k dl da r -> db_ok (db r.1).
Proof.
  intros Ht. destruct r as [w' [e|b]]; cbn; [by apply evolves_ok|]. intros [H _]. by eapply applied_ok.
Qed.
Lemma keeps_operation (m : wprog Balance) k dl da :
  (forall w, balances_ok (balances (db w)) -> operation_outcome (balances (db w)) k dl da (m w)) ->
  keeps (on_db db_ok) m.
Proof.
  intros H w Hw. pose proof (operation_keeps _ _ _ _ _ Hw (H w Hw)) as Hk.
  destruct (m w) as [w' [e|b]]; exact Hk.
Qed.

Lemma keeps_lock_optimistic uid asset amount reason oid :
  money amount -> keeps (on_db db_ok) (lock_optimistic uid asset amount reason oid).
Proof. intros Ha. eapply keeps_operation. intros w Hw. by apply lock_optimistic_spec. Qed.
Lemma keeps_unlock_optimistic uid asset amount reason oid :
  money amount -> keeps (on_db db_ok) (unlock_optimistic uid asset amount reason oid).
Proof. intros Ha. eapply keeps_operation. intros w Hw. by apply unlock_optimistic_spec. Qed.

Lemma written_keeps w b guard dl da (r : World * (exn + Balance)) :
  db_ok (db w) -> written w b guard dl da r -> db_ok (db r.1).
Proof.
  intros Hw. unfold written. destruct guard; [|by intros [msg ->]].
  intros (b' & _ & Hm & ->). destruct Hm as (<- & <- & H). apply balances_ok_insert; [done|]. apply H.
Qed.
End Keeps.
#[export] Hint Resolve keeps_lock_optimistic keeps_unlock_optimistic : keeps.

(** The balance operations touch no key of Redis but the message log. *)
Section Log.
Context {R : Redis} {RS : RedisSpec R} {P : PgNumeric} {I : Interference}.

Lemma keeps_log_balance w0 b change reason oid : keeps (log_only w0) (publish_balance b change reason oid).
Proof. unfold publish_balance, publish_balance_update. keeps_tac. Qed.
Lemma keeps_log_attempts w0 n i body err :
  (forall i, keeps (log_only w0) (body i)) -> keeps (log_only w0) (attempts n i body err).
Proof.
  intros H. revert i. induction n as [|n IH]; intros i; cbn [attempts]; [auto with keeps|].
  apply keeps_bind; [apply H|]. intros [b|]; [apply keeps_ret|apply IH].
Qed.
Hint Resolve keeps_log_balance : keeps.
Lemma keeps_log_lock_optimistic w0 uid asset amount reason oid :
  keeps (log_only w0) (lock_optimistic uid asset amount reason oid).
Proof.
  unfold lock_optimistic. destruct (dec_leb _ _); [auto with keeps|]. apply keeps_log_attempts. intros i.
  unfold seen_balance, get_by_user_asset, get_or_create, get_by_user_asset, optimistic_lock, conditional_update, others, updated,
    write_balance, get_by_user_asset. keeps_tac.
Qed.
Lemma keeps_log_unlock_optimistic w0 uid asset amount reason oid :
  keeps (log_only w0) (unlock_optimistic uid asset amount reason oid).
Proof.
  unfold unlock_optimistic. destruct (dec_leb _ _); [auto with keeps|]. apply keeps_log_attempts. intros i.
  unfold seen_balance, get_by_user_asset, optimistic_unlock, conditional_update, others, updated, write_balance,
    get_by_user_asset. keeps_tac.
Qed.
Lemma keeps_log_pessimistic w0 op b amount change reason oid :
  keeps (log_only w0) (pessimistic op b amount change reason oid).
Proof. unfold pessimistic, write_balance. keeps_tac. Qed.
End Log.
#[export] Hint Resolve keeps_log_balance keeps_log_lock_optimistic keeps_log_unlock_optimistic
  keeps_log_pessimistic : keeps.

(** ** Concrete instances *)

Definition demo_balance : Balance := MkBalance 1 "USD" (dec_of_Z 100) (dec_of_Z 40) (dec_of_Z 60) 7.
Definition demo_world : World (R := MemRedis) :=
  MkWorld (MkDatabase {[ (1, "USD") := demo_balance ]} ∅ 1 [] ∅) empty_keyspace 1700000000000.

Lemma demo_balance_ok : balance_ok demo_balance.
Proof. repeat split; vm_compute; congruence. Defined.
Lemma demo_world_ok : balances_ok (balances (db demo_world)).
Proof.
  cbn [demo_world db balances]. apply map_Forall_singleton. split; [reflexivity|]. apply demo_balance_ok.
Defined.

Lemma optimistic_operations_safe_witness :
  db_ok (db (lock_optimistic (R := MemRedis) (P := PgExact) (I := NoInterference) 1 "USD" (dec_of_Z 25)
               "order_placed" None demo_world).1).
Proof.
  pose proof (optimistic_operations_safe (R := MemRedis) (P := PgExact) (PS := PgExactSpec) (I := NoInterference)
    1 "USD" (dec_of_Z 25) "order_placed" None demo_world) as H.
  destruct H as [[_ H] _]; [split; [intros n t Ht; exact Ht|intros n b; split; reflexivity]|split; vm_compute; congruence|apply demo_world_ok|exact H].
Defined.

Lemma lock_optimistic_exact_witness :
  exists b', (lock_optimistic (R := MemRedis) (P := PgExact) (I := NoInterference) 1 "USD" (dec_of_Z 25)
                "order_placed" None demo_world).2 = inr b' /\
    dunits (locked_balance b') = dunits (dec_of_Z 65) /\ b_version b' = 8.
Proof.
  destruct (lock_optimistic_exact (R := MemRedis) (P := PgExact) (PS := PgExactSpec)
    1 "USD" (dec_of_Z 25) "order_placed" None demo_world demo_balance) as (_ & _ & H);
    [apply demo_world_ok|split; vm_compute; congruence|reflexivity|].
  destruct H as (b' & E & Hm & _); [split; vm_compute; congruence|]. exists b'.
  destruct Hm as (_ & _ & Hv & Hl & _). split; [exact E|]. split; [rewrite Hl; vm_compute; reflexivity|exact Hv].
Defined.

Lemma pessimistic_operations_exact_witness :
  exists b', (unlock_pessimistic (R := MemRedis) demo_balance (dec_of_Z 15) "order_canceled" None demo_world).2
               = inr b' /\ dunits (available_balance b') = dunits (dec_of_Z 75).
Proof.
  destruct (pessimistic_operations_exact (R := MemRedis) demo_balance (dec_of_Z 15) "order_canceled" None demo_world)
    as (_ & H & _); [apply demo_balance_ok|split; vm_compute; congruence|vm_compute; reflexivity|].
  assert (G : (0 <=? dunits (dec_of_Z 15)) && (dunits (dec_of_Z 15) <=? dunits (locked_balance demo_balance)) = true)
    by (vm_compute; reflexivity).
  unfold written in H. rewrite G in H.
  destruct H as (b' & E & (_ & _ & _ & _ & Ha & _) & _). exists b'. split; [exact E|].
  rewrite Ha. vm_compute. reflexivity.
Defined.

Lemma admin_adjust_correct_witness :
  exists b', (admin_adjust (R := MemRedis) 2 "BTC" (dec_of_Z 3) "admin_credit" demo_world).2 = inr b' /\
    dunits (total_balance b') = dunits (dec_of_Z 3).
Proof.
  pose proof (admin_adjust_correct (R := MemRedis) 2 "BTC" (dec_of_Z 3) "admin_credit" demo_world demo_world_ok)
    as H. cbv zeta in H.
  assert (L : balances (db demo_world) !! (2, "BTC") = None) by reflexivity. rewrite L in H. cbn [default] in H.
  specialize (H ltac:(split; vm_compute; congruence) ltac:(vm_compute; reflexivity)).
  assert (G : (0 <=? dunits (available_balance (new_balance 2 "BTC")) + dunits (dec_of_Z 3)) = true)
    by (vm_compute; reflexivity).
  unfold id in H. rewrite G in H. destruct H as (b' & E & (_ & _ & _ & _ & _ & Ht & _) & _).
  exists b'. split; [exact E|]. rewrite Ht. vm_compute. reflexivity.
Defined.
