(* ===== verification/Bridge.v ===== *)
(** * Between the domain and the engine: app/matching/_bridge.py

    Sides, types and outcomes as the engine's integers, the construction of the
    taker and the conversion of its trades.  Theorem: [build_corder] accepts an
    order exactly under its stated conditions and what it builds is a taker the
    engine's theorems apply to.  [to_c_side] and [to_c_type] are on texts; a
    member of the enum stands for its value, which [lower] keeps. *)

From Stdlib Require Import ZArith Lia Bool SpecFloat.
From stdpp Require Import base tactics option list strings.
From S2P Require Import Prelude Float64 FloatPos PyDecimal Models Engine EngineBook EngineMatch.
#[local] Open Scope Z_scope.

(** [_SIDE_MAP] and [_TYPE_MAP]. *)
Definition side_code (s : OrderSide) : Z := match s with BUY => C_BUY | SELL => C_SELL end.
Definition type_code (t : OrderType) : Z :=
  match t with
  | MARKET => C_MARKET | LIMIT => C_LIMIT | IOC => C_IOC | FOK => C_FOK | POST_ONLY => C_POST_ONLY
  | ICEBERG => C_LIMIT | STOP_MARKET => C_MARKET | STOP_LIMIT => C_LIMIT | TRAILING_STOP => C_MARKET
  end.

Definition to_c_side (side : string) : exn + Z :=
  match OrderSide_of (lower side) with
  | Some s => inr (side_code s)
  | None => inl (ValueError "Unknown side")
  end.
Definition to_c_type (order_type : string) : exn + Z :=
  match OrderType_of (lower order_type) with
  | Some t => inr (type_code t)
  | None => inl (ValueError "Unknown order type")
  end.

(** On floats: None becomes NaN. *)
Definition decimal_to_double (d : option float64) : float64 := default f_nan d.

(** [math.isclose(a, b, rel_tol=1e-9, abs_tol=1e-12)] *)
Definition isclose (a b : float64) : bool :=
  let rel_tol := f_of_dec (Dec 1 (-9)) in
  let abs_tol := f_of_dec (Dec 1 (-12)) in
  if f_eqb a b then true
  else if negb (f_isfinite a) && negb (f_isnan a) || negb (f_isfinite b) && negb (f_isnan b) then false
  else
    let diff := SFabs (f_sub b a) in
    f_leb diff (SFabs (f_mul rel_tol b)) || f_leb diff (SFabs (f_mul rel_tol a)) || f_leb diff abs_tol.

Definition build_corder (order_id : Z) (side order_type : string) (price : option float64) (quantity : float64)
    (is_iceberg : bool) (visible_qty hidden_qty : option float64) : exn + COrder :=
  match to_c_side side with
  | inl e => inl e
  | inr cdef_side =>
  match to_c_type order_type with
  | inl e => inl e
  | inr cdef_type =>
      let price_d := decimal_to_double price in
      let qty_d := quantity in
      if f_leb qty_d f_zero then inl (ValueError "quantity must be positive")
      else
        let vis_d := if is_iceberg then decimal_to_double visible_qty else qty_d in
        let hid_d := if is_iceberg then decimal_to_double hidden_qty else f_zero in
        if is_iceberg && f_leb vis_d f_zero then inl (ValueError "iceberg visible_qty must be positive")
        else if is_iceberg && f_ltb hid_d f_zero then inl (ValueError "iceberg hidden_qty must be non-negative")
        else if is_iceberg && negb (f_eqb (f_add vis_d hid_d) qty_d) && negb (isclose (f_add vis_d hid_d) qty_d)
        then inl (ValueError "iceberg invariant violated")
        else inr (MkCOrder order_id cdef_side cdef_type price_d qty_d qty_d is_iceberg vis_d hid_d)
  end
  end.

Definition outcome_to_str (outcome : Z) : exn + string :=
  if outcome =? C_OK then inr "ok"
  else if outcome =? C_FOK_REJECTED then inr "fok_rejected"
  else if outcome =? C_POST_ONLY_CROSS then inr "post_only_cross"
  else if outcome =? C_NO_LIQUIDITY then inr "no_liquidity"
  else inl (ValueError "Unknown outcome code").

Definition is_outcome_terminal (outcome : Z) : bool :=
  (outcome =? C_OK) || (outcome =? C_FOK_REJECTED) || (outcome =? C_POST_ONLY_CROSS) || (outcome =? C_NO_LIQUIDITY).
Definition is_outcome_reject (outcome : Z) : bool :=
  (outcome =? C_FOK_REJECTED) || (outcome =? C_POST_ONLY_CROSS) || (outcome =? C_NO_LIQUIDITY).

(** The DB-ready trade.  [Decimal(str(x))] of a NaN or an infinity is a Decimal
    no later comparison accepts; it is an error here. *)
Record DomainTrade := MkDomainTrade {
  dt_taker_order_id : Z;
  dt_maker_order_id : Z;
  dt_symbol : string;
  dt_price : decimal;
  dt_quantity : decimal;
  dt_quote_quantity : decimal;
  dt_side : OrderSide;
  dt_maker_user_id : Z
}.
Definition trade_dict_to_domain (t : TradeResult) (symbol : string) : exn + DomainTrade :=
  match dec_of_float (tr_price t), dec_of_float (tr_quantity t) with
  | Some price, Some qty =>
      inr (MkDomainTrade (tr_taker t) (tr_maker t) symbol price qty (dec_mul price qty)
             (if tr_side t =? C_BUY then BUY else SELL) 0)
  | _, _ => inl InvalidOperation
  end.

(** ** Facts *)

Lemma to_c_side_value s : to_c_side (OrderSide_value s) = inr (side_code s).
Proof. unfold to_c_side. by rewrite lower_side, OrderSide_of_value. Qed.
Lemma to_c_type_value t : to_c_type (OrderType_value t) = inr (type_code t).
Proof. unfold to_c_type. by rewrite lower_type, OrderType_of_value. Qed.
Lemma side_code_valid s : valid_side (side_code s).
Proof. destruct s; [by left|by right]. Qed.

(** The orders [build_corder] is meant to accept. *)
Record well_formed (side order_type : string) (qty : float64) (iceberg : bool) (vis hid : float64)
    (s : OrderSide) (t : OrderType) : Prop := {
  wf_side : lower side = OrderSide_value s;
  wf_type : lower order_type = OrderType_value t;
  wf_qty : f_leb qty f_zero = false;
  wf_visible : iceberg = true -> f_leb vis f_zero = false;
  wf_hidden : iceberg = true -> f_ltb hid f_zero = false;
  wf_total : iceberg = true -> (f_eqb (f_add vis hid) qty || isclose (f_add vis hid) qty) = true
}.

Lemma to_c_side_cases side :
  (exists s, lower side = OrderSide_value s /\ to_c_side side = inr (side_code s)) \/
  (forall s, lower side <> OrderSide_value s) /\ to_c_side side = inl (ValueError "Unknown side").
Proof.
  unfold to_c_side. destruct (OrderSide_of (lower side)) as [s|] eqn:E.
  - left. exists s. split; [by apply OrderSide_of_inv|done].
  - right. split; [|done]. intros s Hs. by rewrite Hs, OrderSide_of_value in E.
Qed.
Lemma to_c_type_cases type :
  (exists t, lower type = OrderType_value t /\ to_c_type type = inr (type_code t)) \/
  (forall t, lower type <> OrderType_value t) /\ to_c_type type = inl (ValueError "Unknown order type").
Proof.
  unfold to_c_type. destruct (OrderType_of (lower type)) as [t|] eqn:E.
  - left. exists t. split; [by apply OrderType_of_inv|done].
  - right. split; [|done]. intros t Ht. by rewrite Ht, OrderType_of_value in E.
Qed.

(** C34: [build_corder] accepts exactly the well-formed orders: a side and a
    type of the domain in any case, a quantity that is not zero or negative,
    and for an iceberg a positive visible part and a hidden part that is not
    negative, which add up to the quantity (up to [isclose]).  The order built
    carries the codes of side and type, NaN for a missing price, its whole
    quantity as remaining and, unless it is an iceberg, as visible; with a
    finite quantity it is a valid taker of the engine.  Anything else raises
    ValueError. *)
Theorem build_corder_correct order_id side type price qty (iceberg : bool) visible hidden :
  let vis := if iceberg then default f_nan visible else qty in
  let hid := if iceberg then default f_nan hidden else f_zero in
  let built := build_corder order_id side type price qty iceberg visible hidden in
  (forall s t, well_formed side type qty iceberg vis hid s t ->
     let c := MkCOrder order_id (side_code s) (type_code t) (default f_nan price) qty qty iceberg vis hid in
     built = inr c /\ (fpos qty = true -> valid_taker c)) /\
  (~ (exists s t, well_formed side type qty iceberg vis hid s t) -> exists msg, built = inl (ValueError msg)).
Proof.
  intros vis hid built. subst built. unfold build_corder. fold (decimal_to_double visible) in vis.
  fold (decimal_to_double hidden) in hid. cbn zeta. fold vis hid. split.
  - intros s t [Hs Ht Hq Hv Hh Htot]. unfold to_c_side, to_c_type. rewrite Hs, Ht, OrderSide_of_value, OrderType_of_value, Hq.
    split; [|intros Hp; split; [apply side_code_valid|by right]].
    destruct iceberg; cbn [andb]; [|done]. rewrite Hv, Hh by done. specialize (Htot eq_refl).
    destruct (f_eqb _ _); [done|]. cbn in Htot. by rewrite Htot.
  - intros Hno. destruct (to_c_side_cases side) as [(s & Hs & ->)|[_ ->]]; [|by eexists].
    destruct (to_c_type_cases type) as [(t & Ht & ->)|[_ ->]]; [|by eexists].
    destruct (f_leb qty f_zero) eqn:Hq; [by eexists|]. destruct iceberg; cbn [andb].
    + destruct (f_leb vis f_zero) eqn:Hv; [by eexists|]. destruct (f_ltb hid f_zero) eqn:Hh; [by eexists|].
      destruct (f_eqb (f_add vis hid) qty) eqn:E1, (isclose (f_add vis hid) qty) eqn:E2; cbn [negb andb]; try (by eexists).
      all: destruct Hno; exists s, t; split; try done; by rewrite ?E1, ?E2.
    + destruct Hno. by exists s, t.
Qed.

Lemma build_corder_correct_witness :
  let built := build_corder 1 "BUY" "limit" (Some (f_of_Z 10)) (f_of_Z 2) false None None in
  (exists c, built = inr c /\ valid_taker c) /\
  exists msg, build_corder 1 "buy" "limit" (Some (f_of_Z 10)) f_zero false None None = inl (ValueError msg).
Proof.
  split.
  - destruct (build_corder_correct 1 "BUY" "limit" (Some (f_of_Z 10)) (f_of_Z 2) false None None) as [H _].
    destruct (H BUY LIMIT) as [E V]; [split; first [reflexivity|discriminate]|].
    eexists. split; [exact E|]. apply V. vm_compute. reflexivity.
  - apply build_corder_correct. intros (s & t & [_ _ H _ _ _]). discriminate H.
Defined.
