(* ===== verification/OrderRepo.v ===== *)
(** * Orders in the database: app/repositories/order_repo.py

    Single-row reads, child and batch queries and the atomic updates.  The
    listing behind the API is [list_user_orders] of Api, the one for a restart of
    the worker [list_open_orders_by_symbol] of Repos;
    [list_pending_stops_by_symbol] is ordered by id, the order of creation. *)

From Stdlib Require Import ZArith Lia Bool SpecFloat.
From stdpp Require Import base tactics option list strings gmap sets sorting.
From S2P Require Import Prelude Float64 PyDecimal Models RedisIface OrderBook World.
#[local] Open Scope Z_scope.

(** The three active statuses the code lists. *)
Definition active_status (s : OrderStatus) : bool :=
  match s with PENDING | NEW | PARTIALLY_FILLED => true | _ => false end.

Definition bump_version (o : Order) : Order := set_o_version (o_version o + 1) o.
Definition with_status (s : OrderStatus) (o : Order) : Order := bump_version (set_o_status s o).

Section OrderRepo.
Context {R : Redis} {P : PgNumeric}.

Definition get_order_for_update (order_id : Z) : wprog (option Order) := from_db (fun d => orders d !! order_id).
Definition get_by_user (order_id user_id : Z) : wprog (option Order) :=
  from_db (fun d => o ← orders d !! order_id; if o_user_id o =? user_id then Some o else None).
Definition list_children_by_parent (parent_order_id : Z) : wprog (list Order) :=
  from_db (fun d => snd <$> filter (fun ko => o_parent_order_id ko.2 = Some parent_order_id) (map_to_list (orders d))).
Definition list_bulk_orders (bulk_id : string) : wprog (list Order) :=
  from_db (fun d => snd <$> filter (fun ko => o_bulk_id ko.2 = Some bulk_id) (map_to_list (orders d))).

Definition id_le (a b : Order) : Prop := o_id a <= o_id b.
#[export] Instance id_le_dec a b : Decision (id_le a b).
Proof. unfold id_le. apply _. Defined.
Definition pending_stop (symbol : string) (o : Order) : bool :=
  String.eqb (o_symbol o) symbol && is_stop_type o && bool_decide (o_status o = PENDING).
Definition list_pending_stops_by_symbol (symbol : string) : wprog (list Order) :=
  from_db (fun d => merge_sort id_le (snd <$> filter (fun ko => pending_stop symbol ko.2 = true) (map_to_list (orders d)))).

(** UPDATE ... WHERE id = order_id: the row count is 1 or 0. *)
Definition update_order_row (order_id : Z) (f : Order -> option Order) : wprog bool :=
  row ← from_db (fun d => orders d !! order_id);
  match row with
  | Some o => o' ← require DBError (f o); _ ← update_db (set_orders <[order_id := o']>); mret true
  | None => mret false
  end.
Definition update_fill (order_id : Z) (filled_qty_delta filled_quote_delta : decimal) (new_status : OrderStatus)
    : wprog bool :=
  update_order_row order_id (fun o =>
    q ← pg_add (o_filled_quantity o) filled_qty_delta;
    v ← pg_add (o_filled_quote_qty o) filled_quote_delta;
    Some (with_status new_status (set_o_filled_quote_qty v (set_o_filled_quantity q o)))).
Definition update_status (order_id : Z) (status : OrderStatus) : wprog bool :=
  update_order_row order_id (fun o => Some (with_status status o)).

Definition is_child_of (parent_order_id : Z) (o : Order) : bool :=
  bool_decide (o_parent_order_id o = Some parent_order_id) && active_status (o_status o).
Definition cancel_child (parent_order_id : Z) (o : Order) : Order :=
  if is_child_of parent_order_id o then with_status CANCELED o else o.
Definition cancel_children (parent_order_id : Z) : wprog Z :=
  n ← from_db (fun d => Z.of_nat (base.size (filter (fun ko => is_child_of parent_order_id ko.2 = true) (orders d))));
  _ ← update_db (set_orders (fmap (cancel_child parent_order_id)));
  mret n.

(** The flush of an order's attributes. *)
Definition write_order (o : Order) : wprog unit := update_db (set_orders <[o_id o := o]>).

(** ** Facts *)

Lemma update_status_spec order_id status w :
  update_status order_id status w =
  match orders (db w) !! order_id with
  | Some o => (with_db (set_orders <[order_id := with_status status o]>) w, inr true)
  | None => (w, inr false)
  end.
Proof.
  unfold update_status, update_order_row, from_db, update_db. run_prog.
  by destruct (orders (db w) !! order_id).
Qed.

(** Only the rows of the orders table change. *)
Lemma keeps_update_order_row (Q : Database -> Prop) order_id f :
  (forall g d, Q d -> Q (set_orders g d)) -> keeps (on_db Q) (update_order_row order_id f).
Proof. intros H. unfold update_order_row. keeps_tac. apply keeps_update_db. apply H. Qed.
End OrderRepo.
