(* ===== verification/OrderService.v ===== *)
(** * Orders: app/services/order_service.py

    Validation, lock amounts, placement, cancellation, cancel-replace and the
    bulk operations.  Each method runs in the caller's transaction; [transaction]
    (World.v) is the bracket of the API routes. *)

From Stdlib Require Import ZArith Lia Bool SpecFloat.
From stdpp Require Import base tactics option list strings gmap sets sorting.
From S2P Require Import Prelude Float64 PyDecimal Models RedisIface OrderBook Queues OrdersIndex Stops World Pubsub Balance OrderRepo.
#[local] Open Scope Z_scope.

(** ** DTOs *)

Record SLTPConfig := MkSLTP {
  sl_type : string;
  sl_stop_price : option decimal;
  sl_price : option decimal;
  sl_quantity : option decimal
}.

Record OrderCreateDTO := MkDTO {
  d_symbol : string;
  d_side : string;
  d_type : string;
  d_price : option decimal;
  d_stop_price : option decimal;
  d_trailing_delta : option decimal;
  d_quantity : decimal;
  d_visible_quantity : option decimal;
  d_hidden_quantity : option decimal;
  d_sl : option SLTPConfig;
  d_tp : option SLTPConfig;
  d_client_order_id : option string;
  d_bulk_id : option string
}.
Definition set_d_bulk_id (v : option string) (d : OrderCreateDTO) : OrderCreateDTO :=
  MkDTO (d_symbol d) (d_side d) (d_type d) (d_price d) (d_stop_price d) (d_trailing_delta d) (d_quantity d)
    (d_visible_quantity d) (d_hidden_quantity d) (d_sl d) (d_tp d) (d_client_order_id d) v.

(** [t in ("a", "b", ...)] *)
Definition str_in (s : string) (l : list string) : bool := existsb (String.eqb s) l.
Definition stop_types : list string := ["stop_market"; "stop_limit"; "trailing_stop"].
Definition is_stop_dto (dto : OrderCreateDTO) : bool := str_in (d_type dto) stop_types.
Definition is_market_buy (dto : OrderCreateDTO) : bool :=
  String.eqb (d_type dto) "market" && String.eqb (d_side dto) "buy".

(** A Decimal in a boolean context: None and zero are false. *)
Definition truthy (o : option decimal) : option decimal :=
  match o with Some d => if dec_truthy d then Some d else None | None => None end.
Definition or_zero (o : option decimal) : decimal := default dec_zero (truthy o).
(** [str(d) if d else ""] *)
Definition str_or_empty (o : option decimal) : hval :=
  match truthy o with Some d => HDecimal d | None => HText "" end.
Definition float_or_none (o : option decimal) : option float64 := f_of_dec <$> truthy o.

(** ** Validation *)

(** The first failing check raises. *)
Fixpoint first_error (checks : list (bool * string)) : exn + unit :=
  match checks with
  | [] => inr tt
  | (true, msg) :: _ => inl (OrderValidationError msg)
  | (false, _) :: checks => first_error checks
  end.

Definition validation_checks (dto : OrderCreateDTO) (pair : TradingPair) : list (bool * string) :=
  let type_in := str_in (d_type dto) in
  [ (negb (str_in (d_side dto) ["buy"; "sell"]), "Invalid side");
    (dec_leb (d_quantity dto) dec_zero, "quantity must be positive");
    (dec_ltb (d_quantity dto) (min_lot_size pair), "quantity below min_lot_size");
    (dec_ltb (max_lot_size pair) (d_quantity dto), "quantity above max_lot_size");
    (type_in ["limit"; "post_only"; "ioc"; "fok"; "iceberg"; "stop_limit"] && bool_decide (d_price dto = None),
     "Order type requires price");
    (match d_price dto with Some p => dec_leb p dec_zero | None => false end, "price must be positive");
    (type_in ["stop_market"; "stop_limit"] && bool_decide (d_stop_price dto = None),
     "Order type requires stop_price");
    (type_in ["trailing_stop"] && bool_decide (d_trailing_delta dto = None),
     "trailing_stop requires trailing_delta");
    (type_in ["iceberg"] && (bool_decide (d_visible_quantity dto = None) || bool_decide (d_hidden_quantity dto = None)),
     "iceberg requires visible_quantity and hidden_quantity");
    (type_in ["iceberg"] && negb (dec_eqb (dec_add (default dec_zero (d_visible_quantity dto))
                                              (default dec_zero (d_hidden_quantity dto))) (d_quantity dto)),
     "iceberg: visible + hidden != quantity");
    (type_in ["iceberg"] && dec_leb (default dec_zero (d_visible_quantity dto)) dec_zero,
     "iceberg visible_quantity must be positive") ].

(** The tick size check, last. *)
Definition tick_check (dto : OrderCreateDTO) (pair : TradingPair) : exn + unit :=
  match d_price dto with
  | Some p =>
      if dec_ltb dec_zero (tick_size pair) then
        match dec_rem p (tick_size pair) with
        | Some remainder =>
            if dec_eqb remainder dec_zero then inr tt
            else inl (OrderValidationError "price not a multiple of tick_size")
        | None => inl InvalidOperation
        end
      else inr tt
  | None => inr tt
  end.

Definition validate_params (dto : OrderCreateDTO) (pair : TradingPair) : exn + unit :=
  match first_error (validation_checks dto pair) with
  | inl e => inl e
  | inr _ => tick_check dto pair
  end.

(** ** Lock amounts *)

Definition compute_lock_asset_and_amount (dto : OrderCreateDTO) (pair : TradingPair) : exn + (string * decimal) :=
  if is_stop_dto dto then inr ("", dec_zero)
  else if String.eqb (d_side dto) "sell" then inr (base_asset pair, d_quantity dto)
  else if str_in (d_type dto) ["limit"; "post_only"; "ioc"; "fok"; "iceberg"] then
    match d_price dto with
    | Some p => inr (quote_asset pair, dec_mul p (d_quantity dto))
    | None => inl AssertionError
    end
  else inr (quote_asset pair, dec_zero).

(** The walk over the asks: the quantity not covered and the cost.
    [Decimal(str(x))] is an error on NaN and infinities. *)
Fixpoint walk_asks (asks : list MakerOrder) (remaining cost : decimal) : exn + (decimal * decimal) :=
  match asks with
  | [] => inr (remaining, cost)
  | ask :: asks =>
      if dec_leb remaining dec_zero then inr (remaining, cost)
      else
        match dec_of_float (mo_price ask),
              dec_of_float (if mo_is_iceberg ask then mo_visible ask else mo_quantity ask) with
        | Some ask_price, Some ask_qty =>
            let fill_qty := dec_min remaining ask_qty in
            walk_asks asks (dec_sub remaining fill_qty) (dec_add cost (dec_mul ask_price fill_qty))
        | _, _ => inl InvalidOperation
        end
  end.

(** [total_cost * Decimal("1.001")] *)
Definition with_buffer (cost : decimal) : decimal := dec_mul cost (Dec 1001 (-3)).

(** The order of [sorted] on texts. *)
Definition str_le (a b : string) : Prop := String.leb a b = true.
#[export] Instance str_le_dec a b : Decision (str_le a b).
Proof. unfold str_le. apply _. Defined.

Section OrderService.
Context {R : Redis} {P : PgNumeric} {I : Interference}.

Definition validate_and_get_pair (symbol : string) : wprog TradingPair :=
  row ← get_by_symbol symbol;
  match row with
  | None => raise (OrderValidationError "Trading pair not found")
  | Some pr => if p_is_active pr then mret pr else raise (OrderValidationError "Trading pair is not active")
  end.

Definition compute_market_buy_lock (dto : OrderCreateDTO) (pair : TradingPair) : wprog (string * decimal) :=
  ask_orders ← on_redis (get_opposite_orders_for_match (d_symbol dto) "buy" 1000);
  match ask_orders with
  | [] => raise (OrderValidationError "Cannot place MARKET BUY: no asks available")
  | _ =>
      walked ← lift (walk_asks ask_orders (d_quantity dto) dec_zero);
      match walked with
      | (remaining, cost) =>
          if dec_ltb dec_zero remaining
          then raise (OrderValidationError "Cannot place MARKET BUY: insufficient ask volume in the order book")
          else mret (quote_asset pair, with_buffer cost)
      end
  end.

(** Which asset and how much a placement locks. *)
Definition lock_requirement (dto : OrderCreateDTO) (pair : TradingPair) : wprog (string * decimal) :=
  if is_stop_dto dto then mret ("", dec_zero)
  else if is_market_buy dto then compute_market_buy_lock dto pair
  else lift (compute_lock_asset_and_amount dto pair).

(** ** Placement *)

Definition mk_order (user_id : Z) (dto : OrderCreateDTO) (side : OrderSide) (type : OrderType)
    (bulk_id : option string) (id : Z) : Order :=
  let iceberg := String.eqb (d_type dto) "iceberg" in
  {| o_id := id; o_user_id := user_id; o_symbol := d_symbol dto; o_side := side; o_type := type;
     o_status := if is_stop_dto dto then PENDING else NEW;
     o_price := d_price dto; o_stop_price := d_stop_price dto; o_trailing_delta := d_trailing_delta dto;
     o_quantity := d_quantity dto; o_filled_quantity := dec_zero; o_filled_quote_qty := dec_zero;
     o_visible_quantity := if iceberg then d_visible_quantity dto else Some (d_quantity dto);
     o_hidden_quantity := if iceberg then d_hidden_quantity dto else None;
     o_replace_count := 0; o_replaces_id := None; o_replaced_by_id := None; o_parent_order_id := None;
     o_sl_order_id := None; o_tp_order_id := None; o_bulk_id := bulk_id; o_version := 1 |}.

Definition mk_sltp_child (parent : Order) (config : SLTPConfig) (type : OrderType) (id : Z) : Order :=
  {| o_id := id; o_user_id := o_user_id parent; o_symbol := o_symbol parent;
     o_side := if bool_decide (o_side parent = BUY) then SELL else BUY;
     o_type := type; o_status := PENDING; o_price := sl_price config; o_stop_price := sl_stop_price config;
     o_trailing_delta := None; o_quantity := default (o_quantity parent) (sl_quantity config);
     o_filled_quantity := dec_zero; o_filled_quote_qty := dec_zero;
     o_visible_quantity := None; o_hidden_quantity := None;
     o_replace_count := 0; o_replaces_id := None; o_replaced_by_id := None; o_parent_order_id := Some (o_id parent);
     o_sl_order_id := None; o_tp_order_id := None; o_bulk_id := None; o_version := 1 |}.

Definition create_sltp_child (parent : Order) (config : SLTPConfig) : wprog Order :=
  type ← require (ValueError "not a valid OrderType") (OrderType_of (sl_type config));
  add_order (mk_sltp_child parent config type).

(** The order's row and those of its children, linked. *)
Definition create_order (user_id : Z) (dto : OrderCreateDTO) (bulk_id : option string) : wprog Order :=
  side ← require (ValueError "not a valid OrderSide") (OrderSide_of (d_side dto));
  type ← require (ValueError "not a valid OrderType") (OrderType_of (d_type dto));
  order ← add_order (mk_order user_id dto side type bulk_id);
  order ← match d_sl dto with
          | Some sl => child ← create_sltp_child order sl; mret (set_o_sl_order_id (Some (o_id child)) order)
          | None => mret order
          end;
  order ← match d_tp dto with
          | Some tp => child ← create_sltp_child order tp; mret (set_o_tp_order_id (Some (o_id child)) order)
          | None => mret order
          end;
  _ ← write_order order;
  mret order.

Definition order_metadata (o : Order) : metadata :=
  {[ "order_id" := Some (htext_int (o_id o)); "user_id" := Some (htext_int (o_user_id o));
     "symbol" := Some (HText (o_symbol o)); "side" := Some (HText (OrderSide_value (o_side o)));
     "type" := Some (HText (OrderType_value (o_type o))); "price" := Some (str_or_empty (o_price o));
     "quantity" := Some (HDecimal (o_quantity o));
     "visible_quantity" := Some (str_or_empty (o_visible_quantity o));
     "hidden_quantity" := Some (str_or_empty (o_hidden_quantity o));
     "is_iceberg" := Some (HText (if bool_decide (o_type o = ICEBERG) then "1" else "0")) ]}.
Definition with_bulk_id (bulk_id : option string) (m : metadata) : metadata :=
  match bulk_id with Some b => <["bulk_id" := Some (HText b)]> m | None => m end.

Definition stop_metadata (o : Order) : metadata :=
  {[ "order_id" := Some (htext_int (o_id o)); "user_id" := Some (htext_int (o_user_id o));
     "symbol" := Some (HText (o_symbol o)); "side" := Some (HText (OrderSide_value (o_side o)));
     "type" := Some (HText (OrderType_value (o_type o))); "stop_price" := Some (str_or_empty (o_stop_price o));
     "quantity" := Some (HDecimal (o_quantity o)); "is_iceberg" := Some (HText "0") ]}.

Definition register_stop_order (o : Order) : wprog unit :=
  _ ← on_redis
        (if bool_decide (o_type o = TRAILING_STOP)
         then register_trailing_stop (o_id o) (o_symbol o) (OrderSide_value (o_side o)) "abs"
                (or_zero (o_trailing_delta o)) (or_zero (o_stop_price o)) (or_zero (o_stop_price o))
         else add_stop_order (o_id o) (o_symbol o) (or_zero (o_stop_price o)));
  _ ← on_redis (add_open_order (o_user_id o) (o_symbol o) (o_id o));
  on_redis (store_order_hash (o_id o) (stop_metadata o)).

(** The queue item of a placement. *)
Definition place_payload (o : Order) (bulk_id : option string) (ts : Z) : OrderActionPayload :=
  MkPayload "place" (o_id o) (o_symbol o) (o_user_id o) (OrderSide_value (o_side o)) (OrderType_value (o_type o))
    (float_or_none (o_price o)) None (f_of_dec (o_quantity o)) (bool_decide (o_type o = ICEBERG))
    (float_or_none (o_visible_quantity o)) (float_or_none (o_hidden_quantity o)) None None bulk_id ts.

Definition enqueue (mk : Z -> OrderActionPayload) : wprog unit :=
  ts ← gets now_ms;
  on_redis (enqueue_order_action (build_order_action_payload (mk ts))).

(** [hash_bulk]: the bulk id the HASH of a bulk placement also gets. *)
Definition register_order (o : Order) (bulk_id hash_bulk : option string) : wprog unit :=
  _ ← enqueue (place_payload o bulk_id);
  _ ← on_redis (add_open_order (o_user_id o) (o_symbol o) (o_id o));
  on_redis (store_order_hash (o_id o) (with_bulk_id hash_bulk (order_metadata o))).

Definition place_order (user_id : Z) (dto : OrderCreateDTO) : wprog Order :=
  pr ← validate_and_get_pair (d_symbol dto);
  _ ← lift (validate_params dto pr);
  req ← lock_requirement dto pr;
  _ ← (if negb (is_stop_dto dto) && dec_ltb dec_zero (snd req)
       then _ ← lock_optimistic user_id (fst req) (snd req)
                  (if is_market_buy dto then "market_buy_estimate" else "order_placed") None;
            mret tt
       else mret tt);
  order ← create_order user_id dto (d_bulk_id dto);
  _ ← (if is_stop_dto dto then register_stop_order order
       else register_order order (o_bulk_id order) None);
  _ ← publish_order_update user_id (if is_stop_dto dto then "pending" else "placed") (o_id order) (o_symbol order)
        (OrderSide_value (o_side order)) (OrderType_value (o_type order)) (OrderStatus_value (o_status order))
        (MkOpts (float_or_none (o_price order)) (Some (f_of_dec (o_quantity order))) None None None None None
           (d_client_order_id dto) (o_bulk_id order));
  mret order.

(** ** Cancellation *)

(** The asset and amount a cancellation unlocks, before the cap by what is
    locked. *)
Definition cancel_unlock (o : Order) (pr : TradingPair) : string * decimal :=
  let remaining := remaining_quantity o in
  match o_side o with
  | SELL => (base_asset pr, remaining)
  | BUY => (quote_asset pr, match o_price o with
                            | Some p => dec_mul remaining p
                            | None => dec_mul remaining (or_zero (o_stop_price o))
                            end)
  end.

Definition unlock_canceled (o : Order) (asset : string) (amount : decimal) : wprog unit :=
  if negb (is_stop_type o) && dec_ltb dec_zero amount then
    row ← get_for_update (o_user_id o) asset;
    match row with
    | Some balance =>
        let actual_unlock := dec_min amount (locked_balance balance) in
        if dec_ltb dec_zero actual_unlock
        then _ ← unlock_pessimistic balance actual_unlock "order_canceled" (Some (o_id o)); mret tt
        else mret tt
    | None => mret tt
    end
  else mret tt.

(** The Redis side of a cancellation or replacement of a resting order. *)
Definition drop_resting (o : Order) : wprog unit :=
  _ ← on_redis (remove_resting_order (o_id o) (o_symbol o) (OrderSide_value (o_side o)));
  on_redis (delete_order_hash (o_id o)).

Definition publish_book (symbol : string) : wprog unit :=
  snap ← on_redis (get_book_snapshot symbol 20);
  publish_orderbook_snapshot symbol (fst snap) (snd snap) None.

Definition cancel_payload (o : Order) (ts : Z) : OrderActionPayload :=
  MkPayload "cancel" (o_id o) (o_symbol o) (o_user_id o) (OrderSide_value (o_side o)) (OrderType_value (o_type o))
    None None f_zero false None None None None None ts.

Definition cancel_order (user_id order_id : Z) : wprog Order :=
  row ← get_by_user order_id user_id;
  match row with
  | None => raise (OrderNotFoundError order_id user_id)
  | Some o =>
      if negb (is_active o) then raise (OrderNotCancelableError order_id (o_status o))
      else
        pr ← get_by_symbol (o_symbol o) ≫= require AssertionError;
        let unlock := cancel_unlock o pr in
        _ ← unlock_canceled o (fst unlock) (snd unlock);
        _ ← update_status (o_id o) CANCELED;
        _ ← cancel_children (o_id o);
        _ ← (if is_stop_type o
             then _ ← on_redis (if bool_decide (o_type o = TRAILING_STOP)
                                then remove_trailing_stop (o_id o) (o_symbol o)
                                else remove_stop_order (o_id o) (o_symbol o));
                  mret tt
             else drop_resting o);
        _ ← on_redis (remove_open_order user_id (o_symbol o) (o_id o));
        _ ← enqueue (cancel_payload o);
        _ ← publish_order_update user_id "canceled" (o_id o) (o_symbol o) (OrderSide_value (o_side o))
              (OrderType_value (o_type o)) (OrderStatus_value CANCELED)
              (MkOpts None None (Some (f_of_dec (o_filled_quantity o))) (Some f_zero) None None None None None);
        _ ← publish_book (o_symbol o);
        row ← from_db (fun d => orders d !! o_id o);
        require (OrderNotFoundError order_id user_id) row
  end.

(** ** Cancel-replace *)

Definition replacement (user_id : Z) (old : Order) (price qty : decimal) (id : Z) : Order :=
  let iceberg := bool_decide (o_type old = ICEBERG) in
  {| o_id := id; o_user_id := user_id; o_symbol := o_symbol old; o_side := o_side old; o_type := o_type old;
     o_status := NEW; o_price := Some price; o_stop_price := None; o_trailing_delta := None;
     o_quantity := qty; o_filled_quantity := dec_zero; o_filled_quote_qty := dec_zero;
     o_visible_quantity := if iceberg then o_visible_quantity old else Some qty;
     o_hidden_quantity := if iceberg then o_hidden_quantity old else None;
     o_replace_count := o_replace_count old + 1; o_replaces_id := Some (o_id old); o_replaced_by_id := None;
     o_parent_order_id := None; o_sl_order_id := None; o_tp_order_id := None; o_bulk_id := None; o_version := 1 |}.

Definition modify_payload (o old : Order) (ts : Z) : OrderActionPayload :=
  MkPayload "modify" (o_id o) (o_symbol o) (o_user_id o) (OrderSide_value (o_side o)) (OrderType_value (o_type o))
    (float_or_none (o_price o)) None (f_of_dec (o_quantity o)) false None None None (Some (o_id old)) None ts.

(** The HASH of the replacement: its price is always printed. *)
Definition modify_metadata (o : Order) (price : decimal) : metadata :=
  <["price" := Some (HDecimal price)]> (order_metadata o).

(** [except InsufficientBalanceError: h; raise] *)
Definition on_insufficient {A} (m : wprog A) (h : wprog unit) : wprog A :=
  try_except m (fun e => match e with
                         | InsufficientBalanceError _ _ _ _ => _ ← h; raise e
                         | _ => raise e
                         end).

Definition modifiable (t : OrderType) : bool :=
  match t with LIMIT | POST_ONLY | ICEBERG => true | _ => false end.

(** What the old order had locked for its remaining quantity. *)
Definition modify_unlock (o : Order) (pr : TradingPair) : string * decimal :=
  match o_side o with
  | SELL => (base_asset pr, remaining_quantity o)
  | BUY => (quote_asset pr, dec_mul (remaining_quantity o) (or_zero (o_price o)))
  end.
Definition modify_lock (o : Order) (pr : TradingPair) (price qty : decimal) : string * decimal :=
  match o_side o with SELL => (base_asset pr, qty) | BUY => (quote_asset pr, dec_mul price qty) end.

Definition modify_checks (pr : TradingPair) (price qty : decimal) : list (bool * string) :=
  [ (dec_leb price dec_zero, "new price must be positive");
    (dec_leb qty dec_zero, "new quantity must be positive");
    (dec_ltb qty (min_lot_size pr), "new quantity below min_lot_size") ].

Definition modify_order (user_id order_id : Z) (new_price new_quantity : decimal) : wprog Order :=
  row ← get_order_for_update order_id;
  match row with
  | None => raise (OrderNotFoundError order_id user_id)
  | Some old =>
      if negb (o_user_id old =? user_id) then raise (OrderNotFoundError order_id user_id)
      else if negb (is_active old) then raise (OrderNotCancelableError order_id (o_status old))
      else if negb (modifiable (o_type old)) then raise (CannotModifyType order_id (o_type old))
      else
        pr ← get_by_symbol (o_symbol old) ≫= require AssertionError;
        let unlock := modify_unlock old pr in
        _ ← (if dec_ltb dec_zero (snd unlock)
             then _ ← unlock_optimistic user_id (fst unlock) (snd unlock) "order_modified" (Some (o_id old)); mret tt
             else mret tt);
        _ ← lift (first_error (modify_checks pr new_price new_quantity));
        let lock := modify_lock old pr new_price new_quantity in
        _ ← on_insufficient
              (lock_optimistic user_id (fst lock) (snd lock) "order_modified" (Some (o_id old)))
              (_ ← lock_optimistic user_id (fst unlock) (snd unlock) "order_placed" (Some (o_id old)); mret tt);
        _ ← update_status (o_id old) CANCELED;
        new_order ← add_order (replacement user_id old new_price new_quantity);
        _ ← update_db (set_orders (alter (set_o_replaced_by_id (Some (o_id new_order))) (o_id old)));
        _ ← drop_resting old;
        _ ← on_redis (remove_open_order user_id (o_symbol old) (o_id old));
        _ ← on_redis (add_open_order user_id (o_symbol new_order) (o_id new_order));
        _ ← on_redis (store_order_hash (o_id new_order) (modify_metadata new_order new_price));
        _ ← enqueue (modify_payload new_order old);
        _ ← publish_order_update user_id "modified" (o_id new_order) (o_symbol new_order)
              (OrderSide_value (o_side new_order)) (OrderType_value (o_type new_order))
              (OrderStatus_value (o_status new_order))
              (MkOpts (Some (f_of_dec new_price)) (Some (f_of_dec (o_quantity new_order)))
                 None None None None None None None);
        mret new_order
  end.

(** ** Bulk operations *)

(** [lock_requirements[asset] += amount] when there is something to lock. *)
Definition add_requirement (reqs : gmap string decimal) (req : string * decimal) : gmap string decimal :=
  if negb (String.eqb (fst req) "") && dec_ltb dec_zero (snd req)
  then <[fst req := dec_add (default dec_zero (reqs !! fst req)) (snd req)]> reqs
  else reqs.

Fixpoint bulk_requirements (dtos : list OrderCreateDTO) (reqs : gmap string decimal) : wprog (gmap string decimal) :=
  match dtos with
  | [] => mret reqs
  | dto :: dtos =>
      pr ← validate_and_get_pair (d_symbol dto);
      _ ← lift (validate_params dto pr);
      req ← lock_requirement dto pr;
      bulk_requirements dtos (add_requirement reqs req)
  end.

Definition sorted_assets (reqs : gmap string decimal) : list string :=
  merge_sort str_le (fst <$> map_to_list reqs).

(** The rollback loop: unlock what was locked before; failures are logged. *)
Fixpoint unlock_all (user_id : Z) (reqs : gmap string decimal) (assets : list string) : wprog unit :=
  match assets with
  | [] => mret tt
  | asset :: assets =>
      _ ← try_except
            (_ ← unlock_optimistic user_id asset (default dec_zero (reqs !! asset)) "order_rejected" None; mret tt)
            (fun _ => mret tt);
      unlock_all user_id reqs assets
  end.

(** [locked]: the assets locked so far, in order. *)
Fixpoint lock_all (user_id : Z) (bulk_id : string) (total : Z) (reqs : gmap string decimal)
    (locked assets : list string) : wprog unit :=
  match assets with
  | [] => mret tt
  | asset :: assets =>
      _ ← on_insufficient
            (lock_optimistic user_id asset (default dec_zero (reqs !! asset)) "order_placed" None)
            (_ ← unlock_all user_id reqs locked;
             publish_bulk_result user_id bulk_id "place" total 0
               [JObj [("index", JInt 0); ("code", JStr "insufficient_balance");
                      ("message", JStr ("Not enough " +:+ asset))]]);
      lock_all user_id bulk_id total reqs (locked ++ [asset]) assets
  end.

Fixpoint insert_all (user_id : Z) (bulk_id : string) (dtos : list OrderCreateDTO) : wprog (list Order) :=
  match dtos with
  | [] => mret []
  | dto :: dtos =>
      order ← create_order user_id dto (Some bulk_id);
      _ ← (if is_stop_dto dto then register_stop_order order
           else register_order order (Some bulk_id) (Some bulk_id));
      rest ← insert_all user_id bulk_id dtos;
      mret (order :: rest)
  end.

(** [bulk_id]: the caller's, or the fresh uuid. *)
Definition place_bulk_orders (user_id : Z) (dtos : list OrderCreateDTO) (bulk_id : string) : wprog (list Order) :=
  match dtos with
  | [] => mret []
  | _ =>
      let total := Z.of_nat (length dtos) in
      let dtos := set_d_bulk_id (Some bulk_id) <$> dtos in
      reqs ← bulk_requirements dtos ∅;
      _ ← lock_all user_id bulk_id total reqs [] (sorted_assets reqs);
      os ← insert_all user_id bulk_id dtos;
      _ ← publish_bulk_result user_id bulk_id "place" total (Z.of_nat (length os)) [];
      mret os
  end.

(** The cancellations of a batch: canceled ids and failures. *)
Definition cancel_one (user_id : Z) (acc : list Z * list jval) (oid : Z) : wprog (list Z * list jval) :=
  try_except
    (_ ← cancel_order user_id oid; mret (fst acc ++ [oid], snd acc))
    (fun e => match e with
              | OrderNotFoundError _ _ =>
                  mret (fst acc, snd acc ++ [JObj [("index", JInt oid); ("code", JStr "not_found");
                                                   ("message", JStr "Order not found")]])
              | OrderNotCancelableError _ _ | CannotModifyType _ _ =>
                  mret (fst acc, snd acc ++ [JObj [("index", JInt oid); ("code", JStr "not_cancelable")]])
              | _ => raise e
              end).

(** [batch_id]: the fresh uuid of the result event. *)
Definition cancel_bulk_orders (user_id : Z) (order_ids : option (list Z)) (symbol : option string)
    (cancel_all : bool) (batch_id : string) : wprog (list Z) :=
  ids ← (if cancel_all
         then on_redis (match symbol with
                        | Some s => if String.eqb s "" then get_user_open_orders user_id
                                    else get_user_open_orders_for_symbol user_id s
                        | None => get_user_open_orders user_id
                        end)
         else mret (default [] order_ids));
  match ids with
  | [] => mret []
  | _ =>
      res ← for_fold ids ([], []) (cancel_one user_id);
      _ ← publish_bulk_result user_id batch_id "cancel" (Z.of_nat (length ids)) (Z.of_nat (length (fst res))) (snd res);
      mret (fst res)
  end.
End OrderService.
