(* ===== verification/OrderSpec.v ===== *)
(** * What the order service promises

    Validation accepts exactly the orders that respect the pair's rules;
    placement locks the stated amount, records the order and queues it, or
    changes nothing. *)

From Stdlib Require Import ZArith Lia Bool SpecFloat.
From stdpp Require Import base tactics option list strings gmap sets sorting.
From S2P Require Import Prelude Float64 PyDecimal Models RedisIface OrderBook Queues OrdersIndex Stops World Pubsub Balance OrderRepo OrderService.
#[local] Open Scope Z_scope.

(** ** Validation *)

Lemma first_error_ok checks : first_error checks = inr tt <-> Forall (fun c => c.1 = false) checks.
Proof.
  induction checks as [|[[] msg] checks IH]; cbn; [by split|..].
  - split; [done|]. intros H. by inversion_clear H.
  - rewrite IH. split; [by constructor|]. intros H. by inversion_clear H.
Qed.
Lemma first_error_fails checks : first_error checks <> inr tt ->
  exists msg, first_error checks = inl (OrderValidationError msg).
Proof. induction checks as [|[[] msg] checks IH]; cbn; [done|by eexists|done]. Qed.

Lemma str_in_elem s l : str_in s l = true <-> s ∈ l.
Proof.
  unfold str_in. rewrite existsb_exists. split.
  - intros (x & Hx & E). apply String.eqb_eq in E as <-. by apply list_elem_of_In.
  - intros H. exists s. split; [by apply list_elem_of_In|apply String.eqb_refl].
Qed.

(** The rules of a pair. *)
Record valid_order (dto : OrderCreateDTO) (pair : TradingPair) : Prop := {
  vo_side : d_side dto ∈ ["buy"; "sell"];
  vo_positive : 0 < dunits (d_quantity dto);
  vo_lot : dunits (min_lot_size pair) <= dunits (d_quantity dto) <= dunits (max_lot_size pair);
  vo_priced : d_type dto ∈ ["limit"; "post_only"; "ioc"; "fok"; "iceberg"; "stop_limit"] -> is_Some (d_price dto);
  vo_price : forall p, d_price dto = Some p -> 0 < dunits p;
  vo_stop : d_type dto ∈ ["stop_market"; "stop_limit"] -> is_Some (d_stop_price dto);
  vo_trailing : d_type dto = "trailing_stop" -> is_Some (d_trailing_delta dto);
  vo_iceberg : d_type dto = "iceberg" -> exists v h,
    d_visible_quantity dto = Some v /\ d_hidden_quantity dto = Some h /\ 0 < dunits v /\
    dunits v + dunits h = dunits (d_quantity dto);
  vo_tick : forall p, d_price dto = Some p -> 0 < dunits (tick_size pair) ->
    (dunits (tick_size pair) | dunits p)
}.

(** Amounts within the columns' scale and 28 digits. *)
Definition money_opt (o : option decimal) : Prop := forall d, o = Some d -> money d.
Record dto_money (dto : OrderCreateDTO) : Prop := {
  dm_quantity : money (d_quantity dto);
  dm_price : money_opt (d_price dto);
  dm_visible : money_opt (d_visible_quantity dto);
  dm_hidden : money_opt (d_hidden_quantity dto);
  dm_iceberg : forall v h, d_visible_quantity dto = Some v -> d_hidden_quantity dto = Some h ->
    Z.abs (dunits v + dunits h) < 10 ^ 46
}.
Definition pair_money (pair : TradingPair) : Prop :=
  money (min_lot_size pair) /\ money (max_lot_size pair) /\ money (tick_size pair).

Lemma money_zero : money dec_zero.
Proof. by vm_compute. Qed.
Lemma ltb_units a b : money a -> money b -> dec_ltb a b = (dunits a <? dunits b).
Proof. intros Ha Hb. by apply dec_ltb_units; apply money_on_grid. Qed.
Lemma leb_zero_units a : money a -> dec_leb a dec_zero = (dunits a <=? 0).
Proof. intros Ha. by rewrite dec_leb_units by (apply money_on_grid; first [done|apply money_zero]). Qed.
Lemma ltb_zero_units a : money a -> dec_ltb dec_zero a = (0 <? dunits a).
Proof. intros Ha. by rewrite ltb_units by first [done|apply money_zero]. Qed.

Lemma implb_false (b : bool) (P : Prop) (c : bool) : (c = false <-> P) -> (b && c = false <-> (b = true -> P)).
Proof. destruct b; cbn; intros <-; split; auto. by intros _ ?. Qed.
Lemma bool_decide_none {A} (o : option A) `{Decision (o = None)} : bool_decide (o = None) = false <-> is_Some o.
Proof. rewrite bool_decide_eq_false. apply not_eq_None_Some. Qed.

Lemma tick_check_spec dto pair : pair_money pair -> money_opt (d_price dto) ->
  (tick_check dto pair = inr tt <->
     forall p, d_price dto = Some p -> 0 < dunits (tick_size pair) -> (dunits (tick_size pair) | dunits p)) /\
  (tick_check dto pair <> inr tt -> exists msg, tick_check dto pair = inl (OrderValidationError msg)).
Proof.
  intros (_ & _ & Ht) Hp. unfold tick_check. destruct (d_price dto) as [p|]; [|by split].
  specialize (Hp p eq_refl). rewrite ltb_zero_units by done.
  destruct (Z.ltb_spec 0 (dunits (tick_size pair))); [|split; [|done]; split; [|done]; intros; lia].
  destruct (dec_rem_money p (tick_size pair) Hp Ht) as (r & -> & Hr & Ur); [done|].
  rewrite dec_eqb_units by first [done|apply money_on_grid, money_zero]. rewrite Ur.
  change (dunits dec_zero) with 0.
  destruct (Z.eqb_spec (Z.rem (dunits p) (dunits (tick_size pair))) 0) as [E|E].
  - split; [|done]. split; [|done]. intros _ q [= <-] _. by apply Z.rem_divide in E; [|lia].
  - split; [|intros _; by eexists]. split; [done|]. intros Hd. exfalso. apply E, Z.rem_divide; [lia|].
    by apply Hd.
Qed.

Lemma price_check o : money_opt o ->
  (match o with Some p => dec_leb p dec_zero | None => false end = false <-> forall p, o = Some p -> 0 < dunits p).
Proof.
  intros Hp. destruct o as [p|]; [|by split]. rewrite leb_zero_units, Z.leb_gt by (by apply Hp).
  split; [by intros ? ? [= <-]|]. intros H. by apply H.
Qed.

Lemma iceberg_checks dto : dto_money dto ->
  let ice := str_in (d_type dto) ["iceberg"] in
  let v := d_visible_quantity dto in
  let h := d_hidden_quantity dto in
  (ice && (bool_decide (v = None) || bool_decide (h = None)) = false /\
   ice && negb (dec_eqb (dec_add (default dec_zero v) (default dec_zero h)) (d_quantity dto)) = false /\
   ice && dec_leb (default dec_zero v) dec_zero = false /\ True) <->
  (d_type dto = "iceberg" -> exists v h,
    d_visible_quantity dto = Some v /\ d_hidden_quantity dto = Some h /\ 0 < dunits v /\
    dunits v + dunits h = dunits (d_quantity dto)).
Proof.
  intros [Hq _ Hv Hh Hvh] ice v h. subst ice.
  assert (Ht : str_in (d_type dto) ["iceberg"] = true <-> d_type dto = "iceberg").
  { rewrite str_in_elem. apply list_elem_of_singleton. }
  destruct (str_in (d_type dto) ["iceberg"]); cbn [andb]; [|split; [|done]; intros _ E; by apply Ht in E].
  assert (Htt : d_type dto = "iceberg") by (by apply Ht). subst v h.
  destruct (d_visible_quantity dto) as [v|] eqn:Ev, (d_hidden_quantity dto) as [h|] eqn:Eh;
    try (split; [by intros (? & _)|intros H; by destruct (H Htt) as (? & ? & ? & ? & _)]).
  cbn [default bool_decide orb]. unfold id.
  destruct (dec_add_money v h) as [Hs Hm]; [by apply Hv|by apply Hh|by apply Hvh|].
  rewrite dec_eqb_units, leb_zero_units, Hs by first [by apply Hv|by apply money_on_grid].
  rewrite negb_false_iff, Z.eqb_eq, Z.leb_gt. split.
  - intros (_ & H1 & H2 & _) _. by exists v, h.
  - intros H. destruct (H Htt) as (v' & h' & [= <-] & [= <-] & H1 & H2). by split_and!.
Qed.

Lemma validation_checks_spec dto pair : dto_money dto -> pair_money pair ->
  Forall (fun c => c.1 = false) (validation_checks dto pair) <->
  d_side dto ∈ ["buy"; "sell"] /\ 0 < dunits (d_quantity dto) /\
  dunits (min_lot_size pair) <= dunits (d_quantity dto) /\ dunits (d_quantity dto) <= dunits (max_lot_size pair) /\
  (d_type dto ∈ ["limit"; "post_only"; "ioc"; "fok"; "iceberg"; "stop_limit"] -> is_Some (d_price dto)) /\
  (forall p, d_price dto = Some p -> 0 < dunits p) /\
  (d_type dto ∈ ["stop_market"; "stop_limit"] -> is_Some (d_stop_price dto)) /\
  (d_type dto = "trailing_stop" -> is_Some (d_trailing_delta dto)) /\
  (d_type dto = "iceberg" -> exists v h,
    d_visible_quantity dto = Some v /\ d_hidden_quantity dto = Some h /\ 0 < dunits v /\
    dunits v + dunits h = dunits (d_quantity dto)).
Proof.
  intros [Hq Hp Hv Hh Hvh] (Hmin & Hmax & Htick). unfold validation_checks.
  rewrite !Forall_cons, Forall_nil. cbn [fst].
  rewrite (leb_zero_units _ Hq), (ltb_units _ _ Hq Hmin), (ltb_units _ _ Hmax Hq).
  rewrite negb_false_iff, str_in_elem, Z.leb_gt, !Z.ltb_ge.
  rewrite !(implb_false _ _ _ (bool_decide_none _)), !str_in_elem, price_check by done.
  rewrite iceberg_checks by done. by rewrite list_elem_of_singleton.
Qed.

Lemma validate_params_spec dto pair : dto_money dto -> pair_money pair ->
  (validate_params dto pair = inr tt <-> valid_order dto pair) /\
  (validate_params dto pair <> inr tt -> exists msg, validate_params dto pair = inl (OrderValidationError msg)).
Proof.
  intros Hd Hp. pose proof (validation_checks_spec dto pair Hd Hp) as Hc.
  pose proof (tick_check_spec dto pair Hp (dm_price _ Hd)) as [Ht Ht']. unfold validate_params.
  rewrite <- first_error_ok in Hc. split.
  - transitivity (first_error (validation_checks dto pair) = inr tt /\ tick_check dto pair = inr tt).
    { destruct (first_error _) as [e|[]]; split; intuition congruence. }
    rewrite Hc, Ht. split; [intros ((? & ? & ? & ? & ? & ? & ? & ? & ?) & ?); by split|].
    intros [? ? [? ?] ? ? ? ? ? ?]. split_and!; done.
  - intros Hne. destruct (first_error (validation_checks dto pair)) as [e|[]] eqn:E.
    + destruct (first_error_fails (validation_checks dto pair)) as [msg Hm]; [by rewrite E|].
      exists msg. congruence.
    + by apply Ht'.
Qed.

(** [_validate_params] accepts an order exactly when it respects the pair:
    a known side, a positive quantity within the lot sizes, a price where the
    type needs one (positive, a multiple of the tick size), the stop price or
    trailing delta of stop types, and for icebergs a positive visible part
    adding up with the hidden part to the quantity; every other order raises
    OrderValidationError.  The order type itself is not validated, and the
    hidden part may be negative. *)
Theorem validate_params_correct dto pair : dto_money dto -> pair_money pair ->
  (validate_params dto pair = inr tt <-> valid_order dto pair) /\
  (validate_params dto pair <> inr tt -> exists msg, validate_params dto pair = inl (OrderValidationError msg)).
Proof. apply validate_params_spec. Qed.

(** ** Placement *)

Lemma represents_ext ks ks' opn : rsets ks' = rsets ks -> represents ks opn -> represents ks' opn.
Proof.
  intros E (H1 & H2 & H3). unfold represents, ks_set in *. rewrite E. done.
Qed.

Section Placement.
Context {R : Redis} {RS : RedisSpec R} {P : PgNumeric} {PS : PgNumericSpec P}.

Lemma log_only_views w w' : log_only w w' ->
  now_ms w' = now_ms w /\ zsets (view (redis w')) = zsets (view (redis w)) /\
  hashes (view (redis w')) = hashes (view (redis w)) /\ lists (view (redis w')) = lists (view (redis w)) /\
  rsets (view (redis w')) = rsets (view (redis w)) /\ counters (view (redis w')) = counters (view (redis w)).
Proof. by intros (H & log & ->). Qed.

Lemma fifo_ext q st st' : lists (view st') = lists (view st) -> fifo q st' = fifo q st.
Proof. intros E. unfold fifo, ks_list. by rewrite E. Qed.

(** The rows of a placement: the order, linked to the rows of the stop-loss and
    take-profit children it is placed with; [None] when the type of a child does
    not exist. *)
Definition child_row (o : Order) (config : SLTPConfig) (id : Z) : option Order :=
  type ← OrderType_of (sl_type config); Some (mk_sltp_child o config type id).
Definition placed_rows (o : Order) (sl tp : option SLTPConfig) : option (Order * list Order) :=
  let id := o_id o in
  match sl, tp with
  | None, None => Some (o, [])
  | Some c, None => k ← child_row o c (id + 1); Some (set_o_sl_order_id (Some (id + 1)) o, [k])
  | None, Some c => k ← child_row o c (id + 1); Some (set_o_tp_order_id (Some (id + 1)) o, [k])
  | Some c, Some c' =>
      k ← child_row o c (id + 1); k' ← child_row o c' (id + 1 + 1);
      Some (set_o_tp_order_id (Some (id + 1 + 1)) (set_o_sl_order_id (Some (id + 1)) o), [k; k'])
  end.
Definition insert_rows (rows : list Order) (m : gmap Z Order) : gmap Z Order :=
  foldl (fun m o => <[o_id o := o]> m) m rows.
Definition with_rows (rows : list Order) (d : Database) : Database :=
  MkDatabase (balances d) (insert_rows rows (orders d)) (next_order_id d + Z.of_nat (length rows)) (trades d) (pairs d).

Lemma placed_rows_parent o sl tp o' kids : placed_rows o sl tp = Some (o', kids) ->
  o_id o' = o_id o /\ o_user_id o' = o_user_id o /\ o_symbol o' = o_symbol o /\ o_type o' = o_type o /\ o_side o' = o_side o /\
  o_status o' = o_status o /\ o_bulk_id o' = o_bulk_id o.
Proof.
  unfold placed_rows, child_row. destruct sl as [c|], tp as [c'|]; try destruct (OrderType_of (sl_type c));
    try destruct (OrderType_of (sl_type c')); cbn; by intros [= <- _].
Qed.

Lemma with_rows_app rows rows' d : with_rows (rows ++ rows') d = with_rows rows' (with_rows rows d).
Proof.
  unfold with_rows, insert_rows. cbn [orders balances next_order_id trades pairs].
  by rewrite foldl_app, length_app, Nat2Z.inj_add, Z.add_assoc.
Qed.

Ltac same_rows :=
  match goal with
  | |- MkWorld (MkDatabase _ ?m ?n _ _) _ _ = MkWorld (MkDatabase _ ?m' ?n' _ _) _ _ =>
      let H := fresh in let i := fresh in
      assert (H : m = m') by (apply map_eq; intros i; rewrite !lookup_insert; repeat case_decide; solve [done|lia]);
      rewrite H; clear H; replace n with n' by lia; reflexivity
  end.

(** [create_order] inserts these rows and nothing else, or raises ValueError for
    a text that is no side or type. *)
Lemma create_order_rows uid dto bulk w :
  match create_order uid dto bulk w with
  | (w', inr o) => exists s t kids, d_side dto = OrderSide_value s /\ d_type dto = OrderType_value t /\
      placed_rows (mk_order uid dto s t bulk (next_order_id (db w))) (d_sl dto) (d_tp dto) = Some (o, kids) /\
      w' = with_db (with_rows (o :: kids)) w
  | (w', inl e) => (exists msg, e = ValueError msg) /\
      forall s t, d_side dto = OrderSide_value s -> d_type dto = OrderType_value t ->
        placed_rows (mk_order uid dto s t bulk (next_order_id (db w))) (d_sl dto) (d_tp dto) = None
  end.
Proof.
  unfold create_order, create_sltp_child, add_order, write_order, update_db.
  destruct (OrderSide_of (d_side dto)) as [s|] eqn:Es; cbn [require]; run_prog.
  2:{ split; [by eexists|]. intros s t E _. by rewrite E, OrderSide_of_value in Es. }
  destruct (OrderType_of (d_type dto)) as [t|] eqn:Et; cbn [require]; run_prog.
  2:{ split; [by eexists|]. intros s' t _ E. by rewrite E, OrderType_of_value in Et. }
  apply OrderSide_of_inv in Es. apply OrderType_of_inv in Et. rewrite Es, Et. unfold placed_rows, child_row.
  set (nid := next_order_id (db w)). unfold with_db, with_rows, insert_rows, insert_order, set_orders.
  destruct (d_sl dto) as [c|], (d_tp dto) as [c'|]; run_prog;
    try (destruct (OrderType_of (sl_type c)) as [t1|] eqn:E1; cbn [require]; run_prog);
    try (destruct (OrderType_of (sl_type c')) as [t2|] eqn:E2; cbn [require]; run_prog);
    try (split; [by eexists|]; intros; cbn [mbind option_bind o_id mk_order]; by rewrite ?E1, ?E2);
    (eexists s, t, _; split; [done|]; split; [done|]; split;
      [cbn [mbind option_bind o_id mk_order]; rewrite ?E1, ?E2; reflexivity|]);
    cbn [db orders balances next_order_id trades pairs redis now_ms foldl length o_id mk_order mk_sltp_child
           set_o_sl_order_id set_o_tp_order_id]; fold nid; same_rows.
Qed.

Lemma register_order_spec o bulk hb w opn :
  represents (view (redis w)) opn -> opn !! o_id o = None ->
  exists w', register_order o bulk hb w = (w', inr tt) /\ db w' = db w /\ now_ms w' = now_ms w /\
    fifo ORDERS_QUEUE (redis w') =
      fifo ORDERS_QUEUE (redis w) ++ [build_order_action_payload (place_payload o bulk (now_ms w))] /\
    represents (view (redis w')) (<[o_id o := (o_user_id o, o_symbol o)]> opn) /\
    zsets (view (redis w')) = zsets (view (redis w)).
Proof.
  intros Hrep Hfree. unfold register_order, enqueue, on_redis, enqueue_order_action, lpush. run_prog. cbn [redis db now_ms].
  set (st1 := r_lpush ORDERS_QUEUE _ (redis w)).
  destruct (add_open_order_view (o_user_id o) (o_symbol o) (o_id o) st1) as [Hr Hv].
  destruct (add_open_order (o_user_id o) (o_symbol o) (o_id o) st1) as [st2 r2]. cbn [fst snd] in Hr, Hv. subst r2.
  unfold store_order_hash. cbn beta iota.
  destruct (hset_flat_view (order_hash_key (o_id o)) (flat_fields (known_fields (with_bulk_id hb (order_metadata o)))) st2)
    as (st3 & Hs & _). cbn [redis]. rewrite Hs. apply hset_flat_frame in Hs as (Hz & Hrs & Hl & _).
  eexists. split; [done|]. cbn [redis db now_ms]. split; [done|]. split; [done|]. split; [|split].
  - rewrite (fifo_ext _ _ _ Hl). unfold fifo. rewrite Hv. cbn. fold (fifo ORDERS_QUEUE st1).
    change (fifo ORDERS_QUEUE st1 = fifo ORDERS_QUEUE (redis w) ++ [build_order_action_payload (place_payload o bulk (now_ms w))]).
    apply fifo_lpush.
  - apply (represents_ext (view st2)); [done|]. rewrite Hv. apply add_represents; [|by left].
    apply (represents_ext (view (redis w))); [|done]. subst st1. by rewrite lpush_view.
  - rewrite Hz, Hv. subst st1. cbn. by rewrite lpush_view.
Qed.

Lemma add_open_spec uid s oid w opn :
  represents (view (redis w)) opn -> opn !! oid = None ->
  exists w', on_redis (add_open_order uid s oid) w = (w', inr tt) /\ db w' = db w /\
    zsets (view (redis w')) = zsets (view (redis w)) /\ lists (view (redis w')) = lists (view (redis w)) /\
    represents (view (redis w')) (<[oid := (uid, s)]> opn).
Proof.
  intros Hrep Hfree. destruct (add_open_order_view uid s oid (redis w)) as [Er Ev]. unfold on_redis.
  destruct (add_open_order uid s oid (redis w)) as [st r]. cbn [fst snd] in Er, Ev. subst r.
  eexists. split; [done|]. cbn [redis db]. rewrite Ev. split_and!; try done. apply add_represents; [done|by left].
Qed.

Lemma store_hash_spec oid m w :
  exists w', on_redis (store_order_hash oid m) w = (w', inr tt) /\ db w' = db w /\
    zsets (view (redis w')) = zsets (view (redis w)) /\ lists (view (redis w')) = lists (view (redis w)) /\
    rsets (view (redis w')) = rsets (view (redis w)).
Proof.
  unfold store_order_hash, on_redis.
  destruct (hset_flat_view (order_hash_key oid) (flat_fields (known_fields m)) (redis w)) as (st & E & _).
  rewrite E. apply hset_flat_frame in E as (H1 & H2 & H3 & _). by eexists.
Qed.

(** The placement events never raise. *)
Lemma publish_order_update_spec uid ev oid symbol side type status opts w :
  exists w', publish_order_update uid ev oid symbol side type status opts w = (w', inr tt) /\
    db w' = db w /\ log_only w w'.
Proof. edestruct publish_event_spec as (w' & E & H1 & H2 & _). exists w'. split; [exact E|done]. Qed.

(** Orders that rest or match at once and are not market buys. *)
Definition plain_type (s : OrderSide) (t : OrderType) : Prop :=
  match t with
  | STOP_MARKET | STOP_LIMIT | TRAILING_STOP => False
  | MARKET => s = SELL
  | _ => True
  end.

(** A sell locks the base quantity, a buy price times quantity of the quote. *)
Definition plain_lock (dto : OrderCreateDTO) (pr : TradingPair) (s : OrderSide) : string * decimal :=
  match s with
  | SELL => (base_asset pr, d_quantity dto)
  | BUY => (quote_asset pr, dec_mul (default dec_zero (d_price dto)) (d_quantity dto))
  end.

Lemma plain_requirement dto pr s t w :
  d_side dto = OrderSide_value s -> d_type dto = OrderType_value t -> plain_type s t -> valid_order dto pr ->
  lock_requirement dto pr w = (w, inr (plain_lock dto pr s)) /\ is_stop_dto dto = false /\ is_market_buy dto = false.
Proof.
  intros Hs Ht Hpl Hv. unfold lock_requirement, is_stop_dto, is_market_buy, compute_lock_asset_and_amount, is_stop_dto.
  pose proof (vo_priced _ _ Hv) as Hpr. rewrite Hs, Ht in *.
  destruct s, t; try done; cbn in *; try (split; [|done]; done);
    (destruct Hpr as [p Hp]; [by rewrite !elem_of_cons; tauto|]; unfold plain_lock; by rewrite Hp).
Qed.

(** ** The outcomes of a placement *)

(** What every placement leaves: the rows, linked, under the next ids, and the
    order in the open-order index. *)
Record recorded (w w' : World) (t : gmap bkey Balance) (opn : gmap Z (Z * string)) (o : Order) (kids : list Order) : Prop := {
  rec_db : db w' = with_rows (o :: kids) (set_balances (fun _ => t) (db w));
  rec_index : represents (view (redis w')) (<[o_id o := (o_user_id o, o_symbol o)]> opn)
}.

(** An order that rests or matches at once: one balance moves by what is locked,
    the action is appended to the orders queue, and no sorted set changes. *)
Record queued_placement (w w' : World) (lock : string * decimal) (b : Balance) opn (o : Order) (kids : list Order) : Prop := {
  qp_lock : exists b', moves b b' (dunits (snd lock)) (- dunits (snd lock)) /\
    recorded w w' (<[(o_user_id o, fst lock) := b']> (balances (db w))) opn o kids;
  qp_queue : fifo ORDERS_QUEUE (redis w') = fifo ORDERS_QUEUE (redis w) ++
    [build_order_action_payload (place_payload o (o_bulk_id o) (now_ms w))];
  qp_zsets : zsets (view (redis w')) = zsets (view (redis w))
}.

(** The sorted set that watches a stop. *)
Definition watch_key (o : Order) : string :=
  if bool_decide (o_type o = TRAILING_STOP) then trailing_key (o_symbol o) else stops_key (o_symbol o).

(** A stop: no balance moves, nothing is queued, and the only sorted set that
    changes is the one the monitor watches, at the stop price. *)
Record watched_placement (w w' : World) opn (o : Order) (kids : list Order) : Prop := {
  wp_recorded : recorded w w' (balances (db w)) opn o kids;
  wp_queue : fifo ORDERS_QUEUE (redis w') = fifo ORDERS_QUEUE (redis w);
  wp_watch : ks_zset (view (redis w')) (watch_key o) =
    <[str_of_Z (o_id o) := stop_score (f_of_dec (or_zero (o_stop_price o)))]> (ks_zset (view (redis w)) (watch_key o));
  wp_others : forall k, k <> watch_key o -> ks_zset (view (redis w')) k = ks_zset (view (redis w)) k
}.

Lemma register_stop_spec o w opn :
  represents (view (redis w)) opn -> opn !! o_id o = None ->
  exists w', register_stop_order o w = (w', inr tt) /\ db w' = db w /\
    fifo ORDERS_QUEUE (redis w') = fifo ORDERS_QUEUE (redis w) /\
    represents (view (redis w')) (<[o_id o := (o_user_id o, o_symbol o)]> opn) /\
    zsets (view (redis w')) = zsets (upd_zset (watch_key o)
      (<[str_of_Z (o_id o) := stop_score (f_of_dec (or_zero (o_stop_price o)))]>) (view (redis w))).
Proof.
  intros Hrep Hfree. unfold register_stop_order.
  assert (H : exists w1, on_redis
        (if bool_decide (o_type o = TRAILING_STOP)
         then register_trailing_stop (o_id o) (o_symbol o) (OrderSide_value (o_side o)) "abs"
                (or_zero (o_trailing_delta o)) (or_zero (o_stop_price o)) (or_zero (o_stop_price o))
         else add_stop_order (o_id o) (o_symbol o) (or_zero (o_stop_price o))) w = (w1, inr tt) /\ db w1 = db w /\
      zsets (view (redis w1)) = zsets (upd_zset (watch_key o)
        (<[str_of_Z (o_id o) := stop_score (f_of_dec (or_zero (o_stop_price o)))]>) (view (redis w))) /\
      lists (view (redis w1)) = lists (view (redis w)) /\ rsets (view (redis w1)) = rsets (view (redis w))).
  { unfold watch_key. case_bool_decide; (eexists; split; [reflexivity|]; split; [done|]); cbn [redis];
      rewrite ?hset_view, zadd_view; done. }
  destruct H as (w1 & E1 & D1 & Z1 & L1 & S1).
  destruct (add_open_spec (o_user_id o) (o_symbol o) (o_id o) w1 opn) as (w2 & E2 & D2 & Z2 & L2 & R2);
    [by apply (represents_ext (view (redis w)))|done|].
  destruct (store_hash_spec (o_id o) (stop_metadata o) w2) as (w3 & E3 & D3 & Z3 & L3 & S3).
  exists w3. rewrite (bind_inr _ _ _ _ _ E1), (bind_inr _ _ _ _ _ E2), E3. split; [done|]. split_and!.
  - congruence.
  - apply fifo_ext. congruence.
  - by apply (represents_ext (view (redis w2))).
  - congruence.
Qed.

(** From the lock on. *)
Definition place_rest (uid : Z) (dto : OrderCreateDTO) : wprog Order :=
  order ← create_order uid dto (d_bulk_id dto);
  _ ← (if is_stop_dto dto then register_stop_order order else register_order order (o_bulk_id order) None);
  _ ← publish_order_update uid (if is_stop_dto dto then "pending" else "placed") (o_id order) (o_symbol order)
        (OrderSide_value (o_side order)) (OrderType_value (o_type order)) (OrderStatus_value (o_status order))
        (MkOpts (float_or_none (o_price order)) (Some (f_of_dec (o_quantity order))) None None None None None
           (d_client_order_id dto) (o_bulk_id order));
  mret order.

(** One placement, on an active pair whose rules the order respects. *)
Section PlaceRun.
Context (uid : Z) (dto : OrderCreateDTO) (w : World) (pr : TradingPair).
Hypotheses (Hpair : pairs (db w) !! d_symbol dto = Some pr) (Hact : p_is_active pr = true).
Let place := place_order (I := NoInterference) uid dto w.

Lemma get_active : validate_and_get_pair (d_symbol dto) w = (w, inr pr).
Proof using Hpair Hact. unfold validate_and_get_pair, get_by_symbol, from_db. run_prog. by rewrite Hpair, Hact. Qed.

Hypotheses (Hdm : dto_money dto) (Hpm : pair_money pr).
Lemma place_invalid : ~ valid_order dto pr -> exists msg, place = (w, inl (OrderValidationError msg)).
Proof using All.
  intros Hv. destruct (validate_params_spec dto pr Hdm Hpm) as [H1 H2]. rewrite <- H1 in Hv.
  destruct (H2 Hv) as [msg Hm]. exists msg. unfold place, place_order. rewrite (bind_inr _ _ _ _ _ get_active).
  apply bind_inl. unfold lift. by rewrite Hm.
Qed.

Hypothesis (Hv : valid_order dto pr).
Lemma place_checked : place =
  (req ← lock_requirement dto pr;
   _ ← (if negb (is_stop_dto dto) && dec_ltb dec_zero (snd req)
        then _ ← lock_optimistic (I := NoInterference) uid (fst req) (snd req)
                   (if is_market_buy dto then "market_buy_estimate" else "order_placed") None; mret tt
        else mret tt);
   place_rest uid dto) w.
Proof using All.
  unfold place, place_order. rewrite (bind_inr _ _ _ _ _ get_active).
  rewrite (bind_inr _ _ w w tt); [done|].
  unfold lift. by rewrite (proj2 (proj1 (validate_params_spec dto pr Hdm Hpm)) Hv).
Qed.

Lemma place_unplaceable e : lock_requirement dto pr w = (w, inl e) -> place = (w, inl e).
Proof using All. intros E. rewrite place_checked. by apply bind_inl. Qed.

(** The rest, once the lock has turned [w] into [w1]. *)
Section Rest.
Context (w1 : World) (t : gmap bkey Balance) (opn : gmap Z (Z * string)) (o : Order) (kids : list Order) (s : OrderSide) (ty : OrderType).
Hypotheses (Hdb : db w1 = set_balances (fun _ => t) (db w)) (Hlog : log_only w w1).
Hypotheses (Hs : d_side dto = OrderSide_value s) (Ht : d_type dto = OrderType_value ty).
Hypothesis (Hrows : placed_rows (mk_order uid dto s ty (d_bulk_id dto) (next_order_id (db w))) (d_sl dto) (d_tp dto) = Some (o, kids)).
Hypotheses (Hrep : represents (view (redis w)) opn) (Hfree : opn !! next_order_id (db w) = None).

Lemma rest_created : exists w2, create_order uid dto (d_bulk_id dto) w1 = (w2, inr o) /\
  db w2 = with_rows (o :: kids) (set_balances (fun _ => t) (db w)) /\ redis w2 = redis w1 /\ now_ms w2 = now_ms w.
Proof using Hdb Hlog Hs Ht Hrows.
  pose proof (create_order_rows uid dto (d_bulk_id dto) w1) as Hc. rewrite Hdb in Hc. cbn [set_balances next_order_id] in Hc.
  destruct (create_order uid dto (d_bulk_id dto) w1) as [w2 [e|o']].
  { destruct Hc as [_ Hc]. specialize (Hc s ty Hs Ht). congruence. }
  destruct Hc as (s' & t' & kids' & Hs' & Ht' & Hr & ->).
  assert (s' = s) as -> by (apply (inj Some); rewrite <- !OrderSide_of_value; congruence).
  assert (t' = ty) as -> by (apply (inj Some); rewrite <- !OrderType_of_value; congruence).
  rewrite Hrows in Hr. injection Hr as <- <-. eexists. split; [done|]. cbn [with_db db redis now_ms].
  split; [by rewrite Hdb|]. split; [done|]. apply Hlog.
Qed.

Lemma rest_queued : is_stop_dto dto = false ->
  exists w', place_rest uid dto w1 = (w', inr o) /\ recorded w w' t opn o kids /\
    fifo ORDERS_QUEUE (redis w') = fifo ORDERS_QUEUE (redis w) ++
      [build_order_action_payload (place_payload o (o_bulk_id o) (now_ms w))] /\
    zsets (view (redis w')) = zsets (view (redis w)).
Proof using RS PS Hdb Hlog Hs Ht Hrows Hrep Hfree.
  intros Hst. destruct rest_created as (w2 & E2 & D2 & R2 & N2). unfold place_rest. rewrite (bind_inr _ _ _ _ _ E2), Hst.
  destruct (placed_rows_parent _ _ _ _ _ Hrows) as (Hid & _). cbn [o_id mk_order] in Hid.
  destruct (log_only_views _ _ Hlog) as (_ & Z1 & _ & L1 & S1 & _).
  destruct (register_order_spec o (o_bulk_id o) None w2 opn) as (w3 & E3 & D3 & N3 & F3 & R3 & Z3).
  { rewrite R2. by apply (represents_ext (view (redis w))). } { by rewrite Hid. }
  rewrite (bind_inr _ _ _ _ _ E3). edestruct publish_order_update_spec as (w4 & E4 & D4 & L4). rewrite (bind_inr _ _ _ _ _ E4).
  apply log_only_views in L4 as (N4 & Z4 & _ & L4 & S4 & _). exists w4. split; [done|]. split_and!; [split|..].
  - congruence.
  - by apply (represents_ext (view (redis w3))).
  - rewrite (fifo_ext _ _ _ L4), F3, R2, N2. f_equal. by apply fifo_ext.
  - rewrite Z4, Z3, R2. done.
Qed.

Lemma rest_watched : is_stop_dto dto = true -> t = balances (db w) ->
  exists w', place_rest uid dto w1 = (w', inr o) /\ watched_placement w w' opn o kids.
Proof using RS PS Hdb Hlog Hs Ht Hrows Hrep Hfree.
  intros Hst Hsame. destruct rest_created as (w2 & E2 & D2 & R2 & N2). unfold place_rest. rewrite (bind_inr _ _ _ _ _ E2), Hst.
  destruct (placed_rows_parent _ _ _ _ _ Hrows) as (Hid & _). cbn [o_id mk_order] in Hid.
  destruct (log_only_views _ _ Hlog) as (_ & Z1 & _ & L1 & S1 & _).
  destruct (register_stop_spec o w2 opn) as (w3 & E3 & D3 & F3 & R3 & Z3).
  { rewrite R2. by apply (represents_ext (view (redis w))). } { by rewrite Hid. }
  rewrite (bind_inr _ _ _ _ _ E3). edestruct publish_order_update_spec as (w4 & E4 & D4 & L4). rewrite (bind_inr _ _ _ _ _ E4).
  apply log_only_views in L4 as (N4 & Z4 & _ & L4 & S4 & _). exists w4. split; [done|].
  assert (HZ : forall k, ks_zset (view (redis w4)) k = ks_zset (upd_zset (watch_key o)
      (<[str_of_Z (o_id o) := stop_score (f_of_dec (or_zero (o_stop_price o)))]>) (view (redis w2))) k).
  { intros k. unfold ks_zset at 1. by rewrite Z4, Z3. }
  assert (HW : forall k, ks_zset (view (redis w2)) k = ks_zset (view (redis w)) k).
  { intros k. unfold ks_zset. by rewrite R2, Z1. }
  split; [rewrite <- Hsame; split|..].
  - congruence.
  - by apply (represents_ext (view (redis w3))).
  - rewrite (fifo_ext _ _ _ L4), F3, R2. by apply fifo_ext.
  - by rewrite HZ, ks_zset_upd, HW.
  - intros k Hk. by rewrite HZ, ks_zset_upd_ne, HW.
Qed.
End Rest.
End PlaceRun.

Lemma lock_missing uid asset amount reason oid w :
  money amount -> 0 < dunits amount -> balances (db w) !! (uid, asset) = None ->
  lock_optimistic (I := NoInterference) uid asset amount reason oid w =
    (with_db (set_balances <[(uid, asset) := new_balance uid asset]>) w,
     inl (InsufficientBalanceError uid asset amount dec_zero)).
Proof.
  intros Ha Hpos Hk. unfold lock_optimistic. rewrite (proj2 (pos_units _ Ha) Hpos). unfold MAX_OPTIMISTIC_RETRIES.
  apply attempts_raise. rewrite (bind_inr _ _ w w None) by (rewrite seen_balance_spec; by rewrite Hk).
  unfold get_or_create, get_by_user_asset, from_db, write_balance, update_db. run_prog. rewrite Hk. run_prog.
  cbn [available_balance new_balance]. rewrite ltb_zero_units by done. by rewrite (proj2 (Z.ltb_lt _ _) Hpos).
Qed.

Lemma stop_requirement dto pr w : is_stop_dto dto = true -> lock_requirement dto pr w = (w, inr ("", dec_zero)).
Proof. intros H. unfold lock_requirement. by rewrite H. Qed.

Lemma place_refused uid dto w :
  (pairs (db w) !! d_symbol dto = None \/ exists pr, pairs (db w) !! d_symbol dto = Some pr /\ p_is_active pr = false) ->
  exists msg, place_order (I := NoInterference) uid dto w = (w, inl (OrderValidationError msg)).
Proof.
  intros [H|(pr & H & Hi)]; eexists; apply bind_inl; unfold validate_and_get_pair, get_by_symbol, from_db;
    run_prog; rewrite H, ?Hi; reflexivity.
Qed.

(** A lock that is needed decides the rest. *)
Lemma place_locking uid dto w pr lock s t opn o kids :
  pairs (db w) !! d_symbol dto = Some pr -> p_is_active pr = true -> dto_money dto -> pair_money pr -> valid_order dto pr ->
  d_side dto = OrderSide_value s -> d_type dto = OrderType_value t -> is_stop_dto dto = false ->
  placed_rows (mk_order uid dto s t (d_bulk_id dto) (next_order_id (db w))) (d_sl dto) (d_tp dto) = Some (o, kids) ->
  represents (view (redis w)) opn -> opn !! next_order_id (db w) = None -> balances_ok (balances (db w)) ->
  lock_requirement dto pr w = (w, inr lock) -> money (snd lock) -> 0 < dunits (snd lock) ->
  let r := place_order (I := NoInterference) uid dto w in
  match balances (db w) !! (uid, fst lock) with
  | None => r = (with_db (set_balances <[(uid, fst lock) := new_balance uid (fst lock)]>) w,
                 inl (InsufficientBalanceError uid (fst lock) (snd lock) dec_zero))
  | Some b => if dunits (snd lock) <=? dunits (available_balance b)
              then exists w', r = (w', inr o) /\ queued_placement w w' lock b opn o kids
              else r = (w, inl (InsufficientBalanceError uid (fst lock) (snd lock) (available_balance b)))
  end.
Proof.
  intros Hp Hact Hdm Hpm Hv Hs Ht Hst Hrows Hrep Hfree Hok Hreq Hm Hpos r. subst r.
  rewrite (place_checked uid dto w pr Hp Hact Hdm Hpm Hv), (bind_inr _ _ _ _ _ Hreq), Hst, ltb_zero_units by done.
  rewrite (proj2 (Z.ltb_lt _ _) Hpos). cbn [negb andb]. set (reason := if is_market_buy dto then _ else _).
  destruct (balances (db w) !! (uid, fst lock)) as [b|] eqn:Hb.
  2:{ by apply bind_inl, bind_inl, lock_missing. }
  pose proof (lock_optimistic_alone uid (fst lock) (snd lock) reason None w b Hok Hm Hb Hpos) as H. cbn zeta in H.
  destruct (Z.leb_spec (dunits (snd lock)) (dunits (available_balance b))); [|by apply bind_inl, bind_inl].
  pose proof (keeps_log_lock_optimistic (I := NoInterference) w uid (fst lock) (snd lock) reason None w (reflexivity w)) as Hlog.
  destruct H as (b' & Er & Hmv & Hdb). destruct (lock_optimistic _ _ _ _ _ w) as [w1 r1] eqn:El.
  cbn [fst snd] in Er, Hdb. subst r1. rewrite (bind_inr _ _ w w1 tt) by (by rewrite (bind_inr _ _ _ _ _ El)).
  change (db w1 = set_balances (fun _ => <[(uid, fst lock) := b']> (balances (db w))) (db w)) in Hdb.
  destruct (rest_queued uid dto w w1 (<[(uid, fst lock) := b']> (balances (db w))) opn o kids s t Hdb Hlog Hs Ht Hrows Hrep Hfree Hst)
    as (w' & E & Hrec & Hq & Hz).
  destruct (placed_rows_parent _ _ _ _ _ Hrows) as (_ & Hu & _). cbn [o_user_id mk_order] in Hu.
  exists w'. split; [exact E|]. split; [|done..]. exists b'. by rewrite Hu.
Qed.

Lemma place_stop uid dto w pr s t opn o kids :
  pairs (db w) !! d_symbol dto = Some pr -> p_is_active pr = true -> dto_money dto -> pair_money pr -> valid_order dto pr ->
  d_side dto = OrderSide_value s -> d_type dto = OrderType_value t -> is_stop_dto dto = true ->
  placed_rows (mk_order uid dto s t (d_bulk_id dto) (next_order_id (db w))) (d_sl dto) (d_tp dto) = Some (o, kids) ->
  represents (view (redis w)) opn -> opn !! next_order_id (db w) = None ->
  exists w', place_order (I := NoInterference) uid dto w = (w', inr o) /\ watched_placement w w' opn o kids.
Proof.
  intros Hp Hact Hdm Hpm Hv Hs Ht Hst Hrows Hrep Hfree.
  rewrite (place_checked uid dto w pr Hp Hact Hdm Hpm Hv), (bind_inr _ _ _ _ _ (stop_requirement dto pr w Hst)), Hst.
  cbn [negb andb]. rewrite (bind_inr _ _ w w tt eq_refl).
  apply (rest_watched uid dto w w (balances (db w)) opn o kids s t); try done. by destruct w as [[] ? ?].
Qed.

Lemma place_order_cases uid dto w s t opn o kids :
  let d := db w in
  let r := place_order (I := NoInterference) uid dto w in
  d_side dto = OrderSide_value s -> d_type dto = OrderType_value t -> dto_money dto ->
  placed_rows (mk_order uid dto s t (d_bulk_id dto) (next_order_id d)) (d_sl dto) (d_tp dto) = Some (o, kids) ->
  represents (view (redis w)) opn -> opn !! next_order_id d = None -> balances_ok (balances d) ->
  (pairs d !! d_symbol dto = None -> exists msg, r = (w, inl (OrderValidationError msg))) /\
  (forall pr, pairs d !! d_symbol dto = Some pr -> pair_money pr ->
   (p_is_active pr = false \/ ~ valid_order dto pr -> exists msg, r = (w, inl (OrderValidationError msg))) /\
   (p_is_active pr = true -> valid_order dto pr ->
    (is_stop_dto dto = true -> exists w', r = (w', inr o) /\ watched_placement w w' opn o kids) /\
    (is_stop_dto dto = false ->
     (plain_type s t -> lock_requirement dto pr w = (w, inr (plain_lock dto pr s))) /\
     (forall e, lock_requirement dto pr w = (w, inl e) -> r = (w, inl e)) /\
     (forall lock, lock_requirement dto pr w = (w, inr lock) -> money (snd lock) -> 0 < dunits (snd lock) ->
      match balances d !! (uid, fst lock) with
      | None => r = (with_db (set_balances <[(uid, fst lock) := new_balance uid (fst lock)]>) w,
                     inl (InsufficientBalanceError uid (fst lock) (snd lock) dec_zero))
      | Some b => if dunits (snd lock) <=? dunits (available_balance b)
                  then exists w', r = (w', inr o) /\ queued_placement w w' lock b opn o kids
                  else r = (w, inl (InsufficientBalanceError uid (fst lock) (snd lock) (available_balance b)))
      end)))).
Proof.
  intros d r Hs Ht Hdm Hrows Hrep Hfree Hok. split; [intros Hp; apply place_refused; by left|].
  intros pr Hp Hpm. split.
  - intros Hbad. destruct (p_is_active pr) eqn:Hact; [|apply place_refused; right; by exists pr].
    destruct Hbad as [?|Hv]; [done|]. by apply (place_invalid uid dto w pr).
  - intros Hact Hv. split; [intros Hst; by apply (place_stop uid dto w pr s t)|]. intros Hst. split_and!.
    + intros Hpl. by destruct (plain_requirement dto pr s t w Hs Ht Hpl Hv) as (H & _ & _).
    + intros e. by apply (place_unplaceable uid dto w pr).
    + intros lock Hreq Hm Hpos. by apply (place_locking uid dto w pr lock s t).
Qed.

End Placement.

(** ** Concrete orders *)

Definition demo_dto : OrderCreateDTO :=
  MkDTO "BTCUSD" "buy" "limit" (Some (dec_of_Z 10)) None None (dec_of_Z 3) None None None None None None.
Definition demo_pair : TradingPair :=
  MkPair "BTCUSD" "BTC" "USD" (dec_of_Z 1) (dec_of_Z 100) (dec_of_Z 5) true 1.
Definition demo_exchange : World (R := MemRedis) :=
  MkWorld (MkDatabase {[ (1, "USD") := demo_balance ]} ∅ 1 [] {[ "BTCUSD" := demo_pair ]})
    empty_keyspace 1700000000000.

Lemma demo_dto_money : dto_money demo_dto.
Proof.
  split; cbn; [vm_compute; split; congruence| |intros d H; discriminate H|intros d H; discriminate H|].
  2:{ intros v h H. discriminate H. }
  intros d Hd. injection Hd as <-. split; vm_compute; congruence.
Defined.
Lemma demo_pair_money : pair_money demo_pair.
Proof. repeat split; vm_compute; congruence. Defined.

Lemma validate_params_correct_witness : valid_order demo_dto demo_pair.
Proof.
  pose proof (validate_params_correct demo_dto demo_pair demo_dto_money demo_pair_money) as [[H _] _].
  apply H. vm_compute. reflexivity.
Defined.

(** The limit buy of [demo_dto] with a stop-loss: two rows, and 30 USD locked. *)
Definition demo_protected : OrderCreateDTO :=
  MkDTO "BTCUSD" "buy" "limit" (Some (dec_of_Z 10)) None None (dec_of_Z 3) None None
    (Some (MkSLTP "stop_market" (Some (dec_of_Z 5)) None None)) None None None.

Lemma demo_protected_money : dto_money demo_protected.
Proof. destruct demo_dto_money as [H1 H2 H3 H4 H5]. exact (Build_dto_money demo_protected H1 H2 H3 H4 H5). Qed.

