(* ===== verification/CancelSpec.v ===== *)
(** * What a cancellation does

    [cancel_order] refuses orders of others and orders that are not active;
    otherwise it unlocks at most what is locked, marks the order and its
    children CANCELED, and removes it from the book and the indexes. *)

From Stdlib Require Import ZArith Lia Bool SpecFloat.
From stdpp Require Import base tactics option list strings gmap sets sorting.
From S2P Require Import Prelude Float64 PyDecimal Models RedisIface OrderBook Queues OrdersIndex Stops World Pubsub Balance OrderRepo OrderService OrderSpec.
#[local] Open Scope Z_scope.

Section Cancellation.
Context {R : Redis} {RS : RedisSpec R}.

Lemma get_book_snapshot_state symbol depth st : (get_book_snapshot symbol depth st).1 = st.
Proof.
  unfold get_book_snapshot, zrevrange, zrange, lift_exn. run_prog.
  set (l1 := r_zrevrange _ _ _ _). set (l2 := r_zrange _ _ _ _).
  pose proof (load_hashes_state l1 st) as H1. destruct (load_hashes l1 st) as [st1 [e|rows]]; [done|]. cbn in H1. subst st1.
  destruct (aggregate rows []) as [e|bids]; [done|].
  pose proof (load_hashes_state l2 st) as H2. destruct (load_hashes l2 st) as [st2 [e|rows2]]; [done|]. cbn in H2. subst st2.
  by destruct (aggregate rows2 []).
Qed.

Lemma publish_book_spec symbol w :
  exists w' r, publish_book symbol w = (w', r) /\ db w' = db w /\ log_only w w' /\
    (r = inr tt \/ exists e, r = inl e /\ (get_book_snapshot symbol 20 (redis w')).2 = inl e).
Proof.
  unfold publish_book. pose proof (get_book_snapshot_state symbol 20 (redis w)) as Hs.
  destruct (get_book_snapshot symbol 20 (redis w)) as [st [e|snap]] eqn:E; cbn in Hs; subst st.
  - exists w, (inl e). split; [|split_and!; [done|reflexivity|right; exists e; by rewrite E]].
    apply bind_inl. unfold on_redis. rewrite E. by destruct w.
  - rewrite (bind_inr _ _ w w snap) by (unfold on_redis; rewrite E; by destruct w).
    edestruct publish_event_spec as (w' & Ep & Hd & Hl & _). exists w', (inr tt).
    split; [exact Ep|]. split_and!; [done|done|by left].
Qed.

(** The abstract unlock of a cancellation: the amount owed, capped by what is
    locked. *)
Definition unlock_step (k : bkey) (a : Z) (t t' : gmap bkey Balance) : Prop :=
  match t !! k with
  | Some b =>
      let m := Z.min a (dunits (locked_balance b)) in
      if 0 <? m then exists b', moves b b' (- m) m /\ t' = <[k := b']> t else t' = t
  | None => t' = t
  end.

Lemma unlock_step_ok k a t t' : balances_ok t -> unlock_step k a t t' -> balances_ok t'.
Proof.
  intros Ht. unfold unlock_step. destruct (t !! k) as [b|] eqn:E; [|by intros ->].
  destruct (_ <? _); [|by intros ->]. intros (b' & Hm & ->). destruct (Ht _ _ E) as [-> _].
  destruct Hm as (<- & <- & H). apply balances_ok_insert; [done|apply H].
Qed.

Lemma dec_min_money a b : money a -> money b ->
  money (dec_min a b) /\ dunits (dec_min a b) = Z.min (dunits a) (dunits b).
Proof.
  intros Ha Hb. unfold dec_min. rewrite ltb_units by done.
  destruct (Z.ltb_spec (dunits b) (dunits a)); (split; [done|lia]).
Qed.

Lemma unlock_canceled_spec o asset amount w :
  is_stop_type o = false -> money amount -> balances_ok (balances (db w)) ->
  exists w' t', unlock_canceled o asset amount w = (w', inr tt) /\ log_only w w' /\
    db w' = set_balances (fun _ => t') (db w) /\
    unlock_step (o_user_id o, asset) (dunits amount) (balances (db w)) t'.
Proof.
  intros Hst Ha Hok. unfold unlock_canceled, unlock_step. rewrite Hst, ltb_zero_units by done. cbn [negb andb].
  assert (Hid : db w = set_balances (fun _ => balances (db w)) (db w)) by (by destruct (db w)).
  destruct (Z.ltb_spec 0 (dunits amount)) as [Hp|Hp].
  2:{ exists w, (balances (db w)). split; [done|]. split; [reflexivity|]. split; [exact Hid|].
      destruct (balances (db w) !! _) as [b|]; [|done]. destruct (Z.ltb_spec 0 (Z.min (dunits amount) (dunits (locked_balance b)))); [lia|done]. }
  unfold get_for_update, from_db. unfold mbind at 1, prog_bind at 1, gets. cbn beta iota.
  destruct (balances (db w) !! (o_user_id o, asset)) as [b|] eqn:E.
  2:{ exists w, (balances (db w)). split; [done|]. split; [reflexivity|]. split; [exact Hid|done]. }
  destruct (balances_ok_lookup _ _ _ _ Hok E) as (Hi & Hs & Hb). pose proof Hb as (_ & Hl & _).
  destruct (dec_min_money amount (locked_balance b) Ha Hl) as [Mm Um]. rewrite ltb_zero_units, Um by done.
  set (m := Z.min _ _) in *. destruct (Z.ltb_spec 0 m) as [Hm|Hm].
  2:{ exists w, (balances (db w)). split; [done|]. split; [reflexivity|]. split; [exact Hid|done]. }
  pose proof (unlock_spec b (dec_min amount (locked_balance b)) "order_canceled" (Some (o_id o)) w Hb Mm) as Hu.
  pose proof (keeps_log_pessimistic w repo_unlock_pessimistic b (dec_min amount (locked_balance b))
    (dec_min amount (locked_balance b)) "order_canceled" (Some (o_id o)) w (reflexivity w)) as Hlog.
  unfold written in Hu. rewrite Um in Hu.
  rewrite (proj2 (andb_true_iff _ _)) in Hu by (rewrite !Z.leb_le; subst m; lia).
  destruct Hu as (b' & Er & Hmv & Hd). unfold unlock_pessimistic in *.
  destruct (pessimistic _ _ _ _ _ _ w) as [w1 r1] eqn:Ep. cbn [fst snd] in Er, Hd. subst r1.
  exists w1, (<[(o_user_id o, asset) := b']> (balances (db w))).
  rewrite (bind_inr _ _ _ _ _ Ep). split; [done|]. split; [exact Hlog|].
  rewrite Hi, Hs in Hd. split; [rewrite Hd; by destruct (db w)|]. by exists b'.
Qed.

(** The children are canceled by one UPDATE. *)
Lemma cancel_children_spec id w :
  exists n, cancel_children id w = (with_db (set_orders (fmap (cancel_child id))) w, inr n).
Proof. eexists. reflexivity. Qed.

Lemma side_key_value symbol s : side_key symbol (OrderSide_value s) = inr (match s with BUY => bids_key symbol | SELL => asks_key symbol end).
Proof. by destruct s. Qed.

Lemma drop_resting_spec o w :
  let key := match o_side o with BUY => bids_key (o_symbol o) | SELL => asks_key (o_symbol o) end in
  exists w', drop_resting o w = (w', inr tt) /\ db w' = db w /\ now_ms w' = now_ms w /\
    ks_zset (view (redis w')) key !! str_of_Z (o_id o) = None /\
    rsets (view (redis w')) = delete (order_hash_key (o_id o)) (rsets (view (redis w))) /\
    lists (view (redis w')) = delete (order_hash_key (o_id o)) (lists (view (redis w))).
Proof.
  intros key. unfold drop_resting, on_redis, delete_order_hash, del.
  destruct (remove_resting_view (o_id o) (o_symbol o) (OrderSide_value (o_side o)) (redis w) key) as [Hr Hv];
    [apply side_key_value|].
  destruct (remove_resting_order (o_id o) (o_symbol o) (OrderSide_value (o_side o)) (redis w)) as [st1 r1] eqn:E.
  cbn [fst snd] in Hr, Hv. subst r1. run_prog. rewrite E. cbn [redis db now_ms].
  eexists. split; [done|]. cbn [redis db now_ms]. rewrite del_view, Hv. split_and!; try done.
  assert (Hne : order_hash_key (o_id o) <> key) by (subst key; by destruct (o_side o)).
  rewrite ks_zset_del_ne by done. rewrite ks_zset_upd. apply lookup_delete_eq.
Qed.

(** Order hashes live in a name space of their own. *)
Lemma user_key_not_hash uid oid : order_hash_key oid <> user_open_orders_key uid.
Proof. done. Qed.

Lemma represents_del_hash ks ks' oid opn :
  rsets ks' = delete (order_hash_key oid) (rsets ks) -> represents ks opn -> represents ks' opn.
Proof.
  intros E (H1 & H2 & H3). unfold represents, ks_set in *. rewrite E.
  split; [|split]; intros; rewrite lookup_delete_ne by done; [apply H1|apply H2|apply H3].
Qed.
Lemma fifo_del_hash q st st' oid : q <> order_hash_key oid ->
  lists (view st') = delete (order_hash_key oid) (lists (view st)) -> fifo q st' = fifo q st.
Proof. intros Hq E. unfold fifo, ks_list. by rewrite E, lookup_delete_ne. Qed.

Lemma enqueue_spec mk w :
  exists w', enqueue mk w = (w', inr tt) /\ db w' = db w /\ now_ms w' = now_ms w /\
    zsets (view (redis w')) = zsets (view (redis w)) /\ rsets (view (redis w')) = rsets (view (redis w)) /\
    fifo ORDERS_QUEUE (redis w') = fifo ORDERS_QUEUE (redis w) ++ [build_order_action_payload (mk (now_ms w))].
Proof.
  eexists. split; [reflexivity|]. cbn [redis db now_ms]. rewrite fifo_lpush, lpush_view. done.
Qed.

Lemma remove_open_spec uid o opn w :
  represents (view (redis w)) opn -> opn !! o_id o = Some (uid, o_symbol o) ->
  exists w', on_redis (remove_open_order uid (o_symbol o) (o_id o)) w = (w', inr tt) /\ db w' = db w /\
    now_ms w' = now_ms w /\ zsets (view (redis w')) = zsets (view (redis w)) /\
    lists (view (redis w')) = lists (view (redis w)) /\ represents (view (redis w')) (delete (o_id o) opn).
Proof.
  intros Hrep Ho. unfold on_redis.
  destruct (remove_open_order_view uid (o_symbol o) (o_id o) (redis w)) as [Er Ev].
  destruct (remove_open_order uid (o_symbol o) (o_id o) (redis w)) as [st r]. cbn [fst snd] in Er, Ev. subst r.
  eexists. split; [done|]. cbn [redis db now_ms]. rewrite Ev. split_and!; try done. by apply remove_represents.
Qed.

(** The book side an order rests on. *)
Definition resting_key (o : Order) : string :=
  match o_side o with BUY => bids_key (o_symbol o) | SELL => asks_key (o_symbol o) end.

(** What remains of a cancellation after the book has been cleaned. *)
Lemma cancel_tail uid o w :
  exists w' r, (_ ← publish_book (o_symbol o); row ← from_db (fun d => orders d !! o_id o);
     require (OrderNotFoundError (o_id o) uid) row) w = (w', r) /\ db w' = db w /\ log_only w w' /\
    (r = (match orders (db w) !! o_id o with Some o => inr o | None => inl (OrderNotFoundError (o_id o) uid) end) \/
     exists e, r = inl e /\ (get_book_snapshot (o_symbol o) 20 (redis w')).2 = inl e).
Proof.
  destruct (publish_book_spec (o_symbol o) w) as (w1 & r1 & E & Hd & Hl & [->|(e & -> & He)]).
  - rewrite (bind_inr _ _ _ _ _ E). exists w1. eexists. split.
    { unfold from_db. run_prog. rewrite Hd.
      instantiate (1 := match orders (db w) !! o_id o with Some o => inr o
                        | None => inl (OrderNotFoundError (o_id o) uid) end).
      by destruct (orders (db w) !! o_id o). }
    split; [done|]. split; [done|]. by left.
  - rewrite (bind_inl _ _ _ _ _ E). exists w1, (inl e). split; [done|]. split_and!; [done|done|].
    right. by exists e.
Qed.

(** Cancelling an order, case by case. *)
Lemma cancel_service_cases uid oid w :
  let d := db w in
  let r := cancel_order uid oid w in
  (~ (exists o, orders d !! oid = Some o /\ o_user_id o = uid) -> r = (w, inl (OrderNotFoundError oid uid))) /\
  (forall o, orders d !! oid = Some o -> o_user_id o = uid -> is_active o = false ->
     r = (w, inl (OrderNotCancelableError oid (o_status o)))) /\
  (forall o pr opn, orders d !! oid = Some o -> o_id o = oid -> o_user_id o = uid -> is_active o = true ->
     is_stop_type o = false -> pairs d !! o_symbol o = Some pr -> money (snd (cancel_unlock o pr)) ->
     balances_ok (balances d) -> represents (view (redis w)) opn -> opn !! oid = Some (uid, o_symbol o) ->
     exists w' t' res, r = (w', res) /\
       unlock_step (uid, fst (cancel_unlock o pr)) (dunits (snd (cancel_unlock o pr))) (balances d) t' /\
       db w' = MkDatabase t' (cancel_child oid <$> <[oid := with_status CANCELED o]> (orders d))
                 (next_order_id d) (trades d) (pairs d) /\
       ks_zset (view (redis w')) (resting_key o) !! str_of_Z oid = None /\
       represents (view (redis w')) (delete oid opn) /\
       fifo ORDERS_QUEUE (redis w') =
         fifo ORDERS_QUEUE (redis w) ++ [build_order_action_payload (cancel_payload o (now_ms w))] /\
       (res = inr (with_status CANCELED o) \/
        exists e, res = inl e /\ (get_book_snapshot (o_symbol o) 20 (redis w')).2 = inl e)).
Proof.
  intros d r. subst d r. unfold cancel_order, get_by_user, from_db. split; [|split].
  - intros Hno. run_prog. destruct (orders (db w) !! oid) as [o|] eqn:E; [|done]. cbn.
    destruct (Z.eqb_spec (o_user_id o) uid) as [Eu|]; [|done]. exfalso. apply Hno. by exists o.
  - intros o E Hu Ha. run_prog. rewrite E. cbn. by rewrite Hu, Z.eqb_refl, Ha.
  - intros o pr opn E Hid Hu Ha Hst Hp Hm Hok Hrep Hopn.
    rewrite (bind_inr _ _ w w (Some o)) by (run_prog; rewrite E; cbn; by rewrite Hu, Z.eqb_refl).
    rewrite Ha, Hst. cbn [negb].
    rewrite (bind_inr _ _ w w pr) by (unfold get_by_symbol, from_db; run_prog; by rewrite Hp).
    cbn zeta.
    destruct (unlock_canceled_spec o (fst (cancel_unlock o pr)) _ w Hst Hm Hok) as (w1 & t' & E1 & L1 & D1 & U1).
    rewrite (bind_inr _ _ _ _ _ E1). apply log_only_views in L1 as (N1 & _ & _ & Ls1 & R1 & _).
    assert (O1 : orders (db w1) !! o_id o = Some o) by (by rewrite D1, Hid).
    rewrite (bind_inr _ _ _ _ _ (eq_trans (update_status_spec _ _ _) ltac:(by rewrite O1))).
    set (w2 := with_db _ w1). destruct (cancel_children_spec (o_id o) w2) as [n E3].
    rewrite (bind_inr _ _ _ _ _ E3). set (w3 := with_db _ w2).
    destruct (drop_resting_spec o w3) as (w4 & E4 & D4 & N4 & Z4 & R4 & L4).
    rewrite (bind_inr _ _ _ _ _ E4).
    assert (Hrep4 : represents (view (redis w4)) opn).
    { apply (represents_del_hash _ _ _ _ R4). by apply (represents_ext (view (redis w))). }
    destruct (remove_open_spec uid o opn w4 Hrep4) as (w5 & E5 & D5 & N5 & Z5 & L5 & R5); [by rewrite Hid|].
    rewrite (bind_inr _ _ _ _ _ E5).
    destruct (enqueue_spec (cancel_payload o) w5) as (w6 & E6 & D6 & N6 & Z6 & R6 & F6).
    rewrite (bind_inr _ _ _ _ _ E6).
    edestruct publish_order_update_spec as (w7 & E7 & D7 & L7). rewrite (bind_inr _ _ _ _ _ E7).
    rewrite <- Hid. destruct (cancel_tail uid o w7) as (w8 & r8 & E8 & D8 & L8 & H8).
    unfold from_db in E8. rewrite E8.
    apply log_only_views in L7 as (N7 & Z7 & _ & Ls7 & R7 & _), L8 as (N8 & Z8 & _ & Ls8 & R8 & _).
    assert (Hd7 : db w7 = MkDatabase t' (cancel_child oid <$> <[oid := with_status CANCELED o]> (orders (db w)))
                    (next_order_id (db w)) (trades (db w)) (pairs (db w))).
    { rewrite D7, D6, D5, D4. unfold w3, w2. cbn [with_db db]. by rewrite D1, Hid. }
    rewrite Hid. exists w8, t', r8. split; [done|]. split; [by rewrite <- Hu|]. split; [by rewrite D8|].
    split; [|split; [|split]].
    + unfold resting_key, ks_zset in *. rewrite Z8, Z7, Z6, Z5. by rewrite Hid in Z4.
    + rewrite <- Hid. apply (represents_ext (view (redis w5))); [by rewrite R8, R7, R6|exact R5].
    + rewrite (fifo_ext _ _ _ Ls8), (fifo_ext _ _ _ Ls7), F6. f_equal.
      * rewrite (fifo_ext _ _ _ L5), (fifo_del_hash ORDERS_QUEUE (redis w3) (redis w4) (o_id o) ltac:(unfold ORDERS_QUEUE, order_hash_key; discriminate) L4). by apply fifo_ext.
      * by rewrite N5, N4, <- N1.
    + destruct H8 as [->|H8]; [left|by right]. rewrite Hd7. cbn [orders].
      rewrite Hid, lookup_fmap, lookup_insert_eq. cbn. unfold cancel_child, is_child_of.
      by rewrite andb_false_r.
Qed.

(** C11: [cancel_order].  An order that does not exist or belongs to another user
    is not found, and an order that is not active is refused; neither changes
    anything.  Cancelling an active order that is not a stop moves back to the
    available part what the remaining quantity had locked, capped by what is
    locked; sets the order and its active children to CANCELED and changes no
    other row; takes the order off its side of the book and out of the indexes;
    and appends the cancel action to the queue.  After that only the final
    snapshot of the book can raise, which rolls the database back. *)
Theorem cancel_service_correct uid oid w :
  let d := db w in
  let r := cancel_order uid oid w in
  (~ (exists o, orders d !! oid = Some o /\ o_user_id o = uid) -> r = (w, inl (OrderNotFoundError oid uid))) /\
  (forall o, orders d !! oid = Some o -> o_user_id o = uid -> is_active o = false ->
     r = (w, inl (OrderNotCancelableError oid (o_status o)))) /\
  (forall o pr opn, orders d !! oid = Some o -> o_id o = oid -> o_user_id o = uid -> is_active o = true ->
     is_stop_type o = false -> pairs d !! o_symbol o = Some pr -> money (snd (cancel_unlock o pr)) ->
     balances_ok (balances d) -> represents (view (redis w)) opn -> opn !! oid = Some (uid, o_symbol o) ->
     exists w' t' res, r = (w', res) /\
       unlock_step (uid, fst (cancel_unlock o pr)) (dunits (snd (cancel_unlock o pr))) (balances d) t' /\
       db w' = MkDatabase t' (cancel_child oid <$> <[oid := with_status CANCELED o]> (orders d))
                 (next_order_id d) (trades d) (pairs d) /\
       ks_zset (view (redis w')) (resting_key o) !! str_of_Z oid = None /\
       represents (view (redis w')) (delete oid opn) /\
       fifo ORDERS_QUEUE (redis w') =
         fifo ORDERS_QUEUE (redis w) ++ [build_order_action_payload (cancel_payload o (now_ms w))] /\
       (res = inr (with_status CANCELED o) \/
        exists e, res = inl e /\ (get_book_snapshot (o_symbol o) 20 (redis w')).2 = inl e)).
Proof. apply cancel_service_cases. Qed.
End Cancellation.

(** A resting buy order, cancelled. *)
Definition demo_resting : Order := mk_order 1 demo_dto BUY LIMIT None 1.
Definition demo_open : World (R := MemRedis) :=
  MkWorld (MkDatabase {[ (1, "USD") := demo_balance ]} {[ 1 := demo_resting ]} 2 [] {[ "BTCUSD" := demo_pair ]})
    (add_open_order (R := MemRedis) 1 "BTCUSD" 1 empty_keyspace).1 1700000000000.

Lemma demo_open_represents : represents (view (RedisSpec := MemRedisSpec) (redis demo_open)) {[ 1 := (1, "BTCUSD") ]}.
Proof.
  cbn [demo_open redis]. rewrite (proj2 (add_open_order_view (RS := MemRedisSpec) 1 "BTCUSD" 1 empty_keyspace)).
  apply (add_represents 1 "BTCUSD" 1 _ ∅); [exact represents_empty|by left].
Defined.

Lemma cancel_service_correct_witness :
  exists w' r, cancel_order (R := MemRedis) 1 1 demo_open = (w', r) /\
    orders (db w') !! 1 = Some (with_status CANCELED demo_resting).
Proof.
  destruct (cancel_service_correct (R := MemRedis) (RS := MemRedisSpec) 1 1 demo_open) as (_ & _ & H).
  destruct (H demo_resting demo_pair {[ 1 := (1, "BTCUSD") ]}) as (w' & t' & res & E & _ & D & _).
  - reflexivity.
  - reflexivity.
  - reflexivity.
  - reflexivity.
  - reflexivity.
  - reflexivity.
  - split; vm_compute; congruence.
  - cbn [demo_open db balances]. apply map_Forall_singleton. split; [reflexivity|apply demo_balance_ok].
  - apply demo_open_represents.
  - reflexivity.
  - exists w', res. split; [exact E|]. rewrite D. reflexivity.
Defined.
