(* ===== verification/BulkSpec.v ===== *)
(** * Bulk placement is all or nothing

    A batch that is refused while validating or locking leaves the database and,
    events apart, Redis as they were; a batch that is accepted moves each balance
    row it needs by the sum of its items' locks ([required]), inserts the rows
    [batch_rows] lists and queues every order that is not a stop, in the order
    of the request.  [BalanceBlind] is the frame rule for programs that write
    balances only. *)

From Stdlib Require Import ZArith Lia Bool SpecFloat.
From stdpp Require Import base tactics option list strings gmap sets sorting.
From S2P Require Import Prelude Float64 PyDecimal Models RedisIface OrderBook Queues OrdersIndex Stops World Pubsub Balance OrderRepo OrderService OrderSpec.
#[local] Open Scope Z_scope.

(** ** Programs that only read *)

Section Reads.
Context {S : Type}.
Definition reads {A} (m : prog S exn A) : Prop := forall s, (m s).1 = s.

Lemma reads_ret {A} (a : A) : reads (mret a).
Proof. done. Qed.
Lemma reads_raise {A} e : reads (raise (A := A) e).
Proof. done. Qed.
Lemma reads_gets {A} (f : S -> A) : reads (gets f).
Proof. done. Qed.
Lemma reads_bind {A B} (m : prog S exn A) (f : A -> prog S exn B) :
  reads m -> (forall a, reads (f a)) -> reads (m ≫= f).
Proof.
  intros Hm Hf s. specialize (Hm s). unfold mbind, prog_bind. destruct (m s) as [s' [e|a]]; cbn in Hm; subst; [done|].
  apply Hf.
Qed.
End Reads.

Create HintDb reads.
#[export] Hint Resolve reads_ret reads_raise reads_gets : reads.
Ltac reads_tac :=
  repeat first [ match goal with
                 | |- reads (match ?x with _ => _ end) => destruct x
                 | |- reads (mbind _ _) => apply reads_bind; [|intros ?]
                 end
               | solve [eauto with reads] ].

Section Bulk.
Context {R : Redis} {RS : RedisSpec R} {P : PgNumeric} {PS : PgNumericSpec P} {I : Interference}.

Lemma reads_lift {A} (r : exn + A) : reads (lift r).
Proof. done. Qed.
Lemma reads_lift_exn {A} (r : exn + A) : reads (lift_exn r).
Proof. done. Qed.
Lemma reads_from_db {A} (f : Database -> A) : reads (from_db f).
Proof. done. Qed.
Lemma reads_on_redis {A} (m : rprog A) : reads m -> reads (on_redis m).
Proof.
  intros H w. unfold on_redis. specialize (H (redis w)). destruct (m (redis w)) as [st r]. cbn in *. subst. by destruct w.
Qed.
Lemma reads_load_hashes l : reads (load_hashes l).
Proof. intros st. apply load_hashes_state. Qed.
Hint Resolve reads_lift reads_lift_exn reads_from_db reads_on_redis reads_load_hashes : reads.

Lemma reads_opposite symbol side limit : reads (get_opposite_orders_for_match symbol side limit).
Proof. unfold get_opposite_orders_for_match, zrange, zrevrange. reads_tac. Qed.
Hint Resolve reads_opposite : reads.

Lemma reads_lock_requirement dto pr : reads (lock_requirement dto pr).
Proof. unfold lock_requirement, compute_market_buy_lock. reads_tac. Qed.
Hint Resolve reads_lock_requirement : reads.

Lemma reads_bulk_requirements dtos reqs : reads (bulk_requirements dtos reqs).
Proof.
  revert reqs. induction dtos as [|dto dtos IH]; intros reqs; cbn [bulk_requirements]; [auto with reads|].
  unfold validate_and_get_pair, get_by_symbol. reads_tac.
Qed.

(** ** Locking *)

Lemma keeps_log_on_insufficient {A} w0 (m : wprog A) h :
  keeps (log_only w0) m -> keeps (log_only w0) h -> keeps (log_only w0) (on_insufficient m h).
Proof. intros Hm Hh. unfold on_insufficient. apply keeps_try; [done|]. intros e. destruct e; keeps_tac. Qed.
Lemma keeps_log_unlock_all w0 uid reqs assets : keeps (log_only w0) (unlock_all uid reqs assets).
Proof. induction assets as [|a assets IH]; cbn [unlock_all]; keeps_tac. Qed.
Lemma keeps_log_lock_all w0 uid bulk total reqs locked assets :
  keeps (log_only w0) (lock_all uid bulk total reqs locked assets).
Proof.
  revert locked. induction assets as [|a assets IH]; intros locked; cbn [lock_all]; [auto with keeps|].
  apply keeps_bind; [|intros _; apply IH]. apply keeps_log_on_insufficient; [auto with keeps|].
  unfold publish_bulk_result. apply keeps_bind; [apply keeps_log_unlock_all|intros _; auto with keeps].
Qed.

Lemma on_insufficient_returns {A} (m : wprog A) h w w' a : m w = (w', inr a) -> on_insufficient m h w = (w', inr a).
Proof. intros E. unfold on_insufficient, try_except. by rewrite E. Qed.
Lemma on_insufficient_fails {A} (m : wprog A) h w w' e : m w = (w', inl e) -> exists w1 e1, on_insufficient m h w = (w1, inl e1).
Proof.
  intros E. unfold on_insufficient, try_except. rewrite E. destruct e; try by eexists _, _.
  unfold mbind, prog_bind. destruct (h w') as [w1 [e|[]]]; by eexists _, _.
Qed.

(** ** Programs that write balances only *)

(** A property of the tables that does not look at the balances. *)
Class BalanceBlind (Q : Database -> Prop) : Prop := balance_blind f d : Q d -> Q (set_balances f d).
Hint Extern 0 (BalanceBlind _) => apply _ : keeps.

Section Frame.
Context {Q : Database -> Prop} {HQ : BalanceBlind Q}.

Lemma frame_balances f : keeps (on_db Q) (update_db (set_balances f)).
Proof. apply keeps_update_db. intros d. by apply HQ. Qed.
Lemma frame_attempts n i body err : (forall i, keeps (on_db Q) (body i)) -> keeps (on_db Q) (attempts n i body err).
Proof.
  intros H. revert i. induction n as [|n IH]; intros i; cbn [attempts]; [apply keeps_raise|].
  apply keeps_bind; [apply H|]. intros [b|]; [apply keeps_ret|apply IH].
Qed.
Hint Resolve frame_balances : keeps.
Lemma frame_publish_balance b change reason oid : keeps (on_db Q) (publish_balance b change reason oid).
Proof. unfold publish_balance, publish_balance_update. keeps_tac. Qed.
Hint Resolve frame_publish_balance : keeps.
Lemma frame_get_or_create uid asset : keeps (on_db Q) (get_or_create uid asset).
Proof. unfold get_or_create, get_by_user_asset, write_balance. keeps_tac. Qed.
Hint Resolve frame_get_or_create : keeps.
Lemma frame_lock_optimistic uid asset amount reason oid : keeps (on_db Q) (lock_optimistic uid asset amount reason oid).
Proof.
  unfold lock_optimistic. destruct (dec_leb _ _); [apply keeps_raise|]. apply frame_attempts. intros i.
  unfold seen_balance, get_by_user_asset, others, optimistic_lock, conditional_update, updated, get_by_user_asset, write_balance. keeps_tac.
Qed.
Lemma frame_unlock_optimistic uid asset amount reason oid : keeps (on_db Q) (unlock_optimistic uid asset amount reason oid).
Proof.
  unfold unlock_optimistic. destruct (dec_leb _ _); [apply keeps_raise|]. apply frame_attempts. intros i.
  unfold seen_balance, get_by_user_asset, others, optimistic_unlock, conditional_update, updated, get_by_user_asset, write_balance. keeps_tac.
Qed.
Hint Resolve frame_lock_optimistic frame_unlock_optimistic : keeps.
Lemma frame_on_insufficient {A} (m : wprog A) h : keeps (on_db Q) m -> keeps (on_db Q) h -> keeps (on_db Q) (on_insufficient m h).
Proof. intros Hm Hh. unfold on_insufficient. apply keeps_try; [done|]. intros e. destruct e; keeps_tac. Qed.
Lemma frame_unlock_all uid reqs assets : keeps (on_db Q) (unlock_all uid reqs assets).
Proof. induction assets as [|a assets IH]; cbn [unlock_all]; keeps_tac. Qed.
Lemma frame_lock_all uid bulk total reqs locked assets : keeps (on_db Q) (lock_all uid bulk total reqs locked assets).
Proof.
  revert locked. induction assets as [|a assets IH]; intros locked; cbn [lock_all]; [apply keeps_ret|].
  apply keeps_bind; [|intros _; apply IH]. apply frame_on_insufficient; [auto with keeps|].
  apply keeps_bind; [apply frame_unlock_all|intros _]. unfold publish_bulk_result. auto with keeps.
Qed.
End Frame.

Lemma lock_all_balances uid bulk total reqs locked assets w w' a :
  lock_all uid bulk total reqs locked assets w = (w', inr a) -> exists t, db w' = set_balances (fun _ => t) (db w).
Proof.
  intros E. set (Q := fun d => exists t, d = set_balances (fun _ => t) (db w)).
  assert (HQ : BalanceBlind Q) by (intros f d [t ->]; by exists (f t)).
  pose proof (frame_lock_all (Q := Q) uid bulk total reqs locked assets w) as H. rewrite E in H. apply H.
  exists (balances (db w)). by destruct w as [[] ? ?].
Qed.

(** ** The requirements of a batch *)

(** An item that passes validation, and what it has to lock. *)
Definition accepted (w : World) (dto : OrderCreateDTO) (lock : string * decimal) : Prop :=
  exists pr, pairs (db w) !! d_symbol dto = Some pr /\ p_is_active pr = true /\
    validate_params dto pr = inr tt /\ lock_requirement dto pr w = (w, inr lock).

Lemma bulk_requirements_spec dtos reqs w :
  match bulk_requirements dtos reqs w with
  | (w', inr reqs') => w' = w /\ exists locks, Forall2 (accepted w) dtos locks /\ reqs' = foldl add_requirement reqs locks
  | (w', inl e) => w' = w /\ forall locks, ~ Forall2 (accepted w) dtos locks
  end.
Proof.
  revert reqs. induction dtos as [|dto dtos IH]; intros reqs; cbn [bulk_requirements].
  { split; [done|]. by exists []. }
  assert (Hbad : forall locks, Forall2 (accepted w) (dto :: dtos) locks -> exists pr l, pairs (db w) !! d_symbol dto = Some pr /\
    p_is_active pr = true /\ validate_params dto pr = inr tt /\ lock_requirement dto pr w = (w, inr l)).
  { intros locks H. inversion_clear H as [|? ? ? ? (pr & H1) _]. by exists pr, y. }
  unfold validate_and_get_pair, get_by_symbol, from_db. run_prog.
  destruct (pairs (db w) !! d_symbol dto) as [pr|] eqn:Ep.
  2:{ split; [done|]. intros locks H. by destruct (Hbad locks H) as (? & ? & ? & _). }
  destruct (p_is_active pr) eqn:Ea; run_prog.
  2:{ split; [done|]. intros locks H. destruct (Hbad locks H) as (? & ? & [= <-] & ? & _). congruence. }
  unfold lift. destruct (validate_params dto pr) as [e|[]] eqn:Ev; run_prog.
  { split; [done|]. intros locks H. destruct (Hbad locks H) as (? & ? & [= <-] & _ & ? & _). congruence. }
  pose proof (reads_lock_requirement dto pr w) as Hr.
  destruct (lock_requirement dto pr w) as [w1 [e|l]] eqn:El; cbn in Hr; subst w1; run_prog.
  { split; [done|]. intros locks H. destruct (Hbad locks H) as (? & ? & [= <-] & _ & _ & ?). congruence. }
  specialize (IH (add_requirement reqs l)). destruct (bulk_requirements dtos _ w) as [w1 [e|reqs']].
  - destruct IH as [-> IH]. split; [done|]. intros locks H. inversion_clear H as [|? ? ? ? _ H1]. by eapply IH.
  - destruct IH as [-> (locks & H1 & ->)]. split; [done|]. exists (l :: locks). split; [|done].
    constructor; [|done]. by exists pr.
Qed.

(** The sum of what the items lock in an asset. *)
Fixpoint required (locks : list (string * decimal)) (a : string) : Z :=
  match locks with
  | [] => 0
  | l :: locks => (if String.eqb (fst l) a then dunits (snd l) else 0) + required locks a
  end.
Definition amounts_fit (locks : list (string * decimal)) : Prop :=
  Forall (fun l => money (snd l) /\ 0 <= dunits (snd l)) locks /\ forall a, required locks a < 10 ^ 46.
Definition units_in (reqs : gmap string decimal) (a : string) : Z := default 0 (dunits <$> reqs !! a).
Definition reqs_ok (reqs : gmap string decimal) : Prop :=
  map_Forall (fun a d => a <> "" /\ money d /\ 0 < dunits d) reqs.

Lemma required_nonneg locks a : Forall (fun l => money (snd l) /\ 0 <= dunits (snd l)) locks -> 0 <= required locks a.
Proof. induction 1 as [|l locks [_ H] _ IH]; cbn [required]; [done|]. case_match; lia. Qed.
Lemma units_nonneg reqs a : reqs_ok reqs -> 0 <= units_in reqs a.
Proof. intros H. unfold units_in. destruct (reqs !! a) as [d|] eqn:E; cbn; [|done]. apply H in E as (_ & _ & ?). lia. Qed.

Lemma add_requirement_spec reqs l : reqs_ok reqs -> money (snd l) -> 0 <= dunits (snd l) ->
  units_in reqs (fst l) + dunits (snd l) < 10 ^ 46 ->
  reqs_ok (add_requirement reqs l) /\
  forall a, a <> "" -> units_in (add_requirement reqs l) a =
    units_in reqs a + (if String.eqb (fst l) a then dunits (snd l) else 0).
Proof.
  intros Hr Hm Hn Hlt. unfold add_requirement. rewrite ltb_zero_units by done.
  destruct (String.eqb_spec (fst l) "") as [E|E]; cbn [negb andb].
  { split; [done|]. intros a Ha. destruct (String.eqb_spec (fst l) a); [congruence|lia]. }
  destruct (Z.ltb_spec 0 (dunits (snd l))).
  2:{ split; [done|]. intros a _. case_match; lia. }
  set (s := default dec_zero (reqs !! fst l)).
  assert (Hs : money s /\ dunits s = units_in reqs (fst l)).
  { subst s. unfold units_in. destruct (reqs !! fst l) as [d|] eqn:Ed; cbn; [|by vm_compute].
    split; [|done]. by apply Hr in Ed as (_ & ? & _). }
  destruct Hs as [Hs Hu]. pose proof (units_nonneg reqs (fst l) Hr).
  destruct (dec_add_money s (snd l) Hs Hm) as [Ha Hma]; [lia|]. split.
  - apply map_Forall_insert_2; [|done]. split_and!; [done..|lia].
  - intros a _. unfold units_in at 1. rewrite lookup_insert.
    destruct (String.eqb_spec (fst l) a) as [<-|Hne]; case_decide; try done; cbn; [lia|]. by rewrite Z.add_0_r.
Qed.

Lemma requirements_sum locks reqs : reqs_ok reqs -> Forall (fun l => money (snd l) /\ 0 <= dunits (snd l)) locks ->
  (forall a, units_in reqs a + required locks a < 10 ^ 46) ->
  reqs_ok (foldl add_requirement reqs locks) /\
  forall a, a <> "" -> units_in (foldl add_requirement reqs locks) a = units_in reqs a + required locks a.
Proof.
  revert reqs. induction locks as [|l locks IH]; intros reqs Hr Hf Hlt; cbn [foldl required].
  { split; [done|]. intros; lia. }
  inversion_clear Hf as [|? ? [Hm Hn] Hf']. pose proof (Hlt (fst l)) as H1. cbn [required] in H1. rewrite String.eqb_refl in H1.
  pose proof (required_nonneg locks (fst l) Hf').
  destruct (add_requirement_spec reqs l Hr Hm Hn) as [Hr' Hu]; [lia|].
  assert (Hempty : units_in (add_requirement reqs l) "" = 0).
  { unfold units_in. destruct (add_requirement reqs l !! "") as [d|] eqn:E; [|done]. by apply Hr' in E as (? & _). }
  destruct (IH _ Hr' Hf') as [Hr2 Hu2].
  { intros a. pose proof (Hlt a) as Ha. cbn [required] in Ha. destruct (decide (a = "")) as [->|Hne]; [|rewrite Hu by done; lia].
    rewrite Hempty. pose proof (units_nonneg reqs "" Hr). case_match; lia. }
  split; [done|]. intros a Ha. rewrite Hu2, Hu by done. lia.
Qed.

(** ** Locking every asset *)

Definition covers (t : gmap bkey Balance) (k : bkey) (amount : Z) : Prop :=
  exists b, t !! k = Some b /\ amount <= dunits (available_balance b).
Definition locked_row (t t' : gmap bkey Balance) (k : bkey) (amount : Z) : Prop :=
  exists b b', t !! k = Some b /\ amount <= dunits (available_balance b) /\ t' !! k = Some b' /\ moves b b' amount (- amount).

Lemma lock_one uid asset amount w : balances_ok (balances (db w)) -> money amount -> 0 < dunits amount ->
  match lock_optimistic (I := NoInterference) uid asset amount "order_placed" None w with
  | (w', inr _) => exists b b', balances (db w) !! (uid, asset) = Some b /\ dunits amount <= dunits (available_balance b) /\
      moves b b' (dunits amount) (- dunits amount) /\ db w' = set_balances <[(uid, asset) := b']> (db w)
  | (_, inl _) => ~ covers (balances (db w)) (uid, asset) (dunits amount)
  end.
Proof.
  intros Hok Hm Hpos. destruct (balances (db w) !! (uid, asset)) as [b|] eqn:Hb.
  2:{ rewrite lock_missing by done. intros (b & H & _). congruence. }
  pose proof (lock_optimistic_alone uid asset amount "order_placed" None w b Hok Hm Hb Hpos) as H. cbn zeta in H.
  destruct (Z.leb_spec (dunits amount) (dunits (available_balance b))).
  - destruct H as (b' & Er & Hmv & Hd). destruct (lock_optimistic _ _ _ _ _ w) as [w' r]. cbn [fst snd] in *. subst r.
    by exists b, b'.
  - rewrite H. intros (b' & E & Hle). rewrite Hb in E. injection E as <-. lia.
Qed.

Lemma lock_all_spec uid bulk total reqs locked assets w :
  balances_ok (balances (db w)) -> reqs_ok reqs -> NoDup assets -> (forall a, a ∈ assets -> is_Some (reqs !! a)) ->
  match lock_all (I := NoInterference) uid bulk total reqs locked assets w with
  | (w', inr _) => exists t', db w' = set_balances (fun _ => t') (db w) /\
      (forall a, a ∈ assets -> locked_row (balances (db w)) t' (uid, a) (units_in reqs a)) /\
      (forall u a, ~ (u = uid /\ a ∈ assets) -> t' !! (u, a) = balances (db w) !! (u, a))
  | (_, inl _) => exists a, a ∈ assets /\ ~ covers (balances (db w)) (uid, a) (units_in reqs a)
  end.
Proof.
  intros Hok Hr. revert locked w Hok. induction assets as [|a assets IH]; intros locked w Hok Hnd Hin; cbn [lock_all].
  { exists (balances (db w)). split; [by destruct w as [[] ? ?]|]. split; [|done]. intros a Ha. by apply elem_of_nil in Ha. }
  apply NoDup_cons in Hnd as [Hna Hnd]. destruct (Hin a) as [amt Ea]; [by left|].
  destruct (Hr _ _ Ea) as (_ & Hm & Hpos). assert (Hu : units_in reqs a = dunits amt) by (unfold units_in; by rewrite Ea).
  rewrite Ea. cbn [default]. unfold id. pose proof (lock_one uid a amt w Hok Hm Hpos) as Hl.
  destruct (lock_optimistic uid a amt "order_placed" None w) as [w1 [e|x]] eqn:El.
  { edestruct (on_insufficient_fails (lock_optimistic (I := NoInterference) uid a amt "order_placed" None)) as (w2 & e2 & E2); [exact El|].
    rewrite (bind_inl _ _ _ _ _ E2). exists a. rewrite Hu. split; [by left|done]. }
  rewrite (bind_inr _ _ _ _ _ (on_insufficient_returns _ _ _ _ _ El)). destruct Hl as (b & b' & Hb & Hle & Hmv & Hd).
  destruct (balances_ok_lookup _ _ _ _ Hok Hb) as (Hi & Hs & _).
  assert (Hok1 : balances_ok (balances (db w1))).
  { rewrite Hd. cbn [set_balances balances]. destruct (Hmv) as (H1 & H2 & _).
    rewrite <- Hi, <- Hs, <- H1, <- H2. apply balances_ok_insert; [done|by eapply moves_ok]. }
  assert (Hsame : forall u a', (u, a') <> (uid, a) -> balances (db w1) !! (u, a') = balances (db w) !! (u, a')).
  { intros u a' Hne. rewrite Hd. cbn [set_balances balances]. by rewrite lookup_insert_ne. }
  specialize (IH (locked ++ [a]) w1 Hok1 Hnd (fun a' Ha' => Hin a' (list_elem_of_further _ _ _ Ha'))).
  destruct (lock_all uid bulk total reqs _ assets w1) as [w2 [e|[]]].
  - destruct IH as (a' & Ha' & Hnc). exists a'. split; [by right|]. intros (c & Hc & Hcle). apply Hnc. exists c.
    rewrite Hsame by (intros [= ->]; done). done.
  - destruct IH as (t' & Hd2 & Hin2 & Hout2). exists t'. split; [by rewrite Hd2, Hd|]. split.
    + intros a' [->|Ha']%elem_of_cons.
      * exists b, b'. rewrite Hu. split_and!; [done..| |done]. rewrite Hout2 by (by intros [_ ?]).
        rewrite Hd. cbn [set_balances balances]. by rewrite lookup_insert_eq.
      * destruct (Hin2 a' Ha') as (c & c' & H1 & H2). exists c, c'.
        rewrite Hsame in H1 by (intros [= ->]; done). done.
    + intros u a' Hno. rewrite Hout2 by (intros [-> ?]; apply Hno; split; [done|by right]).
      apply Hsame. intros [= -> ->]. apply Hno. split; [done|by left].
Qed.

Lemma sorted_assets_elem reqs a : a ∈ sorted_assets reqs <-> is_Some (reqs !! a).
Proof.
  unfold sorted_assets. rewrite merge_sort_Permutation, list_elem_of_fmap. split.
  - intros ([a' d] & -> & H). apply elem_of_map_to_list in H. by exists d.
  - intros [d H]. exists (a, d). split; [done|]. by apply elem_of_map_to_list.
Qed.
Lemma sorted_assets_NoDup reqs : NoDup (sorted_assets reqs).
Proof. unfold sorted_assets. rewrite merge_sort_Permutation. apply NoDup_fst_map_to_list. Qed.

(** Every asset the batch needs, and nothing else, moves by its sum. *)
Definition all_locked (uid : Z) (locks : list (string * decimal)) (t t' : gmap bkey Balance) : Prop :=
  (forall a, a <> "" -> 0 < required locks a -> locked_row t t' (uid, a) (required locks a)) /\
  (forall u a, ~ (u = uid /\ a <> "" /\ 0 < required locks a) -> t' !! (u, a) = t !! (u, a)).

Lemma lock_batch uid bulk total locks w : balances_ok (balances (db w)) -> amounts_fit locks ->
  let reqs := foldl add_requirement ∅ locks in
  match lock_all (I := NoInterference) uid bulk total reqs [] (sorted_assets reqs) w with
  | (w', inr _) => exists t', db w' = set_balances (fun _ => t') (db w) /\ all_locked uid locks (balances (db w)) t'
  | (_, inl _) => exists a, a <> "" /\ 0 < required locks a /\ ~ covers (balances (db w)) (uid, a) (required locks a)
  end.
Proof.
  intros Hok [Hf Hlt] reqs. destruct (requirements_sum locks ∅) as [Hr Hu].
  { apply map_Forall_empty. } { done. } { intros a. apply Hlt. }
  fold reqs in Hr, Hu. change (forall a, a <> "" -> units_in reqs a = required locks a) in Hu.
  assert (Hin : forall a, a ∈ sorted_assets reqs <-> a <> "" /\ 0 < required locks a).
  { intros a. rewrite sorted_assets_elem. split.
    - intros [d E]. pose proof (Hr _ _ E) as (Hne & _ & Hpos). split; [done|].
      specialize (Hu a Hne). unfold units_in in Hu. rewrite E in Hu. cbn in Hu. lia.
    - intros [Hne Hpos]. specialize (Hu a Hne). unfold units_in in Hu. destruct (reqs !! a); [done|]. cbn in Hu. lia. }
  assert (Hua : forall a, a ∈ sorted_assets reqs -> units_in reqs a = required locks a).
  { intros a Ha. apply Hin in Ha as [Hne _]. by rewrite Hu. }
  pose proof (lock_all_spec uid bulk total reqs [] (sorted_assets reqs) w Hok Hr (sorted_assets_NoDup reqs)
    (fun a => proj1 (sorted_assets_elem reqs a))) as H.
  destruct (lock_all uid bulk total reqs [] (sorted_assets reqs) w) as [w' [e|[]]].
  - destruct H as (a & Ha & Hn). exists a. rewrite Hua in Hn by done. by apply Hin in Ha as [? ?].
  - destruct H as (t' & Hd & H1 & H2). exists t'. split; [done|]. split.
    + intros a Hne Hpos. rewrite <- Hua by (by apply Hin). apply H1. by apply Hin.
    + intros u a Hno. apply H2. rewrite Hin. done.
Qed.

(** ** Inserting *)

(** The orders of a batch under the ids from [id] on, and all its rows in the
    order of their ids: every order is followed by its children. *)
Fixpoint batch_rows (uid : Z) (bulk : string) (dtos : list OrderCreateDTO) (id : Z) : option (list Order * list Order) :=
  match dtos with
  | [] => Some ([], [])
  | dto :: dtos =>
      s ← OrderSide_of (d_side dto);
      t ← OrderType_of (d_type dto);
      placed ← placed_rows (mk_order uid dto s t (Some bulk) id) (d_sl dto) (d_tp dto);
      rest ← batch_rows uid bulk dtos (id + Z.of_nat (length (placed.1 :: placed.2)));
      Some (placed.1 :: rest.1, (placed.1 :: placed.2) ++ rest.2)
  end.

(** The queue item of a batch row. *)
Definition batch_item (bulk : string) (ts : Z) (o : Order) : jval :=
  build_order_action_payload (place_payload o (Some bulk) ts).

Lemma store_hash_outcome oid m w :
  exists w', on_redis (store_order_hash oid m) w = (w', inr tt) /\ db w' = db w /\ now_ms w' = now_ms w /\
    fifo ORDERS_QUEUE (redis w') = fifo ORDERS_QUEUE (redis w).
Proof.
  unfold on_redis, store_order_hash.
  destruct (hset_flat_view (order_hash_key oid) (flat_fields (known_fields m)) (redis w)) as (st & E & _).
  rewrite E. apply hset_flat_frame in E as (_ & _ & Hl & _). eexists. split; [done|]. split; [done|]. split; [done|].
  by apply fifo_ext.
Qed.

Lemma add_open_outcome uid symbol oid w :
  exists w', on_redis (add_open_order uid symbol oid) w = (w', inr tt) /\ db w' = db w /\ now_ms w' = now_ms w /\
    fifo ORDERS_QUEUE (redis w') = fifo ORDERS_QUEUE (redis w).
Proof.
  unfold on_redis. destruct (add_open_order_view uid symbol oid (redis w)) as [Hr Hv].
  destruct (add_open_order uid symbol oid (redis w)) as [st r]. cbn [fst snd] in Hr, Hv. subst r.
  eexists. split; [done|]. split; [done|]. split; [done|]. apply fifo_ext. cbn [redis]. by rewrite Hv.
Qed.

Lemma register_order_outcome o bulk hb w :
  exists w', register_order o bulk hb w = (w', inr tt) /\ db w' = db w /\ now_ms w' = now_ms w /\
    fifo ORDERS_QUEUE (redis w') =
      fifo ORDERS_QUEUE (redis w) ++ [build_order_action_payload (place_payload o bulk (now_ms w))].
Proof.
  unfold register_order.
  destruct (add_open_outcome (o_user_id o) (o_symbol o) (o_id o)
    (MkWorld (db w) (r_lpush ORDERS_QUEUE (build_order_action_payload (place_payload o bulk (now_ms w))) (redis w)) (now_ms w)))
    as (w2 & E2 & D2 & N2 & F2).
  destruct (store_hash_outcome (o_id o) (with_bulk_id hb (order_metadata o)) w2) as (w3 & E3 & D3 & N3 & F3).
  exists w3. rewrite (bind_inr _ _ w _ tt eq_refl), (bind_inr _ _ _ _ _ E2), E3.
  split; [done|]. split; [by rewrite D3, D2|]. split; [by rewrite N3, N2|]. rewrite F3, F2. cbn [redis]. apply fifo_lpush.
Qed.

Lemma register_stop_outcome o w :
  exists w', register_stop_order o w = (w', inr tt) /\ db w' = db w /\ now_ms w' = now_ms w /\
    fifo ORDERS_QUEUE (redis w') = fifo ORDERS_QUEUE (redis w).
Proof.
  unfold register_stop_order.
  assert (H : exists w1, on_redis
        (if bool_decide (o_type o = TRAILING_STOP)
         then register_trailing_stop (o_id o) (o_symbol o) (OrderSide_value (o_side o)) "abs"
                (or_zero (o_trailing_delta o)) (or_zero (o_stop_price o)) (or_zero (o_stop_price o))
         else add_stop_order (o_id o) (o_symbol o) (or_zero (o_stop_price o))) w = (w1, inr tt) /\ db w1 = db w /\
      now_ms w1 = now_ms w /\ fifo ORDERS_QUEUE (redis w1) = fifo ORDERS_QUEUE (redis w)).
  { case_bool_decide; (eexists; split; [reflexivity|]; split; [done|]; split; [done|]); cbn [redis];
      apply fifo_ext; rewrite ?hset_view, zadd_view; done. }
  destruct H as (w1 & E1 & D1 & N1 & F1).
  destruct (add_open_outcome (o_user_id o) (o_symbol o) (o_id o) w1) as (w2 & E2 & D2 & N2 & F2).
  destruct (store_hash_outcome (o_id o) (stop_metadata o) w2) as (w3 & E3 & D3 & N3 & F3).
  exists w3. rewrite (bind_inr _ _ _ _ _ E1), (bind_inr _ _ _ _ _ E2), E3.
  split; [done|]. split; [congruence|]. split; [congruence|]. by rewrite F3, F2, F1.
Qed.

(** The queue items of a batch: its rows that are not stops. *)
Definition is_stop_order (o : Order) : bool := str_in (OrderType_value (o_type o)) stop_types.
Definition batch_items (bulk : string) (ts : Z) (os : list Order) : list jval :=
  batch_item bulk ts <$> filter (fun o => is_stop_order o = false) os.

Lemma register_item_outcome dto o bulk w : OrderType_value (o_type o) = d_type dto ->
  exists w', (if is_stop_dto dto then register_stop_order o else register_order o (Some bulk) (Some bulk)) w = (w', inr tt) /\
    db w' = db w /\ now_ms w' = now_ms w /\
    fifo ORDERS_QUEUE (redis w') = fifo ORDERS_QUEUE (redis w) ++ batch_items bulk (now_ms w) [o].
Proof.
  intros Ht. assert (Hst : is_stop_order o = is_stop_dto dto) by (unfold is_stop_order, is_stop_dto; by rewrite Ht).
  unfold batch_items. cbn [filter list_filter]. rewrite Hst. destruct (is_stop_dto dto).
  - destruct (register_stop_outcome o w) as (w2 & E2 & D2 & N2 & F2). exists w2. split_and!; try done.
    cbn. by rewrite F2, app_nil_r.
  - destruct (register_order_outcome o (Some bulk) (Some bulk) w) as (w2 & E2 & D2 & N2 & F2).
    exists w2. by split_and!.
Qed.

Lemma insert_all_rows uid bulk dtos w :
  match insert_all uid bulk dtos w with
  | (w', inr os) => exists rows, batch_rows uid bulk dtos (next_order_id (db w)) = Some (os, rows) /\
      db w' = with_rows rows (db w) /\ now_ms w' = now_ms w /\
      fifo ORDERS_QUEUE (redis w') = fifo ORDERS_QUEUE (redis w) ++ batch_items bulk (now_ms w) os
  | (w', inl e) => (exists msg, e = ValueError msg) /\ batch_rows uid bulk dtos (next_order_id (db w)) = None
  end.
Proof.
  revert w. induction dtos as [|dto dtos IH]; intros w; cbn [insert_all batch_rows].
  { exists []. split; [done|]. split; [|split; [done|by rewrite app_nil_r]].
    destruct w as [[] ? ?]. unfold with_rows. cbn. by rewrite Z.add_0_r. }
  pose proof (create_order_rows uid dto (Some bulk) w) as Hc.
  destruct (create_order uid dto (Some bulk) w) as [w1 [e|o]] eqn:Ec.
  { rewrite (bind_inl _ _ _ _ _ Ec). destruct Hc as [He Hc]. split; [done|].
    destruct (OrderSide_of (d_side dto)) as [s|] eqn:Es; [|done]. destruct (OrderType_of (d_type dto)) as [t|] eqn:Et; [|done].
    cbn [mbind option_bind]. by rewrite (Hc s t (OrderSide_of_inv _ _ Es) (OrderType_of_inv _ _ Et)). }
  rewrite (bind_inr _ _ _ _ _ Ec). destruct Hc as (s & t & kids & Hs & Ht & Hrows & ->).
  rewrite Hs, Ht, OrderSide_of_value, OrderType_of_value. cbn [mbind option_bind]. rewrite Hrows. cbn [mbind option_bind fst snd].
  destruct (placed_rows_parent _ _ _ _ _ Hrows) as (_ & _ & _ & Hty & _). cbn [o_type mk_order] in Hty.
  destruct (register_item_outcome dto o bulk (with_db (with_rows (o :: kids)) w)) as (w2 & E2 & D2 & N2 & F2); [by rewrite Hty|].
  rewrite (bind_inr _ _ _ _ _ E2). specialize (IH w2). rewrite D2 in IH. cbn [with_db db with_rows next_order_id] in IH.
  destruct (insert_all uid bulk dtos w2) as [w3 [e|os]] eqn:E3.
  { rewrite (bind_inl _ _ _ _ _ E3). destruct IH as [He ->]. by split. }
  rewrite (bind_inr _ _ _ _ _ E3). destruct IH as (rows & Hr & D3 & N3 & F3). rewrite Hr. cbn [fst snd mbind option_bind].
  eexists. split; [done|]. split; [|split].
  - cbn [mret prog_ret fst]. rewrite D3, with_rows_app. done.
  - cbn [mret prog_ret fst]. by rewrite N3, N2.
  - rewrite F3, F2, <- app_assoc, N2. cbn [with_db now_ms redis]. f_equal. unfold batch_items.
    rewrite <- fmap_app, <- filter_app. done.
Qed.

End Bulk.

Section BulkRun.
Context {R : Redis} {RS : RedisSpec R} {P : PgNumeric} {PS : PgNumericSpec P}.

(** What a batch leaves when it returns [os]. *)
Definition batch_placed (uid : Z) (bulk : string) (ds : list OrderCreateDTO) (w w' : World) (os : list Order) : Prop :=
  exists locks rows, Forall2 (accepted w) ds locks /\
    batch_rows uid bulk ds (next_order_id (db w)) = Some (os, rows) /\
    fifo ORDERS_QUEUE (redis w') = fifo ORDERS_QUEUE (redis w) ++ batch_items bulk (now_ms w) os /\
    exists t', db w' = with_rows rows (set_balances (fun _ => t') (db w)) /\
      (amounts_fit locks -> all_locked uid locks (balances (db w)) t').

Lemma bulk_run uid dtos bulk w : balances_ok (balances (db w)) ->
  let ds := set_d_bulk_id (Some bulk) <$> dtos in
  match place_bulk_orders (I := NoInterference) uid dtos bulk w with
  | (w', inr os) => batch_placed uid bulk ds w w' os
  | (w', inl e) => ((exists msg, e = ValueError msg) \/ log_only w w') /\
      forall locks, Forall2 (accepted w) ds locks -> amounts_fit locks ->
        (exists a, a <> "" /\ 0 < required locks a /\ ~ covers (balances (db w)) (uid, a) (required locks a)) \/
        batch_rows uid bulk ds (next_order_id (db w)) = None
  end.
Proof.
  intros Hok ds. unfold place_bulk_orders. destruct dtos as [|dto dtos].
  { exists [], []. split; [constructor|]. split; [done|]. split; [by rewrite app_nil_r|].
    exists (balances (db w)). split; [|by split; [cbn; lia|]]. destruct w as [[] ? ?]. unfold with_rows. cbn. by rewrite Z.add_0_r. }
  fold ds. set (total := Z.of_nat _). pose proof (bulk_requirements_spec ds ∅ w) as H1.
  destruct (bulk_requirements ds ∅ w) as [w1 [e|reqs]] eqn:E1.
  { rewrite (bind_inl _ _ _ _ _ E1). destruct H1 as [-> H1]. split; [by right|]. intros locks Hl. by destruct (H1 locks). }
  rewrite (bind_inr _ _ _ _ _ E1). destruct H1 as [-> (locks & Hacc & ->)].
  pose proof (keeps_log_lock_all (I := NoInterference) w uid bulk total (foldl add_requirement ∅ locks) []
    (sorted_assets (foldl add_requirement ∅ locks)) w (reflexivity w)) as H2.
  pose proof (lock_batch uid bulk total locks w Hok) as Hlock. cbn zeta in Hlock.
  assert (Hdet : forall locks', Forall2 (accepted w) ds locks' -> locks' = locks).
  { intros locks' H. clear - H Hacc. revert locks Hacc. induction H as [|dto' l' ds' ls' (pr & Hp & _ & _ & Hl) _ IH]; intros locks Hacc.
    - by inversion_clear Hacc.
    - inversion_clear Hacc as [|? l ? ? (pr' & Hp' & _ & _ & Hl') Hrest]. f_equal; [congruence|by apply IH]. }
  destruct (lock_all uid bulk total _ [] _ w) as [w2 [e|[]]] eqn:E2.
  { rewrite (bind_inl _ _ _ _ _ E2). split; [by right|]. intros locks' ->%Hdet Hfit. left. by apply Hlock. }
  rewrite (bind_inr _ _ _ _ _ E2). destruct (log_only_views _ _ H2) as (N2 & _ & _ & L2 & _).
  destruct (lock_all_balances (I := NoInterference) _ _ _ _ _ _ _ _ _ E2) as [t2 Ht2].
  pose proof (insert_all_rows uid bulk ds w2) as H3. rewrite Ht2 in H3. cbn [set_balances next_order_id] in H3.
  destruct (insert_all uid bulk ds w2) as [w3 [e|os]] eqn:E3.
  { rewrite (bind_inl _ _ _ _ _ E3). destruct H3 as [? ?]. split; [by left|]. intros; by right. }
  rewrite (bind_inr _ _ _ _ _ E3). destruct H3 as (rows & Hr & D3 & N3 & F3).
  destruct (publish_event_spec (bulk_channel uid) "bulk_result"
    [("bulk_id", JStr bulk); ("action", JStr "place"); ("total", JInt total);
     ("succeeded", JInt (Z.of_nat (length os))); ("failed", JList [])] w3) as (w4 & E4 & D4 & L4 & _).
  unfold publish_bulk_result. rewrite (bind_inr _ _ _ _ _ E4).
  apply log_only_views in L4 as (_ & _ & _ & L4 & _). exists locks, rows. split; [done|]. split; [done|]. split.
  - by rewrite (fifo_ext _ _ _ L4), F3, N2, (fifo_ext _ _ _ L2).
  - exists t2. split; [cbn [fst]; congruence|]. intros Hfit. destruct (Hlock Hfit) as (t' & Hd & Hall).
    rewrite Ht2 in Hd. by injection Hd as ->.
Qed.

(** C16: [place_bulk_orders] in its transaction, with no concurrent writer of the
    user's balances.  When it raises, the database is what it was, and unless the
    error is a ValueError (an order type that does not exist, noticed at
    insertion) nothing has reached Redis but events: no order is queued, indexed
    or stored.  When it returns, every item has passed the validation of a single
    placement; the rows inserted are exactly the items' rows, each followed by
    its stop-loss and take-profit, under consecutive ids; for amounts of at most
    18 decimals, for every asset the balance row has moved by the sum of what the
    items lock in it, and no other row has moved; the orders returned are the
    items', in order, and the actions of those that are not stops have been
    appended to the orders queue in that order.  And it does return when the
    items are valid, their types exist, and the available balances cover the
    sums. *)
Theorem bulk_all_or_nothing uid dtos bulk w :
  let d := db w in
  let ds := set_d_bulk_id (Some bulk) <$> dtos in
  let r := transaction (place_bulk_orders (I := NoInterference) uid dtos bulk) w in
  balances_ok (balances d) ->
  (forall w' e, r = (w', inl e) -> db w' = d /\ ((exists msg, e = ValueError msg) \/ log_only w w')) /\
  (forall w' os, r = (w', inr os) -> batch_placed uid bulk ds w w' os) /\
  (forall locks, Forall2 (accepted w) ds locks -> amounts_fit locks ->
     is_Some (batch_rows uid bulk ds (next_order_id d)) ->
     (forall a, a <> "" -> 0 < required locks a -> covers (balances d) (uid, a) (required locks a)) ->
     exists w' os, r = (w', inr os)).
Proof.
  intros d ds r Hok. pose proof (bulk_run uid dtos bulk w Hok) as H. fold ds in H. subst r. unfold transaction.
  destruct (place_bulk_orders uid dtos bulk w) as [w1 [e|os]].
  - destruct H as [He Hwhy]. split; [|split; [done|]].
    + intros w' e' [= <- <-]. split; [done|]. by destruct He as [?|[? (log & ?)]]; [left|right; split; [|exists log]].
    + intros locks Hacc Hfit Hrows Hcov. exfalso. destruct (Hwhy locks Hacc Hfit) as [(a & Hne & Hp & Hn)|Hnone].
      * by apply Hn, Hcov.
      * destruct Hrows as [x Hx]. unfold d in Hx. congruence.
  - split; [done|]. split; [by intros w' os' [= <- <-]|]. intros. by eexists _, _.
Qed.
End BulkRun.

(** ** A batch: the limit buy with a stop-loss, and a stop *)

Definition demo_stop_dto : OrderCreateDTO :=
  MkDTO "BTCUSD" "sell" "stop_market" None (Some (dec_of_Z 5)) None (dec_of_Z 3) None None None None None None.

Lemma bulk_all_or_nothing_witness :
  exists w' os, transaction (place_bulk_orders (R := MemRedis) (P := PgExact) (I := NoInterference) 1
      [demo_protected; demo_stop_dto] "b1") demo_exchange = (w', inr os) /\
    next_order_id (db w') = 4 /\ length os = 2%nat.
Proof.
  destruct (bulk_all_or_nothing (R := MemRedis) (RS := MemRedisSpec) (P := PgExact) (PS := PgExactSpec)
    1 [demo_protected; demo_stop_dto] "b1" demo_exchange) as (_ & H2 & H).
  - cbn [demo_exchange db balances]. apply map_Forall_singleton. split; [reflexivity|apply demo_balance_ok].
  - destruct (H [("USD", dec_mul (dec_of_Z 10) (dec_of_Z 3)); ("", dec_zero)]) as (w' & os & E).
    + repeat constructor; exists demo_pair; repeat split.
    + split; [repeat constructor; vm_compute; congruence|]. intros a. cbn [required fst snd].
      destruct (String.eqb "USD" a), (String.eqb "" a); vm_compute; reflexivity.
    + eexists. reflexivity.
    + intros a _. cbn [required fst snd].
      destruct (String.eqb_spec "USD" a) as [<-|Hne].
      * intros _. exists demo_balance. split; [reflexivity|]. vm_compute. congruence.
      * destruct (String.eqb "" a); intros Hlt; exfalso; vm_compute in Hlt; discriminate Hlt.
    + exists w', os. split; [exact E|]. destruct (H2 w' os E) as (_ & rows & _ & Hr & _ & t' & Hd & _).
      cbv in Hr. injection Hr as <- <-. rewrite Hd. split; reflexivity.
Defined.
