(* ===== verification/Trade.v ===== *)
(** * Settlement: app/services/trade_service.py

    Persists the trades of one match, updates the maker and taker orders,
    settles both sides' balances, maintains the Redis view of the makers and
    activates the children of a filled parent.

    The trades table is a list; a trade's id is its position.  The foreign keys
    of trades to orders are checked at the flush. *)

From Stdlib Require Import ZArith Lia Bool SpecFloat.
From stdpp Require Import base tactics option list strings gmap sets.
From S2P Require Import Prelude Float64 PyDecimal Models RedisIface OrderBook Queues OrdersIndex World Pubsub Balance OrderRepo OrderService Engine Bridge.
#[local] Open Scope Z_scope.

(** [maker_fill_deltas]: a dict in insertion order. *)
Definition fill_deltas : Type := list (Z * (decimal * decimal)).
Fixpoint add_delta (maker_id : Z) (qty quote_qty : decimal) (deltas : fill_deltas) : fill_deltas :=
  match deltas with
  | [] => [(maker_id, (qty, quote_qty))]
  | (id, (q, v)) :: deltas =>
      if id =? maker_id then (id, (dec_add q qty, dec_add v quote_qty)) :: deltas
      else (id, (q, v)) :: add_delta maker_id qty quote_qty deltas
  end.

(** The state of the first loop. *)
Record BatchTotals := MkTotals {
  bt_deltas : fill_deltas;
  bt_qty : decimal;
  bt_quote : decimal;
  bt_trades : list Trade
}.

Definition mk_trade (taker_order_id taker_user_id : Z) (taker_side : OrderSide) (symbol : string) (t : DomainTrade)
    : Trade :=
  MkTrade taker_order_id (dt_maker_order_id t) symbol (dt_price t) (dt_quantity t)
    (dec_mul (dt_price t) (dt_quantity t)) taker_side taker_user_id (dt_maker_user_id t).

Definition add_trade (taker_order_id taker_user_id : Z) (taker_side : OrderSide) (symbol : string)
    (acc : BatchTotals) (t : DomainTrade) : BatchTotals :=
  let quote_qty := dec_mul (dt_price t) (dt_quantity t) in
  MkTotals (add_delta (dt_maker_order_id t) (dt_quantity t) quote_qty (bt_deltas acc))
    (dec_add (bt_qty acc) (dt_quantity t)) (dec_add (bt_quote acc) quote_qty)
    (bt_trades acc ++ [mk_trade taker_order_id taker_user_id taker_side symbol t]).

Definition batch_totals taker_order_id taker_user_id taker_side symbol (ts : list DomainTrade) : BatchTotals :=
  foldl (add_trade taker_order_id taker_user_id taker_side symbol) (MkTotals [] dec_zero dec_zero []) ts.

(** The foreign keys of a trade row. *)
Definition orders_exist (d : Database) (ts : list Trade) : bool :=
  forallb (fun t => bool_decide (is_Some (orders d !! t_taker_order_id t))
                    && bool_decide (is_Some (orders d !! t_maker_order_id t))) ts.

(** A fill added to an order's row, with its new status. *)
Definition filled_by (qty quote : decimal) (o : Order) : Order :=
  let o := set_o_filled_quote_qty (dec_add (o_filled_quote_qty o) quote)
             (set_o_filled_quantity (dec_add (o_filled_quantity o) qty) o) in
  bump_version o.
Definition maker_fill (qty quote : decimal) (mo : Order) : Order :=
  let mo := filled_by qty quote mo in
  set_o_status (if dec_leb (o_quantity mo) (o_filled_quantity mo) then FILLED else PARTIALLY_FILLED) mo.
Definition taker_fill (qty quote : decimal) (o : Order) : Order :=
  let o := filled_by qty quote o in
  if dec_leb (o_quantity o) (o_filled_quantity o) then set_o_status FILLED o
  else if dec_ltb dec_zero (o_filled_quantity o) then set_o_status PARTIALLY_FILLED o
  else o.

(** The makers' user ids on the last [n] trades, those of the batch. *)
Definition own_trades (n : nat) (maker_id user_id : Z) (ts : list Trade) : list Trade :=
  let k := (length ts - n)%nat in
  take k ts ++ ((fun t => if t_maker_order_id t =? maker_id then set_t_maker_user_id user_id t else t) <$> drop k ts).

Section TradeService.
Context {R : Redis} {P : PgNumeric} {I : Interference}.

(** [if bal: settle / credit]: a missing row is skipped. *)
Definition settle_row (user_id : Z) (asset : string) (amount : decimal) (order_id : Z) (row : option Balance) : wprog unit :=
  match row with
  | Some b => _ ← settle_pessimistic b amount "trade_settled" (Some order_id); mret tt
  | None => mret tt
  end.
Definition credit_row (user_id : Z) (asset : string) (amount : decimal) (order_id : Z) (row : option Balance) : wprog unit :=
  match row with
  | Some b => _ ← credit_pessimistic b amount "trade_received" (Some order_id); mret tt
  | None => mret tt
  end.

(** One side pays [paid] of one asset and receives [received] of the other;
    both rows are read before either is written. *)
Definition exchange (user_id order_id : Z) (pay_asset : string) (paid : decimal) (get_asset : string)
    (received : decimal) : wprog unit :=
  pay_bal ← get_for_update user_id pay_asset;
  get_bal ← get_for_update user_id get_asset;
  _ ← settle_row user_id pay_asset paid order_id pay_bal;
  credit_row user_id get_asset received order_id get_bal.

Definition settle_trade_balances (taker_side : OrderSide) (is_taker : bool) (o : Order) (qty quote_qty : decimal)
    (base_asset quote_asset : string) : wprog unit :=
  if is_taker then
    match taker_side with
    | BUY => exchange (o_user_id o) (o_id o) quote_asset quote_qty base_asset qty
    | SELL => exchange (o_user_id o) (o_id o) base_asset qty quote_asset quote_qty
    end
  else
    match taker_side with
    | BUY => exchange (o_user_id o) (o_id o) base_asset qty quote_asset quote_qty
    | SELL => exchange (o_user_id o) (o_id o) quote_asset quote_qty base_asset qty
    end.

Definition update_redis_maker (mo : Order) : wprog unit :=
  if bool_decide (o_status mo = FILLED) then
    _ ← on_redis (remove_resting_order (o_id mo) (o_symbol mo) (OrderSide_value (o_side mo)));
    _ ← on_redis (delete_order_hash (o_id mo));
    on_redis (remove_open_order (o_user_id mo) (o_symbol mo) (o_id mo))
  else
    let remaining := dec_sub (o_quantity mo) (o_filled_quantity mo) in
    on_redis (update_order_hash_fields (o_id mo)
      {[ "filled_quantity" := Some (HDecimal (o_filled_quantity mo)); "visible_quantity" := Some (HDecimal remaining);
         "quantity" := Some (HDecimal remaining); "status" := Some (HText (OrderStatus_value (o_status mo))) ]}).

Definition child_payload (parent child : Order) (ts : Z) : OrderActionPayload :=
  MkPayload "place" (o_id child) (o_symbol child) (o_user_id child) (OrderSide_value (o_side child))
    (OrderType_value (o_type child)) (float_or_none (o_price child)) None (f_of_dec (o_quantity child)) false
    None None (Some (o_id parent)) None None ts.

Definition activate_child (parent child : Order) : wprog unit :=
  if negb (bool_decide (o_status child = PENDING)) then mret tt
  else
    _ ← write_order (with_status NEW child);
    _ ← enqueue (child_payload parent child);
    publish_sl_tp_activated (o_user_id child) (o_id parent) (o_sl_order_id parent) (o_tp_order_id parent).

Definition activate_sltp_children (parent : Order) : wprog unit :=
  children ← list_children_by_parent (o_id parent);
  for_each children (activate_child parent).

(** One maker of the batch: its order, balances and Redis view. *)
Definition settle_maker (taker_side : OrderSide) (base_asset quote_asset : string) (n : nat)
    (makers : list Order) (delta : Z * (decimal * decimal)) : wprog (list Order) :=
  let '(maker_id, (qty, quote)) := delta in
  row ← get_order_for_update maker_id;
  match row with
  | None => mret makers
  | Some mo =>
      let mo := maker_fill qty quote mo in
      _ ← write_order mo;
      _ ← update_db (set_trades (own_trades n maker_id (o_user_id mo)));
      _ ← settle_trade_balances taker_side false mo qty quote base_asset quote_asset;
      _ ← update_redis_maker mo;
      mret (makers ++ [mo])
  end.

Definition settle_taker (taker_side : OrderSide) (base_asset quote_asset : string) (taker_order_id : Z)
    (qty quote : decimal) : wprog (option Order) :=
  row ← get_order_for_update taker_order_id;
  match row with
  | None => mret None
  | Some o =>
      let o := taker_fill qty quote o in
      _ ← write_order o;
      _ ← settle_trade_balances taker_side true o qty quote base_asset quote_asset;
      _ ← (if bool_decide (o_status o = FILLED) then activate_sltp_children o else mret tt);
      mret (Some o)
  end.

(** The events of a batch. *)
Fixpoint publish_trades (symbol : string) (first_id : Z) (ts : list Trade) : wprog unit :=
  match ts with
  | [] => mret tt
  | t :: ts =>
      _ ← publish_trade symbol first_id (f_of_dec (t_price t)) (f_of_dec (t_quantity t)) (OrderSide_value (t_side t))
            (Some (t_taker_order_id t)) (Some (t_maker_order_id t));
      publish_trades symbol (first_id + 1) ts
  end.
Definition publish_fill (user_id : Z) (o : Order) : wprog unit :=
  publish_order_update user_id (if bool_decide (o_status o = FILLED) then "filled" else "partially_filled")
    (o_id o) (o_symbol o) (OrderSide_value (o_side o)) (OrderType_value (o_type o)) (OrderStatus_value (o_status o))
    (MkOpts None None (Some (f_of_dec (o_filled_quantity o))) (Some (f_of_dec (remaining_quantity o)))
       (float_or_none (avg_fill_price o)) None None None None).

(** After the INSERTs: settle every maker, then the taker, and publish. *)
Definition settle_batch (totals : BatchTotals) (first_id taker_user_id taker_order_id : Z) (taker_side : OrderSide)
    (symbol base_asset quote_asset : string) : wprog (list Trade) :=
  let rows := bt_trades totals in
  makers ← for_fold (bt_deltas totals) [] (settle_maker taker_side base_asset quote_asset (length rows));
  taker ← settle_taker taker_side base_asset quote_asset taker_order_id (bt_qty totals) (bt_quote totals);
  _ ← publish_trades symbol first_id rows;
  _ ← match taker with Some o => publish_fill taker_user_id o | None => mret tt end;
  _ ← for_each makers (fun mo => publish_fill (o_user_id mo) mo);
  from_db (fun d => drop (length (trades d) - length rows) (trades d)).

Definition persist_trade_batch (ts : list DomainTrade) (taker_user_id taker_order_id : Z) (taker_side : OrderSide)
    (symbol base_asset quote_asset : string) : wprog (list Trade) :=
  match ts with
  | [] => mret []
  | _ =>
      let totals := batch_totals taker_order_id taker_user_id taker_side symbol ts in
      let rows := bt_trades totals in
      ok ← from_db (fun d => orders_exist d rows);
      if ok : bool then
        first_id ← from_db (fun d => Z.of_nat (length (trades d)) + 1);
        _ ← update_db (set_trades (fun l => l ++ rows));
        settle_batch totals first_id taker_user_id taker_order_id taker_side symbol base_asset quote_asset
      else raise DBError
  end.

(** ** The database during the publications *)

Lemma keeps_publish_trades Q symbol first_id ts : keeps (on_db Q) (publish_trades symbol first_id ts).
Proof.
  revert first_id. induction ts as [|t ts IH]; intros first_id; cbn [publish_trades]; [apply keeps_ret|].
  apply keeps_bind; [apply keeps_publish_event|]. intros _. apply IH.
Qed.
Lemma keeps_publish_fill Q user_id o : keeps (on_db Q) (publish_fill user_id o).
Proof. apply keeps_publish_event. Qed.
Lemma keeps_update_redis_maker Q mo : keeps (on_db Q) (update_redis_maker mo).
Proof. unfold update_redis_maker. keeps_tac. Qed.
End TradeService.
#[export] Hint Resolve keeps_publish_trades keeps_publish_fill keeps_update_redis_maker : keeps.
