(* ===== verification/SettleSpec.v ===== *)
(** * Settlement conserves money

    [supply] is the sum of the totals of an asset over all users.  A batch of
    trades, run in its transaction, leaves the supply of both assets unchanged
    whenever every party has a row for both; a missing row breaks this, since
    the code skips the credit. *)

From Stdlib Require Import ZArith Lia Bool SpecFloat.
From stdpp Require Import base tactics option list strings gmap sets.
From S2P Require Import Prelude Float64 PyDecimal Models RedisIface OrderBook Queues OrdersIndex World Pubsub Balance OrderRepo OrderService Engine Bridge Trade OrderSpec.
#[local] Open Scope Z_scope.

(** ** Supply *)

Definition supply_of (asset : string) (kb : bkey * Balance) : Z :=
  if String.eqb kb.1.2 asset then dunits (total_balance kb.2) else 0.
Definition supply (asset : string) (t : gmap bkey Balance) : Z := zsum (supply_of asset) (map_to_list t).

Lemma supply_insert asset t k b b' : t !! k = Some b ->
  supply asset (<[k := b']> t) =
  supply asset t + (if String.eqb k.2 asset then dunits (total_balance b') - dunits (total_balance b) else 0).
Proof.
  intros Hk. unfold supply.
  pose proof (map_to_list_insert (delete k t) k b' (lookup_delete_eq t k)) as H1.
  pose proof (map_to_list_insert (delete k t) k b (lookup_delete_eq t k)) as H2.
  rewrite insert_delete_eq in H1. rewrite insert_delete_id in H2 by done.
  rewrite (zsum_perm _ _ _ H1), (zsum_perm _ _ _ H2), !zsum_cons.
  unfold supply_of at 1 3. cbn [fst snd]. destruct (String.eqb k.2 asset); lia.
Qed.

Lemma supply_of_nonneg asset t kb : balances_ok t -> kb ∈ map_to_list t -> 0 <= supply_of asset kb.
Proof.
  intros Ht Hin. destruct kb as [k b]. apply elem_of_map_to_list in Hin.
  destruct (Ht k b Hin) as [_ (_ & _ & _ & Hl & Ha & Hs)]. unfold supply_of. destruct (String.eqb _ _); cbn; lia.
Qed.

Lemma supply_ge asset t uid b : balances_ok t -> t !! (uid, asset) = Some b ->
  dunits (total_balance b) <= supply asset t.
Proof.
  intros Ht Hk. unfold supply. apply elem_of_map_to_list in Hk.
  apply list_elem_of_split in Hk as (l1 & l2 & E). rewrite E, zsum_app, zsum_cons.
  assert (Hn : forall l, (forall x, x ∈ l -> x ∈ map_to_list t) -> 0 <= zsum (supply_of asset) l).
  { intros l Hl. apply zsum_nonneg. intros x Hx. by apply (supply_of_nonneg asset t), Hl. }
  assert (0 <= zsum (supply_of asset) l1) by (apply Hn; intros x Hx; rewrite E; apply elem_of_app; by left).
  assert (0 <= zsum (supply_of asset) l2) by (apply Hn; intros x Hx; rewrite E; apply elem_of_app; right; by right).
  unfold supply_of at 2. cbn. rewrite String.eqb_refl. lia.
Qed.

(** ** The totals of a batch *)

Definition delta_money (d : Z * (decimal * decimal)) : Prop :=
  money d.2.1 /\ money d.2.2 /\ 0 <= dunits d.2.1 /\ 0 <= dunits d.2.2.
Definition dq (d : Z * (decimal * decimal)) : Z := dunits d.2.1.
Definition dv (d : Z * (decimal * decimal)) : Z := dunits d.2.2.

Lemma add_delta_spec id q v ds : Forall delta_money ds ->
  money q -> money v -> 0 <= dunits q -> 0 <= dunits v ->
  zsum dq ds + dunits q < 10 ^ 46 -> zsum dv ds + dunits v < 10 ^ 46 ->
  Forall delta_money (add_delta id q v ds) /\
  zsum dq (add_delta id q v ds) = zsum dq ds + dunits q /\ zsum dv (add_delta id q v ds) = zsum dv ds + dunits v /\
  (forall i, i ∈ (add_delta id q v ds).*1 <-> i = id \/ i ∈ ds.*1).
Proof.
  intros Hds Mq Mv Pq Pv. induction Hds as [|[i [q' v']] ds Hd Hds IH]; intros Bq Bv; cbn [add_delta].
  - cbn. split; [by constructor; [split_and!|constructor]|]. unfold dq, dv, zsum. cbn. split; [lia|]. split; [lia|].
    intros i. rewrite list_elem_of_singleton. split; [by left|]. intros [->|H]; [done|]. by apply not_elem_of_nil in H.
  - rewrite !zsum_cons in Bq, Bv. destruct Hd as (M1 & M2 & P1 & P2). cbn in M1, M2, P1, P2.
    unfold dq at 1 in Bq. unfold dv at 1 in Bv. cbn in Bq, Bv.
    assert (0 <= zsum dq ds /\ 0 <= zsum dv ds) as [Nq Nv].
    { rewrite Forall_forall in Hds. split; apply zsum_nonneg; intros x Hx; apply (Hds x Hx). }
    destruct (Z.eqb_spec i id) as [->|Hne].
    + destruct (dec_add_money q' q M1 Mq) as [U1 N1]; [lia|]. destruct (dec_add_money v' v M2 Mv) as [U2 N2]; [lia|].
      rewrite !zsum_cons. unfold dq at 1 3, dv at 1 3. cbn [fst snd fmap list_fmap]. rewrite U1, U2.
      split; [constructor; [|done]; unfold delta_money; cbn; rewrite U1, U2; split_and!; try done; lia|].
      split; [lia|]. split; [lia|]. intros j. rewrite !elem_of_cons. tauto.
    + destruct IH as (H1 & H2 & H3 & H4); [lia..|]. rewrite !zsum_cons, H2, H3.
      split; [by constructor|]. split; [lia|]. split; [lia|]. intros j. cbn [fmap list_fmap].
      rewrite !elem_of_cons, H4. tauto.
Qed.

Definition tq (t : DomainTrade) : Z := dunits (dt_quantity t).
Definition tv (t : DomainTrade) : Z := dunits (dec_mul (dt_price t) (dt_quantity t)).
Definition trade_money (t : DomainTrade) : Prop :=
  money (dt_quantity t) /\ money (dec_mul (dt_price t) (dt_quantity t)) /\ 0 <= tq t /\ 0 <= tv t.

Lemma batch_totals_spec toid tuid s symbol ts : Forall trade_money ts ->
  zsum tq ts < 10 ^ 46 -> zsum tv ts < 10 ^ 46 ->
  let r := batch_totals toid tuid s symbol ts in
  Forall delta_money (bt_deltas r) /\ money (bt_qty r) /\ money (bt_quote r) /\
  dunits (bt_qty r) = zsum dq (bt_deltas r) /\ dunits (bt_quote r) = zsum dv (bt_deltas r) /\
  zsum dq (bt_deltas r) = zsum tq ts /\ zsum dv (bt_deltas r) = zsum tv ts /\
  (forall i, i ∈ (bt_deltas r).*1 -> exists t, t ∈ bt_trades r /\ t_maker_order_id t = i) /\
  Forall (fun t => t_taker_order_id t = toid) (bt_trades r).
Proof.
  intros Hts. unfold batch_totals.
  assert (Hind : forall acc n m,
    Forall delta_money (bt_deltas acc) -> money (bt_qty acc) -> money (bt_quote acc) ->
    dunits (bt_qty acc) = zsum dq (bt_deltas acc) -> dunits (bt_quote acc) = zsum dv (bt_deltas acc) ->
    zsum dq (bt_deltas acc) = n -> zsum dv (bt_deltas acc) = m -> 0 <= n -> 0 <= m ->
    (forall i, i ∈ (bt_deltas acc).*1 -> exists t, t ∈ bt_trades acc /\ t_maker_order_id t = i) ->
    Forall (fun t => t_taker_order_id t = toid) (bt_trades acc) ->
    n + zsum tq ts < 10 ^ 46 -> m + zsum tv ts < 10 ^ 46 ->
    let r := foldl (add_trade toid tuid s symbol) acc ts in
    Forall delta_money (bt_deltas r) /\ money (bt_qty r) /\ money (bt_quote r) /\
    dunits (bt_qty r) = zsum dq (bt_deltas r) /\ dunits (bt_quote r) = zsum dv (bt_deltas r) /\
    zsum dq (bt_deltas r) = n + zsum tq ts /\ zsum dv (bt_deltas r) = m + zsum tv ts /\
    (forall i, i ∈ (bt_deltas r).*1 -> exists t, t ∈ bt_trades r /\ t_maker_order_id t = i) /\
    Forall (fun t => t_taker_order_id t = toid) (bt_trades r)).
  { induction Hts as [|t ts Ht Hts IH]; intros acc n m H1 H2 H3 H4 H5 H6 H7 Hn Hm H8 H9 Bq Bv; cbn zeta.
    { cbn [foldl]. rewrite !zsum_nil, !Z.add_0_r. by split_and!. }
    rewrite !zsum_cons in Bq, Bv. destruct Ht as (M1 & M2 & P1 & P2). unfold tq at 1 in Bq. unfold tv at 1 in Bv.
    assert (0 <= zsum tq ts /\ 0 <= zsum tv ts) as [Nq Nv].
    { rewrite Forall_forall in Hts. split; apply zsum_nonneg; intros x Hx; apply (Hts x Hx). }
    unfold tq, tv in P1, P2.
    destruct (add_delta_spec (dt_maker_order_id t) (dt_quantity t) (dec_mul (dt_price t) (dt_quantity t))
      (bt_deltas acc) H1 M1 M2 P1 P2) as (A1 & A2 & A3 & A4); [lia..|].
    destruct (dec_add_money _ _ H2 M1) as [U1 N1]; [lia|]. destruct (dec_add_money _ _ H3 M2) as [U2 N2]; [lia|].
    destruct (IH (add_trade toid tuid s symbol acc t) (n + tq t) (m + tv t)) as (R1 & R2 & R3 & R4 & R5 & R6 & R7 & R8 & R9);
      unfold tq, tv in *; cbn [add_trade bt_deltas bt_qty bt_quote bt_trades]; try done; try lia.
    - intros i Hi. apply A4 in Hi as [->|Hi].
      + eexists. split; [apply elem_of_app; right; apply list_elem_of_singleton; reflexivity|done].
      + destruct (H8 i Hi) as (t0 & Ht0 & E). exists t0. split; [apply elem_of_app; by left|done].
    - apply Forall_app. split; [done|]. by repeat constructor.
    - cbn [foldl]. rewrite !zsum_cons. unfold tq, tv in *. split_and!; try done; lia. }
  intros Bq Bv. apply (Hind (MkTotals [] dec_zero dec_zero []) 0 0); try done; try constructor; try lia;
    try apply money_zero. intros i Hi. by apply not_elem_of_nil in Hi.
Qed.

(** ** The state of a settlement

    [sup] gives the supply of each asset; the rows of the balances table, by
    key, are [keys], and the owner of each order in [ids] has a row for both
    assets. *)

Section Settlement.
Context {R : Redis} {P : PgNumeric} {I : Interference}.
Context (base_asset quote_asset : string) (keys : gset bkey) (ids : gset Z).

Definition both_rows (o : Order) : Prop := (o_user_id o, base_asset) ∈ keys /\ (o_user_id o, quote_asset) ∈ keys.
Record settling (sup : string -> Z) (d : Database) : Prop := {
  st_ok : balances_ok (balances d);
  st_keys : dom (balances d) = keys;
  st_rows : map_Forall (fun id o => id ∈ ids \/ o_id o ∈ ids -> both_rows o) (orders d);
  st_ids : ids ⊆ dom (orders d);
  st_sup : forall a, supply a (balances d) = sup a
}.

Definition shift (a : string) (x : Z) (sup : string -> Z) (b : string) : Z :=
  sup b + (if String.eqb a b then x else 0).

(** [m] changes the supply from [sup] to [sup'] when it does not raise. *)
Definition shifts {A} (m : wprog A) (sup sup' : string -> Z) : Prop :=
  triple (on_db (settling sup)) m (fun _ => on_db (settling sup')) (fun _ _ => True).

Lemma shifts_bind {A B} (m : wprog A) (f : A -> wprog B) s1 s2 s3 :
  shifts m s1 s2 -> (forall a, shifts (f a) s2 s3) -> shifts (m ≫= f) s1 s3.
Proof. apply triple_bind. Qed.
Lemma shifts_keeps {A} (m : wprog A) sup : keeps (on_db (settling sup)) m -> shifts m sup sup.
Proof. intros H. by eapply triple_weaken; [exact H|..]. Qed.

Lemma settling_ext sup sup' d : (forall a, sup a = sup' a) -> settling sup d -> settling sup' d.
Proof. intros E [H1 H2 H3 H4 H5]. split; try done. intros a. by rewrite <- E. Qed.

Lemma settling_move sup d b b' dl da : settling sup d ->
  balances d !! (b_user_id b, b_asset b) = Some b -> moves b b' dl da ->
  settling (shift (b_asset b) (dl + da) sup) (set_balances <[(b_user_id b, b_asset b) := b']> d).
Proof.
  intros [H1 H2 H3 H4 H5] Hk Hm. pose proof Hm as (Hu & Ha & _ & _ & _ & Ht & Hok).
  split; cbn [balances orders set_balances]; [|rewrite dom_insert_L, H2|done|done|].
  - rewrite <- Hu, <- Ha. by apply balances_ok_insert.
  - assert ((b_user_id b, b_asset b) ∈ keys) by (rewrite <- H2; by apply elem_of_dom_2 in Hk). set_solver.
  - intros a. rewrite (supply_insert a _ _ b b' Hk), H5, Ht. unfold shift. cbn [snd].
    destruct (String.eqb (b_asset b) a); lia.
Qed.

(** Writes to the orders table by owners with rows. *)
Lemma settling_order sup d o : settling sup d -> (o_id o ∈ ids -> both_rows o) ->
  settling sup (set_orders <[o_id o := o]> d).
Proof.
  intros [H1 H2 H3 H4 H5] Ho. split; cbn [balances orders set_orders]; try done.
  - apply map_Forall_insert_2; [by intros [|]; apply Ho|done].
  - rewrite dom_insert. set_solver.
Qed.

(** One side of a trade. *)
Lemma exchange_shifts uid oid pay paid get got sup :
  pay <> get -> (uid, pay) ∈ keys -> (uid, get) ∈ keys ->
  money paid -> money got -> 0 <= dunits got -> sup get + dunits got < 10 ^ 46 ->
  shifts (exchange uid oid pay paid get got) sup (shift get (dunits got) (shift pay (- dunits paid) sup)).
Proof.
  intros Hne Hp Hg Mp Mg Pg Hroom w Hw. unfold on_db in Hw.
  assert (Hrow : forall a, (uid, a) ∈ keys -> exists b, balances (db w) !! (uid, a) = Some b /\
    b_user_id b = uid /\ b_asset b = a /\ balance_ok b).
  { intros a Ha. rewrite <- (st_keys _ _ Hw) in Ha. apply elem_of_dom in Ha as [b Hb]. exists b. split; [done|].
    exact (balances_ok_lookup _ _ _ _ (st_ok _ _ Hw) Hb). }
  destruct (Hrow pay Hp) as (b1 & K1 & U1 & A1 & O1), (Hrow get Hg) as (b2 & K2 & U2 & A2 & O2).
  unfold exchange, get_for_update, from_db.
  rewrite (bind_inr _ _ w w (Some b1)) by (unfold gets; by rewrite K1).
  rewrite (bind_inr _ _ w w (Some b2)) by (unfold gets; by rewrite K2). cbn [settle_row credit_row].
  pose proof (settle_spec b1 paid "trade_settled" (Some oid) w O1 Mp) as Hs. unfold written in Hs.
  unfold mbind, prog_bind at 1. unfold prog_bind at 1.
  destruct (_ && _); [|destruct Hs as [msg ->]; done]. destruct Hs as (b1' & E1 & M1 & D1).
  destruct (settle_pessimistic _ _ _ _ w) as [w1 r1]. cbn [fst snd] in E1, D1. subst r1. cbn beta iota.
  unfold mret, prog_ret at 1.
  pose proof (settling_move sup (db w) b1 b1' _ _ Hw ltac:(by rewrite U1, A1) M1) as Hw1. rewrite <- D1 in Hw1.
  rewrite Z.add_0_r, A1 in Hw1.
  assert (K2' : balances (db w1) !! (uid, get) = Some b2).
  { rewrite D1. cbn. rewrite lookup_insert_ne; [done|]. rewrite U1, A1. congruence. }
  pose proof (credit_spec b2 got "trade_received" (Some oid) w1 O2 Mg) as Hc. unfold written in Hc.
  unfold prog_bind at 1. destruct (Z.leb_spec 0 (dunits got)); [|lia].
  destruct Hc as (b2' & E2 & M2 & D2).
  { pose proof (supply_ge get _ uid b2 (st_ok _ _ Hw) K2) as Hge. rewrite (st_sup _ _ Hw) in Hge. lia. }
  destruct (credit_pessimistic _ _ _ _ w1) as [w2 r2]. cbn [fst snd] in E2, D2. subst r2. unfold on_db.
  pose proof (settling_move _ (db w1) b2 b2' _ _ Hw1 ltac:(by rewrite U2, A2) M2) as Hw2.
  rewrite <- D2, Z.add_0_l, A2 in Hw2. exact Hw2.
Qed.

Context (assets_differ : base_asset <> quote_asset).

(** Base leaves and quote enters ([s = 1]), or the converse ([s = -1]). *)
Definition flow (s q v : Z) (sup : string -> Z) (a : string) : Z :=
  sup a - (if String.eqb base_asset a then s * q else 0) + (if String.eqb quote_asset a then s * v else 0).
Definition side_sign (taker_side : OrderSide) (is_taker : bool) : Z :=
  match taker_side, is_taker with BUY, true | SELL, false => -1 | _, _ => 1 end.
(** The columns have room for what enters. *)
Definition room (s q v : Z) (sup : string -> Z) : Prop :=
  if s =? 1 then sup quote_asset + v < 10 ^ 46 else sup base_asset + q < 10 ^ 46.

Lemma shifts_ext {A} (m : wprog A) s1 s2 s2' : (forall a, s2 a = s2' a) -> shifts m s1 s2 -> shifts m s1 s2'.
Proof.
  intros E H. eapply triple_weaken; [exact H|done| |done]. intros a w. by apply settling_ext.
Qed.

Lemma settle_trade_shifts side is_taker o q v sup :
  (o_user_id o, base_asset) ∈ keys -> (o_user_id o, quote_asset) ∈ keys ->
  money q -> money v -> 0 <= dunits q -> 0 <= dunits v ->
  room (side_sign side is_taker) (dunits q) (dunits v) sup ->
  shifts (settle_trade_balances side is_taker o q v base_asset quote_asset) sup
    (flow (side_sign side is_taker) (dunits q) (dunits v) sup).
Proof.
  intros Hb Hq Mq Mv Pq Pv. unfold room, settle_trade_balances.
  destruct side, is_taker; cbn [side_sign Z.eqb Pos.eqb]; intros Hr;
    (eapply shifts_ext; [|apply exchange_shifts; try done; congruence]);
    intros a; unfold flow, shift; destruct (String.eqb base_asset a), (String.eqb quote_asset a); lia.
Qed.

Lemma get_order_shifts {B} id (f : option Order -> wprog B) s1 s2 : id ∈ ids ->
  (forall o, both_rows o -> shifts (f (Some o)) s1 s2) ->
  shifts (get_order_for_update id ≫= f) s1 s2.
Proof.
  intros Hid Hf w Hw. pose proof Hw as [_ _ Hr Hi _]. pose proof Hid as Hin. apply Hi, elem_of_dom in Hid as [o Ho].
  rewrite (bind_inr _ _ w w (Some o)) by (unfold get_order_for_update, from_db, gets; by rewrite Ho).
  apply Hf; [|done]. apply (Hr _ _ Ho). by left.
Qed.

Lemma write_order_shifts o sup : (o_id o ∈ ids -> both_rows o) -> keeps (on_db (settling sup)) (write_order o).
Proof. intros Ho. apply keeps_update_db. intros d Hd. by apply settling_order. Qed.

Lemma settling_trades f sup : keeps (on_db (settling sup)) (update_db (set_trades f)).
Proof. apply keeps_update_db. intros d [H1 H2 H3 H4 H5]. by split. Qed.

Lemma settle_maker_shifts side n makers d sup : d.1 ∈ ids -> delta_money d ->
  room (side_sign side false) (dq d) (dv d) sup ->
  shifts (settle_maker side base_asset quote_asset n makers d) sup (flow (side_sign side false) (dq d) (dv d) sup).
Proof.
  destruct d as [id [q v]]. intros Hid (Mq & Mv & Pq & Pv) Hr. cbn [fst snd] in *. unfold settle_maker.
  apply get_order_shifts; [done|]. intros o [Hb Hq]. cbn zeta.
  eapply shifts_bind; [apply shifts_keeps, write_order_shifts; by split|]. intros _.
  eapply shifts_bind; [apply shifts_keeps, settling_trades|]. intros _.
  eapply shifts_bind; [by apply settle_trade_shifts|]. intros _.
  apply shifts_keeps. keeps_tac.
Qed.

Lemma settle_makers_shifts side n ds makers sup : Forall delta_money ds -> (forall i, i ∈ ds.*1 -> i ∈ ids) ->
  room (side_sign side false) (zsum dq ds) (zsum dv ds) sup ->
  shifts (for_fold ds makers (settle_maker side base_asset quote_asset n)) sup
    (flow (side_sign side false) (zsum dq ds) (zsum dv ds) sup).
Proof.
  intros Hds. revert makers sup. induction Hds as [|d ds Hd Hds IH]; intros makers sup Hids Hr; cbn [for_fold].
  { eapply shifts_ext; [|apply shifts_keeps, keeps_ret]. intros a. unfold flow. rewrite !zsum_nil.
    destruct (String.eqb base_asset a), (String.eqb quote_asset a); lia. }
  assert (0 <= zsum dq ds /\ 0 <= zsum dv ds) as [Nq Nv].
  { rewrite Forall_forall in Hds. split; apply zsum_nonneg; intros x Hx; apply (Hds x Hx). }
  destruct (Hd) as (_ & _ & Pq & Pv). rewrite !zsum_cons in *. fold (dq d) in Pq. fold (dv d) in Pv.
  eapply shifts_bind.
  { apply settle_maker_shifts; [apply Hids; left|done|]. unfold room in *. destruct (_ =? 1); lia. }
  intros makers'. eapply shifts_ext; [|apply IH].
  - intros a. unfold flow. destruct (String.eqb base_asset a), (String.eqb quote_asset a); lia.
  - intros i Hi. apply Hids. by right.
  - unfold room, flow in *. rewrite !String.eqb_refl.
    destruct (String.eqb_spec base_asset quote_asset), (String.eqb_spec quote_asset base_asset); try congruence.
    destruct side; cbn [side_sign Z.eqb Pos.eqb] in *; lia.
Qed.

Lemma activate_children_keeps o sup : keeps (on_db (settling sup)) (activate_sltp_children o).
Proof.
  intros w Hw. unfold activate_sltp_children, list_children_by_parent. rewrite (bind_inr _ _ w w _ eq_refl).
  refine (keeps_for_each_in (on_db (settling sup)) _ _ _ w Hw). intros c Hc.
  apply list_elem_of_fmap in Hc as ([k c'] & -> & Hin). apply list_elem_of_filter in Hin as [_ Hin].
  apply elem_of_map_to_list in Hin. pose proof (st_rows _ _ Hw _ _ Hin) as Hr. cbn [snd].
  unfold activate_child. destruct (negb _); [apply keeps_ret|].
  apply keeps_bind; [apply write_order_shifts; intros Hc; apply Hr; by right|]. intros _. unfold enqueue, publish_sl_tp_activated. keeps_tac.
Qed.

Lemma settle_taker_shifts side id q v sup : id ∈ ids -> money q -> money v -> 0 <= dunits q -> 0 <= dunits v ->
  room (side_sign side true) (dunits q) (dunits v) sup ->
  shifts (settle_taker side base_asset quote_asset id q v) sup
    (flow (side_sign side true) (dunits q) (dunits v) sup).
Proof.
  intros Hid Mq Mv Pq Pv Hr. unfold settle_taker.
  apply get_order_shifts; [done|]. intros o [Hb Hq]. cbn zeta.
  assert (Hu : o_user_id (taker_fill q v o) = o_user_id o).
  { unfold taker_fill. destruct (dec_leb _ _); [done|]. by destruct (dec_ltb _ _). }
  rewrite <- Hu in Hb, Hq.
  eapply shifts_bind; [apply shifts_keeps, write_order_shifts; by split|]. intros _.
  eapply shifts_bind; [by apply settle_trade_shifts|]. intros _.
  apply shifts_keeps. apply keeps_bind; [|intros _; apply keeps_ret].
  case_bool_decide; [apply activate_children_keeps|apply keeps_ret].
Qed.
End Settlement.

(** ** The batch *)

Lemma orders_exist_spec d ts t : orders_exist d ts = true -> t ∈ ts ->
  t_taker_order_id t ∈ dom (orders d) /\ t_maker_order_id t ∈ dom (orders d).
Proof.
  unfold orders_exist. rewrite forallb_forall. intros H Ht. apply list_elem_of_In, H in Ht.
  apply andb_true_iff in Ht as [H1 H2]. by rewrite bool_decide_eq_true in H1, H2; rewrite !elem_of_dom.
Qed.

Lemma batch_trades toid tuid s symbol ts :
  bt_trades (batch_totals toid tuid s symbol ts) = mk_trade toid tuid s symbol <$> ts.
Proof.
  unfold batch_totals. change (mk_trade _ _ _ _ <$> ts) with
    (bt_trades (MkTotals [] dec_zero dec_zero []) ++ (mk_trade toid tuid s symbol <$> ts)).
  generalize (MkTotals [] dec_zero dec_zero []).
  induction ts as [|t ts IH]; intros acc; cbn [foldl]; [by rewrite app_nil_r|].
  rewrite IH. cbn [add_trade bt_trades]. by rewrite <- app_assoc.
Qed.

Section Batch.
Context {R : Redis} {P : PgNumeric} {I : Interference}.
Context (base_asset quote_asset : string) (keys : gset bkey) (ids : gset Z).
Context (assets_differ : base_asset <> quote_asset).

Lemma settle_batch_shifts ts first_id uid oid side symbol sup :
  Forall trade_money ts -> 0 <= sup base_asset -> 0 <= sup quote_asset ->
  sup base_asset + zsum tq ts < 10 ^ 46 -> sup quote_asset + zsum tv ts < 10 ^ 46 ->
  oid ∈ ids -> (forall t, t ∈ ts -> dt_maker_order_id t ∈ ids) ->
  shifts base_asset quote_asset keys ids
    (settle_batch (batch_totals oid uid side symbol ts) first_id uid oid side symbol base_asset quote_asset) sup sup.
Proof.
  intros Hts Nb Nq Rb Rq Hoid Hmids.
  destruct (batch_totals_spec oid uid side symbol ts Hts) as (D1 & D2 & D3 & D4 & D5 & D6 & D7 & D8 & _); [lia..|].
  assert (0 <= zsum tq ts /\ 0 <= zsum tv ts) as [Pq Pv].
  { rewrite Forall_forall in Hts. split; apply zsum_nonneg; intros x Hx; apply (Hts x Hx). }
  rewrite D6 in D4. rewrite D7 in D5. unfold settle_batch.
  eapply shifts_bind.
  { apply settle_makers_shifts; try done.
    - intros i Hi. destruct (D8 i Hi) as (t & Ht & <-). rewrite batch_trades in Ht.
      apply list_elem_of_fmap in Ht as (t0 & -> & Ht0). by apply Hmids.
    - unfold room. rewrite D6, D7. destruct (_ =? 1); lia. }
  intros makers. eapply shifts_bind.
  { apply settle_taker_shifts; try done; try lia. rewrite D4, D5, D6, D7.
    unfold room, flow. rewrite !String.eqb_refl.
    destruct (String.eqb_spec base_asset quote_asset), (String.eqb_spec quote_asset base_asset); try congruence.
    destruct side; cbn [side_sign Z.eqb Pos.eqb] in *; lia. }
  intros taker. rewrite D4, D5, D6, D7.
  eapply shifts_ext; [|apply shifts_keeps; keeps_tac]. intros a. unfold flow.
  destruct side, (String.eqb base_asset a), (String.eqb quote_asset a); cbn [side_sign]; lia.
Qed.

Lemma persist_cases ts uid oid side symbol w : ts <> [] ->
  let totals := batch_totals oid uid side symbol ts in
  let w1 := with_db (set_trades (fun l => l ++ bt_trades totals)) w in
  persist_trade_batch ts uid oid side symbol base_asset quote_asset w = (w, inl DBError) \/
  (oid ∈ dom (orders (db w)) /\ forall t, t ∈ ts -> dt_maker_order_id t ∈ dom (orders (db w))) /\
  persist_trade_batch ts uid oid side symbol base_asset quote_asset w =
    settle_batch totals (Z.of_nat (length (trades (db w))) + 1) uid oid side symbol base_asset quote_asset w1.
Proof.
  intros Hne totals w1. unfold persist_trade_batch. destruct ts as [|t0 ts]; [done|].
  rewrite (bind_inr _ _ w w _ eq_refl). destruct (orders_exist _ _) eqn:Ho; [right|by left]. split.
  - assert (Hall : forall t, t ∈ t0 :: ts -> oid ∈ dom (orders (db w)) /\ dt_maker_order_id t ∈ dom (orders (db w))).
    { intros t Ht. apply (orders_exist_spec _ _ (mk_trade oid uid side symbol t) Ho). rewrite batch_trades.
      by apply list_elem_of_fmap_2. }
    split; [apply (Hall t0); left|]. intros t Ht. by apply Hall.
  - by rewrite (bind_inr _ _ w w _ eq_refl), (bind_inr _ _ w w1 tt eq_refl).
Qed.
End Batch.

(** The orders of a batch, and the condition that their owners have a row for
    both assets of the pair. *)
Definition involved (oid : Z) (ts : list DomainTrade) (id : Z) : Prop := id = oid \/ id ∈ dt_maker_order_id <$> ts.
Definition owners_have_rows (base_asset quote_asset : string) (oid : Z) (ts : list DomainTrade) (d : Database) : Prop :=
  map_Forall (fun id o => involved oid ts id \/ involved oid ts (o_id o) ->
    is_Some (balances d !! (o_user_id o, base_asset)) /\ is_Some (balances d !! (o_user_id o, quote_asset))) (orders d).

Section Conservation.
Context {R : Redis} {P : PgNumeric} {I : Interference}.

Lemma supply_nonneg asset t : balances_ok t -> 0 <= supply asset t.
Proof. intros Ht. apply zsum_nonneg. intros x. by apply supply_of_nonneg. Qed.

Lemma persist_conserves base_asset quote_asset ts uid oid side symbol (w : World) :
  base_asset <> quote_asset -> balances_ok (balances (db w)) ->
  owners_have_rows base_asset quote_asset oid ts (db w) -> Forall trade_money ts ->
  supply base_asset (balances (db w)) + zsum tq ts < 10 ^ 46 ->
  supply quote_asset (balances (db w)) + zsum tv ts < 10 ^ 46 ->
  match persist_trade_batch ts uid oid side symbol base_asset quote_asset w with
  | (_, inl _) => True
  | (w', inr _) => balances_ok (balances (db w')) /\ forall a, supply a (balances (db w')) = supply a (balances (db w))
  end.
Proof.
  intros Hne Hok Hrows Hts Rb Rq. destruct (persist_trade_batch _ _ _ _ _ _ _ w) as [w' [e|l]] eqn:E; [done|].
  destruct (decide (ts = [])) as [->|Hts0]; [by revert E; intros [= <- _]|].
  destruct (persist_cases base_asset quote_asset ts uid oid side symbol w Hts0) as [E'|[[Hoid Hmids] E']];
    rewrite E' in E; [done|].
  set (ids := {[oid]} ∪ list_to_set (dt_maker_order_id <$> ts) : gset Z).
  assert (Hids : forall i, i ∈ ids <-> involved oid ts i) by (intros i; unfold ids, involved; set_solver).
  pose proof (settle_batch_shifts base_asset quote_asset (dom (balances (db w))) ids Hne ts
    (Z.of_nat (length (trades (db w))) + 1) uid oid side symbol (fun a => supply a (balances (db w)))
    Hts (supply_nonneg _ _ Hok) (supply_nonneg _ _ Hok) Rb Rq) as Hs.
  assert (Hset : settling base_asset quote_asset (dom (balances (db w))) ids
    (fun a => supply a (balances (db w))) (set_trades (fun l => l ++ bt_trades (batch_totals oid uid side symbol ts)) (db w))).
  { split; try done.
    - intros id o Ho Hin. unfold both_rows. rewrite !elem_of_dom. rewrite !Hids in Hin. by apply (Hrows id).
    - intros i [->|(t & -> & Ht)%list_elem_of_fmap]%Hids; [exact Hoid|by apply Hmids]. }
  specialize (Hs ltac:(apply Hids; by left) ltac:(intros t Ht; apply Hids; right; by apply list_elem_of_fmap_2)
    (with_db (set_trades (fun l => l ++ bt_trades (batch_totals oid uid side symbol ts))) w) Hset). rewrite E in Hs.
  destruct Hs as [H1 _ _ _ H5]. done.
Qed.

(** C6: settlement conserves money.  Take a match on a pair of two different
    assets, from consistent balances, such that the owner of every order of the
    match HAS a balance row for both assets (without one the credit is lost, see
    [settlement_missing_row_loses_credit]), the quantity and the value of
    every trade are non-negative amounts of at most 18 decimals, and the traded
    totals keep both supplies within the range of the columns.  Then persisting
    its trades, in its transaction, leaves the total of every asset over all
    users unchanged, whether it succeeds or raises, and every balance still
    satisfies total = locked + available with no negative part. *)
Theorem settlement_conserves base_asset quote_asset ts uid oid side symbol (w : World) :
  base_asset <> quote_asset -> balances_ok (balances (db w)) ->
  owners_have_rows base_asset quote_asset oid ts (db w) -> Forall trade_money ts ->
  supply base_asset (balances (db w)) + zsum tq ts < 10 ^ 46 ->
  supply quote_asset (balances (db w)) + zsum tv ts < 10 ^ 46 ->
  let w' := (transaction (persist_trade_batch ts uid oid side symbol base_asset quote_asset) w).1 in
  balances_ok (balances (db w')) /\ forall a, supply a (balances (db w')) = supply a (balances (db w)).
Proof.
  intros Hne Hok Hrows Hts Rb Rq w'. subst w'. unfold transaction.
  pose proof (persist_conserves base_asset quote_asset ts uid oid side symbol w Hne Hok Hrows Hts Rb Rq) as H.
  by destruct (persist_trade_batch _ _ _ _ _ _ _ w) as [w' [e|l]].
Qed.
End Conservation.

(** ** A concrete match: user 1 buys 3 BTC from user 2 at 10 USD *)

Definition demo_order (id user : Z) (side : OrderSide) (qty : decimal) : Order :=
  MkOrder id user "BTCUSD" side LIMIT NEW (Some (dec_of_Z 10)) None None qty dec_zero dec_zero None None 0
    None None None None None None 1.
Definition demo_row (user : Z) (asset : string) (locked available : Z) : bkey * Balance :=
  ((user, asset), MkBalance user asset (dec_of_Z (locked + available)) (dec_of_Z locked) (dec_of_Z available) 1).
Definition demo_market (rows : list (bkey * Balance)) : World (R := MemRedis) :=
  MkWorld (MkDatabase (list_to_map rows)
    {[ 1 := demo_order 1 2 SELL (dec_of_Z 5); 2 := demo_order 2 1 BUY (dec_of_Z 3) ]} 3 [] ∅)
    empty_keyspace 1700000000000.
Definition demo_trades : list DomainTrade :=
  [MkDomainTrade 2 1 "BTCUSD" (dec_of_Z 10) (dec_of_Z 3) (dec_of_Z 30) BUY 0].
Definition demo_rows : list (bkey * Balance) :=
  [demo_row 1 "USD" 30 70; demo_row 1 "BTC" 0 1; demo_row 2 "USD" 0 5; demo_row 2 "BTC" 5 0].
Definition demo_settle (rows : list (bkey * Balance)) : World * (exn + list Trade) :=
  transaction (persist_trade_batch (R := MemRedis) demo_trades 1 2 BUY "BTCUSD" "BTC" "USD") (demo_market rows).

Lemma demo_market_ok (rows : list (bkey * Balance)) :
  Forall (fun kb => kb.1 = (b_user_id kb.2, b_asset kb.2) /\ balance_ok kb.2) rows ->
  balances_ok (balances (db (demo_market rows))).
Proof.
  intros H k b Hk. cbn in Hk. apply elem_of_list_to_map_2 in Hk. rewrite Forall_forall in H. exact (H _ Hk).
Qed.

Lemma settlement_conserves_witness :
  supply "BTC" (balances (db (demo_settle demo_rows).1)) = supply "BTC" (balances (db (demo_market demo_rows))) /\
  exists l, (demo_settle demo_rows).2 = inr l /\ length l = 1%nat.
Proof.
  split; [|eexists; split; vm_compute; reflexivity].
  destruct (settlement_conserves (R := MemRedis) "BTC" "USD" demo_trades 1 2 BUY "BTCUSD" (demo_market demo_rows))
    as [_ H].
  - discriminate.
  - apply demo_market_ok. repeat constructor; vm_compute; congruence.
  - intros id o Ho. cbn in Ho. apply lookup_insert_Some in Ho as [[_ <-]|[_ Ho]];
      [|apply lookup_singleton_Some in Ho as [_ <-]]; split; eexists; vm_compute; reflexivity.
  - repeat constructor; vm_compute; congruence.
  - vm_compute. reflexivity.
  - vm_compute. reflexivity.
  - apply H.
Defined.

(** a party without a row for the asset it receives loses it: the credit is
    skipped without an error.  The buyer here has no BTC row (accounts are
    created without balances); the batch succeeds, the seller's 3 BTC and the
    buyer's 30 USD are taken, and 3 BTC leave the exchange. *)
Theorem settlement_missing_row_loses_credit :
  let rows := [demo_row 1 "USD" 30 70; demo_row 2 "USD" 0 5; demo_row 2 "BTC" 5 0] in
  let r := demo_settle rows in
  (exists l, r.2 = inr l) /\
  supply "BTC" (balances (db r.1)) = supply "BTC" (balances (db (demo_market rows))) - dunits (dec_of_Z 3) /\
  supply "USD" (balances (db r.1)) = supply "USD" (balances (db (demo_market rows))).
Proof. split; [eexists; vm_compute; reflexivity|]. split; vm_compute; reflexivity. Qed.
