(* ===== verification/Worker.v ===== *)
(** * The matching worker: app/matching/worker.py

    Consumes queue:orders.  A placement loads the opposite side of the book into
    a fresh engine, matches, settles the trades in one transaction, puts what is
    left of a limit order into the book, and publishes.  An exception sends the
    item to the dead-letter queue.  The loop around it, with its connections and
    what can go wrong at its awaits, is in WorkerStart. *)

From Stdlib Require Import ZArith Lia Bool SpecFloat.
From stdpp Require Import base tactics option list strings gmap sets.
From S2P Require Import Prelude Float64 PyDecimal Models RedisIface OrderBook Queues OrdersIndex World Pubsub Balance OrderRepo OrderService Engine Bridge Trade.
#[local] Open Scope Z_scope.

Section Worker.
Context {R : Redis} {P : PgNumeric} {I : Interference}.

(** MatchingWorker: its engine and the world. *)
Record MatchingWorker := MkWorker { engine : CMatchingEngine; world : World }.
Abbreviation workprog := (prog MatchingWorker exn).

Definition in_world {A} (m : wprog A) : workprog A := fun k =>
  let '(w, r) := m (world k) in (MkWorker (engine k) w, r).
Definition set_engine (e : CMatchingEngine) : workprog unit := modify (fun k => MkWorker e (world k)).

(** The loop over the makers: an order the engine refuses stops it, an
    exception goes through. *)
Definition maker_side (mo : MakerOrder) : Z := if String.eqb (mo_side mo) "sell" then 1 else 0.
Fixpoint load_makers (mos : list MakerOrder) : workprog unit :=
  match mos with
  | [] => mret tt
  | mo :: mos =>
      e ← gets engine;
      let '(e', r) := add_passive_order e (mo_order_id mo) (maker_side mo) (mo_price mo)
                        (if mo_is_iceberg mo then mo_visible mo else mo_quantity mo)
                        (mo_is_iceberg mo) (mo_visible mo) (mo_hidden mo) in
      _ ← set_engine e';
      ok ← in_world (lift r);
      if ok : bool then load_makers mos else mret tt
  end.

(** The result dict of an action. *)
Record ActionResult := MkResult {
  ar_action : string;
  ar_order_id : Z;
  ar_outcome : string;
  ar_trades : list TradeResult;
  ar_remaining : float64;
  ar_rejected : bool
}.

(** Steps 1 to 4: load, build, match.  The fuel of the model of the engine never
    runs out ([match_total]). *)
Definition match_payload (p : OrderActionPayload) : workprog (list TradeResult * Z * float64) :=
  makers ← in_world (on_redis (get_opposite_orders_for_match (pl_symbol p) (pl_side p) 1000));
  _ ← modify (fun k => MkWorker (reset (engine k)) (world k));
  _ ← load_makers makers;
  c ← in_world (lift (build_corder (pl_order_id p) (pl_side p) (pl_type p) (pl_price p) (pl_quantity p)
                        (pl_is_iceberg p) (pl_visible_qty p) (pl_hidden_qty p)));
  e ← gets engine;
  r ← in_world (require AssertionError (match_active_order e c));
  _ ← set_engine (fst r);
  mret (snd r).

(** The trades with their makers' users, read from the HASHes. *)
Fixpoint enrich (symbol : string) (ts : list TradeResult) : wprog (list DomainTrade) :=
  match ts with
  | [] => mret []
  | t :: ts =>
      maker_hash ← on_redis (get_order_hash (tr_maker t));
      maker_user_id ← match maker_hash with
                      | Some h => require (ValueError "int") (hval_int (default (HText "0") (h !! "user_id")))
                      | None => mret 0
                      end;
      d ← lift (trade_dict_to_domain t symbol);
      rest ← enrich symbol ts;
      mret (MkDomainTrade (dt_taker_order_id d) (dt_maker_order_id d) (dt_symbol d) (dt_price d) (dt_quantity d)
              (dt_quote_quantity d) (dt_side d) maker_user_id :: rest)
  end.

(** Step 6, in one transaction; [false] when the pair does not exist. *)
Definition settle_match (p : OrderActionPayload) (ts : list TradeResult) : wprog bool :=
  transaction (
    pair ← get_by_symbol (pl_symbol p);
    match pair with
    | None => mret false
    | Some pr =>
        enriched ← enrich (pl_symbol p) ts;
        taker_side ← require (ValueError "OrderSide") (OrderSide_of (pl_side p));
        _ ← require (ValueError "OrderType") (OrderType_of (pl_type p));
        _ ← persist_trade_batch enriched (pl_user_id p) (pl_order_id p) taker_side (pl_symbol p)
              (base_asset pr) (quote_asset pr);
        mret true
    end).

Definition truthy_float (o : option float64) : option float64 := drop_falsy_float o.
Definition resting_metadata (p : OrderActionPayload) (remaining : float64) : metadata :=
  {[ "order_id" := Some (htext_int (pl_order_id p)); "user_id" := Some (htext_int (pl_user_id p));
     "symbol" := Some (HText (pl_symbol p)); "side" := Some (HText (pl_side p)); "type" := Some (HText (pl_type p));
     "price" := Some (match truthy_float (pl_price p) with Some f => HDouble f | None => HText "" end);
     "quantity" := Some (HDouble (pl_quantity p));
     "visible_quantity" := Some (if pl_is_iceberg p
                                 then match pl_visible_qty p with Some f => HDouble f | None => HText "None" end
                                 else HDouble remaining);
     "hidden_quantity" := Some (if pl_is_iceberg p
                                then match pl_hidden_qty p with Some f => HDouble f | None => HText "None" end
                                else HText "");
     "is_iceberg" := Some (HText (if pl_is_iceberg p then "1" else "0")) ]}.

Definition insert_resting_taker (p : OrderActionPayload) (remaining : float64) : wprog unit :=
  _ ← on_redis (store_order_hash (pl_order_id p) (resting_metadata p remaining));
  price ← match truthy_float (pl_price p) with
          | Some f => require InvalidOperation (dec_of_float f)
          | None => mret dec_zero
          end;
  _ ← on_redis (add_resting_order (pl_order_id p) (pl_symbol p) (pl_side p) price ∅);
  on_redis (add_open_order (pl_user_id p) (pl_symbol p) (pl_order_id p)).

Definition refund_market_buy_leftover (p : OrderActionPayload) : wprog unit :=
  transaction (
    pair ← get_by_symbol (pl_symbol p);
    match pair with
    | None => mret tt
    | Some pr =>
        row ← get_for_update (pl_user_id p) (quote_asset pr);
        match row with
        | None => mret tt
        | Some balance =>
            let leftover := locked_balance balance in
            if dec_ltb dec_zero leftover
            then _ ← unlock_pessimistic balance leftover "market_buy_refund" (Some (pl_order_id p)); mret tt
            else mret tt
        end
    end).

Definition publish_orderbook_delta (symbol : string) : wprog unit :=
  snap ← on_redis (get_book_snapshot symbol 20);
  publish_orderbook_snapshot symbol (fst snap) (snd snap) None.

(** Step 5. *)
Definition publish_rejection (p : OrderActionPayload) (outcome : string) : wprog unit :=
  let cross := String.eqb outcome "post_only_cross" in
  publish_order_update (pl_user_id p) (if cross then "rejected" else "expired") (pl_order_id p) (pl_symbol p)
    (pl_side p) (pl_type p) (OrderStatus_value (if cross then REJECTED else EXPIRED)) no_opts.

(** Steps 7 and 8. *)
Definition after_settlement (p : OrderActionPayload) (remaining : float64) : wprog unit :=
  _ ← (if f_ltb f_zero remaining && str_in (pl_type p) ["limit"; "post_only"; "iceberg"]
       then insert_resting_taker p remaining
       else if String.eqb (pl_side p) "buy" &&
               (String.eqb (pl_type p) "market" ||
                f_eqb remaining f_zero && str_in (pl_type p) ["limit"; "stop_limit"])
       then refund_market_buy_leftover p
       else mret tt);
  publish_orderbook_delta (pl_symbol p).

Definition handle_place (p : OrderActionPayload) : workprog ActionResult :=
  m ← match_payload p;
  let '(ts, outcome, remaining) := m in
  in_world (
    outcome_str ← lift (outcome_to_str outcome);
    let result := MkResult "place" (pl_order_id p) outcome_str ts remaining (is_outcome_reject outcome) in
    if is_outcome_reject outcome then _ ← publish_rejection p outcome_str; mret result
    else
      found ← match ts with [] => mret true | _ => settle_match p ts end;
      if found : bool then _ ← after_settlement p remaining; mret result else mret result).

Definition handle_cancel (p : OrderActionPayload) : workprog ActionResult :=
  mret (MkResult "cancel" (pl_order_id p) "ok" [] f_zero false).
Definition handle_modify (p : OrderActionPayload) : workprog ActionResult :=
  mret (MkResult "modify" (pl_order_id p) "ok" [] f_zero false).

Definition process_action (p : OrderActionPayload) : workprog ActionResult :=
  if String.eqb (pl_action p) "cancel" then handle_cancel p
  else if String.eqb (pl_action p) "modify" then handle_modify p
  else handle_place p.

(** One iteration of the loop of [start]; [str_of_exn] is Python's [str]. *)
Definition worker_step (str_of_exn : exn -> string) : workprog unit :=
  raw ← in_world (on_redis brpop_order_action);
  match raw with
  | None => mret tt
  | Some payload =>
      try_except
        (p ← in_world (require (KeyError "payload") (from_dict payload)); _ ← process_action p; mret tt)
        (fun e => now ← gets (fun k => now_ms (world k));
                  in_world (on_redis (enqueue_deadletter now payload (str_of_exn e) ORDERS_QUEUE)))
  end.
Fixpoint worker_run (str_of_exn : exn -> string) (n : nat) : workprog unit :=
  match n with
  | O => mret tt
  | S n => _ ← worker_step str_of_exn; worker_run str_of_exn n
  end.
End Worker.
