(* ===== verification/WorkerSpec.v ===== *)
(** * What the matching worker promises

    The engine it loads represents the orders served by Redis in the order they
    were served, so the theorems on the engine apply to its matches; a rejected
    order changes neither the database nor the book; the refund and the resting
    insertion do what their code says, which is more than they mean to; every
    queued action is processed once or sent to the dead-letter queue. *)

From Stdlib Require Import ZArith Lia Bool SpecFloat.
From stdpp Require Import base tactics option list strings gmap sets sorting.
From S2P Require Import Prelude Float64 FloatPos PyDecimal Models Engine EngineBook EngineMatch RedisIface OrderBook Queues OrdersIndex World Pubsub Balance OrderRepo OrderService OrderSpec CancelSpec BulkSpec Bridge Trade Worker.
#[local] Open Scope Z_scope.

(** ** The engine the worker loads *)

Lemma add_passive_frame e oid side price qty ice vis hid e' :
  add_passive_order e oid side price qty ice vis hid = (e', inr true) ->
  node_pool_size e' = node_pool_size e + 1 /\ node_pool_cap e' = node_pool_cap e /\ trades_cap e' = trades_cap e.
Proof.
  unfold add_passive_order. destruct (_ && _); [done|]. destruct (f_leb _ _); [done|].
  destruct (_ >? _); [done|]. destruct (if _ =? -1 then _ else _) as [s i]. by intros [= <-].
Qed.

(** The orders of a list, in the engine's terms; an iceberg shows only its
    visible part. *)
Definition maker_qty (mo : MakerOrder) : float64 := if mo_is_iceberg mo then mo_visible mo else mo_quantity mo.
Definition maker_node (mo : MakerOrder) : OrderNode :=
  MkNode (mo_order_id mo) (maker_qty mo) (maker_qty mo) (mo_is_iceberg mo).
Definition loadable (side : Z) (mo : MakerOrder) : Prop :=
  maker_side mo = side /\ f_isnan (mo_price mo) = false /\ fpos (maker_qty mo) = true.
(** Served by price: no order has a better price than one before it. *)
Definition price_ordered (desc : bool) (mos : list MakerOrder) : Prop :=
  StronglySorted (fun a b => better desc (mo_price b) (mo_price a) = false) mos.
Definition represents_makers (q : list entry) (mos : list MakerOrder) : Prop :=
  Forall2 (fun en mo => f_eqb en.1 (mo_price mo) = true /\ en.2 = maker_node mo) q mos.

Section Load.
Context {R : Redis}.

Lemma load_makers_world mos k : world (load_makers mos k).1 = world k.
Proof.
  revert k. induction mos as [|mo mos IH]; intros k; [done|]. cbn [load_makers].
  rewrite (bind_inr _ _ k k (engine k) eq_refl). destruct (add_passive_order _ _ _ _ _ _ _ _) as [e' r].
  rewrite (bind_inr _ _ k (MkWorker e' (world k)) tt eq_refl).
  destruct r as [ex|ok]; [done|]. rewrite (bind_inr _ _ (MkWorker e' (world k)) (MkWorker e' (world k)) ok eq_refl).
  destruct ok; [|done]. by rewrite IH.
Qed.

Lemma enqueued_last desc price x q q' :
  enqueued desc price x q q' -> Forall (fun en => better desc price en.1 = false) q ->
  exists p, f_eqb p price = true /\ q' = q ++ [(p, x)].
Proof.
  intros (q1 & q2 & p & -> & -> & Hp & _ & H2) [_ Hq]%Forall_app. exists p. split; [done|].
  destruct q2 as [|en q2]; [by rewrite app_nil_r|].
  apply Forall_inv in H2, Hq. congruence.
Qed.

Lemma represents_not_better desc q q0 mo mos : represents_makers q q0 -> price_ordered desc (q0 ++ mo :: mos) ->
  Forall (fun en => better desc (mo_price mo) en.1 = false) q.
Proof.
  intros Hrep Hord. apply sorted_app_iff in Hord as (_ & _ & Hall).
  induction Hrep as [|en mo' q q0 [He _] _ IH]; [constructor|]. apply Forall_cons in Hall as [H1 H2].
  constructor; [|by apply IH]. rewrite (better_eqb_r _ _ _ _ He). by apply Forall_inv in H1.
Qed.

Lemma load_makers_spec side mos k q0 :
  engine_ok (engine k) -> valid_side side -> Forall (loadable side) mos ->
  node_pool_size (engine k) + Z.of_nat (length mos) <= node_pool_cap (engine k) ->
  price_ordered (is_descending (book_side (engine k) side)) (q0 ++ mos) ->
  represents_makers (book_queue (book_side (engine k) side)) q0 ->
  exists e, load_makers mos k = (MkWorker e (world k), inr tt) /\ engine_ok e /\
    opposite e side = opposite (engine k) side /\
    is_descending (book_side e side) = is_descending (book_side (engine k) side) /\
    trades_cap e = trades_cap (engine k) /\ node_pool_cap e = node_pool_cap (engine k) /\
    represents_makers (book_queue (book_side e side)) (q0 ++ mos).
Proof.
  intros Hok Hv Hl. revert k q0 Hok. induction Hl as [|mo mos (Hs & Hp & Hq) Hl IH]; intros k q0 Hok Hpool Hord Hrep.
  { exists (engine k). rewrite app_nil_r. by destruct k. }
  cbn [load_makers]. rewrite (bind_inr _ _ k k (engine k) eq_refl). fold (maker_qty mo).
  destruct (add_passive_order_spec (engine k) (mo_order_id mo) side (mo_price mo) (maker_qty mo) (mo_is_iceberg mo)
    (mo_visible mo) (mo_hidden mo) Hok Hv Hp Hq) as (e1 & E & Hok1 & Hopp & Henq).
  { intros Hi. unfold maker_qty in Hq. by rewrite Hi in Hq. }
  { cbn [length] in Hpool. lia. }
  rewrite Hs, E. apply add_passive_frame in E as (F1 & F2 & F3).
  unfold set_engine. rewrite (bind_inr _ _ _ (MkWorker e1 (world k)) tt eq_refl).
  rewrite (bind_inr _ _ (MkWorker e1 (world k)) (MkWorker e1 (world k)) true eq_refl).
  pose proof (represents_not_better _ _ _ _ _ Hrep Hord) as Hnb.
  destruct (enqueued_last _ _ _ _ _ Henq Hnb) as (p & He & Hq').
  assert (Hdir : is_descending (book_side e1 side) = is_descending (book_side (engine k) side)).
  { destruct Hok, Hok1, Hv as [-> | ->]; cbn in *; congruence. }
  destruct (IH (MkWorker e1 (world k)) (q0 ++ [mo])) as (e & E & H1 & H2 & H3 & H4 & H5 & H6); cbn [engine].
  - done.
  - cbn [length] in Hpool. lia.
  - by rewrite Hdir, <- app_assoc.
  - rewrite Hq'. apply Forall2_app; [done|]. constructor; [|constructor]. split; [done|]. cbn.
    unfold maker_node. f_equal. unfold maker_qty. by destruct (mo_is_iceberg mo).
  - exists e. cbn [engine world] in *. rewrite <- app_assoc in H6. split; [done|]. split; [done|].
    split; [congruence|]. split; [congruence|]. split; [congruence|]. split; [congruence|]. done.
Qed.

(** Every loaded order takes part in at most one trade, an iceberg included. *)
Lemma budget_app ns ns' : budget (ns ++ ns') = (budget ns + budget ns')%nat.
Proof. unfold budget. induction ns as [|n ns IH]; cbn in *; lia. Qed.
Lemma side_budget_queue ls : side_budget ls = budget (snd <$> queue_of ls).
Proof.
  unfold side_budget. induction ls as [|l ls IH]; [done|]. cbn [fmap list_fmap sum_list_with sum_list].
  change (queue_of (l :: ls)) with (level_queue l ++ queue_of ls). rewrite fmap_app, budget_app, <- IH.
  unfold level_queue. rewrite <- list_fmap_compose. change (snd ∘ pair (lvl_price l)) with (@id OrderNode).
  by rewrite list_fmap_id.
Qed.
Lemma budget_makers q mos : represents_makers q mos -> budget (snd <$> q) = length mos.
Proof.
  intros H. induction H as [|en mo q mos [_ He] H IH]; [done|]. cbn [fmap list_fmap length].
  change (budget (?x :: ?l)) with (weight x + budget l)%nat. rewrite He. fold (snd <$> q). rewrite IH.
  unfold weight, maker_node. cbn. by rewrite f_ltb_irrefl, andb_false_r.
Qed.

(** What every action finds: an engine in order, with the capacities the worker
    was created with. *)
Definition worker_ok (k : MatchingWorker) : Prop :=
  engine_ok (engine k) /\ 1000 <= node_pool_cap (engine k) /\ 1000 <= trades_cap (engine k).

Lemma reset_ok e : engine_ok e -> 0 <= node_pool_cap e -> engine_ok (reset e).
Proof.
  intros [[_ _ Hb] [_ _ Ha] Hbd Had Hp] Hc.
  split; cbn; try done; split; cbn; try constructor; unfold size in *; cbn in *; lia.
Qed.
End Load.

Section Matching.
Context {R : Redis} {RS : RedisSpec R}.

Lemma opposite_orders_limit symbol side limit st st' mos : 0 < limit ->
  get_opposite_orders_for_match symbol side limit st = (st', inr mos) -> Z.of_nat (length mos) <= limit.
Proof.
  intros Hl H. apply opposite_orders_inv in H as (key & raw & es & _ & _ & Hraw & Hsub & Hall).
  apply Forall2_length in Hall. apply sublist_length in Hsub.
  assert (length raw <= Z.to_nat limit)%nat; [|lia].
  rewrite Hraw. destruct (String.eqb (lower side) "buy"); rewrite rank_slice_prefix, length_take by lia; lia.
Qed.

Lemma match_outcome e c : engine_ok e -> valid_taker c -> fits_buffer e c ->
  exists e' ts o r q', match_active_order e c = Some (e', (ts, o, r)) /\ engine_ok e' /\
    node_pool_cap e' = node_pool_cap e /\ trades_cap e' = trades_cap e /\
    fills c (book_queue (opposite e (c_side c))) (c_remaining c) ts q' r /\
    (c_type c <> C_POST_ONLY -> o <> C_FOK_REJECTED -> halted c q' r) /\
    (c_type c <> C_FOK -> o <> C_FOK_REJECTED) /\
    (is_outcome_reject o = true -> ts = [] /\ r = c_remaining c).
Proof.
  intros Hok Hv Hfit. destruct (rejects_dec e c) as [Hr|[Hp Hf]].
  - rewrite (match_reject e c Hr). do 4 eexists. exists (book_queue (opposite e (c_side c))).
    split; [done|]. split; [by apply engine_ok_clear|]. split_and!; [done|done|constructor| | |done].
    + intros Hp. by rewrite (proj2 (Z.eqb_neq _ _) Hp).
    + intros Hn. destruct Hr as [Hr|[Hr _]]; [|done]. rewrite Hr. cbn. by destruct (would_cross e c).
  - destruct (match_walk_spec e c Hok Hv Hfit Hp Hf) as (ls & ts & o & r & Hm & H1 & H2 & Hfl & Hh & _ & Ho).
    exists (after_match e c ls ts), ts, o, r, (queue_of ls). split; [done|]. split; [by apply after_match_ok|].
    split_and!; [done|done|done|done| |]; rewrite Ho; [intros _; by destruct (_ && _)|intros Hrej].
    destruct ts as [|t ts]; [by inversion Hfl|]. exfalso. revert Hrej. cbn [length].
    rewrite (proj2 (Z.eqb_neq (Z.of_nat (S (length ts))) 0)), andb_false_r by lia. done.
Qed.

Lemma build_corder_inv oid s type price qty ice vis hid c :
  build_corder oid (OrderSide_value s) type price qty ice vis hid = inr c -> c_side c = side_code s /\ c_remaining c = qty.
Proof.
  unfold build_corder. rewrite to_c_side_value. destruct (to_c_type type); [done|].
  destruct (f_leb _ _); [done|]. repeat (destruct (_ && _); [done|]). by intros [= <-].
Qed.

Lemma match_payload_run p k s mos st c :
  let desc := match s with BUY => false | SELL => true end in
  worker_ok k -> pl_side p = OrderSide_value s ->
  get_opposite_orders_for_match (pl_symbol p) (pl_side p) 1000 (redis (world k)) = (st, inr mos) ->
  Forall (loadable (1 - side_code s)) mos -> price_ordered desc mos ->
  build_corder (pl_order_id p) (pl_side p) (pl_type p) (pl_price p) (pl_quantity p)
    (pl_is_iceberg p) (pl_visible_qty p) (pl_hidden_qty p) = inr c ->
  fpos (pl_quantity p) = true ->
  exists k' ts outcome rem q q',
    match_payload p k = (k', inr (ts, outcome, rem)) /\ world k' = world k /\ worker_ok k' /\
    represents_makers q mos /\ fills c q (pl_quantity p) ts q' rem /\
    (c_type c <> C_POST_ONLY -> outcome <> C_FOK_REJECTED -> halted c q' rem) /\
    (c_type c <> C_FOK -> outcome <> C_FOK_REJECTED) /\
    (is_outcome_reject outcome = true -> ts = [] /\ rem = pl_quantity p).
Proof.
  intros desc (Hok & Hnode & Htr) Hs Hmos Hl Hord Hc Hq. unfold match_payload.
  rewrite (bind_inr _ _ k k mos).
  2:{ unfold in_world, on_redis. pose proof (reads_opposite (pl_symbol p) (pl_side p) 1000 (redis (world k))) as Hst.
      rewrite Hmos in Hst |- *. cbn in Hst. subst st. by destruct k as [e [d r n]]. }
  rewrite (bind_inr _ _ _ (MkWorker (reset (engine k)) (world k)) tt eq_refl).
  rewrite Hs in Hc. destruct (build_corder_inv _ _ _ _ _ _ _ _ _ Hc) as [Hcs Hcr]. rewrite <- Hs in Hc.
  set (o := 1 - side_code s) in *.
  assert (Hoppo : forall e, book_side e o = opposite e (side_code s)) by (by intros e; destruct s).
  pose proof (opposite_orders_limit _ _ 1000 _ _ _ ltac:(lia) Hmos) as Hlen.
  assert (Hok0 : engine_ok (reset (engine k))) by (apply reset_ok; [done|lia]).
  assert (Hempty : book_queue (book_side (reset (engine k)) o) = []) by (by destruct s).
  destruct (load_makers_spec o mos (MkWorker (reset (engine k)) (world k)) []) as
    (e & E & Hoke & _ & _ & Htc & Hnc & Hrep); cbn [engine world] in *.
  { done. } { destruct s; [by right|by left]. } { done. } { cbn. lia. }
  { cbn [app]. replace (is_descending _) with desc; [done|].
    destruct Hok as [_ _ Hbd Had _]. subst desc o. destruct s; [exact (eq_sym Had)|exact (eq_sym Hbd)]. }
  { rewrite Hempty. constructor. }
  rewrite (bind_inr _ _ _ _ _ E). rewrite (bind_inr _ _ _ (MkWorker e (world k)) c) by (by rewrite Hc).
  rewrite (bind_inr _ _ (MkWorker e (world k)) (MkWorker e (world k)) e eq_refl).
  rewrite Hoppo in Hrep. cbn [app] in Hrep.
  destruct (match_outcome e c) as (e' & ts & out & r & q' & Hm & Hoke' & Hnc' & Htc' & Hfl & Hh & Hfok & Hrej).
  { done. } { split; [rewrite Hcs; apply side_code_valid|rewrite Hcr; by right]. }
  { unfold fits_buffer. rewrite side_budget_queue, Hcs. change (queue_of _) with (book_queue (opposite e (side_code s))).
    rewrite (budget_makers _ _ Hrep), Htc. cbn. lia. }
  rewrite (bind_inr _ _ (MkWorker e (world k)) (MkWorker e (world k)) (e', (ts, out, r))) by (by rewrite Hm).
  cbn [fst snd]. rewrite (bind_inr (set_engine e') _ (MkWorker e (world k)) (MkWorker e' (world k)) tt eq_refl).
  rewrite Hcs, Hcr in *.
  exists (MkWorker e' (world k)), ts, out, r, (book_queue (opposite e (side_code s))), q'.
  split_and!; try done. split; cbn [engine]; [done|]. cbn in Hnc, Htc. lia.
Qed.

(** C2: matching a queued order.  The engine the worker fills represents exactly
    the orders served by Redis, in that order; the match is a run of the abstract
    price-time matcher on that list, complete unless the order is post-only or a
    rejected fill-or-kill; a rejected order has no trades, so that returning
    without settling loses none; the database and Redis are not touched. *)
Theorem match_payload_correct p k s mos st c :
  let desc := match s with BUY => false | SELL => true end in
  worker_ok k -> pl_side p = OrderSide_value s ->
  get_opposite_orders_for_match (pl_symbol p) (pl_side p) 1000 (redis (world k)) = (st, inr mos) ->
  Forall (loadable (1 - side_code s)) mos -> price_ordered desc mos ->
  build_corder (pl_order_id p) (pl_side p) (pl_type p) (pl_price p) (pl_quantity p)
    (pl_is_iceberg p) (pl_visible_qty p) (pl_hidden_qty p) = inr c ->
  fpos (pl_quantity p) = true ->
  exists k' ts outcome rem q q',
    match_payload p k = (k', inr (ts, outcome, rem)) /\ world k' = world k /\ worker_ok k' /\
    represents_makers q mos /\ fills c q (pl_quantity p) ts q' rem /\
    (c_type c <> C_POST_ONLY -> outcome <> C_FOK_REJECTED -> halted c q' rem) /\
    (is_outcome_reject outcome = true -> ts = [] /\ rem = pl_quantity p).
Proof.
  intros desc Hk Hs Hmos Hl Hord Hc Hq.
  destruct (match_payload_run p k s mos st c Hk Hs Hmos Hl Hord Hc Hq)
    as (k' & ts & outcome & rem & q & q' & E & Hw & Hk' & Hrep & Hf & Hh & _ & Hr).
  exists k', ts, outcome, rem, q, q'. by split_and!.
Qed.
End Matching.

Section Effects.
Context {R : Redis} {RS : RedisSpec R} {P : PgNumeric} {I : Interference}.

(** Steps 1 to 4 leave the world as it was, whatever happens. *)
Lemma in_world_reads {A} (m : wprog A) k : reads m -> world (in_world m k).1 = world k.
Proof. intros H. unfold in_world. specialize (H (world k)). by destruct (m (world k)). Qed.
Lemma match_payload_world p k : world (match_payload p k).1 = world k.
Proof.
  assert (H : forall w0, keeps (fun k => world k = w0) (match_payload p)).
  { intros w0. unfold match_payload.
    assert (Hw : forall A (m : wprog A), reads m -> keeps (fun k => world k = w0) (in_world m)).
    { intros A m Hm k' <-. pose proof (in_world_reads m k' Hm) as H. by destruct (in_world m k') as [k'' [e|a]]. }
    assert (Hl : forall mos, keeps (fun k => world k = w0) (load_makers mos)).
    { intros mos k' <-. pose proof (load_makers_world mos k') as H. by destruct (load_makers mos k') as [k'' [e|a]]. }
    assert (Hr : forall A e (o : option A), reads (require (R := R) e o)) by (by intros A e [a|] w).
    assert (Hs : forall e, keeps (fun k => world k = w0) (set_engine e)) by (by intros e k' <-).
    apply keeps_bind; [apply Hw, reads_on_redis, reads_opposite|]. intros mos.
    apply keeps_bind; [by intros k' <-|]. intros _. apply keeps_bind; [apply Hl|]. intros _.
    apply keeps_bind; [by apply Hw|]. intros c. apply keeps_bind; [by intros k' <-|]. intros e.
    apply keeps_bind; [by apply Hw|]. intros r. apply keeps_bind; [apply Hs|]. intros _. apply keeps_ret. }
  specialize (H (world k) k eq_refl). by destruct (match_payload p k) as [k' [e|a]].
Qed.

(** a rejected order (post-only that would cross, fill-or-kill without
    enough liquidity, market or IOC without any) changes no row of the database
    and no key of Redis: one event is published, and in particular the amount
    locked at placement stays locked. *)
Theorem rejected_order_untouched p k k' res :
  handle_place p k = (k', inr res) -> ar_rejected res = true ->
  db (world k') = db (world k) /\ log_only (world k) (world k') /\
  exists event, published (view (redis (world k'))) = published (view (redis (world k))) ++ [event].
Proof.
  intros H Hrej. unfold handle_place in H. pose proof (match_payload_world p k) as Hw.
  unfold mbind at 1, prog_bind at 1 in H. destruct (match_payload p k) as [k1 [e|[[ts out] rem]]]; [done|].
  cbn in Hw. unfold in_world in H. rewrite Hw in H.
  destruct (outcome_to_str out) as [e|os]; [done|]. rewrite (bind_inr (lift (inr os)) _ (world k) (world k) os eq_refl) in H.
  destruct (is_outcome_reject out) eqn:Er.
  - unfold publish_rejection, publish_order_update in H.
    match type of H with context [publish_event ?c ?ev ?d] =>
      destruct (publish_event_spec c ev d (world k)) as (w' & E & Hd & Hl & Hp) end.
    rewrite (bind_inr _ _ _ _ _ E) in H. cbn in H. injection H as <- <-. cbn [world].
    split; [done|]. split; [done|]. by eexists.
  - exfalso. match type of H with context [mbind ?f ?m (world k)] => destruct (mbind f m (world k)) as [w1 r1] eqn:E end.
    cbn in H. injection H as _ ->. apply bind_inv in E as (w2 & found & _ & E). destruct found.
    + apply bind_inv in E as (w3 & [] & _ & E). run_prog in E. injection E as _ <-. done.
    + run_prog in E. injection E as _ <-. done.
Qed.

(** the refund after a buy frees everything the user has locked in the quote
    asset, not what remains of this order's lock: whatever other orders the
    lock covers, afterwards nothing is locked and everything is available. *)
Theorem refund_frees_every_lock p w pr b :
  pairs (db w) !! pl_symbol p = Some pr -> balances_ok (balances (db w)) ->
  balances (db w) !! (pl_user_id p, quote_asset pr) = Some b -> 0 < dunits (locked_balance b) ->
  exists w' b', refund_market_buy_leftover p w = (w', inr tt) /\
    db w' = set_balances <[(pl_user_id p, quote_asset pr) := b']> (db w) /\
    dunits (locked_balance b') = 0 /\ dunits (available_balance b') = dunits (total_balance b) /\
    moves b b' (- dunits (locked_balance b)) (dunits (locked_balance b)).
Proof.
  intros Hp Hok Hb Hl. destruct (balances_ok_lookup _ _ _ _ Hok Hb) as (Hu & Ha & Hbok).
  pose proof Hbok as (_ & Ml & _ & _ & _ & Hsum).
  unfold refund_market_buy_leftover, transaction, get_by_symbol, get_for_update, from_db.
  rewrite (bind_inr _ _ w w (Some pr)) by (unfold gets; by rewrite Hp).
  rewrite (bind_inr _ _ w w (Some b)) by (unfold gets; by rewrite Hb). cbn zeta.
  rewrite ltb_zero_units, (proj2 (Z.ltb_lt _ _) Hl) by done.
  pose proof (unlock_spec b (locked_balance b) "market_buy_refund" (Some (pl_order_id p)) w Hbok Ml) as Hs.
  unfold written in Hs. rewrite Z.leb_refl, (proj2 (Z.leb_le _ _)) in Hs by lia. cbn [andb] in Hs.
  destruct Hs as (b' & E & Hm & D). destruct (unlock_pessimistic _ _ _ _ w) as [w' r'] eqn:Eu.
  cbn [fst snd] in E, D. subst r'. rewrite (bind_inr _ _ _ _ _ Eu).
  exists w', b'. split; [done|]. rewrite Hu, Ha in D. split; [done|].
  pose proof Hm as (_ & _ & _ & H1 & H2 & _). split; [lia|]. split; [lia|done].
Qed.

Lemma resting_fields p rem : pl_is_iceberg p = false ->
  flat_fields (known_fields (resting_metadata p rem)) !! "visible_quantity" = Some (HDouble rem) /\
  flat_fields (known_fields (resting_metadata p rem)) !! "quantity" = Some (HDouble (pl_quantity p)).
Proof. intros H. unfold resting_metadata. rewrite H. split; vm_compute; reflexivity. Qed.

(** [_insert_resting_taker] for a plain order: it joins its side of the book
    with the score of its price and the next sequence number, and the open-orders
    index; its HASH shows the remaining quantity as visible but keeps the FULL
    quantity of the order as "quantity", the field the next match loads. *)
Theorem insert_resting_taker_correct p rem w price d key score opn :
  let oid := pl_order_id p in
  let seq := (ks_counter (view (redis w)) (seq_key (pl_symbol p)) + 1) mod SCORE_MULTIPLIER in
  pl_price p = Some price -> f_eqb price f_zero = false -> dec_of_float price = Some d ->
  side_key (pl_symbol p) (pl_side p) = inr key -> encode_score (f_of_dec d) seq = inr score ->
  pl_is_iceberg p = false -> represents (view (redis w)) opn ->
  (opn !! oid = None \/ opn !! oid = Some (pl_user_id p, pl_symbol p)) ->
  exists w', insert_resting_taker p rem w = (w', inr tt) /\ db w' = db w /\
    ks_zset (view (redis w')) key = <[str_of_Z oid := score]> (ks_zset (view (redis w)) key) /\
    (forall k, k <> key -> ks_zset (view (redis w')) k = ks_zset (view (redis w)) k) /\
    ks_hash (view (redis w')) (order_hash_key oid) !! "visible_quantity" = Some (HDouble rem) /\
    ks_hash (view (redis w')) (order_hash_key oid) !! "quantity" = Some (HDouble (pl_quantity p)) /\
    represents (view (redis w')) (<[oid := (pl_user_id p, pl_symbol p)]> opn).
Proof.
  intros oid seq Hpr Hnz Hd Hk Hsc Hice Hrep Hopn. unfold insert_resting_taker, truthy_float, drop_falsy_float.
  rewrite Hpr. cbn [mbind option_bind]. rewrite Hnz, Hd.
  unfold store_order_hash.
  destruct (hset_flat_view (order_hash_key oid) (flat_fields (known_fields (resting_metadata p rem))) (redis w))
    as (st1 & E1 & _).
  rewrite (bind_inr _ _ w (MkWorld (db w) st1 (now_ms w)) tt)
    by (unfold on_redis; fold oid; by rewrite E1).
  rewrite (bind_inr _ _ _ (MkWorld (db w) st1 (now_ms w)) d) by done.
  apply hset_flat_frame in E1 as (Z1 & R1 & _ & C1 & _ & H1 & _).
  pose proof (add_resting_order_spec oid (pl_symbol p) (pl_side p) d ∅ st1) as H2.
  pose proof (add_resting_frame oid (pl_symbol p) (pl_side p) d ∅ st1) as [R2 _].
  assert (Hc : ks_counter (view st1) (seq_key (pl_symbol p)) = ks_counter (view (redis w)) (seq_key (pl_symbol p))).
  { unfold ks_counter. by rewrite C1. }
  fold seq in Hsc. change (ks_counter (view (redis w)) _) with (ks_counter (view (redis w)) (seq_key (pl_symbol p))) in seq.
  cbn zeta in H2. rewrite Hc in H2. fold seq in H2.
  assert (E2 : (add_resting_order oid (pl_symbol p) (pl_side p) d ∅ st1).2 = inr seq).
  { unfold add_resting_order, next_seq, incr, lift_exn, zadd. run_prog.
    pose proof (incr_view (seq_key (pl_symbol p)) st1) as [_ Hn].
    destruct (r_incr (seq_key (pl_symbol p)) st1) as [st n]. cbn in Hn. subst n. rewrite Hc. fold seq.
    rewrite Hsc, Hk.
    by destruct (hset_flat_view (order_hash_key oid) (flat_fields (known_fields ∅)) st) as (st2 & -> & _). }
  destruct (add_resting_order oid _ _ d ∅ st1) as [st2 r2] eqn:Ea. cbn [fst snd] in *. subst r2.
  destruct H2 as (_ & key' & score' & Hk' & Hsc' & Z2 & Zo2 & H2 & _).
  rewrite Hk in Hk'. rewrite Hsc in Hsc'. injection Hk' as <-. injection Hsc' as <-.
  rewrite (bind_inr _ _ _ (MkWorld (db w) st2 (now_ms w)) seq).
  2:{ unfold on_redis. cbn [redis db now_ms]. fold oid. by rewrite Ea. }
  destruct (add_open_order_view (pl_user_id p) (pl_symbol p) oid st2) as [E3 V3].
  exists (MkWorld (db w) (add_open_order (pl_user_id p) (pl_symbol p) oid st2).1 (now_ms w)).
  split.
  { unfold on_redis. cbn [redis db now_ms]. fold oid. destruct (add_open_order _ _ _ st2) as [st3 r3]. cbn in E3. by subst r3. }
  cbn [redis db]. split; [done|].
  assert (Hz : forall k, ks_zset (view (add_open_order (pl_user_id p) (pl_symbol p) oid st2).1) k = ks_zset (view st2) k)
    by (intros k; by rewrite V3).
  assert (Hh : forall k, ks_hash (view (add_open_order (pl_user_id p) (pl_symbol p) oid st2).1) k = ks_hash (view st2) k)
    by (intros k; by rewrite V3).
  assert (Hz1 : forall k, ks_zset (view st1) k = ks_zset (view (redis w)) k) by (intros k; unfold ks_zset; by rewrite Z1).
  destruct (resting_fields p rem Hice) as [F1 F2].
  rewrite Hz, Z2, Hz1, Hh, H2, H1. split; [done|]. split; [intros k Hne; by rewrite Hz, Zo2, Hz1|].
  split; [|split].
  - apply lookup_union_Some_raw. right. split; [done|]. by rewrite (lookup_union_Some_l _ _ _ _ F1).
  - apply lookup_union_Some_raw. right. split; [done|]. by rewrite (lookup_union_Some_l _ _ _ _ F2).
  - rewrite V3. apply add_represents; [|done]. apply (represents_ext (view (redis w))); [by rewrite R2, R1|done].
Qed.
End Effects.

(** ** A concrete market: two users, one pair *)

Definition demo_funds (user : Z) (asset : string) (available : Z) : bkey * Balance :=
  ((user, asset), MkBalance user asset (dec_of_Z available) dec_zero (dec_of_Z available) 1).
Definition demo_exchange2 : World (R := MemRedis) :=
  MkWorld (MkDatabase
    (list_to_map [demo_funds 1 "USD" 1000; demo_funds 1 "BTC" 50; demo_funds 2 "USD" 1000; demo_funds 2 "BTC" 50])
    ∅ 1 [] {[ "BTCUSD" := demo_pair ]}) empty_keyspace 1700000000000.
Definition demo_worker : MatchingWorker (R := MemRedis) := MkWorker new_engine demo_exchange2.
Definition limit_dto (side : string) (qty price : Z) : OrderCreateDTO :=
  MkDTO "BTCUSD" side "limit" (Some (dec_of_Z price)) None None (dec_of_Z qty) None None None None None None.
(** A user places an order and the worker processes it. *)
Definition place_and_match (user : Z) (side : string) (qty price : Z) : prog (MatchingWorker (R := MemRedis)) exn unit :=
  _ ← in_world (R := MemRedis) (transaction (place_order (I := NoInterference) user (limit_dto side qty price)));
  worker_step (R := MemRedis) (fun _ => "error").
Definition order_fill (k : MatchingWorker (R := MemRedis)) (oid : Z) : option (decimal * decimal) :=
  o ← orders (db (world k)) !! oid; Some (o_filled_quantity o, o_quantity o).

(** a partially filled order is overfilled.  User 2 offers 3, user 1 bids
    for 5 and gets 3, the remaining 2 rest in the book; user 1 has another bid
    open.  A second offer of 5 is then filled entirely by the resting bid, whose
    HASH still says 5: the order of 5 has traded 8. *)
Theorem partial_fill_then_overfill :
  let run := (_ ← place_and_match 2 "sell" 3 10; _ ← place_and_match 1 "buy" 5 10; _ ← place_and_match 1 "buy" 10 5;
              place_and_match 2 "sell" 5 10) demo_worker in
  run.2 = inr tt /\
  match order_fill run.1 2 with
  | Some (filled, quantity) => dec_eqb filled (dec_of_Z 8) = true /\ dec_eqb quantity (dec_of_Z 5) = true
  | None => False
  end.
Proof. vm_compute. done. Qed.

(** ** Witnesses *)

Definition demo_buy : OrderActionPayload :=
  MkPayload "place" 9 "BTC/USDT" 1 "buy" "limit" (Some (f_of_Z 101)) None (f_of_Z 1) false None None None None None 0.
Definition demo_asks_worker : MatchingWorker (R := MemRedis) :=
  MkWorker new_engine (MkWorld (MkDatabase ∅ ∅ 1 [] ∅) demo_keyspace 1700000000000).

Lemma new_worker_ok (w : World (R := MemRedis)) : worker_ok (MkWorker new_engine w).
Proof.
  split; [|vm_compute; split; congruence]. cbn [engine].
  split; [split; cbn; [constructor|constructor|vm_compute; split; congruence]..|reflexivity|reflexivity|vm_compute; congruence].
Defined.

Lemma match_payload_correct_witness :
  exists k' t outcome rem, match_payload demo_buy demo_asks_worker = (k', inr ([t], outcome, rem)) /\ tr_maker t = 2.
Proof.
  assert (Hc : exists c, build_corder 9 "buy" "limit" (Some (f_of_Z 101)) (f_of_Z 1) false None None = inr c)
    by (eexists; vm_compute; reflexivity).
  destruct Hc as [c Hc].
  destruct (match_payload_correct (RS := MemRedisSpec) demo_buy demo_asks_worker BUY demo_makers demo_keyspace c)
    as (k' & ts & o & r & q & q' & E & _).
  - apply new_worker_ok.
  - reflexivity.
  - vm_compute. reflexivity.
  - repeat constructor; vm_compute; reflexivity.
  - repeat constructor; vm_compute; reflexivity.
  - exact Hc.
  - vm_compute. reflexivity.
  - assert (H : exists t o' r', (match_payload demo_buy demo_asks_worker).2 = inr ([t], o', r') /\ tr_maker t = 2)
      by (do 3 eexists; split; vm_compute; reflexivity).
    destruct H as (t & o' & r' & H & Ht). exists k', t, o', r'. split; [|exact Ht].
    rewrite E in H |- *. cbn [snd] in H. rewrite H. reflexivity.
Defined.

Definition demo_post_only : OrderActionPayload :=
  MkPayload "place" 9 "BTC/USDT" 1 "buy" "post_only" (Some (f_of_Z 101)) None (f_of_Z 1) false None None None None None 0.
Lemma rejected_order_untouched_witness :
  let r := handle_place demo_post_only demo_asks_worker in
  (exists res, r.2 = inr res /\ ar_outcome res = "post_only_cross") /\
  db (world r.1) = db (world demo_asks_worker).
Proof.
  intros r. assert (H : exists res, r.2 = inr res /\ ar_outcome res = "post_only_cross" /\ ar_rejected res = true)
    by (eexists; split; [vm_compute; reflexivity|split; vm_compute; reflexivity]).
  destruct H as (res & E & Ho & Hr). split; [exists res; split; [exact E|exact Ho]|].
  apply (rejected_order_untouched (RS := MemRedisSpec) demo_post_only demo_asks_worker r.1 res);
    [rewrite <- E; apply surjective_pairing|exact Hr].
Defined.

Definition demo_buy_usd : OrderActionPayload :=
  MkPayload "place" 9 "BTCUSD" 1 "buy" "limit" (Some (f_of_Z 10)) None (f_of_Z 1) false None None None None None 0.
Lemma refund_frees_every_lock_witness :
  exists w' b', refund_market_buy_leftover demo_buy_usd demo_exchange = (w', inr tt) /\
    dunits (available_balance b') = dunits (dec_of_Z 100).
Proof.
  destruct (refund_frees_every_lock (R := MemRedis) demo_buy_usd demo_exchange demo_pair demo_balance)
    as (w' & b' & E & _ & _ & Ha & _).
  - reflexivity.
  - cbn [demo_exchange db balances]. apply map_Forall_singleton. split; [reflexivity|apply demo_balance_ok].
  - reflexivity.
  - vm_compute. reflexivity.
  - exists w', b'. split; [exact E|exact Ha].
Defined.

Lemma insert_resting_taker_correct_witness :
  exists w', insert_resting_taker demo_buy_usd (f_of_Z 1) demo_exchange = (w', inr tt) /\
    represents (view (RedisSpec := MemRedisSpec) (redis w')) {[ 9 := (1, "BTCUSD") ]}.
Proof.
  destruct (dec_of_float (f_of_Z 10)) as [d|] eqn:Ed; [|exfalso; vm_compute in Ed; discriminate Ed].
  destruct (encode_score (f_of_dec d) 1) as [e|score] eqn:Es.
  { exfalso. vm_compute in Ed. injection Ed as <-. vm_compute in Es. discriminate Es. }
  destruct (insert_resting_taker_correct (RS := MemRedisSpec) demo_buy_usd (f_of_Z 1) demo_exchange (f_of_Z 10) d
    (bids_key "BTCUSD") score ∅) as (w' & E & _ & _ & _ & _ & _ & Hr).
  - reflexivity.
  - vm_compute. reflexivity.
  - exact Ed.
  - reflexivity.
  - exact Es.
  - reflexivity.
  - exact represents_empty.
  - left. reflexivity.
  - exists w'. split; [exact E|exact Hr].
Defined.
