(* ===== verification/WorkerLoop.v ===== *)
(** * The worker's loop loses no action

    Whatever an action does, it only appends to the orders queue; so one
    iteration of the loop takes the oldest item, processes it or, when that
    raises, appends it to the dead-letter queue with its error, and never
    raises.  Iterations therefore serve the queue in order of arrival. *)

From Stdlib Require Import ZArith Lia Bool SpecFloat.
From stdpp Require Import base tactics option list strings gmap sets.
From S2P Require Import Prelude Float64 PyDecimal Models Engine RedisIface OrderBook Queues OrdersIndex World Pubsub Balance OrderRepo OrderService OrderSpec CancelSpec BulkSpec Bridge Trade Worker WorkerSpec.
#[local] Open Scope Z_scope.

Section Growth.
Context {R : Redis} {RS : RedisSpec R} {P : PgNumeric} {I : Interference}.
Context (base : list jval).

(** The queue still starts with [base]. *)
Definition grows (st : rstate) : Prop := exists new, fifo ORDERS_QUEUE st = base ++ new.

Lemma grows_modify (f : rstate -> rstate) :
  (forall st, ks_list (view (f st)) ORDERS_QUEUE = ks_list (view st) ORDERS_QUEUE) -> keeps (E := exn) grows (modify f).
Proof. intros H st [new Hn]. exists new. unfold fifo in *. by rewrite H. Qed.

Lemma grows_zadd k m s : keeps grows (zadd k m s).
Proof. apply grows_modify. intros st. by rewrite zadd_view. Qed.
Lemma grows_zrem k m : keeps grows (zrem k m).
Proof.
  intros st [new Hn]. unfold zrem. exists new. unfold fifo in *. by rewrite zrem_view.
Qed.
Lemma grows_hset k fs : keeps grows (hset k fs).
Proof. apply grows_modify. intros st. by rewrite hset_view. Qed.
Lemma grows_sadd k m : keeps grows (sadd k m).
Proof. apply grows_modify. intros st. by rewrite sadd_view. Qed.
Lemma grows_srem k m : keeps grows (srem k m).
Proof. apply grows_modify. intros st. by rewrite srem_view. Qed.
Lemma grows_publish c m : keeps grows (publish c m).
Proof. apply grows_modify. intros st. by rewrite publish_view. Qed.
Lemma grows_incr k : keeps grows (incr k).
Proof.
  intros st [new Hn]. unfold incr. pose proof (incr_view k st) as [Hv _]. destruct (r_incr k st) as [st' n].
  exists new. unfold fifo in *. cbn in Hv. by rewrite Hv.
Qed.
Lemma grows_lpush k x : keeps grows (lpush k x).
Proof.
  intros st [new Hn]. unfold lpush, modify, grows. destruct (decide (k = ORDERS_QUEUE)) as [->|Hk].
  - exists (new ++ [x]). by rewrite fifo_lpush, Hn, app_assoc.
  - exists new. unfold fifo in *. by rewrite lpush_view, ks_list_upd_ne by done.
Qed.
Lemma grows_del_hash oid : keeps grows (del (order_hash_key oid)).
Proof.
  intros st [new Hn]. unfold del. exists new. unfold fifo, ks_list in *. rewrite del_view. cbn.
  by rewrite lookup_delete_ne.
Qed.
Lemma grows_reads {A} (m : rprog A) : reads m -> keeps grows m.
Proof. intros H st Hst. specialize (H st). destruct (m st) as [st' [e|a]]; cbn in H; by subst. Qed.
Lemma grows_lift_exn {A} (r : exn + A) : keeps grows (lift_exn r).
Proof. intros st Hst. by destruct r. Qed.
End Growth.
#[local] Hint Resolve grows_zadd grows_zrem grows_hset grows_sadd grows_srem grows_publish grows_incr grows_lpush
  grows_del_hash grows_lift_exn : keeps.

Section GrowthOps.
Context {R : Redis} {RS : RedisSpec R} {P : PgNumeric} {I : Interference}.
Context (base : list jval).
Abbreviation wgrows := (fun w : World => grows base (redis w)).

Lemma grows_hset_flat k fs : keeps (grows base) (hset_flat k fs).
Proof. unfold hset_flat. keeps_tac. Qed.
Hint Resolve grows_hset_flat : keeps.
Lemma grows_add_resting oid symbol side price m : keeps (grows base) (add_resting_order oid symbol side price m).
Proof. unfold add_resting_order, next_seq. keeps_tac. Qed.
Lemma grows_remove_resting oid symbol side : keeps (grows base) (remove_resting_order oid symbol side).
Proof. unfold remove_resting_order. keeps_tac. Qed.

Lemma wgrows_on_redis {A} (m : rprog A) : keeps (grows base) m -> keeps wgrows (on_redis m).
Proof. intros H w Hw. unfold on_redis. specialize (H (redis w) Hw). by destruct (m (redis w)) as [st [e|a]]. Qed.
Lemma wgrows_from_db {A} (f : Database -> A) : keeps wgrows (from_db f).
Proof. by intros w. Qed.
Lemma wgrows_update_db f : keeps wgrows (update_db f).
Proof. intros w Hw. exact Hw. Qed.
Lemma wgrows_lift {A} (r : exn + A) : keeps wgrows (lift r).
Proof. intros w Hw. by destruct r. Qed.
Lemma wgrows_require {A} e (o : option A) : keeps wgrows (require e o).
Proof. intros w Hw. by destruct o. Qed.
Lemma wgrows_transaction {A} (m : wprog A) : keeps wgrows m -> keeps wgrows (transaction m).
Proof. intros H w Hw. unfold transaction. specialize (H w Hw). by destruct (m w) as [w' [e|a]]. Qed.
Hint Resolve wgrows_on_redis wgrows_from_db wgrows_update_db wgrows_lift wgrows_require grows_add_resting
  grows_remove_resting : keeps.
Hint Extern 1 (keeps _ (transaction _)) => apply wgrows_transaction : keeps.

Lemma wgrows_publish_event channel ev data : keeps wgrows (publish_event channel ev data).
Proof. unfold publish_event. keeps_tac. Qed.
Hint Resolve wgrows_publish_event : keeps.
Lemma wgrows_pessimistic op b amount change reason oid : keeps wgrows (pessimistic op b amount change reason oid).
Proof. unfold pessimistic, write_balance, publish_balance, publish_balance_update. keeps_tac. Qed.
Hint Resolve wgrows_pessimistic : keeps.

Lemma wgrows_settle_trade side is_taker o q v b qa : keeps wgrows (settle_trade_balances side is_taker o q v b qa).
Proof.
  unfold settle_trade_balances, exchange, get_for_update, settle_row, credit_row, settle_pessimistic, credit_pessimistic.
  destruct is_taker, side; keeps_tac.
Qed.
Lemma wgrows_update_maker mo : keeps wgrows (update_redis_maker mo).
Proof.
  unfold update_redis_maker, delete_order_hash, remove_open_order, update_order_hash_fields.
  destruct (bool_decide _); [|apply wgrows_on_redis; keeps_tac].
  apply keeps_bind; [apply wgrows_on_redis; keeps_tac|]. intros _.
  apply keeps_bind; [apply wgrows_on_redis; keeps_tac|]. intros _. apply wgrows_on_redis. keeps_tac.
Qed.
Lemma wgrows_activate o : keeps wgrows (activate_sltp_children o).
Proof.
  unfold activate_sltp_children, activate_child, list_children_by_parent, write_order, publish_sl_tp_activated,
    enqueue, enqueue_order_action. keeps_tac.
Qed.
Hint Resolve wgrows_settle_trade wgrows_update_maker wgrows_activate : keeps.
Lemma wgrows_publish_trades symbol i ts : keeps wgrows (publish_trades symbol i ts).
Proof.
  revert i. induction ts as [|t ts IH]; intros i; cbn [publish_trades]; [apply keeps_ret|].
  apply keeps_bind; [apply wgrows_publish_event|]. intros _. apply IH.
Qed.
Hint Resolve wgrows_publish_trades : keeps.
Lemma wgrows_persist ts uid oid side symbol b q : keeps wgrows (persist_trade_batch ts uid oid side symbol b q).
Proof.
  unfold persist_trade_batch, settle_batch, settle_maker, settle_taker, get_order_for_update, write_order, publish_fill,
    publish_order_update. keeps_tac.
Qed.
Hint Resolve wgrows_persist : keeps.

Lemma wgrows_enrich symbol ts : keeps wgrows (enrich symbol ts).
Proof.
  induction ts as [|t ts IH]; cbn [enrich]; [apply keeps_ret|].
  apply keeps_bind; [apply wgrows_on_redis; unfold get_order_hash, hgetall; keeps_tac|]. intros h.
  apply keeps_bind; [keeps_tac|]. intros u. apply keeps_bind; [keeps_tac|]. intros d.
  apply keeps_bind; [exact IH|]. intros rest. apply keeps_ret.
Qed.
Hint Resolve wgrows_enrich : keeps.
Lemma wgrows_settle_match p ts : keeps wgrows (settle_match p ts).
Proof. unfold settle_match, get_by_symbol. apply wgrows_transaction. keeps_tac. Qed.
Lemma wgrows_book_delta symbol : keeps wgrows (publish_orderbook_delta symbol).
Proof.
  unfold publish_orderbook_delta, publish_orderbook_snapshot. apply keeps_bind; [|intros; apply wgrows_publish_event].
  apply wgrows_on_redis, grows_reads. intros st. apply CancelSpec.get_book_snapshot_state.
Qed.
Lemma wgrows_insert_resting p rem : keeps wgrows (insert_resting_taker p rem).
Proof. unfold insert_resting_taker, store_order_hash, add_open_order. keeps_tac. apply wgrows_on_redis. keeps_tac. Qed.
Lemma wgrows_refund p : keeps wgrows (refund_market_buy_leftover p).
Proof. unfold refund_market_buy_leftover, get_by_symbol, get_for_update, unlock_pessimistic. apply wgrows_transaction. keeps_tac. Qed.
Hint Resolve wgrows_settle_match wgrows_book_delta wgrows_insert_resting wgrows_refund : keeps.

Lemma handle_place_grows p : keeps (fun k => grows base (redis (world k))) (handle_place p).
Proof.
  unfold handle_place. apply keeps_bind.
  { intros k Hk. pose proof (match_payload_world p k) as H. destruct (match_payload p k) as [k' [e|a]]; cbn in H; by rewrite H. }
  intros [[ts out] rem]. assert (Hw : forall A (m : wprog A), keeps wgrows m -> keeps (fun k => grows base (redis (world k))) (in_world m)).
  { intros A m Hm k Hk. unfold in_world. specialize (Hm (world k) Hk). by destruct (m (world k)) as [w [e|a]]. }
  apply Hw. unfold publish_rejection, publish_order_update, after_settlement. keeps_tac.
Qed.

Lemma process_action_grows p : keeps (fun k => grows base (redis (world k))) (process_action p).
Proof.
  unfold process_action. destruct (String.eqb _ _); [apply keeps_ret|]. destruct (String.eqb _ _); [apply keeps_ret|].
  apply handle_place_grows.
Qed.
End GrowthOps.

(** ** One iteration *)

Section Loop.
Context {R : Redis} {RS : RedisSpec R} {P : PgNumeric} {I : Interference}.
Variable str_of_exn : exn -> string.

Definition orders_of (k : MatchingWorker) : list jval := fifo ORDERS_QUEUE (redis (world k)).
Definition deadletters_of (k : MatchingWorker) : list jval := fifo DEADLETTER_QUEUE (redis (world k)).
Definition deadletter (now : Z) (item : jval) (e : exn) : jval :=
  JObj [("queue", JStr ORDERS_QUEUE); ("original", item); ("error", JStr (str_of_exn e)); ("ts", JInt now)].

(** The item was processed, or the exception and the item are in the dead-letter
    queue. *)
Definition handled (item : jval) (k1 k' : MatchingWorker) : Prop :=
  (exists p res, from_dict item = Some p /\ process_action p k1 = (k', inr res)) \/
  (exists k2 e, deadletters_of k' = deadletters_of k2 ++ [deadletter (now_ms (world k2)) item e] /\
     (from_dict item = None /\ k2 = k1 \/ exists p, from_dict item = Some p /\ process_action p k1 = (k2, inl e))).

(** The handler of [start]. *)
Definition to_deadletter (item : jval) (e : exn) : prog MatchingWorker exn unit :=
  now ← gets (fun k => now_ms (world k));
  in_world (on_redis (enqueue_deadletter now item (str_of_exn e) ORDERS_QUEUE)).

Lemma to_deadletter_spec base item e k2 : grows base (redis (world k2)) ->
  exists k', to_deadletter item e k2 = (k', inr tt) /\
    deadletters_of k' = deadletters_of k2 ++ [deadletter (now_ms (world k2)) item e] /\
    grows base (redis (world k')).
Proof.
  intros Hg. eexists. split; [reflexivity|]. unfold deadletters_of. cbn [world redis]. split.
  - apply fifo_lpush.
  - exact (grows_lpush base DEADLETTER_QUEUE _ _ Hg).
Qed.

Lemma worker_step_cases k :
  exists k', worker_step str_of_exn k = (k', inr tt) /\
    match orders_of k with
    | [] => orders_of k' = [] /\ db (world k') = db (world k)
    | item :: rest =>
        exists k1, db (world k1) = db (world k) /\ orders_of k1 = rest /\ engine k1 = engine k /\
          handled item k1 k' /\ exists new, orders_of k' = rest ++ new
    end.
Proof.
  unfold worker_step, brpop_order_action, rpop, orders_of.
  pose proof (fifo_rpop ORDERS_QUEUE (redis (world k))) as Hp.
  destruct (r_rpop ORDERS_QUEUE (redis (world k))) as [st raw] eqn:Er. destruct Hp as [-> Hq].
  set (k1 := MkWorker (engine k) (MkWorld (db (world k)) st (now_ms (world k)))).
  rewrite (bind_inr _ _ k k1 (head (fifo ORDERS_QUEUE (redis (world k))))).
  2:{ unfold in_world, on_redis. by rewrite Er. }
  destruct (fifo ORDERS_QUEUE (redis (world k))) as [|item rest]; cbn [head tail] in *.
  { exists k1. done. }
  fold (to_deadletter item).
  assert (Hg1 : grows rest (redis (world k1))) by (exists []; by rewrite app_nil_r).
  assert (Hdone : forall k2 e, (from_dict item = None /\ k2 = k1 \/
      exists p, from_dict item = Some p /\ process_action p k1 = (k2, inl e)) -> grows rest (redis (world k2)) ->
    exists k', to_deadletter item e k2 = (k', inr tt) /\ exists k0, db (world k0) = db (world k) /\
      fifo ORDERS_QUEUE (redis (world k0)) = rest /\ engine k0 = engine k /\ handled item k0 k' /\
      exists new, fifo ORDERS_QUEUE (redis (world k')) = rest ++ new).
  { intros k2 e Hc Hg2. destruct (to_deadletter_spec rest item e k2 Hg2) as (k' & E & Hd & Hg').
    exists k'. split; [done|]. exists k1. split_and!; try done. right. by exists k2, e. }
  unfold try_except. destruct (from_dict item) as [p|] eqn:Ef.
  - rewrite (bind_inr (in_world (require (KeyError "payload") (Some p))) _ k1 k1 p eq_refl).
    pose proof (process_action_grows rest p k1 Hg1) as Hg. unfold mbind, prog_bind.
    destruct (process_action p k1) as [k2 [e|res]] eqn:Ep.
    + apply Hdone; [|done]. right. by exists p.
    + exists k2. split; [done|]. exists k1. split_and!; try done. left. by exists p, res.
  - rewrite (bind_inl (in_world (require (KeyError "payload") None)) _ k1 k1 (KeyError "payload") eq_refl).
    apply Hdone; [by left|done].
Qed.
(** one iteration of the worker's loop never raises.  On an empty queue it
    leaves the database as it was; otherwise it takes exactly the oldest item,
    keeps every other item in order with whatever the action enqueued behind
    them, and the item is either processed to the end or written to the
    dead-letter queue together with the error that stopped it. *)
Theorem worker_step_loses_nothing k :
  exists k', worker_step str_of_exn k = (k', inr tt) /\
    match orders_of k with
    | [] => orders_of k' = [] /\ db (world k') = db (world k)
    | item :: rest =>
        exists k1, db (world k1) = db (world k) /\ orders_of k1 = rest /\ engine k1 = engine k /\
          handled item k1 k' /\ exists new, orders_of k' = rest ++ new
    end.
Proof. apply worker_step_cases. Qed.

(** Items served one after the other, oldest first; between two of them the
    queue only grows at its end. *)
Inductive served : list jval -> MatchingWorker -> MatchingWorker -> Prop :=
  | served_nil k : served [] k k
  | served_cons item items k k1 k2 k' : db (world k1) = db (world k) -> engine k1 = engine k ->
      handled item k1 k2 -> served items k2 k' -> served (item :: items) k k'.

(** the worker serves its queue in order of arrival: from any state, [n]
    iterations of the loop never raise and handle exactly the [n] oldest items,
    each once and in order; the items behind them keep their places.  So every queued action
    is reached after as many iterations as there are items before it. *)
Theorem worker_serves_in_order n k : (n <= length (orders_of k))%nat ->
  exists k' new, worker_run str_of_exn n k = (k', inr tt) /\ served (take n (orders_of k)) k k' /\
    orders_of k' = drop n (orders_of k) ++ new.
Proof.
  revert k. induction n as [|n IH]; intros k Hn; cbn [worker_run].
  { exists k, []. split; [done|]. split; [constructor|]. by rewrite app_nil_r. }
  destruct (worker_step_cases k) as (k2 & E & H). rewrite (bind_inr _ _ _ _ _ E).
  destruct (orders_of k) as [|item rest]; [cbn in Hn; lia|]. cbn in Hn.
  destruct H as (k1 & Hd & Hq & He & Hh & new & Hn2).
  destruct (IH k2) as (k' & new' & E' & Hs & Hq'); [rewrite Hn2, length_app; lia|].
  rewrite Hn2 in Hs, Hq'. rewrite take_app_le in Hs by lia. rewrite drop_app_le in Hq' by lia.
  exists k', (new ++ new'). split; [done|]. split; [by econstructor|]. cbn [drop]. by rewrite Hq', app_assoc.
Qed.
End Loop.

(** Two items that are not payloads. *)
Definition demo_broken_queue : MatchingWorker (R := MemRedis) :=
  MkWorker new_engine (MkWorld (db demo_exchange) (r_lpush ORDERS_QUEUE (JInt 2) (r_lpush ORDERS_QUEUE JNull empty_keyspace)) 1).
Lemma worker_serves_in_order_witness :
  exists k' new, worker_run (fun _ => "error") 2 demo_broken_queue = (k', inr tt) /\
    orders_of (RS := MemRedisSpec) k' = new.
Proof.
  destruct (worker_serves_in_order (RS := MemRedisSpec) (fun _ => "error") 2
    demo_broken_queue) as (k' & new & E & _ & Hq).
  - vm_compute. lia.
  - exists k', (drop 2 (orders_of (RS := MemRedisSpec) demo_broken_queue) ++ new). split; [exact E|exact Hq].
Defined.
