(* ===== verification/WorkerStart.v ===== *)
(** * The worker's life: start, stop and the connections of
      app/matching/worker.py

    The loop of [start] around [process_action], with everything that can go
    wrong at its awaits: BRPOP fails or returns a text that is not JSON, the
    connection is lost inside an action, the dead letter cannot be written, the
    task is cancelled, [stop] is called meanwhile.  A round says what happened at
    its awaits; without incidents the loop is [worker_run], so what WorkerLoop
    proves holds of [start]. *)

From Stdlib Require Import ZArith Lia Bool SpecFloat.
From stdpp Require Import base tactics option list strings gmap sets.
From S2P Require Import Prelude Float64 PyDecimal Models Engine RedisIface OrderBook Queues OrdersIndex World Pubsub Balance OrderRepo OrderService OrderSpec CancelSpec BulkSpec Bridge Trade Worker WorkerSpec WorkerLoop.
#[local] Open Scope Z_scope.

Section Life.
Context {R : Redis} {RS : RedisSpec R} {P : PgNumeric} {I : Interference}.
Variable str_of_exn : exn -> string.

(** ** The worker and its connection *)

(** Cancellation, the errors of a connection (redis-py's ConnectionError and
    TimeoutError, OSError), and every other exception. *)
Inductive life_exn := Cancelled | ConnectionLost | Raised (e : exn).

(** [_brpop_redis] is the dedicated connection by number; [open_connections] are
    the ones nobody closed.  [payload_dict] is the local variable of [start]. *)
Record WorkerLife := MkLife {
  matching : MatchingWorker;
  is_running : bool;
  brpop_redis : option Z;
  open_connections : gset Z;
  next_connection : Z;
  payload_dict : option jval
}.
Abbreviation lprog := (prog WorkerLife life_exn).
Abbreviation reply A := (life_exn + A)%type.

Definition reply_of {A} (o : reply A) : lprog A := fun l => (l, o).
Definition with_matching (k : MatchingWorker) (l : WorkerLife) : WorkerLife :=
  MkLife k (is_running l) (brpop_redis l) (open_connections l) (next_connection l) (payload_dict l).
Definition in_matching {A} (m : prog MatchingWorker exn A) : lprog A := fun l =>
  let '(k, r) := m (matching l) in
  (with_matching k l, match r with inl e => inl (Raised e) | inr a => inr a end).
Definition set_running (b : bool) : lprog unit :=
  modify (fun l => MkLife (matching l) b (brpop_redis l) (open_connections l) (next_connection l) (payload_dict l)).
Definition set_payload (v : jval) : lprog unit :=
  modify (fun l => MkLife (matching l) (is_running l) (brpop_redis l) (open_connections l) (next_connection l) (Some v)).
(** [except Exception: pass] *)
Definition swallow (m : lprog unit) : lprog unit :=
  try_except m (fun e => match e with Cancelled => raise e | _ => mret tt end).

(** [aclose()] of the dedicated connection, if there is one. *)
Definition close_brpop (closing : reply unit) : lprog unit :=
  c ← gets brpop_redis;
  match c with
  | Some n =>
      swallow (_ ← reply_of closing;
               modify (fun l => MkLife (matching l) (is_running l) (brpop_redis l) (open_connections l ∖ {[n]})
                                  (next_connection l) (payload_dict l)))
  | None => mret tt
  end.
Definition init_brpop_connection (closing : reply unit) : lprog unit :=
  _ ← close_brpop closing;
  modify (fun l => MkLife (matching l) (is_running l) (Some (next_connection l))
                     ({[next_connection l]} ∪ open_connections l) (next_connection l + 1) (payload_dict l)).
Definition stop (closing : reply unit) : lprog unit :=
  _ ← set_running false;
  _ ← close_brpop closing;
  modify (fun l => MkLife (matching l) (is_running l) None (open_connections l) (next_connection l) (payload_dict l)).

(** [_wait_for_redis]: the number of attempts made.  The pings and the sleeps
    are those of each attempt. *)
Fixpoint wait_from (attempt : Z) (tries : nat) (pings : Z -> reply bool) (sleeps : Z -> reply unit) : lprog Z :=
  match tries with
  | O => mret (attempt - 1)
  | S tries =>
      c ← gets brpop_redis;
      up ← try_except
             (match c with Some _ => reply_of (pings attempt) | None => mret false end)
             (fun e => match e with Cancelled => raise e | _ => mret false end);
      if up : bool then mret attempt
      else _ ← reply_of (sleeps attempt); wait_from (attempt + 1) tries pings sleeps
  end.
Definition max_attempts : nat := 30.
Definition wait_for_redis := wait_from 1 max_attempts.

(** ** The loop *)

(** What BRPOP gives: the oldest item of the queue or nothing, a text that some
    other producer pushed and that is not JSON, or an error. *)
Inductive popped := FromQueue | NotJson (text : string) | PopFails (e : life_exn).
Record WorkerRound := MkWorkerRound {
  stopping : option (reply unit);                                       (* [stop] is called during BRPOP *)
  popping : popped;
  interrupted : option ((MatchingWorker -> MatchingWorker) * life_exn); (* the action gets so far, and raises *)
  deadlettering : reply unit;
  pause : reply unit;
  reclosing : reply unit
}.

(** The action, or what was done of it when the connection was lost. *)
Definition act (rd : WorkerRound) (p : OrderActionPayload) : lprog unit :=
  match interrupted rd with
  | Some (done_so_far, e) => _ ← modify (fun l => with_matching (done_so_far (matching l)) l); raise e
  | None => _ ← in_matching (process_action p); mret tt
  end.
Definition pop (rd : WorkerRound) : lprog (option (string + jval)) :=
  match popping rd with
  | FromQueue => item ← in_matching (in_world (on_redis brpop_order_action)); mret (inr <$> item)
  | NotJson text => mret (Some (inl text))
  | PopFails e => raise e
  end.
(** [json.loads], [from_dict] and the action. *)
Definition take_item (rd : WorkerRound) (raw : option (string + jval)) : lprog unit :=
  match raw with
  | None => mret tt
  | Some (inl _) => raise (Raised (ValueError "Expecting value"))
  | Some (inr payload) =>
      _ ← set_payload payload;
      p ← in_matching (in_world (require (KeyError "payload") (from_dict payload)));
      act rd p
  end.
Definition write_deadletter (rd : WorkerRound) (e : exn) : lprog unit :=
  payload ← gets payload_dict;
  _ ← reply_of (deadlettering rd);
  in_matching (to_deadletter str_of_exn (default (JObj []) payload) e).
(** One turn of [while self._running]: whether the loop is left. *)
Definition start_round (rd : WorkerRound) : lprog bool :=
  running ← gets is_running;
  if negb running then mret true
  else
    _ ← (match stopping rd with Some closing => stop closing | None => mret tt end);
    try_except (raw ← pop rd; _ ← take_item rd raw; mret false)
      (fun e => match e with
                | Cancelled => mret true
                | ConnectionLost => _ ← reply_of (pause rd); _ ← init_brpop_connection (reclosing rd); mret false
                | Raised e => _ ← swallow (write_deadletter rd e); _ ← reply_of (pause rd); mret false
                end).
Fixpoint start_loop (rounds : list WorkerRound) : lprog bool :=
  match rounds with
  | [] => mret false
  | rd :: rounds => leave ← start_round rd; if leave : bool then mret true else start_loop rounds
  end.
Definition start (closing : reply unit) (pings : Z -> reply bool) (sleeps : Z -> reply unit) (rounds : list WorkerRound)
    : lprog bool :=
  _ ← set_running true;
  _ ← init_brpop_connection closing;
  _ ← wait_for_redis pings sleeps;
  start_loop rounds.

(** ** Waiting for Redis *)

Definition not_cancelled {A} (o : reply A) : Prop := o <> inl Cancelled.
Lemma wait_from_spec pings sleeps l attempt tries n0 : brpop_redis l = Some n0 ->
  (forall i, not_cancelled (pings i)) -> (forall i, sleeps i = inr tt) ->
  exists n, wait_from attempt tries pings sleeps l = (l, inr n) /\
    (forall j, attempt <= j < n -> pings j <> inr true) /\
    (attempt <= n < attempt + Z.of_nat tries /\ pings n = inr true \/ n = attempt + Z.of_nat tries - 1 /\ pings n <> inr true \/ tries = O).
Proof.
  intros Hc Hp Hs. revert attempt. induction tries as [|tries IH]; intros attempt; cbn [wait_from].
  { exists (attempt - 1). split; [done|]. split; [lia|by right; right]. }
  rewrite (bind_inr (gets brpop_redis) _ l l (Some n0)) by (unfold gets; by rewrite Hc).
  rewrite (bind_inr (try_except _ _) _ l l (match pings attempt with inr b => b | inl _ => false end)).
  2:{ unfold try_except, reply_of. specialize (Hp attempt). destruct (pings attempt) as [[| |e]|b]; try done. }
  destruct (pings attempt) as [e|[|]] eqn:E.
  2:{ exists attempt. split; [done|]. split; [lia|]. left. split; [lia|done]. }
  all: unfold reply_of at 1; rewrite Hs; rewrite (bind_inr (reply_of (inr tt)) _ l l tt eq_refl).
  all: destruct (IH (attempt + 1)) as (n & En & Hlt & Hn); exists n; split; [exact En|].
  all: assert (Hf : forall j, attempt <= j < n -> pings j <> inr true)
    by (intros j Hj; destruct (decide (j = attempt)) as [->|]; [congruence|apply Hlt; lia]).
  all: split; [exact Hf|].
  all: destruct Hn as [[Hn Hu]|[[Hn Hu]| ->]]; [left; split; [lia|done]|right; left; split; [lia|done]|].
  all: cbn [wait_from] in En; injection En as <-; right; left; split; [lia|].
  all: replace (attempt + 1 - 1) with attempt by lia; congruence.
Qed.
(** The wait is over after at most 30 pings: at the first that is answered or,
    Redis still being down, after the last. *)
Theorem wait_for_redis_correct pings sleeps l n0 : brpop_redis l = Some n0 ->
  (forall i, not_cancelled (pings i)) -> (forall i, sleeps i = inr tt) ->
  exists n, wait_for_redis pings sleeps l = (l, inr n) /\ 1 <= n <= 30 /\
    (forall j, 1 <= j < n -> pings j <> inr true) /\ (pings n = inr true \/ n = 30).
Proof.
  intros Hc Hp Hs. destruct (wait_from_spec pings sleeps l 1 max_attempts n0 Hc Hp Hs) as (n & E & Hlt & Hn).
  exists n. split; [exact E|]. unfold max_attempts in Hn. destruct Hn as [[Hn Hu]|[[Hn Hu]|[=]]]; split_and!; try lia; auto.
Qed.

(** ** Without incidents, [start] is the loop of WorkerLoop *)

Definition undisturbed (rd : WorkerRound) : Prop :=
  stopping rd = None /\ popping rd = FromQueue /\ interrupted rd = None /\ deadlettering rd = inr tt /\ pause rd = inr tt.

(** What a round leaves alone. *)
Definition after_round (k : MatchingWorker) (v : option jval) (l : WorkerLife) : WorkerLife :=
  MkLife k (is_running l) (brpop_redis l) (open_connections l) (next_connection l) v.

Lemma deadletter_round rd e l v : deadlettering rd = inr tt -> pause rd = inr tt -> payload_dict l = Some v ->
  (_ ← swallow (write_deadletter rd e); _ ← reply_of (pause rd); mret false) l =
  (with_matching (to_deadletter str_of_exn v e (matching l)).1 l, inr false).
Proof.
  intros Hd Hp Hv. rewrite (bind_inr _ _ l (with_matching (to_deadletter str_of_exn v e (matching l)).1 l) tt).
  { by rewrite Hp. }
  unfold swallow, try_except, write_deadletter. rewrite Hd.
  rewrite (bind_inr (gets payload_dict) _ l l (Some v)) by (unfold gets; by rewrite Hv).
  by rewrite (bind_inr (reply_of (inr tt)) _ l l tt eq_refl).
Qed.

Lemma pop_queue rd l : popping rd = FromQueue ->
  exists k1 raw, in_world (on_redis brpop_order_action) (matching l) = (k1, inr raw) /\
    pop rd l = (with_matching k1 l, inr (inr <$> raw)).
Proof.
  intros H. unfold pop. rewrite H. destruct (in_world (on_redis brpop_order_action) (matching l)) as [k1 [e|raw]] eqn:Ep.
  { unfold in_world, on_redis, brpop_order_action, rpop in Ep. by destruct (r_rpop ORDERS_QUEUE (redis (world (matching l)))). }
  exists k1, raw. split; [done|]. unfold mbind, prog_bind, in_matching. by rewrite Ep.
Qed.
(** A JSON item that is parsed, or not, and processed. *)
Lemma take_item_json rd item l : interrupted rd = None ->
  let l1 := after_round (matching l) (Some item) l in
  take_item rd (Some (inr item)) l =
    match from_dict item with
    | None => (l1, inl (Raised (KeyError "payload")))
    | Some p => match process_action p (matching l) with
                | (k2, inl e) => (with_matching k2 l1, inl (Raised e))
                | (k2, inr _) => (with_matching k2 l1, inr tt)
                end
    end.
Proof.
  intros H. destruct l as [[en w] b c o n v]. intros l1. cbn [matching] in *. unfold take_item, act. rewrite H.
  rewrite (bind_inr (set_payload item) _ (MkLife (MkWorker en w) b c o n v) l1 tt eq_refl). destruct (from_dict item) as [p|]; [|done].
  rewrite (bind_inr (in_matching (in_world (require (KeyError "payload") (Some p)))) _ l1 l1 p eq_refl). unfold mbind, prog_bind, in_matching.
  change (matching l1) with (MkWorker en w). by destruct (process_action p (MkWorker en w)) as [k2 [e|res]].
Qed.
(** The handlers of [start]. *)
Lemma start_round_cases rd l l1 r : is_running l = true -> stopping rd = None ->
  (raw ← pop rd; take_item rd raw) l = (l1, r) ->
  start_round rd l =
    match r with
    | inr _ => (l1, inr false)
    | inl Cancelled => (l1, inr true)
    | inl ConnectionLost => (_ ← reply_of (pause rd); _ ← init_brpop_connection (reclosing rd); mret false) l1
    | inl (Raised e) => (_ ← swallow (write_deadletter rd e); _ ← reply_of (pause rd); mret false) l1
    end.
Proof.
  intros Hr Hs E. unfold start_round.
  rewrite (bind_inr (gets is_running) _ l l true) by (unfold gets; by rewrite Hr). cbn [negb]. rewrite Hs.
  rewrite (bind_inr (mret tt) _ l l tt eq_refl). unfold try_except.
  assert (E' : (raw ← pop rd; _ ← take_item rd raw; mret false) l =
    (l1, match r with inl e => inl e | inr _ => inr false end)).
  { revert E. unfold mbind, prog_bind. destruct (pop rd l) as [l0 [e|raw]]; [by intros [= <- <-]|]. intros ->. by destruct r. }
  rewrite E'. by destruct r as [[| |e]|].
Qed.

Lemma start_round_step rd l : is_running l = true -> undisturbed rd -> exists v,
  start_round rd l = (after_round (worker_step str_of_exn (matching l)).1 v l, inr false).
Proof.
  intros Hr (H1 & H2 & H3 & H4 & H5). destruct (pop_queue rd l H2) as (k1 & raw & Ek & Ep).
  unfold worker_step. rewrite (bind_inr _ _ _ _ _ Ek). destruct raw as [item|]; cbn [fmap option_fmap option_map] in Ep.
  2:{ exists (payload_dict l). by rewrite (start_round_cases rd l _ (inr tt) Hr H1 (bind_inr _ _ _ _ _ Ep)). }
  exists (Some item). pose proof (bind_inr _ (take_item rd) _ _ _ Ep) as E. rewrite take_item_json in E by done.
  clear Ep Ek. cbn [matching with_matching] in E. unfold try_except. destruct (from_dict item) as [p|].
  - rewrite (bind_inr (in_world (require (KeyError "payload") (Some p))) _ k1 k1 p) by (by destruct k1).
    unfold mbind, prog_bind. destruct (process_action p k1) as [k2 [e|res]]; rewrite (start_round_cases rd l _ _ Hr H1 E); [|done].
    by rewrite (deadletter_round rd e _ item).
  - rewrite (bind_inl (in_world (require (KeyError "payload") None)) _ k1 k1 (KeyError "payload")) by (by destruct k1).
    rewrite (start_round_cases rd l _ _ Hr H1 E). by rewrite (deadletter_round rd (KeyError "payload") _ item).
Qed.

Lemma worker_run_total n k : exists k', worker_run str_of_exn n k = (k', inr tt).
Proof.
  revert k. induction n as [|n IH]; intros k; cbn [worker_run]; [by exists k|].
  destruct (worker_step_cases str_of_exn k) as (k1 & E & _). rewrite (bind_inr _ _ _ _ _ E). apply IH.
Qed.
Lemma start_loop_run rounds l : is_running l = true -> Forall undisturbed rounds -> exists v,
  start_loop rounds l = (after_round (worker_run str_of_exn (length rounds) (matching l)).1 v l, inr false).
Proof.
  intros Hr Hu. revert l Hr. induction Hu as [|rd rounds Hrd _ IH]; intros l Hr; cbn [start_loop length worker_run].
  { exists (payload_dict l). by destruct l. }
  destruct (start_round_step rd l Hr Hrd) as (v & E). rewrite (bind_inr _ _ _ _ _ E).
  destruct (worker_step_cases str_of_exn (matching l)) as (k1 & Es & _). rewrite (bind_inr _ _ _ _ _ Es), Es. cbn [fst].
  destruct (IH (after_round k1 v l) Hr) as (v' & ->). by exists v'.
Qed.

(** The preamble of [start]: one more connection, and the old one closed. *)
Lemma init_brpop_spec closing l : not_cancelled closing ->
  init_brpop_connection closing l =
    (MkLife (matching l) (is_running l) (Some (next_connection l))
       ({[next_connection l]} ∪ match brpop_redis l, closing with Some n, inr _ => open_connections l ∖ {[n]} | _, _ => open_connections l end)
       (next_connection l + 1) (payload_dict l), inr tt).
Proof.
  intros Hc. destruct l as [k b [c|] o n v]; [|done]. destruct closing as [[| |e]|[]]; done.
Qed.
Lemma start_preamble closing pings sleeps rounds l : not_cancelled closing ->
  (forall i, not_cancelled (pings i)) -> (forall i, sleeps i = inr tt) ->
  exists o, start closing pings sleeps rounds l =
    start_loop rounds (MkLife (matching l) true (Some (next_connection l)) o (next_connection l + 1) (payload_dict l)).
Proof.
  intros Hc Hp Hs. unfold start. eexists.
  set (l0 := MkLife (matching l) true (brpop_redis l) (open_connections l) (next_connection l) (payload_dict l)).
  rewrite (bind_inr (set_running true) _ l l0 tt eq_refl), (bind_inr _ _ _ _ _ (init_brpop_spec closing l0 Hc)).
  set (l1 := MkLife _ _ _ _ _ _).
  destruct (wait_from_spec pings sleeps l1 1 max_attempts (next_connection l) eq_refl Hp Hs) as (n & E & _).
  by rewrite (bind_inr _ _ l1 l1 n E).
Qed.

(** C14: [start] serves the queue in order.  Once Redis was waited for, and as
    long as no connection fails and nobody stops or cancels the worker, [n]
    turns of its loop never raise and do not leave it; they handle exactly the
    [n] oldest items, each once and in order - processed to the end, or in the
    dead-letter queue with the error - and the items behind them keep their
    places.  So every queued action is reached after as many turns as there are
    items before it. *)
Theorem start_serves_in_order closing pings sleeps rounds l : not_cancelled closing ->
  (forall i, not_cancelled (pings i)) -> (forall i, sleeps i = inr tt) -> Forall undisturbed rounds ->
  (length rounds <= length (orders_of (matching l)))%nat ->
  exists l' new, start closing pings sleeps rounds l = (l', inr false) /\ is_running l' = true /\
    served str_of_exn (take (length rounds) (orders_of (matching l))) (matching l) (matching l') /\
    orders_of (matching l') = drop (length rounds) (orders_of (matching l)) ++ new.
Proof.
  intros Hc Hp Hs Hu Hn. destruct (start_preamble closing pings sleeps rounds l Hc Hp Hs) as [o ->].
  set (l1 := MkLife _ _ _ _ _ _). destruct (start_loop_run rounds l1 eq_refl Hu) as (v & E).
  destruct (worker_serves_in_order str_of_exn (length rounds) (matching l) Hn) as (k' & new & Er & Hsv & Hq).
  change (matching l1) with (matching l) in E. rewrite Er in E. by exists (after_round k' v l1), new.
Qed.

(** ** What goes wrong *)

Lemma fifo_lpush_ne queue queue' x st : queue <> queue' -> fifo queue' (r_lpush queue x st) = fifo queue' st.
Proof. intros Hq. unfold fifo. by rewrite lpush_view, ks_list_upd_ne. Qed.
Lemma fifo_rpop_ne queue queue' st : queue <> queue' -> fifo queue' (r_rpop queue st).1 = fifo queue' st.
Proof.
  intros Hq. pose proof (rpop_view queue st) as Hv. destruct (r_rpop queue st) as [st' [x|]]; cbn [fst].
  - destruct Hv as (l & _ & Hv). unfold fifo. by rewrite Hv, ks_list_upd_ne.
  - destruct Hv as [_ Hv]. unfold fifo. by rewrite Hv.
Qed.
(** An action during which the connection is lost is gone: it was popped, and the
    handler of connection errors writes no dead letter.  Here it is lost before
    it had any effect. *)
Theorem interrupted_action_is_lost rd l item rest p : is_running l = true -> stopping rd = None ->
  popping rd = FromQueue -> interrupted rd = Some (id, ConnectionLost) -> pause rd = inr tt -> not_cancelled (reclosing rd) ->
  orders_of (matching l) = item :: rest -> from_dict item = Some p ->
  exists l', start_round rd l = (l', inr false) /\ orders_of (matching l') = rest /\
    db (world (matching l')) = db (world (matching l)) /\ deadletters_of (matching l') = deadletters_of (matching l).
Proof.
  intros Hr Hs Hpop Hi Hpa Hc Hq Hp. destruct (pop_queue rd l Hpop) as (k1 & raw & Ek & Ep).
  assert (Hk : orders_of k1 = rest /\ raw = Some item /\ db (world k1) = db (world (matching l)) /\
    deadletters_of k1 = deadletters_of (matching l)).
  { revert Ek. unfold in_world, on_redis, brpop_order_action, rpop. unfold orders_of, deadletters_of in *.
    pose proof (fifo_rpop ORDERS_QUEUE (redis (world (matching l)))) as Hf.
    pose proof (fifo_rpop_ne ORDERS_QUEUE DEADLETTER_QUEUE (redis (world (matching l)))) as Hv.
    destruct (r_rpop ORDERS_QUEUE (redis (world (matching l)))) as [st x]. intros [= <- <-]. destruct Hf as [-> Hf].
    rewrite Hq in *. split_and!; [done..|]. by apply Hv. }
  destruct Hk as (Hk & -> & Hd & Hdl).
  set (l2 := after_round k1 (Some item) l).
  assert (E : (raw ← pop rd; take_item rd raw) l = (l2, inl ConnectionLost)).
  { rewrite (bind_inr _ _ _ _ _ Ep). cbn [fmap option_fmap option_map]. destruct k1 as [en w], l as [k b c o n v]. unfold take_item, act. rewrite Hi, Hp. reflexivity. }
  rewrite (start_round_cases rd l l2 _ Hr Hs E), Hpa. eexists. split.
  - rewrite (bind_inr (reply_of (inr tt)) _ l2 l2 tt eq_refl), (bind_inr _ _ _ _ _ (init_brpop_spec _ l2 Hc)). reflexivity.
  - by split_and!.
Qed.

(** What is dead-lettered when nothing was parsed in this turn is the payload of
    an earlier one: after a text that is not JSON, or an error of BRPOP, the last
    action that was parsed - which may have been processed to the end - is
    reported under the new error; the text itself is lost. *)
Theorem stale_payload_deadlettered rd l v text : is_running l = true -> stopping rd = None ->
  popping rd = NotJson text -> deadlettering rd = inr tt -> pause rd = inr tt -> payload_dict l = Some v ->
  exists l', start_round rd l = (l', inr false) /\
    deadletters_of (matching l') = deadletters_of (matching l) ++
      [deadletter str_of_exn (now_ms (world (matching l))) v (ValueError "Expecting value")] /\
    orders_of (matching l') = orders_of (matching l).
Proof.
  intros Hr Hs Hpop Hd Hpa Hv.
  assert (E : (raw ← pop rd; take_item rd raw) l = (l, inl (Raised (ValueError "Expecting value"))))
    by (unfold pop; by rewrite Hpop).
  rewrite (start_round_cases rd l l _ Hr Hs E), (deadletter_round rd _ l v) by done. eexists. split; [reflexivity|].
  unfold deadletters_of, orders_of. cbn [matching with_matching to_deadletter]. split; [apply fifo_lpush|].
  by apply (fifo_lpush_ne DEADLETTER_QUEUE ORDERS_QUEUE).
Qed.

(** ** Connections *)

(** Exactly the current connection is open. *)
Definition one_connection (l : WorkerLife) : Prop :=
  (forall n, n ∈ open_connections l -> n < next_connection l) /\
  open_connections l = match brpop_redis l with Some n => {[n]} | None => ∅ end.
Definition closes_well (rd : WorkerRound) : Prop := stopping rd = None /\ reclosing rd = inr tt.

Lemma one_connection_init l : one_connection l -> one_connection (init_brpop_connection (inr tt) l).1.
Proof.
  intros [Hn Ho]. rewrite init_brpop_spec by done. unfold one_connection. cbn. rewrite Ho in *.
  split; [|destruct (brpop_redis l); set_solver]. intros n. destruct (brpop_redis l) as [c|]; [|set_solver by lia].
  intros [->%elem_of_singleton|?]%elem_of_union; [lia|]. assert (n < next_connection l) by (apply Hn; set_solver). lia.
Qed.
Lemma keeps_links_matching {A} (m : prog MatchingWorker exn A) : keeps one_connection (in_matching m).
Proof. intros l Hl. unfold in_matching. by destruct (m (matching l)) as [k [e|a]]. Qed.
Lemma keeps_links_reply {A} (o : reply A) : keeps one_connection (reply_of o).
Proof. intros l Hl. by destruct o. Qed.
#[local] Hint Resolve keeps_links_matching keeps_links_reply : keeps.
(** As long as the old connections close and nobody calls [stop] within a turn,
    the worker holds one dedicated connection. *)
Theorem start_round_one_connection rd : closes_well rd -> keeps one_connection (start_round rd).
Proof.
  intros [Hs Hc]. unfold start_round, pop, take_item, act, set_payload, swallow, write_deadletter. rewrite Hs, Hc.
  assert (Hi : keeps one_connection (init_brpop_connection (inr tt))).
  { intros l Hl. pose proof (one_connection_init l Hl) as H. rewrite init_brpop_spec in H |- * by done. exact H. }
  repeat (first [exact Hi|keeps_step|apply keeps_modify; by intros]; cbn beta iota zeta).
Qed.
End Life.

(** ** Closed runs *)

Section Demo.
Abbreviation demo_life := (WorkerLife (R := MemRedis)).
Definition demo_round : WorkerRound (R := MemRedis) := MkWorkerRound None FromQueue None (inr tt) (inr tt) (inr tt).
Definition demo_idle : demo_life := MkLife demo_broken_queue true (Some 0) {[0]} 1 None.

(** [stop] closes the connection that BRPOP waits on; BRPOP then raises, and the
    handler opens another one, which nobody closes: the loop ends with it open. *)
Theorem stop_during_brpop_leaks :
  let rd := MkWorkerRound (Some (inr tt)) (PopFails ConnectionLost) None (inr tt) (inr tt) (inr tt) in
  let '(l, r) := start_loop (fun _ => "error") [rd; demo_round] demo_idle in
  r = inr true /\ is_running l = false /\ elements (open_connections l) = [1].
Proof. vm_compute. repeat split. Qed.

Lemma start_serves_in_order_witness :
  exists l', start (fun _ => "error") (inr tt) (fun i => inr (i =? 3)) (fun _ => inr tt)
    [demo_round; demo_round] (MkLife demo_broken_queue false None ∅ 0 None) = (l', inr false) /\ is_running l' = true.
Proof.
  destruct (start_serves_in_order (RS := MemRedisSpec) (fun _ => "error") (inr tt) (fun i => inr (i =? 3)) (fun _ => inr tt)
    [demo_round; demo_round] (MkLife demo_broken_queue false None ∅ 0 None)) as (l' & new & E & Hr & _).
  - discriminate.
  - intros i. discriminate.
  - reflexivity.
  - repeat constructor.
  - vm_compute. lia.
  - exists l'. split; [exact E|exact Hr].
Defined.
End Demo.
