(* ===== verification/MarketBuy.v ===== *)
(** * The lock of a market buy

    services/order_service.py walks the offers in decimals to compute what a
    market buy locks; the worker matches the same offers in doubles and
    services/trade_service.py adds the cost of the trades in decimals.  For whole
    quantities the two agree: the lock is the cost of the trades and the buffer
    of a thousandth. *)

From Stdlib Require Import ZArith Lia Bool SpecFloat Sorted.
From stdpp Require Import base tactics option list strings gmap.
From S2P Require Import Prelude Float64 FloatPos PyDecimal WholeFloat DecFloat Models Engine EngineBook EngineMatch EngineExact RedisIface OrderBook Queues World OrderService OrderSpec BulkSpec Bridge Trade Worker WorkerSpec.
#[local] Open Scope Z_scope.

(** ** Exact products and sums *)

Definition unit_scale : Z := 10 ^ 36.

Lemma dunits_scaled a b : -18 <= dexp a + dexp b -> on_grid a -> on_grid b ->
  dcoef a * dcoef b * 10 ^ (dexp a + dexp b + 36) * unit_scale = dunits a * dunits b.
Proof.
  unfold on_grid, dunits, unit_scale. intros Hs Ha Hb.
  rewrite <- (Z.mul_assoc (dcoef a * dcoef b)), <- Z.pow_add_r by lia.
  replace (dexp a + dexp b + 36 + 36) with ((dexp a + 36) + (dexp b + 36)) by lia. rewrite Z.pow_add_r by lia. ring.
Qed.
Lemma mul_exact a b v : -18 <= dexp a + dexp b -> on_grid a -> on_grid b ->
  dunits a * dunits b = v * unit_scale -> Z.abs v < 10 ^ 46 ->
  dexp (dec_mul a b) = dexp a + dexp b /\ dunits (dec_mul a b) = v.
Proof.
  intros Hs Ha Hb Hv Hlt. pose proof (dunits_scaled a b Hs Ha Hb) as H. rewrite Hv in H.
  apply Z.mul_reg_r in H; [|by vm_compute]. unfold dec_mul. rewrite dec_fix_money by (done || by rewrite H).
  by split.
Qed.
(** Sums and differences at the smaller exponent. *)
Lemma add_exact lo a b : -18 <= lo -> lo <= dexp a -> lo <= dexp b -> Z.abs (dunits a + dunits b) < 10 ^ 46 ->
  lo <= dexp (dec_add a b) /\ dunits (dec_add a b) = dunits a + dunits b.
Proof.
  intros Hlo Ha Hb Hlt. unfold dec_add. set (e := Z.min (dexp a) (dexp b)).
  assert (H : (dec_at e a + dec_at e b) * 10 ^ (e + 36) = dunits a + dunits b)
    by (rewrite Z.mul_add_distr_r, !dec_at_units by (unfold on_grid; lia); done).
  rewrite dec_fix_money by (lia || by rewrite H). split; [cbn; lia|exact H].
Qed.
Lemma sub_exact lo a b : -18 <= lo -> lo <= dexp a -> lo <= dexp b -> Z.abs (dunits a - dunits b) < 10 ^ 46 ->
  lo <= dexp (dec_sub a b) /\ dunits (dec_sub a b) = dunits a - dunits b.
Proof.
  intros Hlo Ha Hb Hlt. unfold dec_sub. set (e := Z.min (dexp a) (dexp b)).
  assert (H : (dec_at e a - dec_at e b) * 10 ^ (e + 36) = dunits a - dunits b)
    by (rewrite Z.mul_sub_distr_r, !dec_at_units by (unfold on_grid; lia); done).
  rewrite dec_fix_money by (lia || by rewrite H). split; [cbn; lia|exact H].
Qed.

(** ** Buying from a list of offers *)

(** A price, positive and of at most 12 decimals, and a whole quantity. *)
Definition offer : Type := decimal * Z.
Definition offer_ok (a : offer) : Prop := -12 <= dexp a.1 /\ 0 < dunits a.1 /\ 0 < a.2 < 10 ^ 10.
(** The cost of [n] from the front of the list, in decimal units, ... *)
Fixpoint cost (l : list offer) (n : Z) : Z :=
  match l with [] => 0 | a :: l => dunits a.1 * Z.min n a.2 + cost l (n - Z.min n a.2) end.
(** ... the cost of all and the quantity of all. *)
Definition worth (l : list offer) : Z := zsum (fun a => dunits a.1 * a.2) l.
Definition volume (l : list offer) : Z := zsum snd l.

Lemma cost_zero l : Forall offer_ok l -> cost l 0 = 0.
Proof.
  induction 1 as [|a l (_ & _ & Ha) _ IH]; [done|]. cbn [cost]. rewrite Z.min_l by lia. by rewrite Z.mul_0_r.
Qed.
Lemma cost_bounds l n : Forall offer_ok l -> 0 <= n -> 0 <= cost l n <= worth l.
Proof.
  intros Hl. revert n. unfold worth. induction Hl as [|a l (_ & Hp & Ha) _ IH]; intros n Hn; [done|].
  rewrite zsum_cons. cbn [cost]. specialize (IH (n - Z.min n a.2) ltac:(lia)). nia.
Qed.
Lemma volume_nonneg l : Forall offer_ok l -> 0 <= volume l.
Proof. intros Hl. apply zsum_nonneg. rewrite Forall_forall in Hl. intros x Hx. destruct (Hl x Hx) as (_ & _ & ?). lia. Qed.

(** ** The walk *)

(** What a served order offers. *)
Definition offers_of (mo : MakerOrder) (a : offer) : Prop :=
  offer_ok a /\ dec_of_float (mo_price mo) = Some a.1 /\ maker_qty mo = f_of_Z a.2.

Lemma whole_quantity z : 0 < z < 10 ^ 10 ->
  exists d, dec_of_float (f_of_Z z) = Some d /\ -1 <= dexp d /\ dunits d = z * unit_scale.
Proof. intros Hz. by destruct (whole_roundtrip z) as [_ H]; [lia|]. Qed.

Lemma walk_exact mos l rem c n : Forall2 offers_of mos l ->
  -3 <= dexp rem -> dunits rem = n * unit_scale -> 0 <= n < 10 ^ 10 ->
  -15 <= dexp c -> 0 <= dunits c -> dunits c + worth l < 10 ^ 46 ->
  exists rem' c', walk_asks mos rem c = inr (rem', c') /\ on_grid rem' /\ dunits rem' = Z.max 0 (n - volume l) * unit_scale /\
    -15 <= dexp c' /\ dunits c' = dunits c + cost l n.
Proof.
  intros Hm. revert rem c n. unfold worth, volume. induction Hm as [|mo a mos l (Hok & Hp & Hq) Hm IH]; intros rem c n Hr Hn Hnn Hc Hc0 Hw.
  { exists rem, c. rewrite zsum_nil. cbn [cost]. split_and!; [done|unfold on_grid; lia| |done|lia]. by rewrite Hn, Z.sub_0_r, Z.max_r by lia. }
  pose proof Hok as (Ht & Hpos & Hq0). assert (Hall : Forall offer_ok l).
  { clear -Hm. induction Hm as [|mo a mos l (H & _) _ IH]; by constructor. }
  rewrite !zsum_cons in *. assert (Hsc : 0 < unit_scale) by (by vm_compute).
  pose proof (cost_bounds l n Hall ltac:(lia)) as Hb. unfold worth in Hb.
  cbn [walk_asks cost]. rewrite dec_leb_units, Hn by (unfold on_grid; cbn; lia). change (dunits dec_zero) with 0.
  destruct (Z.leb_spec (n * unit_scale) 0) as [Hle|Hgt].
  { assert (n = 0) as -> by nia. pose proof (volume_nonneg l Hall) as Hv. unfold volume in Hv.
    exists rem, c. rewrite Z.min_l, Z.mul_0_r, Z.sub_0_r, cost_zero by (done || lia). split_and!; [done|unfold on_grid; lia| |done|lia].
    rewrite Hn, Z.max_l by lia. lia. }
  fold (maker_qty mo). rewrite Hp, Hq. destruct (whole_quantity a.2 Hq0) as (d & Hd & Hde & Hdu). rewrite Hd. cbn zeta.
  set (f := dec_min rem d).
  assert (Hf : -3 <= dexp f /\ dunits f = Z.min n a.2 * unit_scale).
  { unfold f, dec_min. rewrite dec_ltb_units by (unfold on_grid; lia). rewrite Hn, Hdu.
    destruct (Z.ltb_spec (a.2 * unit_scale) (n * unit_scale)); [rewrite Z.min_r by nia|rewrite Z.min_l by nia]; split; lia. }
  destruct Hf as [Hfe Hfu].
  assert (Hpq : dunits a.1 * Z.min n a.2 <= dunits a.1 * a.2) by nia.
  assert (Hpq0 : 0 <= dunits a.1 * Z.min n a.2) by nia.
  assert (Hw0 : 0 <= zsum (fun a => dunits a.1 * a.2) l) by lia.
  destruct (mul_exact a.1 f (dunits a.1 * Z.min n a.2)) as [Me Mu];
    [lia|unfold on_grid; lia|unfold on_grid; lia|rewrite Hfu; ring|lia|].
  destruct (add_exact (-15) c (dec_mul a.1 f)) as [Ae Au]; [lia|done|lia|rewrite Mu; lia|].
  destruct (sub_exact (-3) rem f) as [Se Su]; [lia|done|done|rewrite Hn, Hfu; unfold unit_scale; lia|].
  rewrite Mu in Au. rewrite Hn, Hfu, <- Z.mul_sub_distr_r in Su.
  destruct (IH (dec_sub rem f) (dec_add c (dec_mul a.1 f)) (n - Z.min n a.2)) as (rem' & c' & E & G1 & G2 & G3 & G4);
    [done|done|lia|done|lia|rewrite Au; lia|].
  exists rem', c'. split_and!; [done|done| |done|rewrite G4, Au; ring].
  rewrite G2. f_equal. cbn [snd]. pose proof (volume_nonneg l Hall) as Hv. unfold volume in Hv. lia.
Qed.

(** ** The match *)

(** What an entry of the engine's queue offers: all of it is visible. *)
Definition entry_offers (en : entry) (a : offer) : Prop :=
  offer_ok a /\ dec_of_float en.1 = Some a.1 /\ n_remaining en.2 = f_of_Z a.2 /\ n_visible en.2 = f_of_Z a.2.
(** A trade at a price and a whole quantity. *)
Definition trade_at (t : TradeResult) (a : offer) : Prop :=
  offer_ok a /\ dec_of_float (tr_price t) = Some a.1 /\ tr_quantity t = f_of_Z a.2.

Lemma f_eqb_cases x y : f_eqb x y = true -> x = y \/ exists s s', x = S754_zero s /\ y = S754_zero s'.
Proof.
  unfold f_eqb, SFeqb, SFcompare.
  destruct x as [[]|[]| |[] m e], y as [[]|[]| |[] m' e']; intros H; try discriminate H; first [by left|by right; eauto|left].
  - destruct (Z.compare_spec e e') as [->| |]; [|discriminate H..].
    change (Pos.compare_cont Eq m m') with (Pos.compare m m') in H. by destruct (Pos.compare_spec m m') as [->| |].
  - destruct (Z.compare_spec e e') as [->| |]; [|discriminate H..].
    change (Pos.compare_cont Eq m m') with (Pos.compare m m') in H. by destruct (Pos.compare_spec m m') as [->| |].
Qed.
Lemma dec_of_float_eqb x y : f_eqb x y = true -> dec_of_float x = dec_of_float y.
Proof. by intros [->|(s & s' & -> & ->)]%f_eqb_cases. Qed.
Lemma represents_offers q mos l : represents_makers q mos -> Forall2 offers_of mos l -> Forall2 entry_offers q l.
Proof.
  intros Hq. revert l. induction Hq as [|en mo q mos [Hp Hn] _ IH]; intros l Hl; inversion_clear Hl as [|? a ? l' Ha Hl']; constructor.
  - destruct Ha as (Hok & Hd & Hqty). split_and!; [done|by rewrite (dec_of_float_eqb _ _ Hp)|by rewrite Hn..].
  - by apply IH.
Qed.

Lemma whole_units z : 0 <= z < 2 ^ 53 -> on_units 0 (f_of_Z z) /\ uval 0 (f_of_Z z) = z.
Proof. intros Hz. assert (H : grid 0 z) by (split; lia). split; [by apply on_units_intro|by apply uval_units]. Qed.
Lemma units_whole x : on_units 0 x -> x = f_of_Z (uval 0 x).
Proof. by intros [_ E]. Qed.
Lemma fill_is m rem f m' rem' : fill_maker m rem = (f, m', rem') -> f = rem \/ f = n_remaining m \/ f = n_visible m.
Proof.
  unfold fill_maker. intros H. repeat (case_match; simplify_eq; auto).
Qed.

(** One fill against an entry that shows all it has. *)
Lemma fill_whole p m a n f m' rem' : entry_offers (p, m) a -> 0 < n < 10 ^ 10 -> fill_maker m (f_of_Z n) = (f, m', rem') ->
  f = f_of_Z (Z.min n a.2) /\ rem' = f_of_Z (n - Z.min n a.2) /\
  (f_leb (n_remaining m') f_zero = true -> a.2 <= n) /\ (f_leb (n_remaining m') f_zero = false -> n < a.2).
Proof.
  intros ((_ & _ & Ha) & _ & Hr & Hv) Hn H. cbn in Hr, Hv. pose proof (fill_is _ _ _ _ _ H) as Hf.
  destruct (whole_units n ltac:(lia)) as [Un Vn]. destruct (whole_units a.2 ltac:(lia)) as [Ua Va].
  assert (Hm : node_units 0 m) by (split; [by rewrite Hr|by rewrite Hv]).
  destruct (fill_maker_exact 0 m (f_of_Z n) f m' rem' Hm Un H) as [E1 E2 E3 E4 E5].
  assert (Hav : avail 0 m = a.2) by (unfold avail; rewrite Hr, Hv, Va; destruct (n_iceberg m); lia).
  rewrite Hav, Vn in E1. rewrite Hr, Va in E3. rewrite Vn in E2.
  assert (Uf : on_units 0 f) by (destruct Hf as [->|[->| ->]]; [done|by rewrite Hr|by rewrite Hv]).
  destruct E5 as [E5 _]. pose proof (uval_range _ _ E5).
  assert (Hz : on_units 0 f_zero) by (apply (whole_units 0); lia).
  rewrite (uval_leb 0 _ _ E5 Hz). change (uval 0 f_zero) with 0. split_and!.
  - rewrite (units_whole f Uf). by rewrite E1.
  - rewrite (units_whole rem' E4). f_equal. lia.
  - intros Hl. apply Z.leb_le in Hl. lia.
  - intros Hl. apply Z.leb_gt in Hl. lia.
Qed.

Lemma whole_pos n : 0 <= n < 10 ^ 10 -> f_ltb f_zero (f_of_Z n) = true -> 0 < n.
Proof.
  intros Hn H. change f_zero with (f_of_Z 0) in H. rewrite f_of_Z_lt in H by lia. by apply Z.ltb_lt.
Qed.

(** A halted run without a limit buys [n] from the front of the queue. *)
Lemma fills_buy c q r ts q' r' : fills c q r ts q' r' -> halted c q' r' -> (forall p, price_out c p = false) ->
  forall l n, Forall2 entry_offers q l -> 0 <= n < 10 ^ 10 -> r = f_of_Z n ->
  exists sold, Forall2 trade_at ts sold /\ worth sold = cost l n /\ r' = f_of_Z (Z.max 0 (n - volume l)).
Proof.
  intros H Hh Hc. induction H as [q r|p m tl r f m' r1 ts q' r' H0 _ Hf Hd H IH|p m tl r f m' r1 ts q' r' H0 _ Hf Hd H IH];
    intros l n Hq Hn ->.
  - exists []. split; [constructor|]. change (worth []) with 0. destruct Hq as [|[p m] a q l Ha Hq].
    { split; [done|]. unfold volume. rewrite zsum_nil. f_equal. lia. }
    destruct Hh as [Hh|Hh]; [|by rewrite Hc in Hh]. change f_zero with (f_of_Z 0) in Hh. rewrite f_of_Z_lt in Hh by lia.
    apply Z.ltb_ge in Hh. assert (n = 0) as -> by lia.
    assert (Hall : Forall offer_ok (a :: l)).
    { constructor; [apply Ha|]. clear -Hq. induction Hq as [|en a q l (H & _) _ IH]; by constructor. }
    rewrite (cost_zero (a :: l)) by done. split; [done|]. f_equal. pose proof (volume_nonneg _ Hall). lia.
  - inversion Hq as [|? a ? l' Ha Hq' E1 E2]. subst. apply whole_pos in H0; [|done].
    destruct (fill_whole p m a n f m' r1 Ha ltac:(lia) Hf) as (-> & -> & Hle & _). specialize (Hle Hd).
    pose proof Ha as (Hok & Hp & _ & _). destruct Hok as (O1 & O2 & O3).
    destruct (IH Hh l' (n - Z.min n a.2) Hq' ltac:(lia) eq_refl) as (sold & S1 & S2 & S3).
    exists ((a.1, Z.min n a.2) :: sold). split_and!.
    + constructor; [|done]. split_and!; [split_and!; cbn; lia|done|done].
    + unfold worth in *. rewrite zsum_cons. cbn [cost fst snd]. by rewrite S2.
    + rewrite S3. f_equal. unfold volume. rewrite zsum_cons. lia.
  - inversion Hq as [|? a ? l' Ha Hq' E1 E2]. subst. apply whole_pos in H0; [|done].
    destruct (fill_whole p m a n f m' r1 Ha ltac:(lia) Hf) as (-> & -> & _ & Hlt). specialize (Hlt Hd).
    assert (Emin : Z.min n a.2 = n) by lia. rewrite Emin, Z.sub_diag in H. rewrite Emin.
    assert (Hts : ts = [] /\ r' = f_of_Z 0) by (inversion H; subst; [done|..]; discriminate). destruct Hts as [-> ->].
    pose proof Ha as (Hok & Hp & _ & _). destruct Hok as (O1 & O2 & O3).
    assert (Hall : Forall offer_ok l').
    { clear -Hq'. induction Hq' as [|en a q l (H & _) _ IH]; by constructor. }
    exists [(a.1, n)]. split_and!.
    + constructor; [|constructor]. split_and!; [split_and!; cbn; lia|done|done].
    + unfold worth. rewrite zsum_cons, zsum_nil. cbn [cost fst snd]. rewrite Emin, Z.sub_diag, cost_zero by done. lia.
    + f_equal. unfold volume. rewrite zsum_cons. pose proof (volume_nonneg _ Hall) as Hv. unfold volume in Hv. lia.
Qed.

(** ** The settlement's total *)

Definition read_of (t : TradeResult) (d : DomainTrade) : Prop :=
  dec_of_float (tr_price t) = Some (dt_price d) /\ dec_of_float (tr_quantity t) = Some (dt_quantity d).

Lemma totals_quote taker user side symbol ts sold ds : Forall2 trade_at ts sold -> Forall2 read_of ts ds ->
  forall acc, -15 <= dexp (bt_quote acc) -> 0 <= dunits (bt_quote acc) -> dunits (bt_quote acc) + worth sold < 10 ^ 46 ->
  dunits (bt_quote (foldl (add_trade taker user side symbol) acc ds)) = dunits (bt_quote acc) + worth sold.
Proof.
  unfold worth. intros Ht. revert ds. induction Ht as [|t a ts sold (Hok & Hp & Hq) Ht IH]; intros ds Hd acc He H0 Hw.
  { inversion Hd. rewrite zsum_nil. cbn. lia. }
  inversion Hd as [|? d ? ds' [Dp Dq] Hd']. subst. rewrite Hp in Dp. injection Dp as Dp.
  destruct Hok as (Ht1 & Ht2 & Ht3). destruct (whole_quantity a.2 Ht3) as (q & Eq & Qe & Qu).
  rewrite Hq, Eq in Dq. injection Dq as Dq. rewrite zsum_cons in *.
  assert (Hall : Forall offer_ok sold).
  { clear -Ht. induction Ht as [|t a ts sold (H & _) _ IH]; by constructor. }
  pose proof (cost_bounds sold 0 Hall ltac:(lia)) as Hb. unfold worth in Hb.
  assert (Hpq : 0 < dunits a.1 * a.2) by (apply Z.mul_pos_pos; lia).
  destruct (mul_exact a.1 q (dunits a.1 * a.2)) as [Me Mu]; [lia|unfold on_grid; lia|unfold on_grid; lia|rewrite Qu; ring|lia|].
  cbn [foldl]. unfold add_trade at 2. rewrite <- Dp, <- Dq. cbn [bt_quote].
  destruct (add_exact (-15) (bt_quote acc) (dec_mul a.1 q)) as [Ae Au]; [lia|done|lia|rewrite Mu; lia|].
  rewrite Mu in Au. rewrite IH; [cbn [bt_quote]; rewrite Au; ring|done|cbn [bt_quote]; lia|cbn [bt_quote]; lia|cbn [bt_quote]; rewrite Au; lia].
Qed.

Section Lock.
Context {R : Redis} {RS : RedisSpec R}.

Lemma enrich_reads symbol ts w w' ds : enrich symbol ts w = (w', inr ds) -> Forall2 read_of ts ds.
Proof.
  revert w w' ds. induction ts as [|t ts IH]; intros w w' ds H; cbn [enrich] in H.
  { by injection H as _ <-. }
  apply bind_inv in H as (w1 & h & _ & H). apply bind_inv in H as (w2 & u & _ & H).
  apply bind_inv in H as (w3 & d & Hd & H). apply bind_inv in H as (w4 & rest & Hr & H). injection H as _ <-.
  constructor; [|by eapply IH]. unfold lift, trade_dict_to_domain in Hd. unfold read_of.
  destruct (dec_of_float (tr_price t)) as [p|], (dec_of_float (tr_quantity t)) as [q|]; try discriminate Hd.
  by injection Hd as _ <-.
Qed.

Lemma market_corder oid qty vis hid : f_leb qty f_zero = false ->
  build_corder oid "buy" "market" None qty false vis hid = inr (MkCOrder oid C_BUY C_MARKET f_nan qty qty false qty f_zero).
Proof. intros H. unfold build_corder. cbn. by rewrite H. Qed.

Lemma lock_computed dto pr w st mos l n :
  get_opposite_orders_for_match (d_symbol dto) "buy" 1000 (redis w) = (st, inr mos) -> Forall2 offers_of mos l ->
  -3 <= dexp (d_quantity dto) -> dunits (d_quantity dto) = n * unit_scale -> 0 < n < 10 ^ 10 -> worth l < 9 * 10 ^ 45 ->
  if n <=? volume l
  then exists lock, compute_market_buy_lock dto pr w = (w, inr (quote_asset pr, lock)) /\ dunits lock * 1000 = cost l n * 1001
  else exists msg, compute_market_buy_lock dto pr w = (w, inl (OrderValidationError msg)).
Proof.
  intros Hm Hl He Hu Hn Hw. unfold compute_market_buy_lock. rewrite (bind_inr _ _ w w mos).
  2:{ pose proof (reads_opposite (d_symbol dto) "buy" 1000 (redis w)) as Hr. unfold on_redis. rewrite Hm in Hr |- *.
      cbn in Hr. subst st. by destruct w. }
  assert (Hall : Forall offer_ok l).
  { clear -Hl. induction Hl as [|mo a mos l (H & _) _ IH]; by constructor. }
  pose proof (cost_bounds l n Hall ltac:(lia)) as Hb. assert (Hsc : 0 < unit_scale) by (by vm_compute).
  destruct (walk_exact mos l (d_quantity dto) dec_zero n Hl He Hu) as (rem & c & E & Gr & Ur & Ec & Uc);
    [lia|cbn; lia|done|change (dunits dec_zero) with 0; lia|]. change (dunits dec_zero) with 0 in Uc.
  destruct mos as [|mo mos].
  { inversion Hl. subst. rewrite (proj2 (Z.leb_gt _ _)) by (cbn; lia). by eexists. }
  rewrite (bind_inr _ _ w w (rem, c)) by (by rewrite E).
  rewrite dec_ltb_units, Ur by (done || unfold on_grid; cbn; lia). change (dunits dec_zero) with 0.
  destruct (Z.leb_spec n (volume l)).
  - rewrite Z.max_l, Z.mul_0_l by lia. cbn [Z.ltb Z.compare]. eexists. split; [reflexivity|]. unfold with_buffer.
    assert (Hex : exists v, cost l n * 1001 = v * 1000).
    { unfold dunits in Uc. rewrite Z.add_0_l in Uc. rewrite <- Uc. exists (dcoef c * 10 ^ (dexp c + 33) * 1001).
      replace (dexp c + 36) with (dexp c + 33 + 3) by lia. rewrite Z.pow_add_r by lia. ring. }
    destruct Hex as [v Hv]. destruct (mul_exact c (Dec 1001 (-3)) v) as [_ ->]; [cbn; lia|unfold on_grid; lia|unfold on_grid; cbn; lia| |lia|lia].
    rewrite Uc. change (dunits (Dec 1001 (-3))) with (1001 * 10 ^ 33). unfold unit_scale.
    change (10 ^ 36) with (1000 * 10 ^ 33). lia.
  - rewrite (proj2 (Z.ltb_lt _ _)) by nia. by eexists.
Qed.

(** C10: the lock of a market buy covers it.  For offers at positive prices of at
    most 12 decimals, with whole quantities, worth together less than 9 * 10^9:
    a market buy of a whole quantity that the offers do not cover is refused
    without effect; one that they cover locks a thousandth more than the cost of
    filling it from the front of the book, and when the worker matches it on the
    same offers it is filled completely, nothing is left and the cost that the
    settlement charges the buyer is that cost, so the lock suffices. *)
Theorem market_buy_lock_covers dto pr w st mos l n :
  get_opposite_orders_for_match (d_symbol dto) "buy" 1000 (redis w) = (st, inr mos) -> Forall2 offers_of mos l ->
  -3 <= dexp (d_quantity dto) -> dunits (d_quantity dto) = n * unit_scale -> 0 < n < 10 ^ 10 -> worth l < 9 * 10 ^ 45 ->
  if n <=? volume l then
    exists lock, compute_market_buy_lock dto pr w = (w, inr (quote_asset pr, lock)) /\
    forall p k st', worker_ok k -> Forall (loadable C_SELL) mos -> price_ordered false mos ->
      get_opposite_orders_for_match (pl_symbol p) (pl_side p) 1000 (redis (world k)) = (st', inr mos) ->
      pl_side p = "buy" -> pl_type p = "market" -> pl_price p = None -> pl_is_iceberg p = false ->
      pl_quantity p = f_of_dec (dec_of_Z n) ->
      exists k' ts outcome, match_payload p k = (k', inr (ts, outcome, f_of_Z 0)) /\ world k' = world k /\
        is_outcome_reject outcome = false /\
        forall w1 w2 ds taker user, enrich (pl_symbol p) ts w1 = (w2, inr ds) ->
          let total := bt_quote (batch_totals taker user BUY (pl_symbol p) ds) in
          dunits total = cost l n /\ dunits lock * 1000 = dunits total * 1001 /\ dunits total <= dunits lock
  else exists msg, compute_market_buy_lock dto pr w = (w, inl (OrderValidationError msg)).
Proof.
  intros Hm Hl He Hu Hn Hw. pose proof (lock_computed dto pr w st mos l n Hm Hl He Hu Hn Hw) as H.
  destruct (Z.leb_spec n (volume l)) as [Hv|]; [|exact H]. destruct H as (lock & E & HL). exists lock. split; [exact E|].
  intros p k st' Hk Hload Hord Hs Hside Htype Hprice Hice Hq.
  destruct (whole_roundtrip n) as [Hfz _]; [lia|]. rewrite Hfz in Hq.
  assert (Hpos : fpos (f_of_Z n) = true) by (apply fpos_units; [split; lia|lia]).
  destruct (match_payload_run p k BUY mos st' (MkCOrder (pl_order_id p) C_BUY C_MARKET f_nan (pl_quantity p) (pl_quantity p) false
    (pl_quantity p) f_zero)) as (k' & ts & outcome & rem & q & q' & Em & Hwk & _ & Hrep & Hf & Hh & Hfok & Hrej); try done.
  { rewrite Hside, Htype, Hprice, Hice. apply market_corder. rewrite Hq. by apply fpos_not_leb. }
  { by rewrite Hq. }
  rewrite Hq in Hf, Hrej. assert (Hall : Forall offer_ok l).
  { clear -Hl. induction Hl as [|mo a mos l (H & _) _ IH]; by constructor. }
  pose proof (cost_bounds l n Hall ltac:(lia)) as Hb.
  destruct (fills_buy _ q (f_of_Z n) ts q' rem Hf) with (l := l) (n := n) as (sold & S1 & S2 & S3);
    [by apply Hh, Hfok|done|by eapply represents_offers|lia|done|]. rewrite Z.max_l in S3 by lia. subst rem.
  exists k', ts, outcome. split_and!; [done|done| |].
  { destruct (is_outcome_reject outcome); [|done]. destruct (Hrej eq_refl) as [_ E0]. exfalso.
    assert (Hz : f_eqb (f_of_Z 0) (f_of_Z n) = true) by (rewrite E0; apply f_of_Z_eqb_refl; lia).
    apply f_of_Z_eqb in Hz; lia. }
  intros w1 w2 ds taker user Hen total. apply enrich_reads in Hen.
  assert (Ht : dunits total = cost l n).
  { subst total. unfold batch_totals. rewrite (totals_quote _ _ _ _ ts sold ds S1 Hen); [|cbn; lia|done|].
    - cbn [bt_quote]. change (dunits dec_zero) with 0. lia.
    - cbn [bt_quote]. change (dunits dec_zero) with 0. rewrite S2. lia. }
  rewrite Ht. split_and!; [done|done|lia].
Qed.
End Lock.

(** ** A concrete market buy *)

(** Offers of 1 at 10 and of 4 at 100; buying 3 costs 210 and locks 210.21. *)
Definition demo_steep_worker : MatchingWorker (R := MemRedis) :=
  MkWorker new_engine (world ((_ ← place_and_match 2 "sell" 1 10; place_and_match 2 "sell" 4 100) demo_worker).1).
Definition demo_steep_offers : list MakerOrder := Eval vm_compute in
  match (get_opposite_orders_for_match "BTCUSD" "buy" 1000 (redis (world demo_steep_worker))).2 with inr mos => mos | inl _ => [] end.
Definition demo_market_dto : OrderCreateDTO :=
  MkDTO "BTCUSD" "buy" "market" None None None (dec_of_Z 3) None None None None None None.
Definition demo_market_payload : OrderActionPayload :=
  MkPayload "place" 9 "BTCUSD" 1 "buy" "market" None None (f_of_dec (dec_of_Z 3)) false None None None None None 0.
Definition demo_steep_list : list offer := [(Dec 1 1, 1); (Dec 1 2, 4)].

Lemma demo_steep_served :
  (get_opposite_orders_for_match "BTCUSD" "buy" 1000 (redis (world demo_steep_worker))).2 = inr demo_steep_offers.
Proof. vm_compute. reflexivity. Qed.
Lemma demo_steep_offers_of : Forall2 offers_of demo_steep_offers demo_steep_list.
Proof.
  assert (H : forall mo a, offer_ok a -> dec_of_float (mo_price mo) = Some a.1 -> maker_qty mo = f_of_Z a.2 -> offers_of mo a)
    by (intros mo a H1 H2 H3; exact (conj H1 (conj H2 H3))).
  constructor; [|constructor; [|constructor]]; apply H; try (vm_compute; reflexivity);
    (split; [vm_compute; discriminate|split; [vm_compute; reflexivity|split; vm_compute; reflexivity]]).
Qed.
Lemma market_buy_lock_covers_witness :
  exists lock, compute_market_buy_lock demo_market_dto demo_pair (world demo_steep_worker) = (world demo_steep_worker, inr ("USD", lock)) /\
    exists k' ts outcome w' ds, match_payload demo_market_payload demo_steep_worker = (k', inr (ts, outcome, f_of_Z 0)) /\
      enrich "BTCUSD" ts (world demo_steep_worker) = (w', inr ds) /\
      dunits (bt_quote (batch_totals 9 1 BUY "BTCUSD" ds)) = 210 * unit_scale /\ dunits lock = 21021 * 10 ^ 34.
Proof.
  pose proof (market_buy_lock_covers (RS := MemRedisSpec) demo_market_dto demo_pair (world demo_steep_worker)
    (redis (world demo_steep_worker)) demo_steep_offers demo_steep_list 3) as H.
  assert (G : (3 <=? volume demo_steep_list) = true) by (vm_compute; reflexivity). rewrite G in H.
  destruct H as (lock & E & H); [vm_compute; reflexivity|exact demo_steep_offers_of|vm_compute; discriminate|vm_compute; reflexivity
    |split; reflexivity|vm_compute; reflexivity|].
  exists lock. split; [exact E|].
  destruct (H demo_market_payload demo_steep_worker (redis (world demo_steep_worker))) as (k' & ts & outcome & Em & _ & _ & Ht);
    [apply new_worker_ok|repeat constructor; vm_compute; reflexivity|repeat constructor; vm_compute; reflexivity
    |vm_compute; reflexivity|reflexivity|reflexivity|reflexivity|reflexivity|reflexivity|].
  assert (Hen : exists ds, (enrich "BTCUSD" ts (world demo_steep_worker)).2 = inr ds).
  { pose proof (f_equal snd Em) as Es. cbn [snd] in Es. set (x := (match_payload demo_market_payload demo_steep_worker).2) in Es.
    vm_compute in x. subst x. injection Es as Ets _. rewrite <- Ets. eexists. vm_compute. reflexivity. }
  destruct Hen as [ds Hds]. destruct (enrich "BTCUSD" ts (world demo_steep_worker)) as [w' r] eqn:Ew. cbn [snd] in Hds. subst r.
  destruct (Ht _ _ _ 9 1 Ew) as (T1 & T2 & _).
  exists k', ts, outcome, w', ds. split; [exact Em|]. split; [exact Ew|].
  assert (C : cost demo_steep_list 3 = 210 * unit_scale) by (vm_compute; reflexivity).
  rewrite C in T1. split; [exact T1|]. rewrite T1 in T2. clear -T2. unfold unit_scale in T2. lia.
Defined.
