(* ===== verification/LimitLock.v ===== *)
(** * The lock of a limit order

    A limit order locks price times quantity, or the quantity when it sells, in
    decimals; the engine keeps its trades within the limit in doubles.  On a tick
    grid of 15 digits the doubles are in the order of the decimals, so whatever is
    traded costs at most what was locked for it, and the rest of the lock is what
    the rest of the order needs. *)

From Stdlib Require Import ZArith Lia Bool SpecFloat Sorted.
From stdpp Require Import base tactics option list strings gmap.
From S2P Require Import Prelude Float64 FloatPos PyDecimal WholeFloat DecFloat Models Engine EngineBook EngineMatch EngineExact RedisIface OrderBook Queues World OrderService OrderSpec BulkSpec Bridge Trade Worker WorkerSpec MarketBuy.
#[local] Open Scope Z_scope.

(** ** Prices on a tick grid *)

(** A positive price, a multiple of 10^t with at most 15 digits. *)
Definition tick_price (t : Z) (p : decimal) : Prop :=
  0 < dcoef p /\ t <= dexp p <= 20 /\ dcoef p * 10 ^ (dexp p - t) < 10 ^ 15.

Section Tick.
Context (t : Z) (Ht : -11 <= t).

Lemma tick_units p : tick_price t p -> exists c, 0 < c < 10 ^ 15 /\ dunits p = c * 10 ^ (t + 36).
Proof.
  intros (Hc & He & Hm). assert (0 < 10 ^ (dexp p - t)) by (apply pow10_pos; lia). exists (dcoef p * 10 ^ (dexp p - t)).
  split; [nia|]. unfold dunits. rewrite <- Z.mul_assoc, <- Z.pow_add_r by lia. do 2 f_equal. lia.
Qed.
Lemma tick_facts p : tick_price t p -> on_grid p /\ 0 < dunits p < 10 ^ 100 /\ fpos (f_of_dec p) = true /\
  exists d, dec_of_float (f_of_dec p) = Some d /\ -12 <= dexp d /\ dunits d = dunits p.
Proof.
  intros H. pose proof (tick_units p H) as (c & Hc & Hu). destruct H as (Hp & He & Hm).
  assert (Hg : on_grid p) by (unfold on_grid; lia). assert (Hk : 0 < 10 ^ (dexp p - t)) by (apply pow10_pos; lia).
  assert (Hc15 : dcoef p < 10 ^ 15) by nia.
  assert (Hbig : dunits p < 10 ^ 100).
  { unfold dunits. apply (Z.lt_le_trans _ (10 ^ 15 * 10 ^ (dexp p + 36))).
    - apply Z.mul_lt_mono_pos_r; [apply pow10_pos; lia|done].
    - rewrite <- Z.pow_add_r by lia. apply Z.pow_le_mono_r; lia. }
  assert (0 < 10 ^ (t + 36)) by (apply pow10_pos; lia).
  split_and!; [done|nia|done|by apply f_of_dec_close|].
  destruct (decimal_roundtrip (dcoef p) (dexp p) ltac:(lia) ltac:(lia)) as (d & E & Ed & Eu).
  exists d. destruct p as [cp xp]. cbn [dcoef dexp] in *. split_and!; [done|lia|done].
Qed.

(** The doubles are in the order of the decimals. *)
Lemma tick_order p q : tick_price t p -> tick_price t q -> f_ltb (f_of_dec p) (f_of_dec q) = false -> dunits q <= dunits p.
Proof.
  intros Hp Hq Hlt. destruct (Z.le_gt_cases (dunits q) (dunits p)) as [|Hgt]; [done|exfalso].
  destruct (tick_units p Hp) as (i & Hi & Ei), (tick_units q Hq) as (j & Hj & Ej).
  destruct (tick_facts p Hp) as (Gp & _ & _), (tick_facts q Hq) as (Gq & Bq & _).
  assert (Hg : 0 < 10 ^ (t + 36)) by (apply pow10_pos; lia).
  rewrite Ei, Ej in Hgt. apply Z.mul_lt_mono_pos_r in Hgt; [|done].
  assert (H1 : dunits p + 10 ^ (t + 36) <= dunits q).
  { rewrite Ei, Ej. replace (i * _ + _) with ((i + 1) * 10 ^ (t + 36)) by ring. apply Z.mul_le_mono_nonneg_r; lia. }
  assert (H2 : dunits q <= 10 ^ 15 * 10 ^ (t + 36)) by (rewrite Ej; apply Z.mul_le_mono_nonneg_r; lia).
  pose proof (grid_order p q _ (proj1 Hp) (proj1 Hq) Gp Gq (proj2 Bq) Hg H1 H2) as Ho. by rewrite Ho in Hlt.
Qed.

(** ** What a match sells *)

(** A served order at a price of the grid with a whole quantity. *)
Definition quoted (mo : MakerOrder) (a : offer) : Prop :=
  tick_price t a.1 /\ 0 < a.2 < 10 ^ 10 /\ mo_price mo = f_of_dec a.1 /\ maker_qty mo = f_of_Z a.2.
Definition entry_quoted (en : entry) (a : offer) : Prop :=
  tick_price t a.1 /\ 0 < a.2 < 10 ^ 10 /\ en.1 = f_of_dec a.1 /\ n_remaining en.2 = f_of_Z a.2 /\ n_visible en.2 = f_of_Z a.2.
(** A trade at a price of the grid that the limit of [c] admits. *)
Definition sold_at (c : COrder) (tr : TradeResult) (a : offer) : Prop :=
  tick_price t a.1 /\ 0 < a.2 < 10 ^ 10 /\ tr_price tr = f_of_dec a.1 /\ tr_quantity tr = f_of_Z a.2 /\
  price_out c (f_of_dec a.1) = false.

Lemma represents_quoted q mos l : represents_makers q mos -> Forall2 quoted mos l -> Forall2 entry_quoted q l.
Proof.
  intros Hq. revert l. induction Hq as [|en mo q mos [Hp Hn] _ IH]; intros l Hl; inversion_clear Hl as [|? a ? l' Ha Hl']; constructor.
  - destruct Ha as (Ht' & Hq & Hpr & Hqty). split; [done|]. split; [done|]. rewrite Hn. split; [|by split].
    destruct (tick_facts a.1 Ht') as (_ & _ & Hf & _). rewrite Hpr in Hp.
    destruct (f_eqb_cases _ _ Hp) as [E|(s & s' & _ & E)]; [done|]. by rewrite E in Hf.
  - by apply IH.
Qed.
Lemma quoted_offers en a : entry_quoted en a -> exists d, entry_offers en (d, a.2) /\ dunits d = dunits a.1.
Proof.
  intros (Ht' & Hq & Hp & Hr & Hv). destruct (tick_facts a.1 Ht') as (_ & Hu & _ & d & Ed & He & Hd).
  exists d. split; [|done]. split; [split; cbn; [lia|split; [lia|done]]|]. cbn. split; [by rewrite Hp|by split].
Qed.

Lemma worth_quoted q l : Forall2 entry_quoted q l -> 0 <= worth l.
Proof.
  unfold worth. intros H. apply zsum_nonneg. intros a Ha. induction H as [|en b q l Hb _ IH]; [by apply not_elem_of_nil in Ha|].
  apply elem_of_cons in Ha as [->|Ha]; [|by apply IH]. destruct Hb as (Ht' & Hq & _). destruct (tick_facts b.1 Ht') as (_ & Hu & _). nia.
Qed.

(** A run sells to the taker at admitted prices; what is not sold is left. *)
Lemma fills_sold c q r ts q' r' : fills c q r ts q' r' -> forall l n, Forall2 entry_quoted q l -> 0 <= n < 10 ^ 10 -> r = f_of_Z n ->
  exists sold m, Forall2 (sold_at c) ts sold /\ r' = f_of_Z m /\ 0 <= m /\ volume sold + m = n /\
    worth sold <= worth l.
Proof.
  unfold volume, worth.
  induction 1 as [q r|p m tl r f m' r1 ts q' r' H0 Hout Hf Hd H IH|p m tl r f m' r1 ts q' r' H0 Hout Hf Hd H IH]; intros l n Hq Hn ->.
  { exists [], n. rewrite !zsum_nil. split_and!; [constructor|done|lia|lia|by apply worth_quoted in Hq]. }
  all: inversion Hq as [|? a ? l' Ha Hq' E1 E2]; subst; apply whole_pos in H0; [|done].
  all: destruct (quoted_offers _ _ Ha) as (d & Hoff & Hdu).
  all: destruct (fill_whole p m (d, a.2) n f m' r1 Hoff ltac:(lia) Hf) as (-> & -> & Hle & Hlt); cbn [snd] in *.
  all: pose proof Ha as (A1 & A2 & A3 & _); cbn in A3; subst p.
  - specialize (Hle Hd). destruct (IH l' (n - Z.min n a.2) Hq' ltac:(lia) eq_refl) as (sold & k & S1 & S2 & S3 & S4 & S5).
    exists ((a.1, Z.min n a.2) :: sold), k. rewrite !zsum_cons. cbn [fst snd].
    split_and!; [constructor; [|done]; split_and!; cbn; try done; lia|done|done|lia|].
    assert (0 < dunits a.1) by (by apply (tick_facts a.1)). nia.
  - specialize (Hlt Hd). assert (Emin : Z.min n a.2 = n) by lia. rewrite Emin, Z.sub_diag in H. rewrite Emin.
    assert (Hts : ts = [] /\ r' = f_of_Z 0) by (inversion H; subst; [done|..]; discriminate). destruct Hts as [-> ->].
    exists [(a.1, n)], 0. rewrite !zsum_cons, !zsum_nil. cbn [fst snd].
    split_and!; [constructor; [|constructor]; split_and!; cbn; try done; lia|done|lia|lia|].
    assert (0 < dunits a.1) by (by apply (tick_facts a.1)). apply worth_quoted in Hq'. unfold worth in Hq'. nia.
Qed.

(** The trades as the settlement reads them. *)
Lemma sold_trades c ts sold : Forall2 (sold_at c) ts sold -> exists sold', Forall2 trade_at ts sold' /\
  worth sold' = worth sold /\ volume sold' = volume sold.
Proof.
  unfold worth, volume. induction 1 as [|tr a ts sold (Ht' & Hq & Hp & Hqty & _) _ (sold' & S1 & S2 & S3)].
  { exists []. split; [constructor|done]. }
  destruct (tick_facts a.1 Ht') as (_ & Hu & _ & d & Ed & He & Hd). exists ((d, a.2) :: sold'). rewrite !zsum_cons. cbn [fst snd].
  rewrite S2, S3, Hd. split; [|done]. constructor; [|done]. split; [split; cbn; [lia|split; [lia|done]]|]. cbn. split; [by rewrite Hp|done].
Qed.
Lemma sold_within c price ts sold : Forall2 (sold_at c) ts sold -> tick_price t price -> c_price c = f_of_dec price ->
  (c_side c = C_BUY -> worth sold <= dunits price * volume sold) /\ (c_side c = C_SELL -> dunits price * volume sold <= worth sold).
Proof.
  intros H Hprice Hc. destruct (tick_facts price Hprice) as (_ & _ & Hf & _). apply fpos_notnan in Hf.
  unfold worth, volume. induction H as [|tr a ts sold (Ht' & Hq & _ & _ & Hout) _ [IHb IHs]]; [rewrite !zsum_nil; split; lia|].
  unfold price_out in Hout. rewrite Hc, Hf in Hout. cbn [negb andb] in Hout. apply orb_false_iff in Hout as [Hb Hs].
  rewrite !zsum_cons. cbn [fst snd]. split; intros E; rewrite E in Hb, Hs; cbn in Hb, Hs.
  - specialize (IHb E). pose proof (tick_order price a.1 Hprice Ht' Hb) as Ho. nia.
  - specialize (IHs E). pose proof (tick_order a.1 price Ht' Hprice Hs) as Ho. nia.
Qed.
End Tick.

Lemma totals_qty taker user side symbol ts sold ds : Forall2 trade_at ts sold -> Forall2 read_of ts ds ->
  forall acc, -15 <= dexp (bt_qty acc) -> 0 <= dunits (bt_qty acc) -> dunits (bt_qty acc) + volume sold * unit_scale < 10 ^ 46 ->
  dunits (bt_qty (foldl (add_trade taker user side symbol) acc ds)) = dunits (bt_qty acc) + volume sold * unit_scale.
Proof.
  unfold volume. intros Ht. revert ds. induction Ht as [|tr a ts sold (Hok & Hp & Hq) Ht IH]; intros ds Hd acc He H0 Hw.
  { inversion Hd. rewrite zsum_nil. cbn. lia. }
  inversion Hd as [|? d ? ds' [Dp Dq] Hd']. subst. destruct Hok as (_ & _ & Ha).
  destruct (whole_quantity a.2 Ha) as (q & Eq & Qe & Qu). rewrite Hq, Eq in Dq. injection Dq as Dq. rewrite zsum_cons in *.
  assert (Hall : 0 <= zsum snd sold).
  { clear -Ht. apply volume_nonneg. induction Ht as [|tr a ts sold (H & _) _ IH]; by constructor. }
  assert (Hsc : 0 < unit_scale) by (by vm_compute).
  cbn [foldl]. unfold add_trade at 2. rewrite <- Dq. cbn [bt_qty].
  destruct (add_exact (-15) (bt_qty acc) q) as [Ae Au]; [lia|done|lia|rewrite Qu; nia|]. rewrite Qu in Au.
  rewrite IH; [cbn [bt_qty]; rewrite Au; ring|done|cbn [bt_qty]; lia|cbn [bt_qty]; nia|cbn [bt_qty]; rewrite Au; lia].
Qed.

Section Lock.
Context {R : Redis} {RS : RedisSpec R}.

Definition immediate_types : list string := ["limit"; "post_only"; "ioc"; "fok"].
Lemma limit_corder oid side type price qty vis hid : type ∈ immediate_types -> f_leb qty f_zero = false ->
  exists c, build_corder oid (OrderSide_value side) type (Some price) qty false vis hid = inr c /\
    c_price c = price /\ c_side c = side_code side.
Proof.
  intros Ht Hq. unfold build_corder. rewrite to_c_side_value. unfold immediate_types in Ht.
  repeat (apply elem_of_cons in Ht as [->|Ht]; [cbn; rewrite Hq; by eexists|]). by apply not_elem_of_nil in Ht.
Qed.

(** What the placement locks. *)
Lemma limit_locked t dto pr side price n : -11 <= t -> tick_price t price -> d_side dto = OrderSide_value side ->
  d_price dto = Some price -> d_type dto ∈ immediate_types ->
  -3 <= dexp (d_quantity dto) -> dunits (d_quantity dto) = n * unit_scale -> 0 < n -> dunits price * n < 10 ^ 46 ->
  exists lock, compute_lock_asset_and_amount dto pr = inr (match side with BUY => quote_asset pr | SELL => base_asset pr end, lock) /\
    dunits lock = match side with BUY => dunits price * n | SELL => n * unit_scale end.
Proof.
  intros Ht Hp Hs Hpr Hty He Hu Hn Hw. unfold compute_lock_asset_and_amount, is_stop_dto.
  assert (Hty' : str_in (d_type dto) stop_types = false /\
    str_in (d_type dto) ["limit"; "post_only"; "ioc"; "fok"; "iceberg"] = true).
  { unfold immediate_types in Hty. repeat (apply elem_of_cons in Hty as [->|Hty]; [done|]). by apply not_elem_of_nil in Hty. }
  destruct Hty' as [-> ->]. rewrite Hs, Hpr. destruct side; cbn.
  - eexists. split; [reflexivity|]. destruct (tick_facts t Ht price Hp) as (Hg & Hpos & _).
    apply mul_exact; [destruct Hp; lia|done|unfold on_grid; lia|rewrite Hu; ring|nia].
  - eexists. by split.
Qed.

(** C9: the lock of a limit order covers it.  For prices that are multiples of a
    power of ten, of at most 15 digits, and whole quantities: a buy locks price
    times quantity, a sell the quantity; whatever the worker then matches it
    with, the trades of a buy and the rest of the order at its limit cost no more
    than the lock, and the trades of a sell and the rest of the order are exactly
    the lock, sold at the limit or better. *)
Theorem limit_lock_covers t dto pr side price n : -11 <= t -> tick_price t price -> d_side dto = OrderSide_value side ->
  d_price dto = Some price -> d_type dto ∈ immediate_types ->
  -3 <= dexp (d_quantity dto) -> dunits (d_quantity dto) = n * unit_scale -> 0 < n < 10 ^ 10 -> dunits price * n < 10 ^ 46 ->
  exists lock, compute_lock_asset_and_amount dto pr = inr (match side with BUY => quote_asset pr | SELL => base_asset pr end, lock) /\
    forall p k st mos l, worker_ok k ->
      get_opposite_orders_for_match (pl_symbol p) (pl_side p) 1000 (redis (world k)) = (st, inr mos) ->
      Forall (loadable (1 - side_code side)) mos -> price_ordered (match side with BUY => false | SELL => true end) mos ->
      Forall2 (quoted t) mos l -> worth l < 10 ^ 46 ->
      pl_side p = d_side dto -> pl_type p = d_type dto -> pl_price p = Some (f_of_dec price) -> pl_is_iceberg p = false ->
      pl_quantity p = f_of_dec (dec_of_Z n) ->
      exists k' ts outcome m, match_payload p k = (k', inr (ts, outcome, f_of_Z m)) /\ 0 <= m <= n /\
        forall w1 w2 ds taker user, enrich (pl_symbol p) ts w1 = (w2, inr ds) ->
          let total := batch_totals taker user side (pl_symbol p) ds in
          dunits (bt_qty total) = (n - m) * unit_scale /\
          match side with
          | BUY => dunits (bt_quote total) + dunits price * m <= dunits lock
          | SELL => dunits (bt_qty total) + m * unit_scale = dunits lock /\ dunits price * (n - m) <= dunits (bt_quote total)
          end.
Proof.
  intros Ht Hp Hs Hpr Hty He Hu Hn Hw. destruct (limit_locked t dto pr side price n) as (lock & E & HL); [done..|lia|done|].
  exists lock. split; [exact E|]. intros p k st mos l Hk Hm Hload Hord Hq Hwl Hside Htype Hprice Hice Hqty.
  destruct (whole_roundtrip n) as [Hfz _]; [lia|]. rewrite Hfz in Hqty.
  assert (Hpos : fpos (f_of_Z n) = true) by (apply fpos_units; [split; lia|lia]).
  destruct (limit_corder (pl_order_id p) side (pl_type p) (f_of_dec price) (pl_quantity p) (pl_visible_qty p) (pl_hidden_qty p))
    as (c & Ec & Cp & Cs); [by rewrite Htype|rewrite Hqty; by apply fpos_not_leb|].
  destruct (match_payload_run p k side mos st c) as (k' & ts & outcome & rem & q & q' & Em & _ & _ & Hrep & Hf & _);
    [done|by rewrite Hside|done|done|by destruct side|by rewrite Hside, Hs, Hprice, Hice|by rewrite Hqty|].
  rewrite Hqty in Hf. pose proof (represents_quoted t Ht q mos l Hrep Hq) as Hen.
  destruct (fills_sold t Ht c q _ ts q' rem Hf l n Hen ltac:(lia) eq_refl) as (sold & m & S1 & -> & S3 & S4 & S5).
  destruct (sold_trades t Ht c ts sold S1) as (sold' & T1 & T2 & T3).
  destruct (sold_within t Ht c price ts sold S1 Hp Cp) as [Wb Ws].
  assert (Hall : Forall offer_ok sold') by (clear -T1; induction T1 as [|tr a ts sold (H & _) _ IH]; by constructor).
  pose proof (volume_nonneg sold' Hall) as Hv. rewrite T3 in Hv.
  exists k', ts, outcome, m. split; [exact Em|]. split; [lia|]. intros w1 w2 ds taker user Hd total.
  apply enrich_reads in Hd. subst total. unfold batch_totals.
  set (acc := MkTotals [] dec_zero dec_zero []).
  pose proof (totals_qty taker user side (pl_symbol p) ts sold' ds T1 Hd acc) as Q1.
  pose proof (totals_quote taker user side (pl_symbol p) ts sold' ds T1 Hd acc) as Q2.
  cbn [acc bt_qty bt_quote] in Q1, Q2. change (dunits dec_zero) with 0 in Q1, Q2. rewrite T3 in Q1. rewrite T2 in Q2.
  assert (Ev : volume sold = n - m) by lia. rewrite Ev in *.
  rewrite Q1, Q2 by (cbn; unfold unit_scale; lia). rewrite HL. split; [lia|].
  destruct side; cbn in Cs; [specialize (Wb Cs); lia|specialize (Ws Cs)]. split; [lia|lia].
Qed.
End Lock.

(** ** A concrete limit order *)

(** A bid for 3 at 100 against offers of 1 at 10 and of 4 at 100 costs 210 of
    the 300 locked. *)
Definition demo_limit_payload : OrderActionPayload :=
  MkPayload "place" 9 "BTCUSD" 1 "buy" "limit" (Some (f_of_dec (dec_of_Z 100))) None (f_of_dec (dec_of_Z 3)) false None None None None None 0.
Definition demo_quotes : list offer := [(Dec 10 0, 1); (Dec 100 0, 4)].
Lemma demo_steep_quoted : Forall2 (quoted 0) demo_steep_offers demo_quotes.
Proof.
  assert (H : forall mo a, tick_price 0 a.1 -> 0 < a.2 < 10 ^ 10 -> mo_price mo = f_of_dec a.1 -> maker_qty mo = f_of_Z a.2 -> quoted 0 mo a)
    by (intros mo a H1 H2 H3 H4; exact (conj H1 (conj H2 (conj H3 H4)))).
  constructor; [|constructor; [|constructor]]; apply H; try (vm_compute; reflexivity);
    repeat split; vm_compute; try reflexivity; discriminate.
Qed.
Lemma limit_lock_covers_witness :
  exists lock, compute_lock_asset_and_amount (limit_dto "buy" 3 100) demo_pair = inr ("USD", lock) /\
    exists k' ts outcome m w' ds, match_payload demo_limit_payload demo_steep_worker = (k', inr (ts, outcome, f_of_Z m)) /\
      enrich "BTCUSD" ts (world demo_steep_worker) = (w', inr ds) /\
      dunits (bt_quote (batch_totals 9 1 BUY "BTCUSD" ds)) + dunits (dec_of_Z 100) * m <= dunits lock.
Proof.
  destruct (limit_lock_covers (R := MemRedis) (RS := MemRedisSpec) 0 (limit_dto "buy" 3 100) demo_pair BUY (dec_of_Z 100) 3) as (lock & E & H);
    [lia|repeat split; vm_compute; try reflexivity; discriminate|reflexivity|reflexivity|left|vm_compute; discriminate
    |vm_compute; reflexivity|split; reflexivity|vm_compute; reflexivity|].
  exists lock. split; [exact E|].
  destruct (H demo_limit_payload demo_steep_worker (redis (world demo_steep_worker)) demo_steep_offers demo_quotes)
    as (k' & ts & outcome & m & Em & Hm & Ht);
    [apply new_worker_ok|vm_compute; reflexivity|repeat constructor; vm_compute; reflexivity|repeat constructor; vm_compute; reflexivity
    |exact demo_steep_quoted|vm_compute; reflexivity|reflexivity|reflexivity|reflexivity|reflexivity|reflexivity|].
  assert (Hen : exists ds, (enrich "BTCUSD" ts (world demo_steep_worker)).2 = inr ds).
  { pose proof (f_equal snd Em) as Es. cbn [snd] in Es. set (x := (match_payload demo_limit_payload demo_steep_worker).2) in Es.
    vm_compute in x. subst x. injection Es as Ets _. rewrite <- Ets. eexists. vm_compute. reflexivity. }
  destruct Hen as [ds Hds]. destruct (enrich "BTCUSD" ts (world demo_steep_worker)) as [w' r] eqn:Ew. cbn [snd] in Hds. subst r.
  destruct (Ht _ _ _ 9 1 Ew) as (_ & T).
  exists k', ts, outcome, m, w', ds. split; [exact Em|]. split; [exact Ew|exact T].
Defined.
