(* ===== verification/StopMonitor.v ===== *)
(** * The stop monitor: app/services/stop_monitor_service.py

    On each trade print it moves the trailing stops, asks Redis for the
    triggered stops and turns each into a market or limit order; what a trigger
    has to lock is stated apart from the code ([trigger_requires]).  The tasks and
    their message loops around [_process_trade_print] are in App.
    Among the trades of one transaction, which share a timestamp, the last
    price is taken to be the one inserted last. *)

From Stdlib Require Import ZArith Lia Bool SpecFloat.
From stdpp Require Import base tactics option list strings gmap sets.
From S2P Require Import Prelude Float64 PyDecimal Models RedisIface OrderBook Queues OrdersIndex Stops World Pubsub Balance OrderRepo OrderService OrderSpec CancelSpec BulkSpec.
#[local] Open Scope Z_scope.

Definition stop_child (o : Order) (type : OrderType) (price : option decimal) (id : Z) : Order :=
  {| o_id := id; o_user_id := o_user_id o; o_symbol := o_symbol o; o_side := o_side o; o_type := type;
     o_status := NEW; o_price := price; o_stop_price := None; o_trailing_delta := None;
     o_quantity := o_quantity o; o_filled_quantity := dec_zero; o_filled_quote_qty := dec_zero;
     o_visible_quantity := None; o_hidden_quantity := None;
     o_replace_count := 0; o_replaces_id := None; o_replaced_by_id := None; o_parent_order_id := Some (o_id o);
     o_sl_order_id := None; o_tp_order_id := None; o_bulk_id := None; o_version := 1 |}.

(** The type and price of the order a stop becomes. *)
Definition child_terms (o : Order) : OrderType * option decimal :=
  match o_type o with
  | STOP_MARKET | TRAILING_STOP => (MARKET, None)
  | _ => (LIMIT, o_price o)
  end.

Definition child_metadata (c : Order) : metadata :=
  {[ "order_id" := Some (htext_int (o_id c)); "user_id" := Some (htext_int (o_user_id c));
     "symbol" := Some (HText (o_symbol c)); "side" := Some (HText (OrderSide_value (o_side c)));
     "type" := Some (HText (OrderType_value (o_type c))); "price" := Some (str_or_empty (o_price c));
     "quantity" := Some (HDecimal (o_quantity c)); "is_iceberg" := Some (HText "0") ]}.

Definition child_place_payload (o c : Order) (ts : Z) : OrderActionPayload :=
  MkPayload "place" (o_id c) (o_symbol c) (o_user_id c) (OrderSide_value (o_side c)) (OrderType_value (o_type c))
    (float_or_none (o_price c)) None (f_of_dec (o_quantity c)) false None None (Some (o_id o)) None None ts.

Section StopMonitor.
Context {R : Redis} {P : PgNumeric} {I : Interference}.

(** StopMonitorService: the extremes it has seen, and the world. *)
Record StopMonitorService := MkMonitor {
  local_high : gmap string decimal;
  local_low : gmap string decimal;
  monitored : World
}.
Abbreviation monprog := (prog StopMonitorService exn).
Definition in_monitored {A} (m : wprog A) : monprog A := fun k =>
  let '(w, r) := m (monitored k) in (MkMonitor (local_high k) (local_low k) w, r).

(** What the child locks; [None] where the trigger is given up. *)
Definition trigger_lock (o : Order) (pr : TradingPair) : wprog (option (string * decimal)) :=
  match o_side o with
  | SELL => mret (Some (base_asset pr, o_quantity o))
  | BUY =>
      match child_terms o with
      | (LIMIT, Some p) => mret (Some (quote_asset pr, dec_mul p (o_quantity o)))
      | _ =>
          ask_orders ← on_redis (get_opposite_orders_for_match (o_symbol o) "buy" 1000);
          match ask_orders with
          | [] => mret None
          | _ =>
              walked ← lift (walk_asks ask_orders (o_quantity o) dec_zero);
              if dec_ltb dec_zero (fst walked) then mret None
              else mret (Some (quote_asset pr, with_buffer (snd walked)))
          end
      end
  end.

(** The trigger once the balance is locked. *)
Definition fire_stop (o : Order) (is_trailing : bool) : wprog unit :=
  let fired := with_status FILLED o in
  _ ← write_order fired;
  child ← add_order (stop_child o (fst (child_terms o)) (snd (child_terms o)));
  _ ← enqueue (child_place_payload o child);
  _ ← on_redis (add_open_order (o_user_id child) (o_symbol child) (o_id child));
  _ ← on_redis (store_order_hash (o_id child) (child_metadata child));
  _ ← on_redis (if is_trailing : bool then remove_trailing_stop (o_id o) (o_symbol o)
                else remove_stop_order (o_id o) (o_symbol o));
  publish_order_update (o_user_id o) "triggered" (o_id o) (o_symbol o) (OrderSide_value (o_side o))
    (OrderType_value (o_type o)) (OrderStatus_value (o_status fired)) no_opts.

(** [_trigger_stop_order]: neither the trade price nor the stop price is used. *)
Definition trigger_stop_order (order_id : Z) (trigger_price : decimal) (is_trailing : bool) : wprog unit :=
  transaction (
    row ← get_order_for_update order_id;
    match row with
    | None => mret tt
    | Some o =>
        if negb (bool_decide (o_status o = PENDING)) then mret tt
        else
          pair ← get_by_symbol (o_symbol o);
          match pair with
          | None => mret tt
          | Some pr =>
              lock ← trigger_lock o pr;
              match lock with
              | None => mret tt
              | Some (asset, amount) =>
                  locked ← try_except
                    (_ ← lock_optimistic (o_user_id o) asset amount "stop_triggered" (Some (o_id o)); mret true)
                    (fun _ => mret false);
                  if locked : bool then fire_stop o is_trailing else mret tt
              end
          end
    end).

(** A failed trigger is logged and does not stop the others. *)
Definition trigger_all (ids : list Z) (price : decimal) (is_trailing : bool) : wprog unit :=
  for_each ids (fun order_id => try_except (trigger_stop_order order_id price is_trailing) (fun _ => mret tt)).

(** [d if prev is None or price beats prev]. *)
Definition new_extreme (prev : option decimal) (beats : decimal -> bool) (price : decimal) : option decimal :=
  match prev with Some p => if beats p then Some price else None | None => Some price end.
Definition truthy_price (o : option decimal) : option float64 :=
  match o with Some d => if dec_truthy d then Some (f_of_dec d) else None | None => None end.

Definition process_trade_print (symbol : string) (price : decimal) : monprog unit :=
  prev_high ← gets (fun k => local_high k !! symbol);
  prev_low ← gets (fun k => local_low k !! symbol);
  let new_high := new_extreme prev_high (fun p => dec_ltb p price) price in
  let new_low := new_extreme prev_low (fun p => dec_ltb price p) price in
  _ ← modify (fun k => MkMonitor (match new_high with Some h => <[symbol := h]> (local_high k) | None => local_high k end)
                         (match new_low with Some l => <[symbol := l]> (local_low k) | None => local_low k end)
                         (monitored k));
  in_monitored (
    _ ← (if bool_decide (new_high = None) && bool_decide (new_low = None) then mret []
         else on_redis (update_trailing_extremes symbol (truthy_price new_high) (truthy_price new_low)));
    triggered ← on_redis (get_all_triggered_stops symbol price);
    _ ← trigger_all triggered price false;
    triggered_trailing ← on_redis (get_triggered_trailing_stops symbol price);
    trigger_all triggered_trailing price true).

(** TradeRepository.get_last_price *)
Definition get_last_price (symbol : string) : wprog (option float64) :=
  from_db (fun d => (fun t => f_of_dec (t_price t)) <$> last (filter (fun t => t_symbol t = symbol) (trades d))).

Definition should_trigger (o : Order) (last_price : decimal) : bool :=
  match o_stop_price o with
  | Some sp => dec_truthy sp && match o_side o with SELL => dec_leb last_price sp | BUY => dec_leb sp last_price end
  | None => false
  end.
Definition rescan_symbol (symbol : string) : wprog unit :=
  last_price ← get_last_price symbol;
  match last_price with
  | None => mret tt
  | Some f =>
      price ← require InvalidOperation (dec_of_float f);
      pending ← list_pending_stops_by_symbol symbol;
      for_each pending (fun o =>
        if should_trigger o price then try_except (trigger_stop_order (o_id o) price false) (fun _ => mret tt)
        else mret tt)
  end.
Definition rescan_pending_stops (symbols : list string) : wprog unit := for_each symbols rescan_symbol.
End StopMonitor.

(** ** Triggering *)

Section TriggerSpec.
Context {R : Redis} {RS : RedisSpec R} {P : PgNumeric} {PS : PgNumericSpec P}.

(** The sorted set a trigger clears. *)
Definition cleared_key (is_trailing : bool) (symbol : string) : string :=
  if is_trailing then trailing_key symbol else stops_key symbol.

Lemma represents_del_state ks oid opn : represents ks opn -> represents (ks_del (trailing_state_key oid) ks) opn.
Proof.
  intros (H1 & H2 & H3). split; [|split]; intros; rewrite ks_set_del_ne by done; [apply H1|apply H2|apply H3].
Qed.
Lemma remove_watch_spec (is_trailing : bool) oid s w :
  exists w' r, on_redis (if is_trailing then remove_trailing_stop oid s else remove_stop_order oid s) w = (w', inr r) /\
    db w' = db w /\ ks_zset (view (redis w')) (cleared_key is_trailing s) !! str_of_Z oid = None /\
    fifo ORDERS_QUEUE (redis w') = fifo ORDERS_QUEUE (redis w) /\
    forall opn, represents (view (redis w)) opn -> represents (view (redis w')) opn.
Proof.
  unfold on_redis, remove_stop_order, remove_trailing_stop, zrem, del, cleared_key.
  destruct is_trailing; run_prog; do 2 eexists; (split; [done|]); cbn [redis db]; rewrite ?del_view, zrem_view;
    (split; [done|]); split_and!.
  - rewrite ks_zset_del_ne by done. rewrite ks_zset_upd. apply lookup_delete_eq.
  - unfold fifo, ks_list. rewrite del_view, zrem_view. cbn. by rewrite lookup_delete_ne.
  - intros opn H. apply represents_del_state. by apply (represents_ext (view (redis w))).
  - rewrite ks_zset_upd. apply lookup_delete_eq.
  - apply fifo_ext. by rewrite zrem_view.
  - intros opn H. by apply (represents_ext (view (redis w))).
Qed.

(** The child and its registration. *)
Lemma fire_stop_spec o is_trailing w opn :
  let id := next_order_id (db w) in
  let child := stop_child o (fst (child_terms o)) (snd (child_terms o)) id in
  represents (view (redis w)) opn -> opn !! id = None ->
  exists w', fire_stop o is_trailing w = (w', inr tt) /\
    db w' = MkDatabase (balances (db w)) (<[id := child]> (<[o_id o := with_status FILLED o]> (orders (db w))))
              (id + 1) (trades (db w)) (pairs (db w)) /\
    ks_zset (view (redis w')) (cleared_key is_trailing (o_symbol o)) !! str_of_Z (o_id o) = None /\
    fifo ORDERS_QUEUE (redis w') =
      fifo ORDERS_QUEUE (redis w) ++ [build_order_action_payload (child_place_payload o child (now_ms w))] /\
    represents (view (redis w')) (<[id := (o_user_id o, o_symbol o)]> opn).
Proof.
  intros id child Hrep Hfree. unfold fire_stop.
  set (w1 := with_db (set_orders <[o_id o := with_status FILLED o]>) w).
  rewrite (bind_inr (write_order (with_status FILLED o)) _ w w1 tt eq_refl).
  set (w2 := with_db (insert_order (stop_child o (fst (child_terms o)) (snd (child_terms o)))) w1).
  rewrite (bind_inr _ _ w1 w2 child eq_refl).
  destruct (enqueue_spec (child_place_payload o child) w2) as (w3 & E3 & D3 & _ & Z3 & R3 & F3).
  rewrite (bind_inr _ _ _ _ _ E3).
  destruct (add_open_spec (o_user_id child) (o_symbol child) (o_id child) w3 opn) as (w4 & E4 & D4 & Z4 & L4 & R4).
  { by apply (represents_ext (view (redis w))). } { done. }
  rewrite (bind_inr _ _ _ _ _ E4).
  destruct (store_hash_spec (o_id child) (child_metadata child) w4) as (w5 & E5 & D5 & Z5 & L5 & R5).
  rewrite (bind_inr _ _ _ _ _ E5).
  destruct (remove_watch_spec is_trailing (o_id o) (o_symbol o) w5) as (w6 & r6 & E6 & D6 & Z6 & F6 & R6).
  rewrite (bind_inr _ _ _ _ _ E6).
  edestruct publish_order_update_spec as (w7 & E7 & D7 & L7). rewrite E7.
  apply log_only_views in L7 as (_ & Z7 & _ & L7 & R7 & _).
  exists w7. split; [done|]. split; [by rewrite D7, D6, D5, D4, D3|].
  split; [unfold ks_zset in *; by rewrite Z7|]. split.
  - rewrite (fifo_ext _ _ _ L7), F6, (fifo_ext _ _ _ L5), (fifo_ext _ _ _ L4). exact F3.
  - apply (represents_ext (view (redis w6))); [done|]. apply R6. by apply (represents_ext (view (redis w4))).
Qed.

(** Stops that become market orders. *)
Definition market_stop (o : Order) : bool := bool_decide (o_type o = STOP_MARKET \/ o_type o = TRAILING_STOP).
Definition triggered_child (o : Order) (id : Z) : Order :=
  stop_child o (if market_stop o then MARKET else LIMIT) (if market_stop o then None else o_price o) id.

(** What a trigger has to lock, when it can be told: the base quantity of a sell,
    price times quantity of a limit buy, and a thousandth more than the cost of
    walking the asks for a market buy. *)
Definition trigger_requires (o : Order) (pr : TradingPair) (w : World) (lock : string * decimal) : Prop :=
  match o_side o, (if market_stop o then None else o_price o) with
  | SELL, _ => lock = (base_asset pr, o_quantity o)
  | BUY, Some p => lock = (quote_asset pr, dec_mul p (o_quantity o))
  | BUY, None => exists st mos remaining cost,
      get_opposite_orders_for_match (o_symbol o) "buy" 1000 (redis w) = (st, inr mos) /\ mos <> [] /\
      walk_asks mos (o_quantity o) dec_zero = inr (remaining, cost) /\ dec_ltb dec_zero remaining = false /\
      lock = (quote_asset pr, dec_mul cost (Dec 1001 (-3)))
  end.
(** No asks, or too few. *)
Definition unfillable (o : Order) (w : World) : Prop :=
  o_side o = BUY /\ (if market_stop o then None else o_price o) = None /\
  exists st mos, get_opposite_orders_for_match (o_symbol o) "buy" 1000 (redis w) = (st, inr mos) /\
    (mos = [] \/ exists remaining cost, walk_asks mos (o_quantity o) dec_zero = inr (remaining, cost) /\
                 dec_ltb dec_zero remaining = true).

Lemma child_terms_of o : child_terms o = ((if market_stop o then MARKET else LIMIT), (if market_stop o then None else o_price o)).
Proof.
  unfold child_terms, market_stop. destruct (o_type o); case_bool_decide as H;
    first [done | exfalso; by apply H; auto | by destruct H].
Qed.

(** The asks, read when they are needed. *)
Lemma trigger_walk o pr w : o_side o = BUY -> (if market_stop o then None else o_price o) = None ->
  trigger_lock o pr w =
    (ask_orders ← on_redis (get_opposite_orders_for_match (o_symbol o) "buy" 1000);
     match ask_orders with
     | [] => mret None
     | _ => walked ← lift (walk_asks ask_orders (o_quantity o) dec_zero);
            if dec_ltb dec_zero (fst walked) then mret None
            else mret (Some (quote_asset pr, with_buffer (snd walked)))
     end) w.
Proof. intros Hs Hp. unfold trigger_lock. rewrite Hs, child_terms_of, Hp. by destruct (market_stop o). Qed.

Lemma opposite_asks o w st mos : get_opposite_orders_for_match (o_symbol o) "buy" 1000 (redis w) = (st, inr mos) ->
  on_redis (get_opposite_orders_for_match (o_symbol o) "buy" 1000) w = (w, inr mos).
Proof.
  intros E. pose proof (reads_on_redis _ (reads_opposite (o_symbol o) "buy" 1000) w) as H. unfold on_redis in *.
  rewrite E in *. cbn in H. by rewrite H.
Qed.

Lemma trigger_lock_required o pr w lock : trigger_requires o pr w lock -> trigger_lock o pr w = (w, inr (Some lock)).
Proof.
  unfold trigger_requires. destruct (o_side o) eqn:Hs.
  - destruct (if market_stop o then None else o_price o) as [p|] eqn:Hp.
    + intros ->. unfold trigger_lock. rewrite Hs, child_terms_of, Hp. destruct (market_stop o); [discriminate Hp|reflexivity].
    + intros (st & mos & rem & cost & E & Hne & Hw & Hr & ->). rewrite trigger_walk by done.
      rewrite (bind_inr _ _ _ _ _ (opposite_asks _ _ _ _ E)). destruct mos as [|mo mos]; [done|].
      rewrite (bind_inr _ _ w w (rem, cost)) by (unfold lift; by rewrite Hw). cbn [fst snd]. by rewrite Hr.
  - intros ->. unfold trigger_lock. by rewrite Hs.
Qed.
Lemma trigger_lock_unfillable o pr w : unfillable o w -> trigger_lock o pr w = (w, inr None).
Proof.
  intros (Hs & Hp & st & mos & E & H). rewrite trigger_walk by done.
  rewrite (bind_inr _ _ _ _ _ (opposite_asks _ _ _ _ E)). destruct H as [->|(rem & cost & Hw & Hr)]; [done|].
  destruct mos as [|mo mos]; [done|].
  rewrite (bind_inr _ _ w w (rem, cost)) by (unfold lift; by rewrite Hw). cbn [fst snd]. by rewrite Hr.
Qed.

(** A trigger that succeeds. *)
Record triggered (w w' : World) (is_trailing : bool) (o : Order) (lock : string * decimal) (b : Balance) (opn : gmap Z (Z * string)) : Prop := {
  tg_tables : exists b', moves b b' (dunits (snd lock)) (- dunits (snd lock)) /\
    db w' = MkDatabase (<[(o_user_id o, fst lock) := b']> (balances (db w)))
              (<[next_order_id (db w) := triggered_child o (next_order_id (db w))]> (<[o_id o := with_status FILLED o]> (orders (db w))))
              (next_order_id (db w) + 1) (trades (db w)) (pairs (db w));
  tg_cleared : ks_zset (view (redis w')) (cleared_key is_trailing (o_symbol o)) !! str_of_Z (o_id o) = None;
  tg_queued : fifo ORDERS_QUEUE (redis w') = fifo ORDERS_QUEUE (redis w) ++
    [build_order_action_payload (child_place_payload o (triggered_child o (next_order_id (db w))) (now_ms w))];
  tg_index : represents (view (redis w')) (<[next_order_id (db w) := (o_user_id o, o_symbol o)]> opn)
}.

(** C33: [_trigger_stop_order], for plain and trailing stops alike and with no
    concurrent writer of the balance.  Nothing happens for a stop that does not
    exist or is no longer pending, for a missing pair, and for a market buy with
    no asks or too little volume to walk; an error while reading or walking the
    asks is raised with nothing changed.  Otherwise the trigger needs the base
    quantity of a sell, price times quantity of a limit buy, or a thousandth more
    than the cost of walking the asks for a market buy (amounts of at most 18
    decimals).  When the balance does not cover it, or its row is missing, the
    stop stays pending and registered and no more than an empty row is created.
    When it does, WHATEVER the trade price (neither it nor the side's direction
    is compared with the stop price), the amount is locked, the stop becomes
    FILLED, its child (market for stop-market and trailing stops, limit at the
    stop's price otherwise) is inserted under the next id, queued and indexed,
    and the stop leaves the sorted set it was watched in. *)
Theorem trigger_stop_order_correct oid price is_trailing w :
  let d := db w in
  let r := trigger_stop_order (I := NoInterference) oid price is_trailing w in
  ((forall o, orders d !! oid = Some o -> o_status o <> PENDING) -> r = (w, inr tt)) /\
  (forall o, orders d !! oid = Some o -> o_id o = oid -> o_status o = PENDING ->
   (pairs d !! o_symbol o = None -> r = (w, inr tt)) /\
   (forall pr, pairs d !! o_symbol o = Some pr ->
    (unfillable o w -> r = (w, inr tt)) /\
    (forall e, trigger_lock o pr w = (w, inl e) -> r = (w, inl e)) /\
    (forall lock opn, trigger_requires o pr w lock -> money (snd lock) -> 0 < dunits (snd lock) ->
     balances_ok (balances d) -> represents (view (redis w)) opn -> opn !! next_order_id d = None ->
     match balances d !! (o_user_id o, fst lock) with
     | None => r = (with_db (set_balances <[(o_user_id o, fst lock) := new_balance (o_user_id o) (fst lock)]>) w, inr tt)
     | Some b => if dunits (snd lock) <=? dunits (available_balance b)
                 then exists w', r = (w', inr tt) /\ triggered w w' is_trailing o lock b opn
                 else r = (w, inr tt)
     end))).
Proof.
  intros d r. subst d r. unfold trigger_stop_order, transaction, get_order_for_update, from_db. split.
  { intros Hno. unfold mbind, prog_bind, gets. destruct (orders (db w) !! oid) as [o|] eqn:E; [|done].
    rewrite bool_decide_eq_false_2 by (by apply Hno). done. }
  intros o E Hid Hst. rewrite (bind_inr _ _ w w (Some o)) by (unfold gets; by rewrite E).
  rewrite bool_decide_eq_true_2 by done. cbn [negb]. split.
  { intros Hp. by rewrite (bind_inr _ _ w w None) by (unfold get_by_symbol, from_db, gets; by rewrite Hp). }
  intros pr Hp. rewrite (bind_inr _ _ w w (Some pr)) by (unfold get_by_symbol, from_db, gets; by rewrite Hp). split.
  { intros Hu. by rewrite (bind_inr _ _ _ _ _ (trigger_lock_unfillable o pr w Hu)). }
  split. { intros e He. rewrite (bind_inl _ _ _ _ _ He). by destruct w. }
  intros [asset amount] opn Hreq Hm Hpos Hok Hrep Hfree. cbn [fst snd] in *.
  rewrite (bind_inr _ _ _ _ _ (trigger_lock_required _ _ _ _ Hreq)).
  destruct (balances (db w) !! (o_user_id o, asset)) as [b|] eqn:Hb.
  2:{ rewrite (bind_inr _ _ w (with_db (set_balances <[(o_user_id o, asset) := new_balance (o_user_id o) asset]>) w) false); [done|].
      unfold try_except. by rewrite (bind_inl _ _ _ _ _ (lock_missing _ _ _ _ _ _ Hm Hpos Hb)). }
  pose proof (lock_optimistic_alone (o_user_id o) asset amount "stop_triggered" (Some (o_id o)) w b Hok Hm Hb Hpos) as Hl.
  pose proof (keeps_log_lock_optimistic (I := NoInterference) w (o_user_id o) asset amount "stop_triggered"
    (Some (o_id o)) w (reflexivity w)) as Hlog.
  cbn zeta in Hl. destruct (dunits amount <=? dunits (available_balance b)).
  - destruct Hl as (b' & Er & Hmv & Hd). destruct (lock_optimistic _ _ _ _ _ w) as [w1 r1] eqn:El.
    cbn [fst snd] in Er, Hd. subst r1.
    rewrite (bind_inr _ _ w w1 true) by (unfold try_except; by rewrite (bind_inr _ _ _ _ _ El)).
    apply log_only_views in Hlog as (N1 & _ & _ & L1 & R1 & _).
    assert (Hn1 : next_order_id (db w1) = next_order_id (db w)) by (by rewrite Hd).
    destruct (fire_stop_spec o is_trailing w1 opn) as (w2 & E2 & D2 & Z2 & F2 & R2).
    { by apply (represents_ext (view (redis w))). } { by rewrite Hn1. }
    rewrite child_terms_of in D2, F2. cbn [fst snd] in D2, F2. rewrite Hn1 in D2, F2, R2. rewrite E2.
    exists w2. split; [done|]. split; [|done|by rewrite F2, (fifo_ext _ _ _ L1), N1|done].
    exists b'. split; [done|]. by rewrite D2, Hd.
  - rewrite (bind_inr _ _ w w false); [done|]. unfold try_except. by rewrite (bind_inl _ _ _ _ _ Hl).
Qed.
End TriggerSpec.

(** ** A stop far from the market *)

Definition demo_stop : Order :=
  MkOrder 1 1 "BTCUSD" SELL STOP_MARKET PENDING None (Some (dec_of_Z 90)) None (dec_of_Z 2) dec_zero dec_zero None None 0
    None None None None None None 1.
Definition demo_btc : Balance := MkBalance 1 "BTC" (dec_of_Z 5) dec_zero (dec_of_Z 5) 1.
Definition demo_stop_world : World (R := MemRedis) :=
  MkWorld (MkDatabase {[ (1, "BTC") := demo_btc ]} {[ 1 := demo_stop ]} 2 [] {[ "BTCUSD" := demo_pair ]})
    (add_stop_order (R := MemRedis) 1 "BTCUSD" (dec_of_Z 90) empty_keyspace).1 1700000000000.

(** a stop loss to sell below 90 is executed by a trade at 100: the print
    sells at once what the stop was to protect. *)
Theorem stop_fires_above_its_price :
  let r := process_trade_print (P := PgExact) (I := NoInterference) "BTCUSD" (dec_of_Z 100) (MkMonitor ∅ ∅ demo_stop_world) in
  r.2 = inr tt /\ o_status <$> orders (db (monitored r.1)) !! 1 = Some FILLED /\
  (fun c => (o_type c, o_status c, o_side c)) <$> orders (db (monitored r.1)) !! 2 = Some (MARKET, NEW, SELL).
Proof. vm_compute. done. Qed.

Lemma trigger_stop_order_correct_witness :
  exists w', trigger_stop_order (R := MemRedis) (P := PgExact) (I := NoInterference) 1 (dec_of_Z 100) false demo_stop_world
    = (w', inr tt) /\ ks_zset (view (RedisSpec := MemRedisSpec) (redis w')) (stops_key "BTCUSD") !! str_of_Z 1 = None.
Proof.
  destruct (trigger_stop_order_correct (RS := MemRedisSpec) (P := PgExact) (PS := PgExactSpec) 1 (dec_of_Z 100) false
    demo_stop_world) as [_ H].
  destruct (H demo_stop eq_refl eq_refl eq_refl) as [_ H1]. clear H. destruct (H1 demo_pair eq_refl) as (_ & _ & H). clear H1.
  specialize (H ("BTC", dec_of_Z 2) ∅ eq_refl). cbn [fst snd] in H.
  replace (balances (db demo_stop_world) !! (o_user_id demo_stop, "BTC")) with (Some demo_btc) in H by (vm_compute; reflexivity).
  cbv beta iota in H.
  replace (dunits (dec_of_Z 2) <=? dunits (available_balance demo_btc)) with true in H by (vm_compute; reflexivity).
  destruct H as (w' & E & [_ Hz _ _]).
  - split; vm_compute; congruence.
  - vm_compute. reflexivity.
  - cbn [demo_stop_world db balances]. apply map_Forall_singleton. split; [reflexivity|].
    repeat split; vm_compute; congruence.
  - exact represents_empty.
  - reflexivity.
  - exists w'. split; [exact E|exact Hz].
Defined.
