(* ===== verification/ModifySpec.v ===== *)
(** * What cancel-replace does

    [modify_order] in its transaction, on every branch, without interference. *)

From Stdlib Require Import ZArith Lia Bool SpecFloat.
From stdpp Require Import base tactics option list strings gmap sets.
From S2P Require Import Prelude Float64 FloatPos PyDecimal Models RedisIface OrderBook Queues OrdersIndex World Pubsub Balance Bridge OrderRepo OrderService OrderSpec CancelSpec Worker.
#[local] Open Scope Z_scope.

(** The row gives back [u] units and locks [l]. *)
Definition swapped (b b' : Balance) (u l : Z) : Prop := exists b1, moves b b1 (- u) u /\ moves b1 b' l (- l).
(** The replaced row points to its replacement. *)
Definition replaced (o : Order) (id : Z) : Order := set_o_replaced_by_id (Some id) (with_status CANCELED o).

Section Modification.
Context {R : Redis} {RS : RedisSpec R} {P : PgNumeric} {PS : PgNumericSpec P}.

Lemma drop_resting_shrinks o w w' r k m s : drop_resting o w = (w', r) ->
  ks_zset (view (redis w')) k !! m = Some s -> ks_zset (view (redis w)) k !! m = Some s.
Proof.
  unfold drop_resting, on_redis, delete_order_hash, del.
  set (key := match o_side o with BUY => bids_key (o_symbol o) | SELL => asks_key (o_symbol o) end).
  destruct (remove_resting_view (o_id o) (o_symbol o) (OrderSide_value (o_side o)) (redis w) key) as [Hr Hv];
    [apply side_key_value|].
  destruct (remove_resting_order (o_id o) (o_symbol o) (OrderSide_value (o_side o)) (redis w)) as [st1 r1] eqn:E.
  cbn [fst snd] in Hr, Hv. subst r1. run_prog. rewrite E. cbn [redis db now_ms].
  intros [= <- _]. cbn [redis]. rewrite del_view, Hv.
  destruct (decide (order_hash_key (o_id o) = k)) as [<-|Hk]; [rewrite ks_zset_del; by rewrite lookup_empty|].
  rewrite ks_zset_del_ne by done. destruct (decide (key = k)) as [<-|Hne]; [|by rewrite ks_zset_upd_ne].
  rewrite ks_zset_upd. intros H. by apply lookup_delete_Some in H as [_ H].
Qed.

(** The rows and Redis after the balances have been moved. *)
Definition replace_rows (uid : Z) (old : Order) (price qty : decimal) : wprog Order :=
  _ ← update_status (o_id old) CANCELED;
  new_order ← add_order (replacement uid old price qty);
  _ ← update_db (set_orders (alter (set_o_replaced_by_id (Some (o_id new_order))) (o_id old)));
  _ ← drop_resting old;
  _ ← on_redis (remove_open_order uid (o_symbol old) (o_id old));
  _ ← on_redis (add_open_order uid (o_symbol new_order) (o_id new_order));
  _ ← on_redis (store_order_hash (o_id new_order) (modify_metadata new_order price));
  _ ← enqueue (modify_payload new_order old);
  _ ← publish_order_update uid "modified" (o_id new_order) (o_symbol new_order)
        (OrderSide_value (o_side new_order)) (OrderType_value (o_type new_order))
        (OrderStatus_value (o_status new_order))
        (MkOpts (Some (f_of_dec price)) (Some (f_of_dec (o_quantity new_order)))
           None None None None None None None);
  mret new_order.

Lemma on_redis_now {A} (m : rprog A) w w' r : on_redis m w = (w', r) -> now_ms w' = now_ms w.
Proof. unfold on_redis. destruct (m (redis w)) as [st x]. by intros [= <- _]. Qed.

Lemma replace_rows_spec uid old price qty w opn :
  let d := db w in
  let id := next_order_id d in
  let new := replacement uid old price qty id in
  orders d !! o_id old = Some old -> o_id old <> id ->
  represents (view (redis w)) opn -> opn !! o_id old = Some (uid, o_symbol old) -> opn !! id = None ->
  exists w', replace_rows uid old price qty w = (w', inr new) /\
    db w' = MkDatabase (balances d) (<[o_id old := replaced old id]> (<[id := new]> (orders d))) (id + 1) (trades d) (pairs d) /\
    represents (view (redis w')) (<[id := (uid, o_symbol old)]> (delete (o_id old) opn)) /\
    ks_zset (view (redis w')) (resting_key old) !! str_of_Z (o_id old) = None /\
    (forall k m s, ks_zset (view (redis w')) k !! m = Some s -> ks_zset (view (redis w)) k !! m = Some s) /\
    fifo ORDERS_QUEUE (redis w') = fifo ORDERS_QUEUE (redis w) ++ [build_order_action_payload (modify_payload new old (now_ms w))].
Proof.
  intros d id new Ho Hne Hrep Hopn Hfree. unfold replace_rows. change (orders (db w) !! o_id old = Some old) in Ho.
  rewrite (bind_inr _ _ _ _ _ (eq_trans (update_status_spec _ _ _) ltac:(by rewrite Ho))).
  set (w1 := with_db _ w). assert (Eadd : add_order (replacement uid old price qty) w1 =
    (with_db (insert_order (replacement uid old price qty)) w1, inr new)) by done.
  rewrite (bind_inr _ _ _ _ _ Eadd). set (w2 := with_db _ w1).
  unfold update_db at 1, modify at 1. unfold mbind at 1, prog_bind at 1. cbn beta iota. set (w3 := with_db _ w2).
  destruct (drop_resting_spec old w3) as (w4 & E4 & D4 & N4 & Z4 & R4 & L4).
  pose proof (fun k m s => drop_resting_shrinks old w3 w4 _ k m s E4) as S4.
  rewrite (bind_inr _ _ _ _ _ E4).
  assert (Hrep4 : represents (view (redis w4)) opn).
  { apply (represents_del_hash _ _ _ _ R4). by apply (represents_ext (view (redis w))). }
  destruct (remove_open_spec uid old opn w4 Hrep4 Hopn) as (w5 & E5 & D5 & N5 & Z5 & L5 & R5).
  rewrite (bind_inr _ _ _ _ _ E5).
  destruct (add_open_spec uid (o_symbol new) (o_id new) w5 (delete (o_id old) opn) R5) as (w6 & E6 & D6 & Z6 & L6 & R6).
  { cbn. by rewrite lookup_delete_ne. }
  rewrite (bind_inr _ _ _ _ _ E6).
  destruct (store_hash_spec (o_id new) (modify_metadata new price) w6) as (w7 & E7 & D7 & Z7 & L7 & R7).
  rewrite (bind_inr _ _ _ _ _ E7).
  destruct (enqueue_spec (modify_payload new old) w7) as (w8 & E8 & D8 & N8 & Z8 & R8 & F8).
  rewrite (bind_inr _ _ _ _ _ E8).
  edestruct publish_order_update_spec as (w9 & E9 & D9 & L9). rewrite (bind_inr _ _ _ _ _ E9).
  apply log_only_views in L9 as (N9 & Z9 & _ & L9 & R9 & _).
  assert (Hz : forall k, ks_zset (view (redis w9)) k = ks_zset (view (redis w4)) k).
  { intros k. unfold ks_zset. by rewrite Z9, Z8, Z7, Z6, Z5. }
  exists w9. split; [done|]. split; [|split; [|split; [|split]]].
  - rewrite D9, D8, D7, D6, D5, D4. unfold w3, w2, w1. cbn [with_db db set_orders insert_order orders balances next_order_id trades pairs].
    fold d. unfold set_orders, insert_order. cbn [orders balances next_order_id trades pairs o_id replacement new]. fold id new. f_equal.
    apply map_eq. intros i. destruct (decide (i = o_id old)) as [->|Hi].
    + by rewrite lookup_alter_eq, lookup_insert_ne, !lookup_insert_eq.
    + rewrite lookup_alter_ne, (lookup_insert_ne _ (o_id old)) by done.
      destruct (decide (i = id)) as [->|Hi']; [by rewrite !lookup_insert_eq|]. by rewrite !lookup_insert_ne.
  - apply (represents_ext (view (redis w6))); [by rewrite R9, R8, R7|exact R6].
  - rewrite Hz. exact Z4.
  - intros k m s. rewrite Hz. apply S4.
  - rewrite (fifo_ext _ _ _ L9), F8. f_equal.
    + rewrite (fifo_ext _ _ _ L7), (fifo_ext _ _ _ L6), (fifo_ext _ _ _ L5).
      by rewrite (fifo_del_hash ORDERS_QUEUE (redis w3) (redis w4) (o_id old) ltac:(unfold ORDERS_QUEUE, order_hash_key; discriminate) L4).
    + by rewrite (on_redis_now _ _ _ _ E7), (on_redis_now _ _ _ _ E6), (on_redis_now _ _ _ _ E5), N4.
Qed.

(** The balance of a modification: the unlock, the checks, the new lock. *)
Section Exchange.
Context (uid : Z) (old : Order) (price qty : decimal) (pr : TradingPair) (w : World) (b : Balance).
Let unlock := modify_unlock old pr.
Let lock := modify_lock old pr price qty.
Let u := dunits (snd unlock).
Let l := dunits (snd lock).
Hypotheses (Hu : money (snd unlock)) (Hl : money (snd lock)) (Hup : 0 < u <= dunits (locked_balance b)) (Hlp : 0 < l).
Hypotheses (Hok : balances_ok (balances (db w))) (Hb : balances (db w) !! (uid, fst unlock) = Some b).

Definition swap_funds : wprog unit :=
  _ ← (if dec_ltb dec_zero (snd unlock)
       then _ ← unlock_optimistic (I := NoInterference) uid (fst unlock) (snd unlock) "order_modified" (Some (o_id old)); mret tt
       else mret tt);
  _ ← lift (first_error (modify_checks pr price qty));
  _ ← on_insufficient
        (lock_optimistic (I := NoInterference) uid (fst lock) (snd lock) "order_modified" (Some (o_id old)))
        (_ ← lock_optimistic (I := NoInterference) uid (fst unlock) (snd unlock) "order_placed" (Some (o_id old)); mret tt);
  mret tt.

Lemma lock_asset : fst lock = fst unlock.
Proof using. unfold lock, unlock, modify_lock, modify_unlock. by destruct (o_side old). Qed.

Lemma unlocked_first : exists w1 b1, moves b b1 (- u) u /\ log_only w w1 /\
  db w1 = set_balances <[(uid, fst unlock) := b1]> (db w) /\
  swap_funds w = (_ ← lift (first_error (modify_checks pr price qty));
    _ ← on_insufficient
        (lock_optimistic (I := NoInterference) uid (fst lock) (snd lock) "order_modified" (Some (o_id old)))
        (_ ← lock_optimistic (I := NoInterference) uid (fst unlock) (snd unlock) "order_placed" (Some (o_id old)); mret tt);
    mret tt) w1.
Proof using All.
  unfold swap_funds. rewrite ltb_zero_units by done. fold unlock u. rewrite (proj2 (Z.ltb_lt 0 u)) by lia.
  destruct (unlock_optimistic_alone uid (fst unlock) (snd unlock) "order_modified" (Some (o_id old)) w b Hok Hu Hb Hup)
    as (b1 & Er & Hm & Hd).
  pose proof (keeps_log_unlock_optimistic (I := NoInterference) w uid (fst unlock) (snd unlock) "order_modified"
    (Some (o_id old)) w (reflexivity w)) as Hlog.
  destruct (unlock_optimistic _ _ _ _ _ w) as [w1 r1] eqn:E. cbn [fst snd] in Er, Hd. subst r1.
  exists w1, b1. split_and!; [done..|]. by rewrite (bind_inr _ _ w w1 tt) by by rewrite (bind_inr _ _ _ _ _ E).
Qed.

Lemma unlocked_ok w1 b1 : moves b b1 (- u) u -> db w1 = set_balances <[(uid, fst unlock) := b1]> (db w) ->
  balances_ok (balances (db w1)) /\ balances (db w1) !! (uid, fst unlock) = Some b1.
Proof using Hok Hb.
  intros Hm Hd. rewrite Hd. cbn [set_balances balances]. split; [|apply lookup_insert_eq].
  destruct (balances_ok_lookup _ _ _ _ Hok Hb) as (Hi & Hs & _). destruct Hm as (H1 & H2 & _ & _ & _ & _ & H3).
  rewrite <- Hi, <- Hs, <- H1, <- H2. by apply balances_ok_insert.
Qed.

Lemma swap_refused msg : first_error (modify_checks pr price qty) = inl (OrderValidationError msg) ->
  exists w1, swap_funds w = (w1, inl (OrderValidationError msg)) /\ log_only w w1.
Proof using All.
  intros Hc. destruct unlocked_first as (w1 & b1 & _ & Hlog & _ & ->). exists w1. split; [|done].
  apply bind_inl. unfold lift. by rewrite Hc.
Qed.

Lemma swap_done : first_error (modify_checks pr price qty) = inr tt -> l <= dunits (available_balance b) + u ->
  exists w1 b', swap_funds w = (w1, inr tt) /\ swapped b b' u l /\ log_only w w1 /\
    db w1 = set_balances <[(uid, fst unlock) := b']> (db w).
Proof using All.
  intros Hc Hle. destruct unlocked_first as (w1 & b1 & Hm1 & Hlog1 & Hd1 & ->).
  rewrite (bind_inr _ _ w1 w1 tt) by by rewrite Hc. destruct (unlocked_ok w1 b1 Hm1 Hd1) as [Hok1 Hb1].
  unfold on_insufficient, try_except. rewrite lock_asset.
  pose proof (lock_optimistic_alone uid (fst unlock) (snd lock) "order_modified" (Some (o_id old)) w1 b1 Hok1 Hl Hb1 Hlp) as H.
  pose proof (keeps_log_lock_optimistic (I := NoInterference) w uid (fst unlock) (snd lock) "order_modified"
    (Some (o_id old)) w1 Hlog1) as Hlog2.
  cbn zeta in H. fold l in H. pose proof Hm1 as (_ & _ & _ & _ & Hav & _).
  destruct (Z.leb_spec l (dunits (available_balance b1))); [|lia]. destruct H as (b2 & Er & Hm2 & Hd2).
  run_prog. destruct (lock_optimistic _ _ _ _ _ w1) as [w2 r2] eqn:E. cbn [fst snd] in Er, Hd2. subst r2.
  exists w2, b2. split; [done|]. split; [by exists b1|]. split; [done|].
  rewrite Hd2, Hd1. unfold set_balances. cbn. f_equal. apply insert_insert_eq.
Qed.

Lemma swap_uncovered : first_error (modify_checks pr price qty) = inr tt -> dunits (available_balance b) + u < l ->
  exists w1 av, swap_funds w = (w1, inl (InsufficientBalanceError uid (fst unlock) (snd lock) av)) /\ log_only w w1.
Proof using All.
  intros Hc Hgt. destruct unlocked_first as (w1 & b1 & Hm1 & Hlog1 & Hd1 & ->).
  rewrite (bind_inr _ _ w1 w1 tt) by by rewrite Hc. destruct (unlocked_ok w1 b1 Hm1 Hd1) as [Hok1 Hb1].
  pose proof Hm1 as (_ & _ & _ & _ & Hav & _ & Hb1ok).
  pose proof (lock_optimistic_alone uid (fst unlock) (snd lock) "order_modified" (Some (o_id old)) w1 b1 Hok1 Hl Hb1 Hlp) as H.
  cbn zeta in H. fold l in H. destruct (Z.leb_spec l (dunits (available_balance b1))); [lia|].
  pose proof (lock_optimistic_alone uid (fst unlock) (snd unlock) "order_placed" (Some (o_id old)) w1 b1 Hok1 Hu Hb1) as H2.
  cbn zeta in H2. fold u in H2. specialize (H2 ltac:(lia)).
  assert (Hav0 : 0 <= dunits (available_balance b)).
  { destruct (balances_ok_lookup _ _ _ _ Hok Hb) as (_ & _ & Hbok). apply Hbok. }
  destruct (Z.leb_spec u (dunits (available_balance b1))); [|lia]. destruct H2 as (b2 & Er & _ & _).
  pose proof (keeps_log_lock_optimistic (I := NoInterference) w uid (fst unlock) (snd unlock) "order_placed"
    (Some (o_id old)) w1 Hlog1) as Hlog2.
  destruct (lock_optimistic _ _ (snd unlock) _ _ w1) as [w2 r2] eqn:E2. cbn [fst snd] in Er. subst r2.
  exists w2, (available_balance b1). split; [|done]. unfold on_insufficient, try_except. rewrite lock_asset.
  run_prog. rewrite H. by rewrite E2.
Qed.
End Exchange.

(** A modification that passes the first guards moves the funds, then replaces
    the rows. *)
Lemma modify_runs uid oid price qty w old pr :
  orders (db w) !! oid = Some old -> o_user_id old = uid -> is_active old = true -> modifiable (o_type old) = true ->
  pairs (db w) !! o_symbol old = Some pr ->
  modify_order (I := NoInterference) uid oid price qty w =
    (_ ← swap_funds uid old price qty pr; replace_rows uid old price qty) w.
Proof.
  intros Ho Hu Ha Hm Hp. unfold modify_order, get_order_for_update, from_db.
  rewrite (bind_inr _ _ w w (Some old)) by (unfold gets; by rewrite Ho).
  rewrite Hu, Z.eqb_refl, Ha, Hm. cbn [negb].
  rewrite (bind_inr _ _ w w pr) by (unfold get_by_symbol, from_db; run_prog; by rewrite Hp).
  unfold swap_funds, replace_rows. cbn zeta. cbv [mbind prog_bind]. cbn beta.
  destruct (if dec_ltb dec_zero (snd (modify_unlock old pr)) then _ else _) as [w1 [e|[]]]; [done|].
  unfold lift. destruct (first_error _) as [e|[]]; [done|]. by destruct (on_insufficient _ _ w1) as [w2 [e|b]].
Qed.

Lemma modify_checks_spec pr price qty : money price -> money qty -> money (min_lot_size pr) ->
  first_error (modify_checks pr price qty) = inr tt <->
  0 < dunits price /\ 0 < dunits qty /\ dunits (min_lot_size pr) <= dunits qty.
Proof.
  intros Hp Hq Hm. unfold modify_checks. rewrite !leb_zero_units, ltb_units by done.
  destruct (Z.leb_spec (dunits price) 0), (Z.leb_spec (dunits qty) 0), (Z.ltb_spec (dunits qty) (dunits (min_lot_size pr)));
    cbn; (split; [done || (intros; lia)|intros; done || lia]).
Qed.
Lemma first_error_raises checks e : first_error checks = inl e -> exists msg, e = OrderValidationError msg.
Proof. induction checks as [|[[] msg] checks IH]; cbn; [done|intros [= <-]; by exists msg|done]. Qed.

(** C12: [modify_order] in its transaction.  An order that is missing, foreign,
    not active or not a limit, post-only or iceberg order is refused and nothing
    changes.  Otherwise, new terms below the pair's minimum, or a lock that
    neither the available balance nor the released lock covers, raise and leave
    the database as it was.  In all other cases the balance gives back exactly
    what the remaining quantity had locked and locks the new terms, the old row
    is CANCELED and linked to the one NEW row inserted, the index follows, and
    one modify action is queued; the replacement itself is put on no side of the
    book. *)
Theorem modify_order_correct uid oid price qty w :
  let d := db w in
  let id := next_order_id d in
  let r := transaction (modify_order (I := NoInterference) uid oid price qty) w in
  (~ (exists o, orders d !! oid = Some o /\ o_user_id o = uid) -> r = (w, inl (OrderNotFoundError oid uid))) /\
  (forall o, orders d !! oid = Some o -> o_user_id o = uid -> is_active o = false ->
     r = (w, inl (OrderNotCancelableError oid (o_status o)))) /\
  (forall o, orders d !! oid = Some o -> o_user_id o = uid -> is_active o = true -> modifiable (o_type o) = false ->
     r = (w, inl (CannotModifyType oid (o_type o)))) /\
  (forall o pr b opn,
     let unlock := modify_unlock o pr in
     let lock := modify_lock o pr price qty in
     let u := dunits (snd unlock) in
     let l := dunits (snd lock) in
     let accepted := 0 < dunits price /\ 0 < dunits qty /\ dunits (min_lot_size pr) <= dunits qty in
     orders d !! oid = Some o -> o_id o = oid -> oid <> id -> o_user_id o = uid -> is_active o = true ->
     modifiable (o_type o) = true -> pairs d !! o_symbol o = Some pr -> money price -> money qty -> money (min_lot_size pr) ->
     money (snd unlock) -> money (snd lock) -> 0 < u <= dunits (locked_balance b) -> 0 < l -> balances_ok (balances d) ->
     balances d !! (uid, fst unlock) = Some b ->
     represents (view (redis w)) opn -> opn !! oid = Some (uid, o_symbol o) -> opn !! id = None ->
     (~ accepted -> exists w' msg, r = (w', inl (OrderValidationError msg)) /\ db w' = d) /\
     (accepted -> dunits (available_balance b) + u < l ->
        exists w' av, r = (w', inl (InsufficientBalanceError uid (fst unlock) (snd lock) av)) /\ db w' = d) /\
     (accepted -> l <= dunits (available_balance b) + u ->
        let new := replacement uid o price qty id in
        exists w' b', r = (w', inr new) /\ swapped b b' u l /\
          db w' = MkDatabase (<[(uid, fst unlock) := b']> (balances d))
                    (<[oid := replaced o id]> (<[id := new]> (orders d))) (id + 1) (trades d) (pairs d) /\
          represents (view (redis w')) (<[id := (uid, o_symbol o)]> (delete oid opn)) /\
          ks_zset (view (redis w')) (resting_key o) !! str_of_Z oid = None /\
          (forall k m s, ks_zset (view (redis w')) k !! m = Some s -> ks_zset (view (redis w)) k !! m = Some s) /\
          fifo ORDERS_QUEUE (redis w') =
            fifo ORDERS_QUEUE (redis w) ++ [build_order_action_payload (modify_payload new o (now_ms w))])).
Proof.
  intros d id r. subst r. unfold transaction. split_and!.
  - intros Hno. unfold modify_order, get_order_for_update, from_db. run_prog.
    destruct (orders (db w) !! oid) as [o|] eqn:E; [|by destruct w].
    destruct (Z.eqb_spec (o_user_id o) uid) as [Eu|]; [destruct Hno; by exists o|by destruct w].
  - intros o Ho Hu Ha. unfold modify_order, get_order_for_update, from_db. run_prog.
    change (orders (db w) !! oid = Some o) in Ho. rewrite Ho, Hu, Z.eqb_refl, Ha. by destruct w.
  - intros o Ho Hu Ha Hm. unfold modify_order, get_order_for_update, from_db. run_prog.
    change (orders (db w) !! oid = Some o) in Ho. rewrite Ho, Hu, Z.eqb_refl, Ha, Hm. by destruct w.
  - intros o pr b opn Ho Hid Hne Hu Ha Hm Hp Hpr Hq Hmin Hmu Hml Hup Hlp Hok Hb Hrep Hopn Hfree.
    rewrite (modify_runs uid oid price qty w o pr Ho Hu Ha Hm Hp).
    pose proof (modify_checks_spec pr price qty Hpr Hq Hmin) as Hacc.
    split; [|split].
    + intros Hno. destruct (first_error (modify_checks pr price qty)) as [e|[]] eqn:Ec; [|destruct Hno; by apply Hacc].
      destruct (first_error_raises _ _ Ec) as [msg ->].
      destruct (swap_refused uid o price qty pr w b Hmu Hml Hup Hlp Hok Hb msg Ec) as (w1 & E & _).
      rewrite (bind_inl _ _ _ _ _ E). by eexists _, msg.
    + intros Hyes Hlt.
      destruct (swap_uncovered uid o price qty pr w b Hmu Hml Hup Hlp Hok Hb (proj2 Hacc Hyes) Hlt) as (w1 & av & E & _).
      rewrite (bind_inl _ _ _ _ _ E). by eexists _, av.
    + intros Hyes Hle.
      destruct (swap_done uid o price qty pr w b Hmu Hml Hup Hlp Hok Hb (proj2 Hacc Hyes) Hle) as (w1 & b' & E & Hsw & Hlog & Hd1).
      rewrite (bind_inr _ _ _ _ _ E). apply log_only_views in Hlog as (N1 & Z1 & _ & L1 & R1 & _).
      destruct (replace_rows_spec uid o price qty w1 opn) as (w2 & E2 & D2 & R2 & K2 & S2 & F2);
        rewrite ?Hd1, ?Hid; try done; [by apply (represents_ext (view (redis w)))|].
      rewrite E2. rewrite Hd1 in *. cbn [set_balances next_order_id balances orders trades pairs] in *. rewrite Hid in *.
      exists w2, b'. split_and!; try done.
      * intros k m s Hk. apply S2 in Hk. unfold ks_zset in *. by rewrite <- Z1.
      * rewrite F2, N1. f_equal. by apply fifo_ext.
Qed.
End Modification.

(** The worker ignores modify actions, and nothing else is queued for the
    replacement: it never reaches the matching engine. *)
Theorem modify_action_ignored {R : Redis} {P : PgNumeric} {I : Interference} new old ts k :
  process_action (modify_payload new old ts) k = (k, inr (MkResult "modify" (o_id new) "ok" [] f_zero false)).
Proof. done. Qed.

(** A buy of 3 at 10, replaced by 4 at 20 on 60 available. *)
Lemma modify_order_correct_witness :
  exists w' b', transaction (modify_order (R := MemRedis) (P := PgExact) (I := NoInterference) 1 1 (dec_of_Z 20) (dec_of_Z 4)) demo_open
      = (w', inr (replacement 1 demo_resting (dec_of_Z 20) (dec_of_Z 4) 2)) /\
    swapped demo_balance b' (dunits (dec_of_Z 30)) (dunits (dec_of_Z 80)).
Proof.
  destruct (modify_order_correct (RS := MemRedisSpec) (PS := PgExactSpec) 1 1 (dec_of_Z 20) (dec_of_Z 4) demo_open)
    as (_ & _ & _ & H).
  destruct (H demo_resting demo_pair demo_balance {[ 1 := (1, "BTCUSD") ]}) as (_ & _ & Hd).
  - reflexivity.
  - reflexivity.
  - vm_compute. discriminate.
  - reflexivity.
  - reflexivity.
  - reflexivity.
  - reflexivity.
  - split; vm_compute; congruence.
  - split; vm_compute; congruence.
  - split; vm_compute; congruence.
  - split; vm_compute; congruence.
  - split; vm_compute; congruence.
  - split; vm_compute; congruence.
  - vm_compute. reflexivity.
  - cbn [demo_open db balances]. apply map_Forall_singleton. split; [reflexivity|apply demo_balance_ok].
  - reflexivity.
  - apply demo_open_represents.
  - reflexivity.
  - reflexivity.
  - destruct Hd as (w' & b' & E & Hsw & _).
    + split; [vm_compute; reflexivity|split; [vm_compute; reflexivity|vm_compute; congruence]].
    + vm_compute. congruence.
    + exists w', b'. split; [exact E|exact Hsw].
Defined.
