(* ===== verification/Sha256.v ===== *)
(** * SHA-256 and HMAC, as hashlib and hmac compute them

    On lists of bytes (Z in [0, 256)); texts are their UTF-8 bytes. *)

From Stdlib Require Import ZArith Lia Ascii String List.
From stdpp Require Import base list strings.
#[local] Open Scope Z_scope.

Definition w32 (x : Z) : Z := Z.land x 0xffffffff.
Definition rotr (n x : Z) : Z := Z.lor (Z.shiftr x n) (w32 (Z.shiftl x (32 - n))).
Definition not32 (x : Z) : Z := 0xffffffff - x.

(** The constants are the first 32 bits of the fractional parts of the roots of
    the first primes: cube roots for the rounds, square roots for the initial
    hash.  The digest Examples below pin them down. *)
Definition is_prime (n : nat) : bool :=
  (2 <=? n)%nat && forallb (fun d => negb (n mod d =? 0)%nat) (seq 2 (n - 2)).
Definition primes (n : nat) : list Z := take n (Z.of_nat <$> base.filter is_prime (seq 0 320)).
(** The largest [r] with [r^3 <= n], by bisection from a power of two. *)
Fixpoint cube_root (bit : nat) (r n : Z) : Z :=
  let r' := r + 2 ^ Z.of_nat bit in
  let r := if r' * r' * r' <=? n then r' else r in
  match bit with O => r | S bit => cube_root bit r n end.
Definition round_constants : list Z :=
  Eval vm_compute in (fun p => w32 (cube_root 36 0 (p * 2 ^ 96))) <$> primes 64.
Definition initial_hash : list Z :=
  Eval vm_compute in (fun p => w32 (Z.sqrt (p * 2 ^ 64))) <$> primes 8.

(** The message schedule, newest word first. *)
Fixpoint extend (n : nat) (ws : list Z) : list Z :=
  match n with
  | O => ws
  | S n =>
      let w i := nth (i - 1) ws 0 in
      let s0 := Z.lxor (Z.lxor (rotr 7 (w 15%nat)) (rotr 18 (w 15%nat))) (Z.shiftr (w 15%nat) 3) in
      let s1 := Z.lxor (Z.lxor (rotr 17 (w 2%nat)) (rotr 19 (w 2%nat))) (Z.shiftr (w 2%nat) 10) in
      extend n (w32 (w 16%nat + s0 + w 7%nat + s1) :: ws)
  end.

Definition sha_round (st : list Z) (kw : Z * Z) : list Z :=
  match st with
  | [a; b; c; d; e; f; g; h] =>
      let s1 := Z.lxor (Z.lxor (rotr 6 e) (rotr 11 e)) (rotr 25 e) in
      let ch := Z.lxor (Z.land e f) (Z.land (not32 e) g) in
      let t1 := w32 (h + s1 + ch + fst kw + snd kw) in
      let s0 := Z.lxor (Z.lxor (rotr 2 a) (rotr 13 a)) (rotr 22 a) in
      let maj := Z.lxor (Z.lxor (Z.land a b) (Z.land a c)) (Z.land b c) in
      [w32 (t1 + s0 + maj); a; b; c; w32 (d + t1); e; f; g]
  | _ => st
  end.

Definition compress (st block : list Z) : list Z :=
  let schedule := rev (extend 48 (rev block)) in
  zip_with (fun x y => w32 (x + y)) st (fold_left sha_round (combine round_constants schedule) st).

Fixpoint words_of (bytes : list Z) : list Z :=
  match bytes with
  | a :: b :: c :: d :: bytes => (((a * 256 + b) * 256 + c) * 256 + d) :: words_of bytes
  | _ => []
  end.
Fixpoint be_bytes (n : nat) (x : Z) : list Z :=
  match n with O => [] | S n => be_bytes n (x / 256) ++ [x mod 256] end.

(** The padding to a multiple of 64 bytes. *)
Definition pad (msg : list Z) : list Z :=
  let n := Z.of_nat (length msg) in
  msg ++ [0x80] ++ repeat 0 (Z.to_nat ((55 - n) mod 64)) ++ be_bytes 8 (8 * n).

Fixpoint blocks (fuel : nat) (ws : list Z) : list (list Z) :=
  match fuel, ws with
  | S fuel, _ :: _ => take 16 ws :: blocks fuel (drop 16 ws)
  | _, _ => []
  end.

Definition sha256 (msg : list Z) : list Z :=
  let ws := words_of (pad msg) in
  fold_left compress (blocks (length ws) ws) initial_hash ≫= be_bytes 4.

(** hmac with a block of 64 bytes. *)
Definition hmac_sha256 (key msg : list Z) : list Z :=
  let key := if (64 <? Z.of_nat (length key)) then sha256 key else key in
  let key := key ++ repeat 0 (64 - length key) in
  sha256 ((Z.lxor 0x5c <$> key) ++ sha256 ((Z.lxor 0x36 <$> key) ++ msg)).

(** ** Texts *)

Definition encode (s : string) : list Z := (fun c => Z.of_nat (nat_of_ascii c)) <$> list_ascii_of_string s.
Definition hex_digit (d : Z) : ascii := ascii_of_nat (Z.to_nat (if d <? 10 then 48 + d else 87 + d)).
Definition hexdigest (bytes : list Z) : string :=
  string_of_list_ascii (bytes ≫= fun b => [hex_digit (b / 16); hex_digit (b mod 16)]).

(** ** The digests are ASCII texts *)

Definition is_ascii (s : string) : bool :=
  forallb (fun c => (nat_of_ascii c <? 128)%nat) (list_ascii_of_string s).

Lemma be_bytes_range n x : Forall (fun b => 0 <= b < 256) (be_bytes n x).
Proof.
  revert x. induction n as [|n IH]; intros x; cbn; [constructor|].
  apply Forall_app. split; [apply IH|]. constructor; [by apply Z.mod_pos_bound|constructor].
Qed.
Lemma hex_digit_ascii d : 0 <= d < 16 -> (nat_of_ascii (hex_digit d) <? 128)%nat = true.
Proof.
  intros H. unfold hex_digit. apply Nat.ltb_lt.
  destruct (Z.ltb_spec d 10); rewrite nat_ascii_embedding; lia.
Qed.
Lemma hexdigest_ascii bytes : Forall (fun b => 0 <= b < 256) bytes -> is_ascii (hexdigest bytes) = true.
Proof.
  intros H. unfold is_ascii, hexdigest. rewrite list_ascii_of_string_of_list_ascii.
  induction H as [|b bytes Hb H IH]; [done|]. cbn [mbind list_bind forallb app].
  assert (0 <= b / 16 < 16) by (split; [apply Z.div_pos|apply Z.div_lt_upper_bound]; lia).
  pose proof (Z.mod_pos_bound b 16 eq_refl). by rewrite !hex_digit_ascii, IH.
Qed.
Lemma sha256_range msg : Forall (fun b => 0 <= b < 256) (sha256 msg).
Proof.
  unfold sha256. induction (fold_left _ _ _) as [|x l IH]; cbn [mbind list_bind]; [constructor|].
  apply Forall_app. split; [apply be_bytes_range|apply IH].
Qed.

Example sha256_abc :
  hexdigest (sha256 (encode "abc")) = "ba7816bf8f01cfea414140de5dae2223b00361a396177a9cb410ff61f20015ad".
Proof. vm_compute. reflexivity. Qed.
Example hmac_sha256_rfc4231_2 :
  hexdigest (hmac_sha256 (encode "Jefe") (encode "what do ya want for nothing?"))
  = "5bdcc146bf60754e6a042426089575c75a003f089d2739839dec58b964ec3843".
Proof. vm_compute. reflexivity. Qed.
