(* ===== verification/Auth.v ===== *)
(** * Accounts and authentication: app/core/security.py, app/api/deps.py,
      app/services/admin_service.py

    Users and API keys, the HMAC signature of a request with its replay window
    and the last use of the key, the permission check, and the administration
    of accounts, keys, balances and pairs.  JWT decoding is PyJWT's: [jwt_decode]
    is an argument here; passwords and tokens are in Login. *)

From Stdlib Require Import ZArith Lia Bool Ascii SpecFloat DecimalString.
From stdpp Require Import base tactics option list strings gmap sets.
From S2P Require Import Prelude Float64 PyDecimal Models RedisIface OrderBook RateLimit World Balance Sha256.
#[local] Open Scope Z_scope.

(** ** Signatures *)

Definition newline : string := String "010" "".
Definition upper_char (c : ascii) : ascii :=
  let n := nat_of_ascii c in if ((97 <=? n) && (n <=? 122))%nat then ascii_of_nat (n - 32) else c.
Definition upper (s : string) : string := String.string_of_list_ascii (upper_char <$> String.list_ascii_of_string s).

Definition hash_api_secret (raw_secret : string) : string := hexdigest (sha256 (encode raw_secret)).
Definition signature_payload (method path : string) (timestamp : Z) (body : string) : string :=
  upper method +:+ newline +:+ path +:+ newline +:+ str_of_Z timestamp +:+ newline +:+ body.
Definition compute_signature (secret method path : string) (timestamp : Z) (body : string) : string :=
  hexdigest (hmac_sha256 (encode secret) (encode (signature_payload method path timestamp body))).

(** [hmac.compare_digest] on texts refuses those that are not ASCII. *)
Definition compare_digest (a b : string) : exn + bool :=
  if is_ascii a && is_ascii b then inr (String.eqb a b)
  else inl (TypeError "comparing strings with non-ASCII characters is not supported").

(** [now] is [int(time.time())]. *)
Definition verify_signature (now : Z) (secret method path : string) (timestamp : Z) (body provided_signature : string)
    (replay_window_seconds : Z) : exn + bool :=
  if Z.abs (now - timestamp) >? replay_window_seconds then inr false
  else compare_digest (compute_signature secret method path timestamp body) provided_signature.

Definition ws_payload (api_key : string) (timestamp : Z) : string :=
  "WS_HANDSHAKE" +:+ newline +:+ str_of_Z timestamp +:+ newline +:+ api_key.
Definition compute_ws_signature (secret api_key : string) (timestamp : Z) : string :=
  hexdigest (hmac_sha256 (encode secret) (encode (ws_payload api_key timestamp))).
Definition verify_ws_signature (now : Z) (secret api_key : string) (timestamp : Z) (provided_signature : string)
    (replay_window_seconds : Z) : exn + bool :=
  if Z.abs (now - timestamp) >? replay_window_seconds then inr false
  else compare_digest (compute_ws_signature secret api_key timestamp) provided_signature.
Definition verify_api_secret (raw_secret stored_hash : string) : exn + bool :=
  compare_digest (hash_api_secret raw_secret) stored_hash.

Definition hmac_replay_window_seconds : Z := 30.

(** ** Accounts *)

Record User := MkUser {
  u_id : Z;
  u_email : string;
  u_password_hash : string;
  u_is_active : bool;
  u_is_admin : bool
}.
Record ApiKey := MkApiKey {
  ak_id : Z;
  ak_user_id : Z;
  ak_api_key : string;
  ak_secret_hash : string;
  ak_permissions : list string;
  ak_rate_limit_per_min : Z;
  ak_is_revoked : bool;
  ak_last_used_at : option float64
}.

(** The users and api_keys tables; the public key is unique. *)
Record Accounts := MkAccounts {
  users : gmap Z User;
  next_user_id : Z;
  api_keys : gmap string ApiKey;
  next_api_key_id : Z
}.

Record HttpRequest := MkRequest {
  rq_method : string;
  rq_path : string;
  rq_query : string;
  rq_body : string;
  rq_x_api_key : option string;
  rq_x_timestamp : option string;
  rq_x_signature : option string
}.
(** An UPDATE of one api_keys row. *)
Definition update_key (api_key_id : Z) (f : ApiKey -> ApiKey) (a : Accounts) : Accounts :=
  MkAccounts (users a) (next_user_id a) ((fun k => if ak_id k =? api_key_id then f k else k) <$> api_keys a)
    (next_api_key_id a).
Definition used_at (api_key_id : Z) (t : float64) : Accounts -> Accounts :=
  update_key api_key_id (fun k => MkApiKey (ak_id k) (ak_user_id k) (ak_api_key k) (ak_secret_hash k)
    (ak_permissions k) (ak_rate_limit_per_min k) (ak_is_revoked k) (Some t)).
(** What authentication attaches to [request.state]. *)
Record RequestState := MkRequestState {
  rs_api_key : string;
  rs_user_id : Z;
  rs_api_key_id : Z;
  rs_rate_limit_per_min : Z;
  rs_permissions : list string
}.

Definition header (o : option string) : option string :=
  match o with Some s => if String.eqb s "" then None else Some s | None => None end.
Definition signed_path (rq : HttpRequest) : string :=
  if String.eqb (rq_query rq) "" then rq_path rq else rq_path rq +:+ "?" +:+ rq_query rq.

Section Auth.
Context {R : Redis}.

(** The accounts, Redis and [time.time()]. *)
Record Gateway := MkGateway { accounts : Accounts; g_redis : rstate; clock : float64 }.
Abbreviation gprog := (prog Gateway exn).
Definition g_on_redis {A} (m : rprog A) : gprog A := fun g =>
  let '(st, r) := m (g_redis g) in (MkGateway (accounts g) st (clock g), r).
Definition g_require {A} (e : exn) (o : option A) : gprog A := match o with Some a => mret a | None => raise e end.
Definition g_lift {A} (r : exn + A) : gprog A := fun g => (g, r).
Definition g_update (f : Accounts -> Accounts) : gprog unit :=
  modify (fun g => MkGateway (f (accounts g)) (g_redis g) (clock g)).
Definition int_time : gprog Z :=
  now ← gets clock; g_require (ValueError "int") (f_trunc now).

(** ** Requests *)

Definition authenticate_request (rq : HttpRequest) : gprog RequestState :=
  match header (rq_x_api_key rq), header (rq_x_timestamp rq), header (rq_x_signature rq) with
  | Some x_api_key, Some x_timestamp, Some x_signature =>
      timestamp ← g_require ExpiredTimestampError (int_of_str x_timestamp);
      row ← gets (fun g => api_keys (accounts g) !! x_api_key);
      match row with
      | None => raise MissingApiKeyError
      | Some k =>
          if ak_is_revoked k then raise RevokedApiKeyError
          else
            now ← int_time;
            ok ← g_lift (verify_signature now (ak_secret_hash k) (rq_method rq) (signed_path rq) timestamp (rq_body rq)
                           x_signature hmac_replay_window_seconds);
            if negb ok then raise InvalidSignatureError
            else
              t ← gets clock;
              _ ← g_on_redis (enforce_rate_limit (Some x_api_key) (ak_rate_limit_per_min k) t);
              _ ← g_update (used_at (ak_id k) t);
              mret (MkRequestState x_api_key (ak_user_id k) (ak_id k) (ak_rate_limit_per_min k) (ak_permissions k))
      end
  | _, _, _ => raise MissingApiKeyError
  end.

Definition require_permission (perm : string) (rs : RequestState) : exn + unit :=
  if bool_decide (perm ∈ rs_permissions rs) then inr tt else inl (InsufficientPermissionsError perm).

(** [authenticate_admin]: the claims of a verified token, as [jwt_decode]
    returns them. *)
Definition authenticate_admin (jwt_decode : string -> option (string * bool)) (authorization : option string)
    : gprog User :=
  match header authorization with
  | None => raise (AuthenticationError "Missing or malformed Authorization header")
  | Some auth =>
      if negb (String.prefix "Bearer " auth)
      then raise (AuthenticationError "Missing or malformed Authorization header")
      else
        match jwt_decode (strip (String.substring 7 (String.length auth - 7) auth)) with
        | None => raise (AuthenticationError "Invalid or expired JWT")
        | Some (sub, is_admin) =>
            user_id ← g_require (ValueError "int") (int_of_str sub);
            if negb is_admin then raise (AuthenticationError "User is not an admin")
            else
              user ← gets (fun g => users (accounts g) !! user_id);
              match user with
              | Some u => if u_is_active u then mret u
                          else raise (AuthenticationError "Admin user not found or inactive")
              | None => raise (AuthenticationError "Admin user not found or inactive")
              end
        end
  end.

(** ** Administration of accounts *)

Definition insert_user (email password_hash : string) (is_admin : bool) : gprog User :=
  acc ← gets accounts;
  let u := MkUser (next_user_id acc) email password_hash true is_admin in
  _ ← g_update (fun a => MkAccounts (<[next_user_id a := u]> (users a)) (next_user_id a + 1) (api_keys a) (next_api_key_id a));
  mret u.
(** UserRepository.get_by_email; the column is unique. *)
Definition get_by_email (email : string) : gprog (option User) :=
  gets (fun g => snd <$> head (map_to_list (filter (fun kv => u_email kv.2 = email) (users (accounts g))))).
Definition create_user (email password_hash : string) (is_admin : bool) : gprog User :=
  existing ← get_by_email email;
  match existing with
  | Some _ => raise (ValueError "User with email already exists")
  | None => insert_user email password_hash is_admin
  end.

Definition toggle_user_active (user_id : Z) (is_active : bool) : gprog (option User) :=
  user ← gets (fun g => users (accounts g) !! user_id);
  match user with
  | None => mret None
  | Some u =>
      let u := MkUser (u_id u) (u_email u) (u_password_hash u) is_active (u_is_admin u) in
      _ ← g_update (fun a => MkAccounts (<[user_id := u]> (users a)) (next_user_id a) (api_keys a) (next_api_key_id a));
      mret (Some u)
  end.

(** [raw_key] and [raw_secret] are the random tokens; the unique constraint of
    the public key and the foreign key to users refuse the INSERT. *)
Definition create_api_key (user_id : Z) (permissions : list string) (rate_limit_per_min : Z)
    (raw_key raw_secret : string) : gprog (ApiKey * string) :=
  acc ← gets accounts;
  let k := MkApiKey (next_api_key_id acc) user_id raw_key (hash_api_secret raw_secret)
             (match permissions with [] => ["trade"; "read"; "ws"] | _ => permissions end) rate_limit_per_min false None in
  match users acc !! user_id, api_keys acc !! raw_key with
  | Some _, None =>
      _ ← g_update (fun a => MkAccounts (users a) (next_user_id a) (<[raw_key := k]> (api_keys a)) (next_api_key_id a + 1));
      mret (k, raw_secret)
  | _, _ => raise DBError
  end.

Definition revoke (k : ApiKey) : ApiKey :=
  MkApiKey (ak_id k) (ak_user_id k) (ak_api_key k) (ak_secret_hash k) (ak_permissions k) (ak_rate_limit_per_min k) true
    (ak_last_used_at k).
Definition revoke_api_key (api_key_id : Z) : gprog bool :=
  n ← gets (fun g => size (filter (fun kv => ak_id kv.2 = api_key_id) (api_keys (accounts g))));
  _ ← g_update (update_key api_key_id revoke);
  mret (Nat.eqb n 1).
End Auth.

(** ** Balances and pairs, on the exchange's database *)

Section AdminService.
Context {R : Redis}.

Definition set_pairs (f : gmap string TradingPair -> gmap string TradingPair) (d : Database) : Database :=
  MkDatabase (balances d) (orders d) (next_order_id d) (trades d) (f (pairs d)).
(** The autoincremented key; pairs are never deleted. *)
Definition next_pair_id (t : gmap string TradingPair) : Z := map_fold (fun _ p n => Z.max (p_id p) n) 0 t + 1.

Definition adjust_balance (user_id : Z) (asset : string) (delta : decimal) (reason : string) : wprog Balance :=
  admin_adjust user_id asset delta reason.
Definition credit_user (user_id : Z) (asset : string) (amount : decimal) : wprog Balance :=
  if dec_leb amount dec_zero then raise (ValueError "amount must be positive")
  else adjust_balance user_id asset amount "admin_credit".
Definition debit_user (user_id : Z) (asset : string) (amount : decimal) : wprog Balance :=
  if dec_leb amount dec_zero then raise (ValueError "amount must be positive")
  else adjust_balance user_id asset (dec_neg amount) "admin_debit".

Definition create_trading_pair (symbol base_asset quote_asset : string) (min_lot_size max_lot_size tick_size : decimal)
    : wprog TradingPair :=
  existing ← get_by_symbol symbol;
  match existing with
  | Some _ => raise (ValueError "Trading pair already exists")
  | None =>
      id ← from_db (fun d => next_pair_id (pairs d));
      let pair := MkPair symbol base_asset quote_asset min_lot_size max_lot_size tick_size true id in
      _ ← update_db (set_pairs <[symbol := pair]>);
      mret pair
  end.

(** UPDATE of the row with that id. *)
Definition with_active (is_active : bool) (p : TradingPair) : TradingPair :=
  MkPair (p_symbol p) (base_asset p) (quote_asset p) (min_lot_size p) (max_lot_size p) (tick_size p) is_active (p_id p).
Definition toggle_pair_active (pair_id : Z) (is_active : bool) : wprog (option TradingPair) :=
  row ← from_db (fun d => snd <$> head (map_to_list (filter (fun kp => p_id kp.2 = pair_id) (pairs d))));
  match row with
  | None => mret None
  | Some p =>
      let p := with_active is_active p in
      _ ← update_db (set_pairs <[p_symbol p := p]>);
      mret (Some p)
  end.
End AdminService.

(** ** The signed payload is unambiguous *)

Fixpoint no_newline (s : string) : Prop :=
  match s with "" => True | String c s => c <> "010"%char /\ no_newline s end.

Lemma no_newline_uint d : no_newline (NilEmpty.string_of_uint d).
Proof. induction d; cbn; by try split. Qed.
Lemma no_newline_int z : no_newline (str_of_Z z).
Proof.
  unfold str_of_Z. assert (H : forall d, no_newline (NilZero.string_of_uint d)).
  { intros d. unfold NilZero.string_of_uint. destruct d; try apply no_newline_uint. by split. }
  destruct (Z.to_int z) as [d|d]; cbn; [apply H|]. by split.
Qed.

(** The text before the first newline. *)
Lemma split_newline a a' b b' : no_newline a -> no_newline a' ->
  a +:+ newline +:+ b = a' +:+ newline +:+ b' -> a = a' /\ b = b'.
Proof.
  revert a'. induction a as [|c a IH]; intros [|c' a'] Ha Ha' E; cbn in *.
  - injection E as E. done.
  - injection E as <- _. by destruct Ha'.
  - injection E as -> _. by destruct Ha.
  - injection E as <- E. destruct (IH a') as [<- <-]; [tauto..|]. done.
Qed.

(** the text that is signed determines the request: two requests with the
    same payload have the same method (up to case), path with query, timestamp
    and body, as long as method and path hold no newline.  A signature therefore
    cannot be moved to another request by shifting text between the fields. *)
Theorem signature_payload_injective method path ts body method' path' ts' body' :
  no_newline (upper method) -> no_newline (upper method') -> no_newline path -> no_newline path' ->
  signature_payload method path ts body = signature_payload method' path' ts' body' ->
  upper method = upper method' /\ path = path' /\ ts = ts' /\ body = body'.
Proof.
  intros Hm Hm' Hp Hp' E. unfold signature_payload in E.
  apply split_newline in E as [-> E]; [|done..]. apply split_newline in E as [-> E]; [|done..].
  apply split_newline in E as [E ->]; [|apply no_newline_int..]. by apply (inj str_of_Z) in E as ->.
Qed.

Section AuthSpec.
Context {R : Redis} {RS : RedisSpec R}.

(** A request that carries a live key, a fresh timestamp and the signature of
    its contents under the key's stored hash. *)
Record authentic (g : Gateway) (now : Z) (rq : HttpRequest) (key : string) (k : ApiKey) : Prop := {
  au_key : header (rq_x_api_key rq) = Some key;
  au_row : api_keys (accounts g) !! key = Some k;
  au_live : ak_is_revoked k = false;
  au_signature : exists s ts sg, header (rq_x_timestamp rq) = Some s /\ int_of_str s = Some ts /\
    header (rq_x_signature rq) = Some sg /\ Z.abs (now - ts) <= hmac_replay_window_seconds /\
    sg = compute_signature (ak_secret_hash k) (rq_method rq) (signed_path rq) ts (rq_body rq)
}.
Definition state_of (key : string) (k : ApiKey) : RequestState :=
  MkRequestState key (ak_user_id k) (ak_id k) (ak_rate_limit_per_min k) (ak_permissions k).

Lemma compare_digest_true a b : is_ascii a = true -> compare_digest a b = inr true <-> b = a.
Proof.
  intros Ha. unfold compare_digest. rewrite Ha. cbn [andb]. destruct (is_ascii b) eqn:Eb.
  - split; [|intros ->; by rewrite String.eqb_refl]. intros [= E]. by apply String.eqb_eq in E.
  - split; [done|]. intros ->. congruence.
Qed.
Lemma verify_signature_true now secret m p ts body sg w :
  verify_signature now secret m p ts body sg w = inr true <->
  Z.abs (now - ts) <= w /\ sg = compute_signature secret m p ts body.
Proof.
  unfold verify_signature. destruct (Z.gtb_spec (Z.abs (now - ts)) w).
  - split; [done|]. intros [? _]. lia.
  - rewrite compare_digest_true by apply hexdigest_ascii, sha256_range.
    split; [intros ->; split; [lia|done]|by intros [_ ->]].
Qed.

Lemma authentic_verifies g now rq key s ts sg k :
  header (rq_x_api_key rq) = Some key -> header (rq_x_timestamp rq) = Some s -> int_of_str s = Some ts ->
  header (rq_x_signature rq) = Some sg -> api_keys (accounts g) !! key = Some k ->
  (exists key k, authentic g now rq key k) ->
  verify_signature now (ak_secret_hash k) (rq_method rq) (signed_path rq) ts (rq_body rq) sg
    hmac_replay_window_seconds = inr true.
Proof.
  intros E1 E2 E3 E4 E5 (key' & k' & [A1 A2 _ (s' & ts' & sg' & B1 & B2 & B3 & B4 & B5)]).
  simplify_eq. by apply verify_signature_true.
Qed.

(** What a request that is not authentic is refused with; [hmac.compare_digest]
    raises TypeError on a signature that is not ASCII. *)
Definition unauthentic_error (e : exn) : bool :=
  match e with
  | MissingApiKeyError | ExpiredTimestampError | RevokedApiKeyError | InvalidSignatureError | TypeError _ => true
  | _ => false
  end.

(** Authentication either stops before the rate limit, with nothing changed, or
    is decided by the rate limit alone. *)
Lemma authenticate_cases rq g now : f_trunc (clock g) = Some now ->
  (exists key k, authentic g now rq key k /\ authenticate_request rq g =
     match enforce_rate_limit (Some key) (ak_rate_limit_per_min k) (clock g) (g_redis g) with
     | (st, inr _) => (MkGateway (used_at (ak_id k) (clock g) (accounts g)) st (clock g), inr (state_of key k))
     | (st, inl e) => (MkGateway (accounts g) st (clock g), inl e)
     end) \/
  (~ (exists key k, authentic g now rq key k) /\
   exists e, authenticate_request rq g = (g, inl e) /\ unauthentic_error e = true).
Proof.
  intros Hnow. unfold authenticate_request, int_time, g_require.
  destruct (header (rq_x_api_key rq)) as [key|] eqn:E1.
  2:{ right. split; [|by eexists]. intros (key & k & [H _ _ _]). congruence. }
  destruct (header (rq_x_timestamp rq)) as [s|] eqn:E2.
  2:{ right. split; [|by eexists]. intros (key' & k & [_ _ _ (s & ts & sg & H & _)]). congruence. }
  destruct (header (rq_x_signature rq)) as [sg|] eqn:E3.
  2:{ right. split; [|by eexists]. intros (key' & k & [_ _ _ (s' & ts & sg & _ & _ & H & _)]). congruence. }
  destruct (int_of_str s) as [ts|] eqn:E4.
  2:{ right. split; [|by eexists]. intros (key' & k & [_ _ _ (s' & ts & sg' & H & H' & _)]). congruence. }
  run_prog. destruct (api_keys (accounts g) !! key) as [k|] eqn:E5.
  2:{ right. split; [|by eexists]. intros (key' & k & [H H' _ _]). congruence. }
  destruct (ak_is_revoked k) eqn:E6.
  { right. split; [|by eexists]. intros (key' & k' & [H H' H'' _]). congruence. }
  rewrite Hnow. unfold g_lift. destruct (verify_signature _ _ _ _ _ _ _ _) as [e|[|]] eqn:E7; cbn [negb]; run_prog.
  - right. split; [intros Hex; by rewrite (authentic_verifies _ _ _ _ _ _ _ _ E1 E2 E4 E3 E5 Hex) in E7|].
    exists e. split; [done|]. unfold verify_signature, compare_digest in E7. destruct (_ >? _); [done|].
    destruct (_ && _); [done|]. by injection E7 as <-.
  - apply verify_signature_true in E7 as [H1 H2]. left. exists key, k. split.
    + split; [done..|]. by exists s, ts, sg.
    + unfold g_on_redis, g_update. run_prog. by destruct (enforce_rate_limit _ _ _ _) as [st [e|r]].
  - right. split; [|by eexists]. intros Hex. by rewrite (authentic_verifies _ _ _ _ _ _ _ _ E1 E2 E4 E3 E5 Hex) in E7.
Qed.

(** The requests of a key recorded in the last minute, and the bucket they are in. *)
Definition window_of (g : Gateway) (key : string) : gmap string float64 :=
  live (ks_zset (view (g_redis g)) (ratelimit_key key)) 60 (clock g).
Definition window_count (g : Gateway) (key : string) : Z := Z.of_nat (size (window_of g key)).

Lemma authentic_unique g now rq key k key' k' :
  authentic g now rq key k -> authentic g now rq key' k' -> key' = key /\ k' = k.
Proof. intros [A1 A2 _ _] [B1 B2 _ _]. assert (key' = key) as -> by congruence. split; congruence. Qed.
Lemma authentic_key_nonempty g now rq key k : authentic g now rq key k -> key <> "".
Proof.
  intros [H _ _ _]. unfold header in H. destruct (rq_x_api_key rq) as [x|]; [|done].
  destruct (String.eqb_spec x ""); [done|]. congruence.
Qed.

(** The rate limit of an authentic request, decided by the count of its window. *)
Lemma enforce_cases key limit now st : key <> "" ->
  let z := live (ks_zset (view st) (ratelimit_key key)) 60 now in
  let r := enforce_rate_limit (Some key) limit now st in
  if Z.of_nat (size z) <? limit
  then (exists rl, r.2 = inr rl) /\ ks_zset (view r.1) (ratelimit_key key) = <[format_micros (micros now) := now]> z
  else ks_zset (view r.1) (ratelimit_key key) = z /\
    exists e, r.2 = inl e /\ (retry_defined z 60 now -> exists retry, e = RateLimitExceededError limit (Z.of_nat (size z)) retry /\ 1 <= retry).
Proof.
  intros Hne z r. pose proof (check_spec key limit 60 now st) as Hs. cbn zeta in Hs. fold z in Hs.
  subst r. unfold enforce_rate_limit. rewrite (proj2 (String.eqb_neq key "") Hne). unfold mbind, prog_bind.
  destruct (Z.ltb_spec (Z.of_nat (size z)) limit) as [Hl|Hl].
  - destruct (check_and_consume key limit 60 now st) as [st' r]. cbn [fst snd] in Hs. destruct Hs as [-> Hz].
    split; [by eexists|exact Hz].
  - destruct Hs as [Hz Hr]. destruct (check_and_consume_outcome key limit now st Hl) as [(n & t & E)|E];
      destruct (check_and_consume key limit 60 now st) as [st' r]; cbn [fst snd] in *; subst r; cbn [fst snd].
    + split; [exact Hz|]. eexists. split; [reflexivity|]. intros Hd. destruct (Hr Hd) as (t' & Et & Ht). simplify_eq. by eexists.
    + split; [exact Hz|]. eexists. split; [reflexivity|]. intros Hd. by destruct (Hr Hd) as (t' & Et & _).
Qed.

(** The decision on a request: three cases that exclude each other. *)
Lemma authenticate_decides rq g now : f_trunc (clock g) = Some now ->
  (forall key k, authentic g now rq key k -> window_count g key < ak_rate_limit_per_min k ->
     exists st, authenticate_request rq g = (MkGateway (used_at (ak_id k) (clock g) (accounts g)) st (clock g), inr (state_of key k)) /\
       only_zset (ratelimit_key key) (view (g_redis g)) (view st) /\
       ks_zset (view st) (ratelimit_key key) = <[format_micros (micros (clock g)) := clock g]> (window_of g key)) /\
  (forall key k, authentic g now rq key k -> ak_rate_limit_per_min k <= window_count g key ->
     exists st e, authenticate_request rq g = (MkGateway (accounts g) st (clock g), inl e) /\
       only_zset (ratelimit_key key) (view (g_redis g)) (view st) /\
       ks_zset (view st) (ratelimit_key key) = window_of g key /\
       (retry_defined (window_of g key) 60 (clock g) ->
        exists retry, e = RateLimitExceededError (ak_rate_limit_per_min k) (window_count g key) retry /\ 1 <= retry)) /\
  (~ (exists key k, authentic g now rq key k) ->
     exists e, authenticate_request rq g = (g, inl e) /\ unauthentic_error e = true).
Proof.
  intros Hnow. destruct (authenticate_cases rq g now Hnow) as [(key & k & Ha & E)|(Hno & He)].
  2:{ split_and!; [intros key k Ha; destruct Hno; by exists key, k..|done]. }
  pose proof (authentic_key_nonempty _ _ _ _ _ Ha) as Hne.
  pose proof (enforce_only_bucket key (ak_rate_limit_per_min k) (clock g) (g_redis g) Hne) as Hb.
  pose proof (enforce_cases key (ak_rate_limit_per_min k) (clock g) (g_redis g) Hne) as Hc. cbn zeta in Hc.
  fold (window_of g key) in Hc. fold (window_count g key) in Hc.
  split_and!.
  - intros key' k' Ha' Hlim. destruct (authentic_unique _ _ _ _ _ _ _ Ha Ha') as [-> ->].
    rewrite (proj2 (Z.ltb_lt _ _) Hlim) in Hc. destruct Hc as [[rl Hr] Hz].
    destruct (enforce_rate_limit _ _ _ _) as [st r]. cbn [fst snd] in *. subst r. by exists st.
  - intros key' k' Ha' Hlim. destruct (authentic_unique _ _ _ _ _ _ _ Ha Ha') as [-> ->].
    rewrite (proj2 (Z.ltb_ge _ _) Hlim) in Hc. destruct Hc as (Hz & e & Hr & Hre).
    destruct (enforce_rate_limit _ _ _ _) as [st r]. cbn [fst snd] in *. subst r. by exists st, e.
  - intros Hno. destruct Hno. by exists key, k.
Qed.

Lemma authenticate_live rq g now key k : f_trunc (clock g) = Some now -> authentic g now rq key k ->
  window_count g key < ak_rate_limit_per_min k ->
  exists g', authenticate_request rq g = (g', inr (state_of key k)) /\
    accounts g' = used_at (ak_id k) (clock g) (accounts g).
Proof.
  intros Hnow Ha Hlim. destruct (proj1 (authenticate_decides rq g now Hnow) key k Ha Hlim) as (st & E & _). by eexists.
Qed.

(** C20: a request is let in exactly when it is authentic (a known key that is
    not revoked, a timestamp within 30 seconds, the HMAC of method, path,
    timestamp and body) and fewer requests of the key than its limit were
    recorded in the last minute.  It then runs as the key's user with the key's
    permissions, the key's last use is recorded and so is the request, in the
    key's bucket.  An authentic request at or over the limit is refused with
    the count and a delay of a second or more, and only the expired entries of
    the bucket go.  A request that is not authentic is refused before it costs
    anything: neither the accounts nor Redis change. *)
Theorem authenticate_request_correct rq g now : f_trunc (clock g) = Some now ->
  (forall key k, authentic g now rq key k -> window_count g key < ak_rate_limit_per_min k ->
     exists st, authenticate_request rq g = (MkGateway (used_at (ak_id k) (clock g) (accounts g)) st (clock g), inr (state_of key k)) /\
       only_zset (ratelimit_key key) (view (g_redis g)) (view st) /\
       ks_zset (view st) (ratelimit_key key) = <[format_micros (micros (clock g)) := clock g]> (window_of g key)) /\
  (forall key k, authentic g now rq key k -> ak_rate_limit_per_min k <= window_count g key ->
     exists st e, authenticate_request rq g = (MkGateway (accounts g) st (clock g), inl e) /\
       only_zset (ratelimit_key key) (view (g_redis g)) (view st) /\
       ks_zset (view st) (ratelimit_key key) = window_of g key /\
       (retry_defined (window_of g key) 60 (clock g) ->
        exists retry, e = RateLimitExceededError (ak_rate_limit_per_min k) (window_count g key) retry /\ 1 <= retry)) /\
  (~ (exists key k, authentic g now rq key k) ->
     exists e, authenticate_request rq g = (g, inl e) /\ unauthentic_error e = true).
Proof. apply authenticate_decides. Qed.

(** the life of an API key.  A request signed with the hash of the secret that
    [create_api_key] returned, sent within the window, is let in as the key's
    user, and the key's last use is recorded; once the key is revoked the same
    request is refused. *)
Theorem api_key_lifecycle uid perms limit raw_key raw_secret g g1 k secret rq now ts s :
  create_api_key uid perms limit raw_key raw_secret g = (g1, inr (k, secret)) ->
  (forall key k, api_keys (accounts g) !! key = Some k -> ak_id k < next_api_key_id (accounts g)) ->
  raw_key <> "" -> f_trunc (clock g) = Some now -> 0 < limit ->
  live (ks_zset (view (g_redis g)) (ratelimit_key raw_key)) 60 (clock g) = ∅ ->
  rq_x_api_key rq = Some raw_key -> header (rq_x_timestamp rq) = Some s -> int_of_str s = Some ts ->
  Z.abs (now - ts) <= hmac_replay_window_seconds ->
  header (rq_x_signature rq) =
    Some (compute_signature (hash_api_secret secret) (rq_method rq) (signed_path rq) ts (rq_body rq)) ->
  (exists g2, authenticate_request rq g1 = (g2, inr (state_of raw_key k)) /\ ak_user_id k = uid) /\
  (exists g3 , revoke_api_key (ak_id k) g1 = (g3, inr true) /\
     authenticate_request rq g3 = (g3, inl RevokedApiKeyError)).
Proof.
  intros Hc Hids Hne Hnow Hpos Hlive Hk Hs Hts Hwin Hsig. unfold create_api_key in Hc. run_prog in Hc.
  destruct (users (accounts g) !! uid); [|done]. destruct (api_keys (accounts g) !! raw_key) eqn:Efree; [done|].
  injection Hc as <- <- <-. cbn [ak_id ak_user_id].
  set (k := MkApiKey _ _ _ _ _ _ _ _). set (g1 := MkGateway _ _ _).
  assert (Hhdr : header (rq_x_api_key rq) = Some raw_key).
  { rewrite Hk. cbn. by rewrite (proj2 (String.eqb_neq raw_key "") Hne). }
  assert (Hrow : api_keys (accounts g1) !! raw_key = Some k) by apply lookup_insert_eq.
  assert (Ha : authentic g1 now rq raw_key k) by (split; [done..|]; exists s, ts; by eexists).
  split.
  - destruct (authenticate_live rq g1 now raw_key k Hnow Ha) as (g2 & E & _).
    + unfold window_count, window_of. cbn [g_redis clock g1]. rewrite Hlive. by rewrite map_size_empty.
    + exists g2. split; [exact E|done].
  - eexists. split.
    + unfold revoke_api_key. run_prog. f_equal. f_equal. apply Nat.eqb_eq. cbn [accounts api_keys g1].
      rewrite map_filter_insert_True by done. rewrite map_size_insert_None.
      2:{ apply map_lookup_filter_None. by left. }
      f_equal. apply map_size_empty_iff, map_empty_filter. intros key k' Hk' Hid.
      specialize (Hids key k' Hk'). cbn in Hid. lia.
    + set (g3 := MkGateway _ _ _).
      assert (Hr3 : api_keys (accounts g3) !! raw_key = Some (revoke k)).
      { cbn [accounts api_keys g3 update_key]. by rewrite lookup_fmap, Hrow; cbn; rewrite Z.eqb_refl. }
      unfold authenticate_request. rewrite Hhdr, Hs, Hsig. rewrite Hts. unfold g_require. run_prog. by rewrite Hr3.
Qed.
End AuthSpec.

(** ** A key, a signed request *)

Definition demo_gateway : Gateway (R := MemRedis) :=
  MkGateway (MkAccounts {[ 1 := MkUser 1 "bot@example.com" "" true false ]} 2 ∅ 1) empty_keyspace (f_of_Z 1700000000).
Definition demo_request : HttpRequest :=
  MkRequest "get" "/api/v1/orders" "symbol=BTCUSD" "" (Some "k1") (Some "1700000010")
    (Some (compute_signature (hash_api_secret "s3cret") "get" "/api/v1/orders?symbol=BTCUSD" 1700000010 "")).

Lemma signature_payload_injective_witness :
  "/a" = "/a" /\ signature_payload "get" "/a" 5 "" = signature_payload "GET" "/a" 5 "".
Proof.
  split; [|vm_compute; reflexivity].
  apply (signature_payload_injective "get" "/a" 5 "" "GET" "/a" 5 "");
    first [vm_compute; reflexivity | cbn; repeat split; discriminate].
Defined.

Lemma authenticate_request_correct_witness :
  exists e, authenticate_request demo_request demo_gateway = (demo_gateway, inl e).
Proof.
  destruct (authenticate_request_correct (RS := MemRedisSpec) demo_request demo_gateway 1700000000) as (_ & _ & H).
  - vm_compute. reflexivity.
  - destruct H as (e & E & _); [|by exists e]. intros (key & k & [_ Hk _ _]). cbn in Hk. rewrite lookup_empty in Hk. discriminate Hk.
Defined.

Lemma api_key_lifecycle_witness :
  let g1 := (create_api_key 1 [] 120 "k1" "s3cret" demo_gateway).1 in
  exists g2 rs, authenticate_request demo_request g1 = (g2, inr rs) /\ rs_permissions rs = ["trade"; "read"; "ws"].
Proof.
  intros g1.
  destruct (api_key_lifecycle (RS := MemRedisSpec) 1 [] 120 "k1" "s3cret" demo_gateway g1
    (MkApiKey 1 1 "k1" (hash_api_secret "s3cret") ["trade"; "read"; "ws"] 120 false None) "s3cret" demo_request
    1700000000 1700000010 "1700000010") as [(g2 & E & _) _].
  - reflexivity.
  - intros key k Hk. cbn in Hk. rewrite lookup_empty in Hk. discriminate Hk.
  - discriminate.
  - vm_compute. reflexivity.
  - reflexivity.
  - vm_compute. reflexivity.
  - reflexivity.
  - reflexivity.
  - vm_compute. reflexivity.
  - vm_compute. congruence.
  - vm_compute. reflexivity.
  - eexists g2, _. split; [exact E|reflexivity].
Defined.
