(* ===== verification/MarketData.v ===== *)
(** * Market data: app/api/v1/trades.py, app/repositories/trade_repo.py

    The trade listings and the OHLCV candles.  Times are microseconds since the
    epoch, the resolution of the executed_at column.  Rows with the same time
    come in table order, where the SQL leaves their order open. *)

From Stdlib Require Import ZArith Lia Bool SpecFloat Sorted.
From stdpp Require Import base tactics option list strings sets sorting.
From S2P Require Import Prelude Float64 PyDecimal Models.
#[local] Open Scope Z_scope.

(** A row of the trades table with the columns only listings read. *)
Record TimedTrade := MkTimed {
  tt_id : Z;
  executed_at : Z;
  tt_trade : Trade
}.
Definition earlier (a b : TimedTrade) : Prop := executed_at a <= executed_at b.
#[export] Instance earlier_dec a b : Decision (earlier a b).
Proof. unfold earlier. apply _. Defined.
#[export] Instance earlier_total : Total earlier.
Proof. intros a b. unfold earlier. lia. Qed.
#[export] Instance earlier_trans : Transitive earlier.
Proof. intros a b c. unfold earlier. lia. Qed.
#[export] Instance later_dec a b : Decision (flip earlier a b) := earlier_dec b a.
#[export] Instance later_total : Total (flip earlier).
Proof. intros a b. destruct (total earlier a b); auto. Qed.
#[export] Instance later_trans : Transitive (flip earlier).
Proof. intros a b c H1 H2. unfold flip in *. by transitivity b. Qed.

(** ** Listings *)

Definition page {A} (offset limit : Z) (l : list A) : list A := take (Z.to_nat limit) (drop (Z.to_nat offset) l).
Definition matches {A} `{EqDecision A} (filter : option A) (a : A) : bool :=
  match filter with Some f => bool_decide (f = a) | None => true end.

Definition list_user_trades (table : list TimedTrade) (user_id : Z) (symbol : option string) (side : option OrderSide)
    (first last : option Z) (offset limit : Z) : list TimedTrade :=
  page offset limit (merge_sort (flip earlier) (filter (fun t =>
    ((t_taker_user_id (tt_trade t) =? user_id) || (t_maker_user_id (tt_trade t) =? user_id))
    && matches symbol (t_symbol (tt_trade t)) && matches side (t_side (tt_trade t))
    && match first with Some s => s <=? executed_at t | None => true end
    && match last with Some e => executed_at t <=? e | None => true end) table)).

(** The role of the caller in a trade, and the order it shows. *)
Definition trade_role (user_id : Z) (t : TimedTrade) : string * Z :=
  if t_taker_user_id (tt_trade t) =? user_id then ("taker", t_taker_order_id (tt_trade t))
  else ("maker", t_maker_order_id (tt_trade t)).

Definition list_recent_by_symbol (table : list TimedTrade) (symbol : string) (limit : Z) : list TimedTrade :=
  take (Z.to_nat limit) (merge_sort (flip earlier) (filter (fun t => t_symbol (tt_trade t) = symbol) table)).
(** [reversed(trades)] in the response. *)
Definition list_public_trades (table : list TimedTrade) (symbol : string) (limit : Z) : list TimedTrade :=
  reverse (list_recent_by_symbol table symbol limit).

(** ** Candles *)

Record Candle := MkCandle {
  cd_time : Z;
  cd_open : float64;
  cd_high : float64;
  cd_low : float64;
  cd_close : float64;
  cd_volume : float64
}.

(** Python's [max] and [min] of two floats keep the first unless the second
    beats it. *)
Definition py_max (a b : float64) : float64 := if f_ltb a b then b else a.
Definition py_min (a b : float64) : float64 := if f_ltb b a then b else a.

Definition timeframe_seconds (timeframe : string) : Z :=
  if String.eqb timeframe "1m" then 60 else if String.eqb timeframe "5m" then 300
  else if String.eqb timeframe "15m" then 900 else if String.eqb timeframe "1h" then 3600
  else if String.eqb timeframe "4h" then 14400 else if String.eqb timeframe "1d" then 86400
  else 60.

Definition price_of (t : TimedTrade) : float64 := f_of_dec (t_price (tt_trade t)).
Definition quantity_of (t : TimedTrade) : float64 := f_of_dec (t_quantity (tt_trade t)).
Definition bucket_of (tf : Z) (t : TimedTrade) : Z := (executed_at t / 1000000) / tf * tf.

Definition open_candle (tf : Z) (t : TimedTrade) : Candle :=
  let p := price_of t in MkCandle (bucket_of tf t) p p p p (quantity_of t).
Definition update_candle (t : TimedTrade) (c : Candle) : Candle :=
  let p := price_of t in
  MkCandle (cd_time c) (cd_open c) (py_max (cd_high c) p) (py_min (cd_low c) p) p (f_add (cd_volume c) (quantity_of t)).

(** The loop's state: the closed candles and the current one, whose time is
    [current_bucket]. *)
Definition candle_step (tf : Z) (st : list Candle * option Candle) (t : TimedTrade) : list Candle * option Candle :=
  let '(candles, current) := st in
  match current with
  | Some c => if bucket_of tf t =? cd_time c then (candles, Some (update_candle t c))
              else (candles ++ [c], Some (open_candle tf t))
  | None => (candles, Some (open_candle tf t))
  end.
Definition close_last (st : list Candle * option Candle) : list Candle :=
  match snd st with Some c => fst st ++ [c] | None => fst st end.
Definition aggregate_candles (tf : Z) (ts : list TimedTrade) : list Candle :=
  close_last (foldl (candle_step tf) ([], None) ts).

(** [candles[-limit:]] when there are more. *)
Definition keep_last {A} (limit : Z) (l : list A) : list A := drop (length l - Z.to_nat limit) l.

(** [now]: microseconds. *)
Definition get_candles (table : list TimedTrade) (now : Z) (symbol timeframe : string) (limit : Z) : list Candle :=
  let tf := timeframe_seconds timeframe in
  let start := now - tf * limit * 1000000 in
  keep_last limit (aggregate_candles tf (merge_sort earlier
    (filter (fun t => t_symbol (tt_trade t) = symbol /\ start <= executed_at t) table))).

(** ** The reference: GROUP BY bucket *)

(** The candle of the trades of one bucket, in time order. *)
Definition ohlcv (b : Z) (ts : list TimedTrade) : option Candle :=
  match ts with
  | [] => None
  | t :: rest =>
      Some (MkCandle b (price_of t) (foldl py_max (price_of t) (price_of <$> rest))
              (foldl py_min (price_of t) (price_of <$> rest))
              (default (price_of t) (last (price_of <$> rest)))
              (foldl f_add (quantity_of t) (quantity_of <$> rest)))
  end.
Definition of_bucket (tf b : Z) (ts : list TimedTrade) : list TimedTrade := filter (fun t => bucket_of tf t = b) ts.

(** [cs] are the candles of [ts]: one per bucket that has trades, in time order,
    each the summary of its bucket. *)
Record candles_of (tf : Z) (ts : list TimedTrade) (cs : list Candle) : Prop := {
  cs_sorted : StronglySorted Z.lt (cd_time <$> cs);
  cs_buckets b : b ∈ cd_time <$> cs <-> exists t, t ∈ ts /\ bucket_of tf t = b;
  cs_summary c : c ∈ cs -> ohlcv (cd_time c) (of_bucket tf (cd_time c) ts) = Some c
}.

Lemma of_bucket_snoc tf b ts t :
  of_bucket tf b (ts ++ [t]) = of_bucket tf b ts ++ (if bucket_of tf t =? b then [t] else []).
Proof.
  unfold of_bucket. rewrite filter_app. f_equal. destruct (Z.eqb_spec (bucket_of tf t) b).
  - by rewrite filter_cons_True.
  - by rewrite filter_cons_False.
Qed.
Lemma ohlcv_snoc b ts t :
  ohlcv b (ts ++ [t]) = Some (match ohlcv b ts with
                              | Some c => update_candle t c
                              | None => let p := price_of t in MkCandle b p p p p (quantity_of t)
                              end).
Proof.
  destruct ts as [|t0 ts]; [done|]. cbn [app ohlcv]. unfold update_candle. cbn [cd_time cd_open cd_high cd_low cd_volume].
  by rewrite !fmap_app, !foldl_app, last_app.
Qed.
Lemma bucket_mono tf a b : 0 < tf -> earlier a b -> bucket_of tf a <= bucket_of tf b.
Proof.
  unfold earlier, bucket_of. intros Htf H. apply Z.mul_le_mono_nonneg_r; [lia|].
  apply Z.div_le_mono; [done|]. by apply Z.div_le_mono.
Qed.

(** The state after a prefix [ts], the loop's invariant. *)
Definition loop_ok (tf : Z) (ts : list TimedTrade) (st : list Candle * option Candle) : Prop :=
  candles_of tf ts (close_last st) /\ (snd st = None -> ts = [] /\ fst st = []).

Lemma loop_ok_open tf ts st t : loop_ok tf ts st ->
  (forall b, b ∈ cd_time <$> close_last st -> b < bucket_of tf t) ->
  candles_of tf (ts ++ [t]) (close_last st ++ [open_candle tf t]).
Proof.
  intros [[Hs Hb Hc] _] Hlt. split.
  - rewrite fmap_app. apply StronglySorted_app_2; [|done|repeat constructor].
    intros x y Hx Hy. apply list_elem_of_singleton in Hy as ->. by apply Hlt.
  - intros b. rewrite fmap_app, elem_of_app, Hb. cbn [fmap list_fmap cd_time open_candle].
    rewrite list_elem_of_singleton. split.
    + intros [(t' & Ht & <-)| ->]; [exists t'|exists t]; split; set_solver.
    + intros (t' & Ht & <-). apply elem_of_app in Ht as [Ht| ->%list_elem_of_singleton]; [left; by exists t'|by right].
  - intros c Hin. rewrite of_bucket_snoc. apply elem_of_app in Hin as [Hin| ->%list_elem_of_singleton].
    + assert (cd_time c < bucket_of tf t) by (apply Hlt, list_elem_of_fmap; eauto).
      destruct (Z.eqb_spec (bucket_of tf t) (cd_time c)); [lia|]. rewrite app_nil_r. by apply Hc.
    + cbn [cd_time open_candle]. rewrite Z.eqb_refl, ohlcv_snoc.
      destruct (ohlcv _ _) as [c|] eqn:E; [|done]. exfalso.
      destruct (of_bucket tf (bucket_of tf t) ts) as [|t' l] eqn:El; [done|].
      assert (Ht' : t' ∈ of_bucket tf (bucket_of tf t) ts) by (rewrite El; left).
      apply list_elem_of_filter in Ht' as [Hbt Hin]. specialize (Hlt (bucket_of tf t)).
      enough (bucket_of tf t < bucket_of tf t) by lia. apply Hlt, Hb. by exists t'.
Qed.

Lemma loop_ok_update tf ts cs c t : loop_ok tf ts (cs, Some c) -> bucket_of tf t = cd_time c ->
  candles_of tf (ts ++ [t]) (cs ++ [update_candle t c]).
Proof.
  intros [[Hs Hb Hc] _] Ht. cbn [close_last fst snd] in *. rewrite fmap_app in Hs, Hb. split.
  - by rewrite fmap_app.
  - intros b. rewrite fmap_app. cbn [fmap list_fmap cd_time update_candle]. rewrite Hb. split.
    + intros (t' & Hin & <-). exists t'. split; [set_solver|done].
    + intros (t' & Hin & <-). apply elem_of_app in Hin as [Hin| ->%list_elem_of_singleton]; [by exists t'|].
      rewrite Ht. apply Hb, elem_of_app. right. by apply list_elem_of_singleton.
  - intros c' Hin. rewrite of_bucket_snoc, Ht. apply elem_of_app in Hin as [Hin| ->%list_elem_of_singleton].
    + assert (cd_time c' < cd_time c).
      { eapply StronglySorted_app_1_elem_of; [exact Hs| |by left]. apply list_elem_of_fmap. eauto. }
      destruct (Z.eqb_spec (cd_time c) (cd_time c')); [lia|]. rewrite app_nil_r. apply Hc. set_solver.
    + cbn [cd_time update_candle]. rewrite Z.eqb_refl, ohlcv_snoc, (Hc c); [done|set_solver].
Qed.

Lemma loop_correct tf ts : 0 < tf -> StronglySorted earlier ts -> loop_ok tf ts (foldl (candle_step tf) ([], None) ts).
Proof.
  intros Htf. induction ts as [|t ts IH] using rev_ind; intros Hsort.
  - split; [split|done]; cbn; [constructor| |set_solver]. set_solver.
  - assert (Hle : forall t', t' ∈ ts -> bucket_of tf t' <= bucket_of tf t).
    { intros t' Hin. apply bucket_mono; [done|]. eapply StronglySorted_app_1_elem_of; [exact Hsort|done|by left]. }
    apply StronglySorted_app_1_l in Hsort. specialize (IH Hsort). rewrite foldl_app. cbn [foldl].
    destruct (foldl (candle_step tf) ([], None) ts) as [cs [c|]] eqn:E; cbn [candle_step].
    + assert (Hct : cd_time c <= bucket_of tf t).
      { destruct IH as [[_ Hb _] _]. destruct (proj1 (Hb (cd_time c))) as (t' & Hin & <-); [|by apply Hle].
        cbn [close_last fst snd]. rewrite fmap_app. set_solver. }
      destruct (Z.eqb_spec (bucket_of tf t) (cd_time c)) as [Hb|Hb].
      * split; [|done]. by apply (loop_ok_update tf ts).
      * split; [|done]. cbn [close_last fst snd]. apply (loop_ok_open tf ts (cs, Some c)); [done|].
        cbn [close_last fst snd]. rewrite fmap_app. intros b [Hin| ->%list_elem_of_singleton]%elem_of_app; [|lia].
        destruct IH as [[Hs _ _] _]. cbn [close_last fst snd] in Hs. rewrite fmap_app in Hs.
        enough (b < cd_time c) by lia. eapply StronglySorted_app_1_elem_of; [exact Hs|done|by left].
    + destruct IH as [IH Hnil]. destruct (Hnil eq_refl) as [-> Hcs]. cbn in Hcs. subst cs. split; [|done].
      apply (loop_ok_open tf [] ([], None)); [by split|]. cbn. set_solver.
Qed.

Lemma lt_sorted_nodup l : StronglySorted Z.lt l -> NoDup l.
Proof.
  induction 1 as [|x l Hs IH Hx]; constructor; [|done]. intros Hin.
  rewrite List.Forall_forall in Hx. specialize (Hx x). rewrite <- list_elem_of_In in Hx. specialize (Hx Hin). lia.
Qed.

(** The reference determines the candles. *)
Lemma candles_of_unique tf ts cs cs' : candles_of tf ts cs -> candles_of tf ts cs' -> cs = cs'.
Proof.
  intros [Hs Hb Hc] [Hs' Hb' Hc'].
  assert (Ht : cd_time <$> cs = cd_time <$> cs').
  { eapply StronglySorted_unique_strong with (R := Z.lt); [|exact Hs|exact Hs'|].
    - intros x y _ _ H1 H2. lia.
    - apply NoDup_Permutation; [by apply lt_sorted_nodup|by apply lt_sorted_nodup|]. intros b. by rewrite Hb, Hb'. }
  clear Hs Hs' Hb Hb'. revert cs' Ht Hc'. induction cs as [|c cs IH]; intros [|c' cs'] Ht Hc'; try done.
  injection Ht as Ht Ht'. f_equal.
  - specialize (Hc c (list_elem_of_here c cs)). specialize (Hc' c' (list_elem_of_here c' cs')). congruence.
  - apply IH; [|done|]; intros x Hx; [apply Hc|apply Hc']; by right.
Qed.

Lemma foldl_max_ge x l : f_isnan x = false -> Forall (fun y => f_isnan y = false) l ->
  f_isnan (foldl py_max x l) = false /\ forall y, y ∈ x :: l -> f_leb y (foldl py_max x l) = true.
Proof.
  intros Hx Hl. revert x Hx. induction Hl as [|z l Hz Hl IH]; intros x Hx; cbn [foldl].
  - split; [done|]. intros y ->%list_elem_of_singleton. by apply f_leb_refl.
  - destruct (IH (py_max x z)) as [Hn H]; [unfold py_max; by destruct (f_ltb x z)|]. split; [done|].
    assert (Hm : f_leb x (py_max x z) = true /\ f_leb z (py_max x z) = true).
    { unfold py_max. destruct (f_ltb x z) eqn:E; split; try (by apply f_leb_refl); [by apply f_ltb_leb|].
      rewrite f_ltb_not_leb in E by done. by apply negb_false_iff. }
    intros y [->|[->|Hy]%elem_of_cons]%elem_of_cons.
    + eapply f_leb_trans; [apply Hm|apply H; left].
    + eapply f_leb_trans; [apply Hm|apply H; left].
    + apply H. by right.
Qed.
Lemma foldl_min_le x l : f_isnan x = false -> Forall (fun y => f_isnan y = false) l ->
  f_isnan (foldl py_min x l) = false /\ forall y, y ∈ x :: l -> f_leb (foldl py_min x l) y = true.
Proof.
  intros Hx Hl. revert x Hx. induction Hl as [|z l Hz Hl IH]; intros x Hx; cbn [foldl].
  - split; [done|]. intros y ->%list_elem_of_singleton. by apply f_leb_refl.
  - destruct (IH (py_min x z)) as [Hn H]; [unfold py_min; by destruct (f_ltb z x)|]. split; [done|].
    assert (Hm : f_leb (py_min x z) x = true /\ f_leb (py_min x z) z = true).
    { unfold py_min. destruct (f_ltb z x) eqn:E; split; try (by apply f_leb_refl); [by apply f_ltb_leb|].
      rewrite f_ltb_not_leb in E by done. by apply negb_false_iff. }
    intros y [->|[->|Hy]%elem_of_cons]%elem_of_cons.
    + eapply f_leb_trans; [apply H; left|apply Hm].
    + eapply f_leb_trans; [apply H; left|apply Hm].
    + apply H. by right.
Qed.

(** The range of a candle covers every price of its bucket. *)
Lemma ohlcv_range b ts c : Forall (fun t => f_isnan (price_of t) = false) ts -> ohlcv b ts = Some c ->
  forall t, t ∈ ts -> f_leb (cd_low c) (price_of t) = true /\ f_leb (price_of t) (cd_high c) = true.
Proof.
  destruct ts as [|t0 ts]; [done|]. intros Hnn [= <-] t Ht. cbn [cd_low cd_high].
  apply Forall_cons in Hnn as [H0 Hnn]. assert (Hp : Forall (fun y => f_isnan y = false) (price_of <$> ts)) by by apply Forall_fmap.
  assert (Hin : price_of t ∈ price_of t0 :: (price_of <$> ts)).
  { apply elem_of_cons in Ht as [->|Ht]; [by left|]. right. by apply list_elem_of_fmap_2. }
  split; [by apply (foldl_min_le _ _ H0 Hp)|by apply (foldl_max_ge _ _ H0 Hp)].
Qed.

(** ** The candles of a request *)

(** The trades a request aggregates. *)
Definition candle_trades (table : list TimedTrade) (now : Z) (symbol timeframe : string) (limit : Z) : list TimedTrade :=
  merge_sort earlier (filter (fun t => t_symbol (tt_trade t) = symbol /\
    now - timeframe_seconds timeframe * limit * 1000000 <= executed_at t) table).

Lemma timeframe_pos timeframe : 0 < timeframe_seconds timeframe.
Proof. unfold timeframe_seconds. repeat case_match; lia. Qed.
Lemma aggregate_correct tf ts : 0 < tf -> StronglySorted earlier ts -> candles_of tf ts (aggregate_candles tf ts).
Proof. intros Htf Hs. by apply loop_correct. Qed.
Lemma candle_trades_sorted table now symbol timeframe limit :
  StronglySorted earlier (candle_trades table now symbol timeframe limit).
Proof. apply Sorted_StronglySorted; [apply _|]. apply Sorted_merge_sort, _. Qed.

(** C21: the one-pass aggregation computes the GROUP BY.  The candles served are the
    last [limit] of the reference candles of the symbol's trades in the window:
    one per time bucket with trades, in increasing time order, open, high, low,
    close and volume being those of the bucket's trades in time order; the
    reference determines them, and there are never more than [limit]. *)
Theorem get_candles_correct table now symbol timeframe limit :
  let tf := timeframe_seconds timeframe in
  let ts := candle_trades table now symbol timeframe limit in
  let served := get_candles table now symbol timeframe limit in
  (exists cs, candles_of tf ts cs) /\
  (forall cs, candles_of tf ts cs -> served = keep_last limit cs) /\
  (length served <= Z.to_nat limit)%nat.
Proof.
  intros tf ts served.
  pose proof (aggregate_correct tf ts (timeframe_pos _) (candle_trades_sorted _ _ _ _ _)) as Ha.
  split; [by eexists|split].
  - intros cs Hcs. by rewrite (candles_of_unique tf ts cs _ Hcs Ha).
  - unfold served, get_candles, keep_last. rewrite length_drop. lia.
Qed.

(** a served candle is a consistent bar: its time is a multiple of the
    timeframe, and its low and high enclose the open, the close and every other
    price traded in its bucket. *)
Theorem get_candles_bounds table now symbol timeframe limit c :
  Forall (fun t => f_isnan (price_of t) = false) table ->
  c ∈ get_candles table now symbol timeframe limit ->
  let tf := timeframe_seconds timeframe in
  cd_time c mod tf = 0 /\
  f_leb (cd_low c) (cd_open c) = true /\ f_leb (cd_open c) (cd_high c) = true /\
  f_leb (cd_low c) (cd_close c) = true /\ f_leb (cd_close c) (cd_high c) = true /\
  forall t, t ∈ of_bucket tf (cd_time c) (candle_trades table now symbol timeframe limit) ->
    f_leb (cd_low c) (price_of t) = true /\ f_leb (price_of t) (cd_high c) = true.
Proof.
  intros Hnn Hc tf. set (ts := candle_trades _ _ _ _ _).
  destruct (aggregate_correct tf ts (timeframe_pos _) (candle_trades_sorted _ _ _ _ _)) as [_ Hb Hs].
  assert (Hin : c ∈ aggregate_candles tf ts).
  { unfold get_candles, keep_last in Hc. erewrite <- take_drop. apply elem_of_app. right. exact Hc. }
  specialize (Hs c Hin).
  assert (Hall : Forall (fun t => f_isnan (price_of t) = false) (of_bucket tf (cd_time c) ts)).
  { apply Forall_forall. intros t (_ & Ht)%list_elem_of_filter. apply (proj1 (Forall_forall _ _) Hnn t).
    unfold ts, candle_trades in Ht. rewrite merge_sort_Permutation in Ht. by apply list_elem_of_filter in Ht as [_ ?]. }
  pose proof (ohlcv_range _ _ _ Hall Hs) as Hr. split.
  - destruct (proj1 (Hb (cd_time c))) as (t & _ & <-); [by apply list_elem_of_fmap_2|].
    by apply Z_mod_mult.
  - destruct (of_bucket tf (cd_time c) ts) as [|t0 l] eqn:E; [done|]. cbn [ohlcv] in Hs.
    assert (Ho : cd_open c = price_of t0) by by injection Hs as <-.
    assert (Hcl : exists t, t ∈ t0 :: l /\ cd_close c = price_of t).
    { injection Hs as <-. cbn [cd_close]. rewrite fmap_last. destruct (last l) as [t|] eqn:El; cbn.
      - exists t. split; [right; by apply last_Some_elem_of|done].
      - exists t0. split; [left|done]. }
    destruct Hcl as (t1 & Ht1 & ->). rewrite Ho.
    assert (Ht0 : t0 ∈ t0 :: l) by left.
    destruct (Hr t0 Ht0), (Hr t1 Ht1). by split_and!.
Qed.

(** The public trade feed comes oldest first: the repository returns the newest
    first and the route reverses it. *)
Lemma sorted_take {A} (S : relation A) n l : StronglySorted S l -> StronglySorted S (take n l).
Proof. intros H. rewrite <- (take_drop n l) in H. by apply StronglySorted_app_1_l in H. Qed.
Lemma sorted_reverse {A} (S : relation A) l : StronglySorted S l -> StronglySorted (flip S) (reverse l).
Proof.
  induction 1 as [|x l Hs IH Hx]; [constructor|]. rewrite reverse_cons.
  apply StronglySorted_app_2; [|done|repeat constructor].
  intros y z Hy ->%list_elem_of_singleton. rewrite elem_of_reverse in Hy.
  rewrite List.Forall_forall in Hx. by apply Hx, list_elem_of_In.
Qed.
Theorem public_trades_oldest_first table symbol limit :
  StronglySorted earlier (list_public_trades table symbol limit).
Proof.
  apply (sorted_reverse (flip earlier)), sorted_take, Sorted_StronglySorted; [apply _|]. apply Sorted_merge_sort, _.
Qed.

(** ** Three trades in two minutes *)

Definition demo_tick (id at_s price : Z) : TimedTrade :=
  MkTimed id (at_s * 1000000) (MkTrade 1 2 "BTC-USD" (dec_of_Z price) (dec_of_Z 1) (dec_of_Z price) BUY 1 2).
Definition demo_tape : list TimedTrade := [demo_tick 1 1200 10; demo_tick 3 1261 9; demo_tick 2 1230 12].

Example demo_candles :
  (fun c => (cd_time c, cd_open c, cd_high c, cd_low c, cd_close c)) <$> get_candles demo_tape 1300000000 "BTC-USD" "1m" 5
  = [(1200, f_of_Z 10, f_of_Z 12, f_of_Z 10, f_of_Z 12); (1260, f_of_Z 9, f_of_Z 9, f_of_Z 9, f_of_Z 9)].
Proof. vm_compute. reflexivity. Qed.

Lemma get_candles_bounds_witness : exists c, c ∈ get_candles demo_tape 1300000000 "BTC-USD" "1m" 5 /\
  f_leb (cd_low c) (cd_close c) = true.
Proof.
  eexists. split; [|apply (get_candles_bounds demo_tape 1300000000 "BTC-USD" "1m" 5)].
  - vm_compute. left.
  - repeat constructor.
  - vm_compute. left.
Defined.
