(* ===== verification/WsManager.v ===== *)
(** * WebSocket fan-out: app/ws/manager.py

    Two registries of connections, per symbol and per user, that the handlers
    and the broadcasts share.  [asyncio] interleaves the tasks at their awaits:
    a broadcast copies its registry entry, sends to each connection in turn and
    then unregisters those that failed, while other connections come and go.
    The operations are functions on the registries; their interleavings are the
    runs of a step relation.  Subscriptions and retries are in Sessions. *)

From Stdlib Require Import ZArith Lia Bool.
From stdpp Require Import base tactics option list strings gmap sets relations.
From S2P Require Import Prelude.
#[local] Open Scope Z_scope.

(** A WebSocket object, by identity. *)
Abbreviation conn := Z (only parsing).

(** ** One registry: a dict of sets *)

Section Registry.
Context {K : Type} `{Countable K}.
Abbreviation registry := (gmap K (gset conn)).

Definition connections (k : K) (r : registry) : gset conn := default ∅ (r !! k).
Definition register (k : K) (c : conn) (r : registry) : registry := <[k := {[c]} ∪ connections k r]> r.
Definition unregister (k : K) (c : conn) (r : registry) : registry :=
  match r !! k with
  | Some s => let s := s ∖ {[c]} in if decide (s = ∅) then delete k r else <[k := s]> r
  | None => r
  end.

(** What a broadcast that is not interrupted does: [sent c] tells whether the
    send to [c] goes through. *)
Definition broadcast (sent : conn -> bool) (k : K) (r : registry) : registry * list conn :=
  let conns := elements (connections k r) in
  (foldl (fun r c => unregister k c r) r (base.filter (fun c => sent c = false) conns),
   base.filter (fun c => sent c = true) conns).

(** [total_public] / [total_private] of the statistics. *)
Definition total (r : registry) : nat := map_fold (fun _ s n => (size s + n)%nat) O r.

(** The specification: a relation between keys and connections.  No set of a
    registry is empty. *)
Definition registry_ok (r : registry) : Prop := map_Forall (fun _ s => s <> ∅) r.
Definition members (r : registry) : K -> gset conn := fun k => connections k r.

Lemma connections_register k k' c r :
  connections k' (register k c r) = if decide (k = k') then {[c]} ∪ connections k r else connections k' r.
Proof.
  unfold connections, register. case_decide as E; [subst|].
  - by rewrite lookup_insert_eq.
  - by rewrite lookup_insert_ne.
Qed.
Lemma connections_unregister k k' c r :
  connections k' (unregister k c r) = if decide (k = k') then connections k r ∖ {[c]} else connections k' r.
Proof.
  unfold connections, unregister. destruct (decide (k = k')) as [<-|Hk], (r !! k) as [s|] eqn:E.
  - case_decide as Es.
    + rewrite lookup_delete_eq. cbn. by rewrite Es.
    + by rewrite lookup_insert_eq.
  - rewrite E. cbn. set_solver.
  - case_decide; by rewrite ?lookup_delete_ne, ?lookup_insert_ne.
  - done.
Qed.
Lemma register_ok k c r : registry_ok r -> registry_ok (register k c r).
Proof. intros Hr. apply map_Forall_insert_2; [set_solver|done]. Qed.
Lemma unregister_ok k c r : registry_ok r -> registry_ok (unregister k c r).
Proof.
  intros Hr. unfold unregister. destruct (r !! k) as [s|]; [|done]. case_decide.
  - by apply map_Forall_delete.
  - by apply map_Forall_insert_2.
Qed.
Lemma unregister_all_ok k cs r : registry_ok r -> registry_ok (foldl (fun r c => unregister k c r) r cs).
Proof. revert r. induction cs as [|c cs IH]; intros r Hr; cbn; [done|]. by apply IH, unregister_ok. Qed.
Lemma connections_unregister_all k k' cs r :
  connections k' (foldl (fun r c => unregister k c r) r cs) =
  if decide (k = k') then connections k r ∖ list_to_set cs else connections k' r.
Proof.
  revert r. induction cs as [|c cs IH]; intros r; cbn.
  - case_decide; subst; [set_solver|done].
  - rewrite IH, !connections_unregister. repeat case_decide; try done. set_solver.
Qed.

(** the registry implements a relation between keys and connections.
    Connecting adds one pair and disconnecting removes one; a broadcast sends to
    exactly the connections of its key for which the send succeeds, once each,
    and drops the others; no key keeps an empty set. *)
Theorem registry_refines_relation k c sent r : registry_ok r ->
  (registry_ok (register k c r) /\ registry_ok (unregister k c r) /\ registry_ok (broadcast sent k r).1) /\
  (forall k', connections k' (register k c r) = if decide (k = k') then {[c]} ∪ connections k r else connections k' r) /\
  (forall k', connections k' (unregister k c r) = if decide (k = k') then connections k r ∖ {[c]} else connections k' r) /\
  (forall k' d, d ∈ connections k' (broadcast sent k r).1 <-> d ∈ connections k' r /\ (k = k' -> sent d = true)) /\
  NoDup (broadcast sent k r).2 /\
  (forall d, d ∈ (broadcast sent k r).2 <-> d ∈ connections k r /\ sent d = true) /\
  (forall k', k' ∈ dom r <-> connections k' r <> ∅).
Proof.
  intros Hr. split_and!.
  - by apply register_ok.
  - by apply unregister_ok.
  - by apply unregister_all_ok.
  - intros k'. apply connections_register.
  - intros k'. apply connections_unregister.
  - intros k' d. unfold broadcast. cbn [fst]. rewrite connections_unregister_all. case_decide as E; [subst k'|naive_solver].
    rewrite elem_of_difference, elem_of_list_to_set, list_elem_of_filter, elem_of_elements.
    destruct (sent d); naive_solver.
  - apply NoDup_filter, NoDup_elements.
  - intros d. unfold broadcast. cbn [snd]. rewrite list_elem_of_filter, elem_of_elements. naive_solver.
  - intros k'. unfold connections. rewrite elem_of_dom. split.
    + intros [s E]. rewrite E. by apply (Hr k').
    + destruct (r !! k'); [by eexists|done].
Qed.
End Registry.

(** ** Interleaved tasks *)

Section Fanout.
Context {K M : Type} `{Countable K}.
(** Who the handlers register: [may_connect k c] holds when a handler has let
    [c] in under [k]. *)
Variable may_connect : K -> conn -> Prop.

(** A broadcast at one of its awaits: sending, then unregistering the dead. *)
Inductive task :=
  | Sending (k : K) (msg : M) (todo dead : list conn)
  | Cleaning (k : K) (todo : list conn).

(** The registry, the running broadcasts, and what happened so far: the
    broadcasts that were started and the messages that were delivered. *)
Record fanout := MkFanout {
  reg : gmap K (gset conn);
  tasks : list task;
  started : list (K * M);
  delivered : list (K * conn * M)
}.
Definition set_task (i : nat) (t : task) (s : fanout) : fanout :=
  MkFanout (reg s) (<[i := t]> (tasks s)) (started s) (delivered s).


(** One resumption of a broadcast, up to its next await: the next send, which
    goes through or not, the copy of the dead, or the next unregistration. *)
Definition resume (ok : bool) (t : task) : option task :=
  match t with
  | Sending k m (c :: todo) dead => Some (Sending k m todo (if ok then dead else dead ++ [c]))
  | Sending k m [] dead => Some (Cleaning k dead)
  | Cleaning k (c :: todo) => Some (Cleaning k todo)
  | Cleaning k [] => None
  end.
Definition resume_reg (t : task) (r : gmap K (gset conn)) : gmap K (gset conn) :=
  match t with Cleaning k (c :: _) => unregister k c r | _ => r end.
Definition resume_delivers (ok : bool) (t : task) : list (K * conn * M) :=
  match t with Sending k m (c :: _) _ => if ok then [(k, c, m)] else [] | _ => [] end.
Definition run_task (i : nat) (ok : bool) (t : task) (s : fanout) : fanout :=
  MkFanout (resume_reg t (reg s))
    (match resume ok t with Some t' => <[i := t']> (tasks s) | None => delete i (tasks s) end)
    (started s) (delivered s ++ resume_delivers ok t).

(** What one task does between two awaits. *)
Inductive step : fanout -> fanout -> Prop :=
  | step_connect s k c : may_connect k c ->
      step s (MkFanout (register k c (reg s)) (tasks s) (started s) (delivered s))
  | step_disconnect s k c :
      step s (MkFanout (unregister k c (reg s)) (tasks s) (started s) (delivered s))
  | step_broadcast s k m :
      step s (MkFanout (reg s) (tasks s ++ [Sending k m (elements (connections k (reg s))) []])
                (started s ++ [(k, m)]) (delivered s))
  | step_resume s i ok t : tasks s !! i = Some t -> step s (run_task i ok t s).

Definition idle : fanout := MkFanout ∅ [] [] [].
Definition reachable (s : fanout) : Prop := rtc step idle s.

(** A task only knows connections that were let in under its key, and sends a
    message that was broadcast there. *)
Definition task_ok (st : list (K * M)) (t : task) : Prop :=
  match t with
  | Sending k m todo dead => (k, m) ∈ st /\ Forall (may_connect k) todo
  | Cleaning k todo => True
  end.
Record fanout_ok (s : fanout) : Prop := {
  fo_reg : registry_ok (reg s);
  fo_let_in k c : c ∈ connections k (reg s) -> may_connect k c;
  fo_tasks : Forall (task_ok (started s)) (tasks s);
  fo_delivered : Forall (fun e => may_connect e.1.1 e.1.2 /\ (e.1.1, e.2) ∈ started s) (delivered s)
}.

Lemma task_ok_weaken st st' t : (forall e, e ∈ st -> e ∈ st') -> task_ok st t -> task_ok st' t.
Proof. destruct t; cbn; naive_solver. Qed.
Lemma resume_ok st ok t t' : task_ok st t -> resume ok t = Some t' -> task_ok st t'.
Proof.
  destruct t as [k m [|c todo] dead|k [|c todo]]; cbn; intros Ht; intros [= <-]; try done.
  destruct Ht as [Hm Hc]. split; [done|]. by apply Forall_cons in Hc as [_ Hc].
Qed.
Lemma unregister_let_in r k c : registry_ok r -> (forall k c, c ∈ connections k r -> may_connect k c) ->
  registry_ok (unregister k c r) /\ forall k' c', c' ∈ connections k' (unregister k c r) -> may_connect k' c'.
Proof.
  intros Hr Hl. split; [by apply unregister_ok|]. intros k' c'. rewrite connections_unregister.
  case_decide; subst; [|apply Hl]. rewrite elem_of_difference. naive_solver.
Qed.

Lemma step_keeps_ok s s' : step s s' -> fanout_ok s -> fanout_ok s'.
Proof.
  intros Hs [Hr Hl Ht Hd]. destruct Hs as [s k c Hc|s k c|s k m|s i ok t Hi].
  - split; [by apply register_ok| |done..]. intros k' c'. cbn [reg]. rewrite connections_register.
    case_decide; subst; [|apply Hl]. rewrite elem_of_union, elem_of_singleton. intros [->|Hc']; [done|by apply Hl].
  - destruct (unregister_let_in (reg s) k c Hr Hl). by split.
  - split; [done..| |]; cbn [tasks started delivered].
    + apply Forall_app. split.
      * eapply Forall_impl; [exact Ht|]. intros t. apply task_ok_weaken. set_solver.
      * constructor; [|constructor]. split; [set_solver|]. apply Forall_forall.
        intros c Hc%elem_of_elements. by apply Hl.
    + eapply Forall_impl; [exact Hd|]. intros e [? ?]. split; [done|set_solver].
  - assert (Hok : task_ok (started s) t) by by eapply Forall_lookup_1.
    assert (Hreg : registry_ok (resume_reg t (reg s)) /\ forall k c, c ∈ connections k (resume_reg t (reg s)) -> may_connect k c).
    { destruct t as [|k [|c todo]]; cbn [resume_reg]; [done..|]. by apply unregister_let_in. }
    destruct Hreg. split; [done..| |]; cbn [run_task tasks started delivered].
    + destruct (resume ok t) as [t'|] eqn:E; [|by apply Forall_delete].
      apply Forall_insert; [done|]. by eapply resume_ok.
    + apply Forall_app. split; [done|]. destruct t as [k m [|c todo] dead|]; cbn; [constructor| |constructor].
      destruct Hok as [Hm Hc%Forall_cons]. destruct ok; [|constructor]. repeat constructor; cbn; tauto.
Qed.

Lemma reachable_ok s : reachable s -> fanout_ok s.
Proof.
  revert s. apply (rtc_ind_r fanout_ok idle); [|intros; by eapply step_keeps_ok].
  split; cbn; [apply map_Forall_empty|set_solver|constructor|constructor].
Qed.
Lemma delivered_let_in s k c m : reachable s -> (k, c, m) ∈ delivered s -> may_connect k c /\ (k, m) ∈ started s.
Proof. intros [_ _ _ Hd]%reachable_ok Hin. by apply (proj1 (Forall_forall _ _) Hd) in Hin. Qed.

(** whatever the interleaving of connections, disconnections and broadcasts,
    a message reaches only connections that were let in under the key it was
    broadcast for, and every registered connection was let in; no key keeps an
    empty set. *)
Theorem fanout_confidential s : reachable s ->
  registry_ok (reg s) /\
  (forall k c, c ∈ connections k (reg s) -> may_connect k c) /\
  (forall k c m, (k, c, m) ∈ delivered s -> may_connect k c /\ (k, m) ∈ started s).
Proof.
  intros Hs. destruct (reachable_ok s Hs) as [Hr Hl _ _]. split_and!; [done..|].
  intros k c m. by apply delivered_let_in.
Qed.

(** The resumptions a broadcast still needs. *)
Definition task_fuel (t : task) : nat :=
  match t with
  | Sending _ _ todo dead => 2 * length todo + length dead + 2
  | Cleaning _ todo => length todo + 1
  end.
Fixpoint resumes (oks : list bool) (t : task) : option task :=
  match oks with
  | [] => Some t
  | ok :: oks => t' ← resume ok t; resumes oks t'
  end.

Lemma resume_fuel ok t t' : resume ok t = Some t' -> (task_fuel t' < task_fuel t)%nat.
Proof.
  destruct t as [k m [|c todo] dead|k [|c todo]]; cbn; intros [= <-]; cbn [task_fuel]; try lia.
  destruct ok; rewrite ?length_app; cbn; lia.
Qed.

(** every broadcast finishes: resumed as often as twice the connections it
    copied plus two, it is gone, whichever of its sends fail, and whatever the
    other tasks did in between (they cannot change what it copied). *)
Theorem broadcast_finishes k m todo oks : (2 * length todo + 2 <= length oks)%nat ->
  resumes oks (Sending k m todo []) = None.
Proof.
  intros Hn. assert (Hall : forall oks t, (task_fuel t <= length oks)%nat -> resumes oks t = None).
  { clear. induction oks as [|ok oks IH]; intros t Hle; cbn [length] in Hle; [destruct t; cbn in Hle; lia|].
    cbn [resumes]. destruct (resume ok t) as [t'|] eqn:E; [|done]. cbn. apply IH. apply resume_fuel in E. lia. }
  apply Hall. cbn. lia.
Qed.

(** A broadcast that no other task interrupts. *)
Fixpoint run_alone (fuel : nat) (sent : conn -> bool) (t : task) (r : gmap K (gset conn))
    : gmap K (gset conn) * list (K * conn * M) :=
  match fuel with
  | O => (r, [])
  | S fuel =>
      let ok := match t with Sending _ _ (c :: _) _ => sent c | _ => true end in
      match resume ok t with
      | Some t' => let rest := run_alone fuel sent t' (resume_reg t r) in (fst rest, resume_delivers ok t ++ snd rest)
      | None => (resume_reg t r, resume_delivers ok t)
      end
  end.

Lemma run_alone_cleaning fuel sent k todo r : (task_fuel (Cleaning k todo) <= fuel)%nat ->
  run_alone fuel sent (Cleaning k todo) r = (foldl (fun r c => unregister k c r) r todo, []).
Proof.
  revert todo r. induction fuel as [|fuel IH]; intros [|c todo] r Hf; cbn in Hf; try lia; [done|].
  cbn [run_alone resume resume_reg resume_delivers foldl]. by rewrite IH by (cbn; lia).
Qed.
Lemma run_alone_sending fuel sent k m todo dead r : (task_fuel (Sending k m todo dead) <= fuel)%nat ->
  run_alone fuel sent (Sending k m todo dead) r =
    (foldl (fun r c => unregister k c r) r (dead ++ base.filter (fun c => sent c = false) todo),
     (fun c => (k, c, m)) <$> base.filter (fun c => sent c = true) todo).
Proof.
  revert todo dead. induction fuel as [|fuel IH]; intros [|c todo] dead Hf; cbn in Hf; try lia.
  - cbn [run_alone resume resume_reg resume_delivers]. rewrite run_alone_cleaning by (cbn; lia).
    rewrite !filter_nil. cbn [fst snd app fmap list_fmap]. by rewrite app_nil_r.
  - cbn [run_alone resume resume_reg resume_delivers]. rewrite !filter_cons. destruct (sent c) eqn:E;
      rewrite IH by (cbn; rewrite ?length_app; cbn; lia); repeat case_decide; try done.
    cbn [fst snd app]. by rewrite <- app_assoc.
Qed.

(** a broadcast that no other task interrupts is the function [broadcast]:
    the same final registry, and a delivery for each send that went through. *)
Theorem broadcast_alone k m sent r fuel : (2 * size (connections k r) + 2 <= fuel)%nat ->
  run_alone fuel sent (Sending k m (elements (connections k r)) []) r =
    ((broadcast sent k r).1, (fun c => (k, c, m)) <$> (broadcast sent k r).2).
Proof.
  intros Hf. rewrite run_alone_sending; [done|]. cbn. change (length (elements (connections k r))) with (size (connections k r)). lia.
Qed.
End Fanout.

(** ** The manager *)

Record WebSocketManager := MkManager {
  public_connections : gmap string (gset conn);
  private_connections : gmap Z (gset conn)
}.

(** [accept()] raises when the handshake is gone; nothing is registered then. *)
Definition connect_public (accepted : bool) (ws : conn) (symbol : string) (m : WebSocketManager) : WebSocketManager :=
  if accepted then MkManager (register symbol ws (public_connections m)) (private_connections m) else m.
Definition disconnect_public (ws : conn) (symbol : string) (m : WebSocketManager) : WebSocketManager :=
  MkManager (unregister symbol ws (public_connections m)) (private_connections m).
Definition connect_private (ws : conn) (user_id : Z) (m : WebSocketManager) : WebSocketManager :=
  MkManager (public_connections m) (register user_id ws (private_connections m)).
Definition disconnect_private (ws : conn) (user_id : Z) (m : WebSocketManager) : WebSocketManager :=
  MkManager (public_connections m) (unregister user_id ws (private_connections m)).
Definition broadcast_public (sent : conn -> bool) (symbol : string) (m : WebSocketManager) : WebSocketManager * list conn :=
  let r := broadcast sent symbol (public_connections m) in (MkManager (fst r) (private_connections m), snd r).
Definition broadcast_private (sent : conn -> bool) (user_id : Z) (m : WebSocketManager) : WebSocketManager * list conn :=
  let r := broadcast sent user_id (private_connections m) in (MkManager (public_connections m) (fst r), snd r).
Definition get_stats (m : WebSocketManager) : nat * nat := (total (public_connections m), total (private_connections m)).

(** ** Two clients of one symbol *)

Definition demo_registry : gmap string (gset Z) := register "BTC-USD" 2 (register "BTC-USD" 1 ∅).

Lemma registry_refines_relation_witness :
  registry_ok demo_registry /\ (forall d, d ∈ (broadcast (fun c => Z.odd c) "BTC-USD" demo_registry).2 <->
     d ∈ connections "BTC-USD" demo_registry /\ Z.odd d = true).
Proof.
  assert (H : registry_ok demo_registry) by apply register_ok, register_ok, map_Forall_empty.
  split; [exact H|]. apply (registry_refines_relation "BTC-USD" 3 (fun c => Z.odd c) demo_registry H).
Defined.

Lemma broadcast_finishes_witness :
  resumes (K := string) (M := Z) [true; false; true; true; true; true] (Sending "BTC-USD" 7 [1; 2] []) = None.
Proof. apply broadcast_finishes. vm_compute. repeat constructor. Defined.

Lemma broadcast_alone_witness :
  (run_alone 6 (fun c => Z.odd c) (Sending "BTC-USD" 7 (elements (connections "BTC-USD" demo_registry)) []) demo_registry).2
  = (fun c => ("BTC-USD", c, 7)) <$> (broadcast (fun c => Z.odd c) "BTC-USD" demo_registry).2.
Proof.
  rewrite (broadcast_alone "BTC-USD" 7 (fun c => Z.odd c) demo_registry 6).
  - reflexivity.
  - vm_compute. repeat constructor.
Defined.
