(* ===== verification/WsFanout.v ===== *)
(** * From Redis to the sockets: app/ws/manager.py, app/ws/public.py,
      app/ws/private.py, iter_messages of app/redis_client/pubsub.py

    Who listens to which channel, and how many copies of a published message
    each socket gets: the manager's subscribers of the symbols known at start,
    one subscriber for each private session, and one for each public client.
    A socket whose send failed is dropped from the registry while its session
    goes on, which is a step of its own here ([hub_message]).  Sending is taken
    to be atomic; its interleavings are in WsManager, the
    loops of the sessions and of the subscribers in Sessions. *)

From Stdlib Require Import ZArith Lia Bool.
From stdpp Require Import base tactics option list strings gmap sets.
From S2P Require Import Prelude Models RedisIface OrderBook World Pubsub WsManager.
#[local] Open Scope Z_scope.

(** ** Messages of a subscription *)

(** The data of a Pub/Sub item: JSON, or a text that is not. *)
Inductive RawData := RJson (v : jval) | RText (s : string).
Record RawMessage := MkRaw { raw_type : string; raw_data : RawData }.

Definition iter_message (ignore_subscribe : bool) (raw : RawMessage) : option jval :=
  if negb (bool_decide (raw_type raw = "message" \/ raw_type raw = "pmessage")) && ignore_subscribe then None
  else Some (match raw_data raw with RJson v => v | RText s => JObj [("_raw", JStr s)] end).
Definition iter_messages (ignore_subscribe : bool) (raws : list RawMessage) : list jval :=
  omap (iter_message ignore_subscribe) raws.

(** What a public session forwards of its own subscription. *)
Definition forward_message (raw : RawMessage) : option jval :=
  if bool_decide (raw_type raw = "message" \/ raw_type raw = "pmessage") then
    match raw_data raw with RJson v => Some v | RText _ => None end
  else None.
(** The first message of a public session; [ts] is the loop's clock. *)
Definition initial_snapshot `{R : Redis} (symbol : string) (ts : Z) : wprog jval :=
  snap ← on_redis (get_book_snapshot symbol 20);
  mret (JObj [("event", JStr "orderbook_snapshot"); ("symbol", JStr symbol); ("bids", jlevels (fst snap));
              ("asks", jlevels (snd snap)); ("last_trade_price", JNull); ("ts", JInt ts)]).

(** ** The hub *)

(** WebSocketManager with its subscriber tasks, and the handlers' own
    subscriptions: [private_tasks] are the tasks that private sessions start,
    [clients] the subscriptions of public sessions. *)
Record Hub := MkHub {
  manager : WebSocketManager;
  running : bool;
  subscriber_tasks : list string;
  private_tasks : list (Z * Z);
  clients : list (Z * string)
}.
Definition new_hub : Hub := MkHub (MkManager ∅ ∅) false [] [] [].

Definition start_subscribers (symbols : list string) (h : Hub) : Hub :=
  if running h then h
  else MkHub (manager h) true (subscriber_tasks h ++ symbols) (private_tasks h) (clients h).

(** A public session: registered with the manager, and subscribed by itself. *)
Definition open_public (ws : Z) (symbol : string) (h : Hub) : Hub :=
  MkHub (connect_public true ws symbol (manager h)) (running h) (subscriber_tasks h) (private_tasks h)
    (clients h ++ [(ws, symbol)]).
Definition close_public (ws : Z) (symbol : string) (h : Hub) : Hub :=
  MkHub (disconnect_public ws symbol (manager h)) (running h) (subscriber_tasks h) (private_tasks h)
    (base.filter (fun c => c <> (ws, symbol)) (clients h)).
(** A private session that was let in: registered, and a task of its own that
    broadcasts the user's channels while the manager runs. *)
Definition open_private (ws user_id : Z) (h : Hub) : Hub :=
  MkHub (connect_private ws user_id (manager h)) (running h) (subscriber_tasks h)
    (if running h then private_tasks h ++ [(ws, user_id)] else private_tasks h) (clients h).
Definition close_private (ws user_id : Z) (h : Hub) : Hub :=
  MkHub (disconnect_private ws user_id (manager h)) (running h) (subscriber_tasks h)
    (base.filter (fun t => t <> (ws, user_id)) (private_tasks h)) (clients h).

(** *** Delivery *)

Definition public_channels (symbol : string) : list string := [orderbook_channel symbol; trades_channel symbol].
Definition private_channels (user_id : Z) : list string :=
  [orders_channel user_id; balances_channel user_id; bulk_channel user_id].

(** The subscribers [tasks] that listen to [channel] broadcast in turn. *)
Definition fan_out {T} (channels : T -> list string) (bcast : T -> WebSocketManager -> WebSocketManager * list Z)
    (channel : string) (tasks : list T) (m : WebSocketManager) : WebSocketManager * list Z :=
  foldl (fun st t => if bool_decide (channel ∈ channels t)
                     then let r := bcast t (fst st) in (fst r, snd st ++ snd r) else st) (m, []) tasks.

(** One message published on [channel]: the sockets that receive it, a socket
    once for each copy; [sent] tells which sends go through. *)
Definition deliver (sent : Z -> bool) (channel : string) (h : Hub) : Hub * list Z :=
  let pub := fan_out public_channels (broadcast_public sent) channel (subscriber_tasks h) (manager h) in
  let priv := fan_out (fun t => private_channels t.2) (fun t => broadcast_private sent t.2) channel (private_tasks h) (fst pub) in
  let own := base.filter (fun c => channel ∈ public_channels c.2 /\ sent c.1 = true) (clients h) in
  (MkHub (fst priv) (running h) (subscriber_tasks h) (private_tasks h) (clients h), snd pub ++ own.*1 ++ snd priv).

Definition copies (ws : Z) (l : list Z) : nat := length (base.filter (fun c => c = ws) l).

(** ** Channels *)

Lemma private_channel_user c u u' : c ∈ private_channels u -> c ∈ private_channels u' -> u = u'.
Proof.
  unfold private_channels. rewrite !list_elem_of_In. cbn.
  intros [<-|[<-|[<-|[]]]] [E|[E|[E|[]]]]; try discriminate E; injection E as E; by apply (inj str_of_Z) in E.
Qed.
Lemma public_channel_symbol c s s' : c ∈ public_channels s -> c ∈ public_channels s' -> s = s'.
Proof.
  unfold public_channels. rewrite !list_elem_of_In. cbn.
  intros [<-|[<-|[]]] [E|[E|[]]]; try discriminate E; by injection E as E.
Qed.
Lemma channel_public_private c s u : c ∈ public_channels s -> c ∉ private_channels u.
Proof.
  unfold public_channels, private_channels. rewrite !list_elem_of_In. cbn.
  intros [<-|[<-|[]]] [E|[E|[E|[]]]]; discriminate E.
Qed.

(** ** Copies *)

Lemma filter_none {A} (P : A -> Prop) `{!forall x, Decision (P x)} (l : list A) : (forall x, x ∈ l -> ~ P x) -> base.filter P l = [].
Proof.
  induction l as [|x l IH]; intros Hl; [done|]. rewrite filter_cons_False by (apply Hl; left). apply IH.
  intros y Hy. apply Hl. by right.
Qed.
Lemma filter_every {A} (P : A -> Prop) `{!forall x, Decision (P x)} (l : list A) : (forall x, x ∈ l -> P x) -> base.filter P l = l.
Proof.
  induction l as [|x l IH]; intros Hl; [done|]. rewrite filter_cons_True by (apply Hl; left). f_equal. apply IH.
  intros y Hy. apply Hl. by right.
Qed.

Lemma copies_app ws l1 l2 : copies ws (l1 ++ l2) = (copies ws l1 + copies ws l2)%nat.
Proof. unfold copies. by rewrite filter_app, length_app. Qed.
Lemma copies_none ws l : ws ∉ l -> copies ws l = O.
Proof. intros H. unfold copies. rewrite filter_none; [done|]. intros x Hx ->. done. Qed.
Lemma copies_nodup ws l : NoDup l -> copies ws l = if decide (ws ∈ l) then 1%nat else O.
Proof.
  induction 1 as [|x l Hx Hl IH]; [done|]. change (x :: l) with ([x] ++ l). rewrite copies_app, IH.
  unfold copies. rewrite filter_cons, filter_nil. repeat case_decide; subst; try set_solver; done.
Qed.
Lemma copies_concat {T} ws (f : T -> list Z) n l : (forall t, t ∈ l -> copies ws (f t) = n) ->
  copies ws (concat (f <$> l)) = (length l * n)%nat.
Proof.
  induction l as [|t l IH]; intros Hl; [done|]. rewrite fmap_cons. cbn [concat length]. rewrite copies_app, (Hl t) by left.
  rewrite IH; [done|]. intros x Hx. apply Hl. by right.
Qed.

(** ** Fanning out *)

Section FanOut.
Context {T : Type} (channels : T -> list string) (channel : string).

(** When no broadcast changes the manager, their deliveries follow each other. *)
Lemma fan_out_all bcast (f : T -> list Z) tasks m : (forall t, bcast t m = (m, f t)) ->
  fan_out channels bcast channel tasks m = (m, concat (f <$> base.filter (fun t => channel ∈ channels t) tasks)).
Proof.
  intros Hb. unfold fan_out. change (concat (f <$> base.filter (fun t => channel ∈ channels t) tasks)) with
    ([] ++ concat (f <$> base.filter (fun t => channel ∈ channels t) tasks)). generalize (@nil Z) as acc.
  induction tasks as [|t tasks IH]; intros acc; cbn [foldl]; [by rewrite app_nil_r|].
  rewrite filter_cons. case_bool_decide; case_decide; try done. cbn [fst snd]. rewrite Hb. cbn [fst snd]. rewrite IH.
  by rewrite <- app_assoc.
Qed.
(** An invariant of the manager and of what is delivered. *)
Lemma fan_out_ind bcast (P : WebSocketManager -> Prop) (Q : Z -> Prop) tasks m : P m ->
  (forall t m, t ∈ tasks -> channel ∈ channels t -> P m -> P (bcast t m).1 /\ Forall Q (bcast t m).2) ->
  P (fan_out channels bcast channel tasks m).1 /\ Forall Q (fan_out channels bcast channel tasks m).2.
Proof.
  intros Hm Hb. unfold fan_out. assert (H : P (m, @nil Z).1 /\ Forall Q (m, @nil Z).2) by done. clear Hm. revert H Hb.
  generalize (m, @nil Z) as st. induction tasks as [|t tasks IH]; intros st Hst Hb; [done|]. cbn [foldl]. apply IH.
  - case_bool_decide; [|done]. destruct (Hb t st.1) as [Hp Hq]; [by left|done|apply Hst|].
    split; [exact Hp|]. cbn [snd]. apply Forall_app. split; [apply Hst|exact Hq].
  - intros t' m' Ht'. apply Hb. by right.
Qed.
End FanOut.

Lemma broadcast_everyone {K} `{Countable K} (k : K) (r : gmap K (gset Z)) :
  broadcast (fun _ => true) k r = (r, elements (connections k r)).
Proof.
  unfold broadcast. f_equal.
  - by rewrite filter_none.
  - by rewrite filter_every.
Qed.

(** ** The sessions of a running gateway *)

(** The handlers, once the manager runs, and the messages: a socket is a new
    object, and one whose send failed is dropped from the registry while its
    session, and the task of a private one, go on. *)
Inductive hub_step : Hub -> Hub -> Prop :=
  | hub_open_public h ws s : (ws, s) ∉ clients h -> hub_step h (open_public ws s h)
  | hub_close_public h ws s : hub_step h (close_public ws s h)
  | hub_open_private h ws u : (ws, u) ∉ private_tasks h -> hub_step h (open_private ws u h)
  | hub_close_private h ws u : hub_step h (close_private ws u h)
  | hub_message h sent channel : hub_step h (deliver sent channel h).1.

(** Every registered socket has a session, which is listed once. *)
Record hub_ok (symbols : list string) (h : Hub) : Prop := {
  ho_running : running h = true;
  ho_symbols : subscriber_tasks h = symbols;
  ho_tasks : NoDup (private_tasks h);
  ho_private ws u : ws ∈ connections u (private_connections (manager h)) -> (ws, u) ∈ private_tasks h;
  ho_clients : NoDup (clients h);
  ho_public ws s : ws ∈ connections s (public_connections (manager h)) -> (ws, s) ∈ clients h
}.

(** A list of pairs that covers a registry, through its updates. *)
Definition covers {K} `{Countable K} (l : list (Z * K)) (r : gmap K (gset Z)) : Prop :=
  NoDup l /\ forall ws k, ws ∈ connections k r -> (ws, k) ∈ l.
Lemma covers_register {K} `{Countable K} l (r : gmap K (gset Z)) ws k : covers l r -> (ws, k) ∉ l ->
  covers (l ++ [(ws, k)]) (register k ws r).
Proof.
  intros [Hn Hl] Hf. split.
  - apply NoDup_app. split; [done|]. split; [|apply NoDup_singleton]. set_solver.
  - intros ws' k'. rewrite connections_register, elem_of_app, list_elem_of_singleton. specialize (Hl ws' k').
    case_decide as E; [subst k'|]; set_solver.
Qed.
Lemma covers_unregister {K} `{Countable K} l (r : gmap K (gset Z)) ws k : covers l r ->
  covers (base.filter (fun c => c <> (ws, k)) l) (unregister k ws r).
Proof.
  intros [Hn Hl]. split; [by apply NoDup_filter|]. intros ws' k'.
  rewrite list_elem_of_filter, connections_unregister. specialize (Hl ws' k'). case_decide as E; [subst k'|]; set_solver.
Qed.

(** A broadcast only removes sockets, and stays within its key's. *)
Lemma broadcast_within {K} `{Countable K} sent (k : K) r (S : K -> gset Z) : (forall k, connections k r ⊆ S k) ->
  (forall k', connections k' (broadcast sent k r).1 ⊆ S k') /\ Forall (fun ws => ws ∈ S k) (broadcast sent k r).2.
Proof.
  intros Hs. unfold broadcast. cbn [fst snd]. split.
  - intros k'. rewrite connections_unregister_all. specialize (Hs k'). case_decide; subst; set_solver.
  - apply Forall_forall. intros ws [_ Hw%elem_of_elements]%list_elem_of_filter. by apply Hs.
Qed.

(** [m] has lost sockets of [m0], if anything. *)
Definition shrunk (m0 m : WebSocketManager) : Prop :=
  (forall s, connections s (public_connections m) ⊆ connections s (public_connections m0)) /\
  (forall u, connections u (private_connections m) ⊆ connections u (private_connections m0)).
Lemma broadcast_public_shrunk sent s m0 m : shrunk m0 m -> shrunk m0 (broadcast_public sent s m).1 /\
  Forall (fun ws => ws ∈ connections s (public_connections m0)) (broadcast_public sent s m).2.
Proof. intros [H1 H2]. destruct (broadcast_within sent s _ _ H1). by split. Qed.
Lemma broadcast_private_shrunk sent u m0 m : shrunk m0 m -> shrunk m0 (broadcast_private sent u m).1 /\
  Forall (fun ws => ws ∈ connections u (private_connections m0)) (broadcast_private sent u m).2.
Proof. intros [H1 H2]. destruct (broadcast_within sent u _ _ H2). by split. Qed.
Lemma deliver_shrunk sent channel h : shrunk (manager h) (manager (deliver sent channel h).1).
Proof.
  unfold deliver. set (m0 := manager h). assert (H0 : shrunk m0 m0) by done.
  destruct (fan_out_ind public_channels channel (broadcast_public sent) (shrunk m0) (fun _ => True) (subscriber_tasks h) m0 H0) as [H1 _].
  { intros s m _ _ Hm. split; [by apply broadcast_public_shrunk|by apply Forall_true]. }
  destruct (fan_out_ind (fun t : Z * Z => private_channels t.2) channel (fun t => broadcast_private sent t.2) (shrunk m0)
    (fun _ => True) (private_tasks h) _ H1) as [H2 _]; [|exact H2].
  intros t m _ _ Hm. split; [by apply broadcast_private_shrunk|by apply Forall_true].
Qed.

Lemma hub_step_ok symbols h h' : hub_step h h' -> hub_ok symbols h -> hub_ok symbols h'.
Proof.
  intros Hs [H1 H2 H3 H4 H5 H6]. destruct Hs as [h ws s Hf|h ws s|h ws u Hf|h ws u|h sent channel].
  - destruct (covers_register (clients h) (public_connections (manager h)) ws s) as [? ?]; [by split|done|]. by split.
  - destruct (covers_unregister (clients h) (public_connections (manager h)) ws s) as [? ?]; [by split|]. by split.
  - destruct (covers_register (private_tasks h) (private_connections (manager h)) ws u) as [? ?]; [by split|done|].
    unfold open_private. rewrite H1. by split.
  - destruct (covers_unregister (private_tasks h) (private_connections (manager h)) ws u) as [? ?]; [by split|]. by split.
  - destruct (deliver_shrunk sent channel h) as [S1 S2]. split; [done..| |done|].
    + intros ws u Hw. by apply H4, S2.
    + intros ws s Hw. by apply H6, S1.
Qed.
Lemma hub_reachable_ok symbols h : rtc hub_step (start_subscribers symbols new_hub) h -> hub_ok symbols h.
Proof.
  apply (rtc_ind_r (hub_ok symbols)); [|intros; by eapply hub_step_ok].
  split; cbn; try done; try apply NoDup_nil_2; intros ws k; unfold connections; rewrite lookup_empty; set_solver.
Qed.

(** The sessions of one key: as many as its sockets when none was dropped. *)
Definition sessions_of {K} `{EqDecision K} (k : K) (l : list (Z * K)) : list (Z * K) := base.filter (fun t => t.2 = k) l.
Lemma sessions_size {K} `{Countable K} l (r : gmap K (gset Z)) k : covers l r ->
  (forall ws, (ws, k) ∈ l -> ws ∈ connections k r) -> length (sessions_of k l) = size (connections k r).
Proof.
  intros [Hn Hl] Hk. unfold sessions_of. rewrite <- (length_fmap fst). assert (Hnd : NoDup (base.filter (fun t => t.2 = k) l).*1).
  { apply NoDup_fmap_2_strong; [|by apply NoDup_filter]. intros [w1 k1] [w2 k2] [H1 _]%list_elem_of_filter [H2 _]%list_elem_of_filter.
    cbn in *. congruence. }
  rewrite <- (size_list_to_set (C := gset Z)) by done. f_equal. apply set_eq. intros ws.
  rewrite elem_of_list_to_set, list_elem_of_fmap. split.
  - intros ([w k'] & -> & [E Hin]%list_elem_of_filter). cbn in E. subst k'. by apply Hk.
  - intros Hin. exists (ws, k). split; [done|]. apply list_elem_of_filter. split; [done|by apply Hl].
Qed.
Lemma copies_own {K} `{Countable K} (l : list (Z * K)) k ws : NoDup l ->
  copies ws (sessions_of k l).*1 = if decide ((ws, k) ∈ l) then 1%nat else O.
Proof.
  intros Hn. unfold sessions_of. rewrite copies_nodup.
  - apply decide_ext. rewrite list_elem_of_fmap. split.
    + intros ([w k'] & -> & [E Hin]%list_elem_of_filter). cbn in E. by subst k'.
    + intros Hin. exists (ws, k). split; [done|]. by apply list_elem_of_filter.
  - apply NoDup_fmap_2_strong; [|by apply NoDup_filter].
    intros [w1 k1] [w2 k2] [H1 _]%list_elem_of_filter [H2 _]%list_elem_of_filter. cbn in *. congruence.
Qed.

(** The deliveries when every send goes through. *)
Lemma deliver_all channel h :
  (deliver (fun _ => true) channel h).2 =
    concat ((fun s => elements (connections s (public_connections (manager h)))) <$>
      base.filter (fun s => channel ∈ public_channels s) (subscriber_tasks h)) ++
    (base.filter (fun c => channel ∈ public_channels c.2 /\ true = true) (clients h)).*1 ++
    concat ((fun t => elements (connections t.2 (private_connections (manager h)))) <$>
      base.filter (fun t => channel ∈ private_channels t.2) (private_tasks h)).
Proof.
  unfold deliver. rewrite (fan_out_all public_channels channel _
    (fun s => elements (connections s (public_connections (manager h))))).
  2:{ intros s. unfold broadcast_public. rewrite broadcast_everyone. by destruct (manager h). }
  cbn [fst snd]. rewrite (fan_out_all _ channel _ (fun t : Z * Z => elements (connections t.2 (private_connections (manager h))))).
  2:{ intros t. unfold broadcast_private. rewrite broadcast_everyone. by destruct (manager h). }
  done.
Qed.

Lemma deliver_private_within sent u channel h : channel ∈ private_channels u ->
  Forall (fun ws => ws ∈ connections u (private_connections (manager h))) (deliver sent channel h).2.
Proof.
  intros Hc. unfold deliver. set (m0 := manager h).
  destruct (fan_out_ind public_channels channel (broadcast_public sent) (fun m => m = m0)
    (fun ws => ws ∈ connections u (private_connections m0)) (subscriber_tasks h) m0 eq_refl) as [Em Hp].
  { intros s m _ Hs. by destruct (channel_public_private channel s u Hs). }
  rewrite Em. cbn [snd]. apply Forall_app. split; [exact Hp|]. apply Forall_app. split.
  - rewrite filter_none; [constructor|]. intros c _ [Hs _]. by destruct (channel_public_private channel c.2 u Hs).
  - apply (fan_out_ind (fun t : Z * Z => private_channels t.2) channel (fun t => broadcast_private sent t.2) (shrunk m0)); [done|].
    intros t m _ Ht Hm. rewrite (private_channel_user channel t.2 u Ht Hc). by apply broadcast_private_shrunk.
Qed.
Lemma deliver_public_within symbols sent s channel h : hub_ok symbols h -> channel ∈ public_channels s ->
  Forall (fun ws => (ws, s) ∈ clients h) (deliver sent channel h).2.
Proof.
  intros [_ _ _ _ _ Hpub] Hc. unfold deliver. set (m0 := manager h). cbn [snd]. apply Forall_app. split; [|apply Forall_app; split].
  - apply (fan_out_ind public_channels channel (broadcast_public sent) (shrunk m0)); [done|].
    intros x m _ Hx Hm. rewrite (public_channel_symbol channel x s Hx Hc).
    destruct (broadcast_public_shrunk sent s m0 m Hm) as [H1 H2]. split; [exact H1|].
    eapply Forall_impl; [exact H2|]. intros ws. apply Hpub.
  - apply Forall_fmap, Forall_forall. intros [ws x] [[Hx _] Hin]%list_elem_of_filter. cbn in Hx |- *.
    by rewrite (public_channel_symbol channel x s Hx Hc) in Hin.
  - apply (fan_out_ind (fun t : Z * Z => private_channels t.2) channel (fun t => broadcast_private sent t.2)
      (fun _ => True) (fun ws => (ws, s) ∈ clients h)); [done|].
    intros t m _ Ht _. by destruct (channel_public_private channel s t.2 Hc).
Qed.

(** C38: what the sockets receive.  On a running gateway, whatever sessions were
    opened and closed and whatever was delivered before, sends that failed
    included, and when every send of this message goes through: a message
    published on a channel of a user reaches exactly the registered sockets of
    that user, each as many times as the user has private sessions, which is the
    number of those sockets as long as none of them was dropped; a message
    published on a channel of a symbol reaches each registered socket of that
    symbol once, and once more for each time the symbol was listed at the start,
    each socket that was dropped but whose session goes on once, and no other.
    Whichever sends fail, no other socket receives anything. *)
Theorem published_message_copies symbols h : rtc hub_step (start_subscribers symbols new_hub) h ->
  (forall u channel ws, channel ∈ private_channels u ->
     let sockets := connections u (private_connections (manager h)) in
     let sessions := length (sessions_of u (private_tasks h)) in
     copies ws (deliver (fun _ => true) channel h).2 = (if decide (ws ∈ sockets) then sessions else O) /\
     ((forall ws, (ws, u) ∈ private_tasks h -> ws ∈ sockets) -> sessions = size sockets)) /\
  (forall s channel ws, channel ∈ public_channels s ->
     let sockets := connections s (public_connections (manager h)) in
     copies ws (deliver (fun _ => true) channel h).2 =
       if decide (ws ∈ sockets) then S (length (base.filter (fun x => x = s) symbols))
       else if decide ((ws, s) ∈ clients h) then 1%nat else O) /\
  (forall sent u channel ws, channel ∈ private_channels u -> ws ∈ (deliver sent channel h).2 ->
     ws ∈ connections u (private_connections (manager h))) /\
  (forall sent s channel ws, channel ∈ public_channels s -> ws ∈ (deliver sent channel h).2 -> (ws, s) ∈ clients h).
Proof.
  intros Hr%hub_reachable_ok. split_and!.
  - intros u channel ws Hc sockets sessions. split; [|by intros Hs; apply sessions_size; [destruct Hr|]].
    rewrite deliver_all, !copies_app.
    rewrite (filter_none _ (subscriber_tasks h)) by (intros s _ Hs; by apply (channel_public_private channel s u)).
    rewrite (filter_none _ (clients h)) by (intros c _ [Hs _]; by apply (channel_public_private channel c.2 u)).
    rewrite (list_filter_iff _ (fun t => t.2 = u) (private_tasks h))
      by (intros t; split; [intros Ht; by apply (private_channel_user channel)|by intros ->]).
    change (copies ws (concat (_ <$> []))) with O. cbn [fmap list_fmap Nat.add].
    change (copies ws []) with O. cbn [Nat.add].
    rewrite (copies_concat ws _ (if decide (ws ∈ sockets) then 1%nat else O)).
    + fold (sessions_of u (private_tasks h)). fold sessions. case_decide; lia.
    + intros t [-> _]%list_elem_of_filter. rewrite copies_nodup by apply NoDup_elements. apply decide_ext, elem_of_elements.
  - intros s channel ws Hc sockets. rewrite deliver_all, !copies_app.
    rewrite (filter_none _ (private_tasks h)) by (intros t _ Ht; by apply (channel_public_private channel s t.2)).
    rewrite (list_filter_iff _ (fun c => c.2 = s) (clients h))
      by (intros c; split; [intros [Ht _]; by apply (public_channel_symbol channel)|intros ->; by split]).
    rewrite (list_filter_iff _ (fun x => x = s) (subscriber_tasks h))
      by (intros x; split; [intros Hx; by apply (public_channel_symbol channel)|by intros ->]).
    fold (sessions_of s (clients h)). rewrite copies_own by by destruct Hr.
    rewrite (copies_concat ws _ (if decide (ws ∈ sockets) then 1%nat else O)).
    + pose proof (ho_public _ _ Hr ws s) as Hpub. fold sockets in Hpub. destruct Hr as [_ -> _ _ _ _].
      change (copies ws (concat (_ <$> []))) with O. destruct (decide (ws ∈ sockets)) as [Hw|Hw].
      * rewrite decide_True by by apply Hpub. lia.
      * case_decide; lia.
    + intros x [-> _]%list_elem_of_filter. rewrite copies_nodup by apply NoDup_elements. apply decide_ext, elem_of_elements.
  - intros sent u channel ws Hc Hw. by apply (proj1 (Forall_forall _ _) (deliver_private_within sent u channel h Hc)).
  - intros sent s channel ws Hc Hw. by apply (proj1 (Forall_forall _ _) (deliver_public_within symbols sent s channel h Hr Hc)).
Qed.

(** ** Two private sessions of user 1 and one public session *)

Definition demo_hub : Hub :=
  open_public 30 "BTC/USD" (open_private 20 1 (open_private 10 1 (start_subscribers ["BTC/USD"] new_hub))).
Lemma demo_hub_reachable : rtc hub_step (start_subscribers ["BTC/USD"] new_hub) demo_hub.
Proof.
  eapply rtc_l; [apply (hub_open_private _ 10 1); cbn; set_solver|].
  eapply rtc_l; [apply (hub_open_private _ 20 1); cbn; set_solver|].
  eapply rtc_l; [apply (hub_open_public _ 30 "BTC/USD"); cbn; set_solver|]. apply rtc_refl.
Qed.

Lemma published_message_copies_witness :
  copies 10 (deliver (fun _ => true) (orders_channel 1) demo_hub).2 = 2%nat /\
  copies 30 (deliver (fun _ => true) (trades_channel "BTC/USD") demo_hub).2 = 2%nat.
Proof.
  destruct (published_message_copies ["BTC/USD"] demo_hub demo_hub_reachable) as (H1 & H2 & _ & _). split.
  - destruct (H1 1 (orders_channel 1) 10) as [E _]; [left|]. rewrite E. vm_compute. reflexivity.
  - rewrite (H2 "BTC/USD"); [vm_compute; reflexivity|right; left].
Defined.
