(* ===== verification/Login.v ===== *)
(** * Passwords and sessions: app/api/v1/auth.py, app/api/admin/auth.py,
      app/core/security.py

    Registration, the login that hands out an API secret, and the admin's JWT.
    bcrypt and PyJWT are interfaces with their documented laws. *)

From Stdlib Require Import ZArith Lia Bool Ascii SpecFloat DecimalString.
From stdpp Require Import base tactics option list strings countable gmap sets.
From S2P Require Import Prelude Float64 PyDecimal Models RedisIface OrderBook RateLimit Sha256 Auth.
#[local] Open Scope Z_scope.

(** ** The libraries *)

(** [checkpw] is [None] where it raises. *)
Class Bcrypt := {
  hashpw : list Z -> string -> string;
  checkpw : list Z -> string -> option bool
}.
Class BcryptSpec (B : Bcrypt) := {
  checkpw_hashpw p salt : checkpw p (hashpw p salt) = Some true
}.

Record Claims := MkClaims { sub : string; claim_is_admin : bool; iat : Z; exp : Z }.
(** [jwt_decode now]: [None] where it raises PyJWTError. *)
Class Jwt := {
  jwt_encode : Claims -> string;
  jwt_decode : Z -> string -> option Claims
}.
(** A token of its own is read back exactly while it is neither premature nor
    expired; it holds no white space. *)
Class JwtSpec (J : Jwt) := {
  jwt_decode_encode now c :
    jwt_decode now (jwt_encode c) = if (iat c <=? now) && (now <? exp c) then Some c else None;
  jwt_encode_dense c : Forall (fun ch => is_space ch = false) (String.list_ascii_of_string (jwt_encode c))
}.

Definition hash_password {B : Bcrypt} (password salt : string) : string := hashpw (take 72 (encode password)) salt.
Definition verify_password {B : Bcrypt} (password password_hash : string) : bool :=
  default false (checkpw (take 72 (encode password)) password_hash).

Definition jwt_expires_minutes : Z := 1440.
Definition create_jwt_token {J : Jwt} (now user_id : Z) (is_admin : bool) : string :=
  jwt_encode (MkClaims (str_of_Z user_id) is_admin now (now + 60 * jwt_expires_minutes)).
Definition decode_jwt_token {J : Jwt} (now : Z) (token : string) : option Claims := jwt_decode now token.

Section Login.
Context {R : Redis} {B : Bcrypt} {J : Jwt}.
Abbreviation gprog := (prog Gateway exn).

(** ** Trading users *)

Definition register_user (login password salt : string) : gprog User :=
  existing ← get_by_email login;
  match existing with
  | Some _ => raise (AppError 409 "login_exists")
  | None => insert_user login (hash_password password salt) false
  end.

(** The keys of a user that are not revoked. *)
Definition live_keys (user_id : Z) (a : Accounts) : list ApiKey :=
  snd <$> map_to_list (filter (fun kv => ak_user_id kv.2 = user_id /\ ak_is_revoked kv.2 = false) (api_keys a)).
Definition with_secret (raw_secret : string) (k : ApiKey) : ApiKey :=
  MkApiKey (ak_id k) (ak_user_id k) (ak_api_key k) (hash_api_secret raw_secret) (ak_permissions k)
    (ak_rate_limit_per_min k) (ak_is_revoked k) (ak_last_used_at k).

Record LoginResponse := MkLogin { lr_user : User; lr_api_key : string; lr_api_secret : string; lr_permissions : list string }.

(** [scalar_one_or_none] raises when there are several rows.  [raw_key] and
    [raw_secret] are the random tokens. *)
Definition login (name password raw_key raw_secret : string) : gprog LoginResponse :=
  user ← get_by_email name;
  match user with
  | None => raise (AuthenticationError "Invalid login or password")
  | Some u =>
      if negb (u_is_active u) then raise (AuthenticationError "Invalid login or password")
      else if negb (verify_password password (u_password_hash u))
      then raise (AuthenticationError "Invalid login or password")
      else
        keys ← gets (fun g => live_keys (u_id u) (accounts g));
        match keys with
        | [] =>
            created ← create_api_key (u_id u) ["trade"; "read"; "ws"] 120 raw_key raw_secret;
            mret (MkLogin u (ak_api_key (fst created)) raw_secret (ak_permissions (fst created)))
        | [k] =>
            _ ← g_update (update_key (ak_id k) (with_secret raw_secret));
            mret (MkLogin u (ak_api_key k) raw_secret
                    (match ak_permissions k with [] => ["trade"; "read"; "ws"] | ps => ps end))
        | _ => raise (RuntimeError "MultipleResultsFound")
        end
  end.

Definition get_me (user_id : Z) : gprog User :=
  user ← gets (fun g => users (accounts g) !! user_id);
  g_require (AuthenticationError "User not found") user.

(** ** Admins *)

Definition admin_login (name password : string) : gprog (User * string) :=
  user ← get_by_email name;
  match user with
  | None => raise (AuthenticationError "Invalid login or password")
  | Some u =>
      if negb (u_is_active u) then raise (AuthenticationError "Invalid login or password")
      else if negb (verify_password password (u_password_hash u))
      then raise (AuthenticationError "Invalid login or password")
      else if negb (u_is_admin u) then raise (AuthenticationError "Access denied: admin privileges required")
      else
        now ← int_time;
        mret (u, create_jwt_token now (u_id u) true)
  end.

(** AdminUser: the dependency of every admin route. *)
Definition admin_user (authorization : option string) : gprog User :=
  now ← int_time;
  authenticate_admin (fun token => (fun c => (sub c, claim_is_admin c)) <$> decode_jwt_token now token) authorization.
End Login.

(** ** Well-formed accounts *)

(** Rows are stored under their keys; emails, public keys and key ids are
    unique; keys belong to users. *)
Record accounts_ok (a : Accounts) : Prop := {
  ac_users i u : users a !! i = Some u -> u_id u = i /\ i < next_user_id a;
  ac_emails i j u v : users a !! i = Some u -> users a !! j = Some v -> u_email u = u_email v -> i = j;
  ac_keys s k : api_keys a !! s = Some k -> ak_api_key k = s /\ is_Some (users a !! ak_user_id k) /\ ak_id k < next_api_key_id a;
  ac_ids s t k l : api_keys a !! s = Some k -> api_keys a !! t = Some l -> ak_id k = ak_id l -> s = t
}.

Section LoginSpec.
Context {R : Redis} {RS : RedisSpec R} {B : Bcrypt} {J : Jwt}.

Lemma get_by_email_spec e g : accounts_ok (accounts g) ->
  exists r, get_by_email e g = (g, inr r) /\
    match r with
    | Some u => users (accounts g) !! u_id u = Some u /\ u_email u = e
    | None => forall i u, users (accounts g) !! i = Some u -> u_email u <> e
    end.
Proof.
  intros Hok. eexists. split; [reflexivity|].
  destruct (map_to_list (filter _ _)) as [|[i u] l] eqn:E; cbn [head fmap option_fmap option_map].
  - intros i u Hu He. apply map_to_list_empty_iff in E.
    eapply (map_filter_empty_not_lookup (M := gmap Z)); [exact E|exact He|exact Hu].
  - assert (Hin : (i, u) ∈ map_to_list (filter (fun kv => u_email kv.2 = e) (users (accounts g)))) by (rewrite E; left).
    apply elem_of_map_to_list, map_lookup_filter_Some in Hin as [Hu He].
    cbn in He. cbn [snd]. by destruct (ac_users _ Hok i u Hu) as [-> _].
Qed.
Lemma same_email a u v : accounts_ok a -> users a !! u_id u = Some u -> users a !! u_id v = Some v ->
  u_email u = u_email v -> u = v.
Proof. intros Hok Hu Hv He. pose proof (ac_emails _ Hok _ _ _ _ Hu Hv He) as E. rewrite E in Hu. congruence. Qed.
Lemma get_by_email_found g i u : accounts_ok (accounts g) -> users (accounts g) !! i = Some u ->
  get_by_email (u_email u) g = (g, inr (Some u)).
Proof.
  intros Hok Hu. destruct (get_by_email_spec (u_email u) g Hok) as (r & E & Hr). rewrite E. destruct r as [v|].
  - destruct Hr as [Hv He]. rewrite (ac_emails _ Hok _ _ _ _ Hv Hu He) in Hv. by simplify_eq.
  - by destruct (Hr i u Hu).
Qed.
Lemma elem_of_live_keys uid a k : accounts_ok a ->
  k ∈ live_keys uid a <-> api_keys a !! ak_api_key k = Some k /\ ak_user_id k = uid /\ ak_is_revoked k = false.
Proof.
  intros Hok. unfold live_keys. rewrite list_elem_of_fmap. split.
  - intros ([s k'] & -> & Hin). apply elem_of_map_to_list, map_lookup_filter_Some in Hin as [Hk [H1 H2]].
    cbn in *. destruct (ac_keys _ Hok s k' Hk) as [-> _]. done.
  - intros (Hk & H1 & H2). exists (ak_api_key k, k). split; [done|].
    apply elem_of_map_to_list, map_lookup_filter_Some. by split.
Qed.

(** *** The operations keep the accounts well formed *)

Lemma insert_user_spec e h adm g : accounts_ok (accounts g) ->
  (forall i u, users (accounts g) !! i = Some u -> u_email u <> e) ->
  exists g' u, insert_user e h adm g = (g', inr u) /\ u = MkUser (next_user_id (accounts g)) e h true adm /\
    accounts g' = MkAccounts (<[u_id u := u]> (users (accounts g))) (next_user_id (accounts g) + 1)
                    (api_keys (accounts g)) (next_api_key_id (accounts g)) /\
    g_redis g' = g_redis g /\ clock g' = clock g /\ accounts_ok (accounts g').
Proof.
  intros Hok Hfree. unfold insert_user, g_update. run_prog. eexists _, _. split; [reflexivity|]. split; [reflexivity|]. cbn [accounts g_redis clock u_id].
  split_and!; [done..|]. destruct Hok as [Hu He Hk Hi]. set (n := next_user_id (accounts g)) in *.
  split; cbn [users next_user_id api_keys next_api_key_id].
  - intros i u [[<- <-]|[Hne Hl]]%lookup_insert_Some; cbn [u_id]; [lia|]. destruct (Hu i u Hl). lia.
  - intros i j u v [[<- <-]|[Hne Hl]]%lookup_insert_Some [[<- <-]|[Hne' Hl']]%lookup_insert_Some Heq; [done| | |].
    + by destruct (Hfree j v Hl').
    + by destruct (Hfree i u Hl).
    + by eapply He.
  - intros s k Hl. destruct (Hk s k Hl) as (H1 & H2 & H3). split_and!; [done| |done].
    destruct (decide (ak_user_id k = n)) as [->|]; [rewrite lookup_insert_eq; by eexists|by rewrite lookup_insert_ne].
  - done.
Qed.

Lemma update_key_ok id f a : accounts_ok a ->
  (forall k, ak_api_key (f k) = ak_api_key k /\ ak_id (f k) = ak_id k /\ ak_user_id (f k) = ak_user_id k) ->
  accounts_ok (update_key id f a).
Proof.
  intros [Hu He Hk Hi] Hf.
  assert (Hf' : forall k k', (if ak_id k =? id then f k else k) = k' ->
    ak_api_key k' = ak_api_key k /\ ak_id k' = ak_id k /\ ak_user_id k' = ak_user_id k).
  { intros k k' <-. by destruct (ak_id k =? id). }
  split; cbn [update_key users next_user_id api_keys next_api_key_id]; [done..| |].
  - intros s k' (k & E & Hl)%lookup_fmap_Some. destruct (Hf' k k' E) as (-> & -> & ->). by apply Hk.
  - intros s t k' l' (k & E & Hl)%lookup_fmap_Some (l & E' & Hl')%lookup_fmap_Some.
    destruct (Hf' k k' E) as (_ & -> & _), (Hf' l l' E') as (_ & -> & _). by eapply Hi.
Qed.

Lemma insert_key_ok a k : accounts_ok a -> api_keys a !! ak_api_key k = None -> is_Some (users a !! ak_user_id k) ->
  ak_id k = next_api_key_id a ->
  accounts_ok (MkAccounts (users a) (next_user_id a) (<[ak_api_key k := k]> (api_keys a)) (next_api_key_id a + 1)).
Proof.
  intros [Hu He Hk Hi] Hfree Huser Hid. split; cbn [users next_user_id api_keys next_api_key_id]; [done..| |].
  - intros s l [[<- <-]|[Hne Hl]]%lookup_insert_Some; [split_and!; [done..|lia]|]. destruct (Hk s l Hl) as (? & ? & ?).
    split_and!; [done..|lia].
  - intros s t l m [[<- <-]|[Hne Hl]]%lookup_insert_Some [[<- <-]|[Hne' Hl']]%lookup_insert_Some Heq; [done| | |].
    + destruct (Hk t m Hl'). lia.
    + destruct (Hk s l Hl). lia.
    + by eapply Hi.
Qed.

(** The user who may log in. *)
Definition may_log_in (name password : string) (a : Accounts) (u : User) : Prop :=
  users a !! u_id u = Some u /\ u_email u = name /\ u_is_active u = true /\
  verify_password password (u_password_hash u) = true.

Lemma login_live name password rk rs g u : accounts_ok (accounts g) -> may_log_in name password (accounts g) u ->
  login name password rk rs g =
    match live_keys (u_id u) (accounts g) with
    | [] => (created ← create_api_key (u_id u) ["trade"; "read"; "ws"] 120 rk rs;
             mret (MkLogin u (ak_api_key (fst created)) rs (ak_permissions (fst created)))) g
    | [k] => (MkGateway (update_key (ak_id k) (with_secret rs) (accounts g)) (g_redis g) (clock g),
              inr (MkLogin u (ak_api_key k) rs
                     (match ak_permissions k with [] => ["trade"; "read"; "ws"] | ps => ps end)))
    | _ => (g, inl (RuntimeError "MultipleResultsFound"))
    end.
Proof.
  intros Hok (Hu & <- & Ha & Hv). unfold login. rewrite (bind_inr _ _ g g _ (get_by_email_found _ _ _ Hok Hu)).
  rewrite Ha, Hv. cbn [negb]. run_prog. by destruct (live_keys _ _) as [|k [|]].
Qed.
Lemma login_cases name password rk rs g : accounts_ok (accounts g) ->
  (exists u, may_log_in name password (accounts g) u) \/
  ((forall u, ~ may_log_in name password (accounts g) u) /\
   login name password rk rs g = (g, inl (AuthenticationError "Invalid login or password"))).
Proof.
  intros Hok. destruct (get_by_email_spec name g Hok) as (o & E & Ho). unfold login.
  rewrite (bind_inr _ _ g g _ E). destruct o as [u|].
  - destruct Ho as [Hu He]. destruct (u_is_active u) eqn:Ea; cbn [negb].
    2:{ right. split; [|done]. intros v (Hv & He' & Ha & _).
        rewrite (same_email _ u v Hok Hu Hv) in Ea by congruence. congruence. }
    destruct (verify_password password (u_password_hash u)) eqn:Ep; cbn [negb].
    + left. by exists u.
    + right. split; [|done]. intros v (Hv & He' & _ & Hp).
      rewrite (same_email _ u v Hok Hu Hv) in Ep by congruence. congruence.
  - right. split; [|done]. intros u (Hu & He & _). by apply (Ho (u_id u) u).
Qed.

(** What a successful login leaves: the key it names is the user's only live
    key, its secret is the one handed out, and no other key changed. *)
Record logged_in (name password : string) (a a' : Accounts) (lr : LoginResponse) (k : ApiKey) : Prop := {
  li_user : may_log_in name password a (lr_user lr);
  li_users : users a' = users a;
  li_key : api_keys a' !! lr_api_key lr = Some k;
  li_owner : ak_user_id k = u_id (lr_user lr);
  li_live : ak_is_revoked k = false;
  li_secret : ak_secret_hash k = hash_api_secret (lr_api_secret lr);
  li_only l : l ∈ live_keys (u_id (lr_user lr)) a' -> l = k;
  li_others s : s <> lr_api_key lr -> api_keys a' !! s = api_keys a !! s;
  li_ok : accounts_ok a'
}.

Lemma login_first name password rk rs g u : accounts_ok (accounts g) -> may_log_in name password (accounts g) u ->
  api_keys (accounts g) !! rk = None -> live_keys (u_id u) (accounts g) = [] ->
  exists g' lr k, login name password rk rs g = (g', inr lr) /\ lr_user lr = u /\ lr_api_key lr = rk /\
    ak_rate_limit_per_min k = 120 /\
    logged_in name password (accounts g) (accounts g') lr k /\ g_redis g' = g_redis g /\ clock g' = clock g.
Proof.
  intros Hok Hm Hfree Hnone. rewrite (login_live _ _ _ _ _ u Hok Hm), Hnone. destruct Hm as (Hu & Hrest).
  unfold create_api_key, g_update. run_prog. rewrite Hu, Hfree. cbn [ak_api_key ak_permissions fst].
  set (k := MkApiKey _ _ _ _ _ _ _ _). eexists _, _, k. split; [reflexivity|]. cbn [lr_user lr_api_key accounts g_redis clock].
  split_and!; [done..| |done|done].
  assert (Hok' : accounts_ok (MkAccounts (users (accounts g)) (next_user_id (accounts g))
    (<[rk := k]> (api_keys (accounts g))) (next_api_key_id (accounts g) + 1))).
  { apply (insert_key_ok (accounts g) k Hok Hfree); [by exists u|done]. }
  split; cbn [lr_user lr_api_key lr_api_secret users api_keys]; try done.
  - apply lookup_insert_eq.
  - intros l Hl. apply (elem_of_live_keys _ _ _ Hok') in Hl as (Hl & H1 & H2). cbn [api_keys] in Hl.
    apply lookup_insert_Some in Hl as [[_ <-]|[_ Hl]]; [done|].
    enough (l ∈ live_keys (u_id u) (accounts g)) by (rewrite Hnone in *; set_solver).
    by apply elem_of_live_keys.
  - intros s Hs. by apply lookup_insert_ne.
Qed.

Lemma login_again name password rk rs g u k0 : accounts_ok (accounts g) -> may_log_in name password (accounts g) u ->
  live_keys (u_id u) (accounts g) = [k0] ->
  exists g' lr k, login name password rk rs g = (g', inr lr) /\ lr_user lr = u /\ lr_api_key lr = ak_api_key k0 /\
    logged_in name password (accounts g) (accounts g') lr k /\ g_redis g' = g_redis g /\ clock g' = clock g.
Proof.
  intros Hok Hm Hone. rewrite (login_live _ _ _ _ _ u Hok Hm), Hone.
  eexists _, _, (with_secret rs k0). split; [reflexivity|]. cbn [lr_user lr_api_key accounts g_redis clock].
  split_and!; [done..| |done|done].
  assert (Hk0 : k0 ∈ live_keys (u_id u) (accounts g)) by (rewrite Hone; left).
  apply (elem_of_live_keys _ _ _ Hok) in Hk0 as (Hk & Hu & Hl).
  assert (Hok' : accounts_ok (update_key (ak_id k0) (with_secret rs) (accounts g))) by by apply update_key_ok.
  split; cbn [lr_user lr_api_key lr_api_secret]; try done.
  - cbn [update_key api_keys]. rewrite lookup_fmap, Hk. cbn. by rewrite Z.eqb_refl.
  - intros l Hin. apply (elem_of_live_keys _ _ _ Hok') in Hin as (Hlk & H1 & H2). cbn [update_key api_keys] in Hlk.
    apply lookup_fmap_Some in Hlk as (l0 & E & Hl0). destruct (Z.eqb_spec (ak_id l0) (ak_id k0)) as [Hid|Hid]; subst l.
    + cbn [with_secret ak_api_key] in Hl0. f_equal. pose proof (ac_ids _ Hok _ _ _ _ Hl0 Hk Hid) as Hs.
      rewrite Hs, Hk in Hl0. by injection Hl0.
    + exfalso. enough (l0 ∈ live_keys (u_id u) (accounts g)).
      { rewrite Hone in *. apply Hid. by apply list_elem_of_singleton in H as ->. }
      by apply elem_of_live_keys.
  - intros s Hs. cbn [update_key api_keys]. rewrite lookup_fmap. destruct (api_keys (accounts g) !! s) as [l|] eqn:E; [|done].
    cbn. destruct (Z.eqb_spec (ak_id l) (ak_id k0)) as [Hid|]; [|done]. destruct Hs. by eapply (ac_ids _ Hok).
Qed.

(** C22: a login hands out the one secret that works.  It succeeds exactly for an
    active user with that password who has at most one live key; then the
    returned key is the user's only live key, stored with the hash of the
    returned secret, so that a secret handed out before is void, and no other
    key changes.  In every other case it raises and changes nothing; in
    particular a user with two live keys can never log in. *)
Theorem login_correct name password rk rs g :
  accounts_ok (accounts g) -> api_keys (accounts g) !! rk = None ->
  let r := login name password rk rs g in
  (forall lr, r.2 = inr lr -> exists k, logged_in name password (accounts g) (accounts r.1) lr k) /\
  (forall e, r.2 = inl e -> r.1 = g) /\
  (forall u, may_log_in name password (accounts g) u ->
     (exists lr, r.2 = inr lr) <-> (length (live_keys (u_id u) (accounts g)) <= 1)%nat) /\
  ((forall u, ~ may_log_in name password (accounts g) u) ->
     r.2 = inl (AuthenticationError "Invalid login or password")).
Proof.
  intros Hok Hfree r. unfold r.
  destruct (login_cases name password rk rs g Hok) as [[u Hm]|[Hno E]].
  2:{ rewrite E. split_and!; [done..| |done]. intros u Hu. by destruct (Hno u). }
  assert (Hu : forall v, may_log_in name password (accounts g) v -> v = u).
  { intros v (Hv & He & _). destruct Hm as (Hu & He' & _). apply (same_email _ v u Hok Hv Hu). congruence. }
  destruct (live_keys (u_id u) (accounts g)) as [|k0 [|k1 ks]] eqn:Elive.
  - destruct (login_first name password rk rs g u Hok Hm Hfree Elive) as (g' & lr & k & E & _ & _ & _ & Hl & _). rewrite E.
    split_and!; [intros lr' [= <-]; by exists k|done| |intros Hn; by destruct (Hn u)].
    intros v ->%Hu. rewrite Elive. cbn. split; [lia|by eexists].
  - destruct (login_again name password rk rs g u k0 Hok Hm Elive) as (g' & lr & k & E & _ & _ & Hl & _). rewrite E.
    split_and!; [intros lr' [= <-]; by exists k|done| |intros Hn; by destruct (Hn u)].
    intros v ->%Hu. rewrite Elive. cbn. split; [lia|by eexists].
  - rewrite (login_live _ _ _ _ _ u Hok Hm), Elive. split_and!; [done|by intros e [= <-]| |intros Hn; by destruct (Hn u)].
    intros v ->%Hu. rewrite Elive. cbn. split; [by intros [? ?]|lia].
Qed.

(** *** An admin's session *)

Lemma substring_whole t : String.substring 0 (String.length t) t = t.
Proof. induction t as [|c t IH]; cbn; [done|]. by rewrite IH. Qed.
Lemma prefix_append s t : String.prefix s (s +:+ t) = true.
Proof.
  induction s as [|c s IH]; [by destruct t|]. change (String c s +:+ t) with (String c (s +:+ t)). cbn [String.prefix].
  by destruct (ascii_dec c c).
Qed.
Lemma bearer_token {JS : JwtSpec J} c :
  strip (String.substring 7 (String.length ("Bearer " +:+ jwt_encode c) - 7) ("Bearer " +:+ jwt_encode c)) = jwt_encode c.
Proof.
  set (t := jwt_encode c). assert (E : (String.length ("Bearer " +:+ t) - 7 = String.length t)%nat) by (change (String.length ("Bearer " +:+ t)) with (7 + String.length t)%nat; lia).
  rewrite E. change (String.substring 7 (String.length t) ("Bearer " +:+ t)) with (String.substring 0 (String.length t) t).
  rewrite substring_whole. unfold strip. rewrite strip_list_id by apply jwt_encode_dense.
  apply String.string_of_list_ascii_of_string.
Qed.

Lemma admin_login_cases name password g u token now : accounts_ok (accounts g) -> f_trunc (clock g) = Some now ->
  admin_login name password g = (g, inr (u, token)) <->
  may_log_in name password (accounts g) u /\ u_is_admin u = true /\ token = create_jwt_token now (u_id u) true.
Proof.
  intros Hok Hnow. unfold admin_login, int_time, g_require. split.
  - destruct (get_by_email_spec name g Hok) as (o & E & Ho). rewrite (bind_inr _ _ g g _ E). destruct o as [v|]; [|done].
    destruct Ho as [Hv He]. destruct (u_is_active v) eqn:Ea; [|done].
    destruct (verify_password password (u_password_hash v)) eqn:Ep; [|done]. destruct (u_is_admin v) eqn:Ead; [|done].
    cbn [negb]. run_prog. rewrite Hnow. run_prog. by intros [= <- <-].
  - intros ((Hu & <- & Ha & Hv) & Had & ->). rewrite (bind_inr _ _ g g _ (get_by_email_found _ _ _ Hok Hu)).
    rewrite Ha, Hv, Had. cbn [negb]. run_prog. by rewrite Hnow.
Qed.

(** an admin's session.  Only an active admin with the password gets a
    token, and the login writes nothing.  The token opens the admin routes as
    that user at any moment of the next 24 hours, whatever else has happened to
    the accounts, for as long as the user is active; afterwards, or once the
    user is deactivated, it is refused and nothing changes. *)
Theorem admin_session {JS : JwtSpec J} name password g g1 u token now :
  accounts_ok (accounts g) -> f_trunc (clock g) = Some now ->
  admin_login name password g = (g1, inr (u, token)) ->
  g1 = g /\ may_log_in name password (accounts g) u /\ u_is_admin u = true /\
  (forall g2 now2 u2, f_trunc (clock g2) = Some now2 -> users (accounts g2) !! u_id u = Some u2 ->
     (now <= now2 < now + 86400 /\ u_is_active u2 = true ->
        admin_user (Some ("Bearer " +:+ token)) g2 = (g2, inr u2)) /\
     (~ (now <= now2 < now + 86400 /\ u_is_active u2 = true) ->
        exists e, admin_user (Some ("Bearer " +:+ token)) g2 = (g2, inl (AuthenticationError e)))).
Proof.
  intros Hok Hnow E.
  assert (g1 = g) as ->.
  { unfold admin_login, int_time, g_require in E. destruct (get_by_email_spec name g Hok) as (o & E' & _).
    rewrite (bind_inr _ _ g g _ E') in E. destruct o as [v|]; [|by injection E].
    destruct (u_is_active v), (verify_password password (u_password_hash v)), (u_is_admin v); cbn [negb] in E;
      run_prog in E; rewrite ?Hnow in E; by injection E. }
  apply (admin_login_cases _ _ _ _ _ now Hok Hnow) in E as (Hm & Had & ->). split_and!; [done..|].
  intros g2 now2 u2 Hnow2 Hu2. unfold admin_user, int_time, authenticate_admin, g_require. run_prog. rewrite Hnow2. run_prog.
  assert (Eh : header (Some ("Bearer " +:+ create_jwt_token now (u_id u) true)) =
               Some ("Bearer " +:+ create_jwt_token now (u_id u) true)) by done.
  rewrite Eh, prefix_append. cbn [negb].
  unfold create_jwt_token. rewrite bearer_token. unfold decode_jwt_token. rewrite jwt_decode_encode.
  cbn [iat exp]. change (60 * jwt_expires_minutes) with 86400.
  destruct (Z.leb_spec now now2), (Z.ltb_spec now2 (now + 86400)); cbn [andb fmap option_fmap option_map];
    try (split; [intros [? ?]; lia|intros _; by eexists]).
  cbn [sub claim_is_admin]. rewrite int_of_str_of_Z. run_prog. cbn [negb]. run_prog. rewrite Hu2.
  destruct (u_is_active u2); (split; [intros [? ?]; done|intros Hn; try by eexists]). by destruct Hn.
Qed.
End LoginSpec.

(** ** Concrete instances *)

(** A hash that keeps the password with its salt, and tokens that spell their
    claims. *)
#[export] Instance DemoBcrypt : Bcrypt := {|
  hashpw p salt := salt +:+ "$" +:+ hexdigest p;
  checkpw p h := Some (String.eqb h (String.substring 0 4 h +:+ "$" +:+ hexdigest p))
|}.
Definition demo_hash : string := hash_password "hunter2" "salt".
Definition demo_accounts : Accounts :=
  MkAccounts {[ 1 := MkUser 1 "bot@example.com" demo_hash true false ]} 2 ∅ 1.
Lemma demo_accounts_ok : accounts_ok demo_accounts.
Proof.
  split; cbn.
  - intros i u [<- <-]%lookup_singleton_Some. done.
  - by intros i j u v [<- <-]%lookup_singleton_Some [<- <-]%lookup_singleton_Some.
  - intros s k H. by rewrite lookup_empty in H.
  - intros s t k l H. by rewrite lookup_empty in H.
Qed.
Lemma login_correct_witness :
  let g := MkGateway (R := MemRedis) demo_accounts empty_keyspace (f_of_Z 1700000000) in
  exists lr, (login "bot@example.com" "hunter2" "k1" "s3cret" g).2 = inr lr.
Proof.
  intros g. destruct (login_correct (B := DemoBcrypt) "bot@example.com" "hunter2" "k1" "s3cret" g) as (_ & _ & H & _).
  - apply demo_accounts_ok.
  - reflexivity.
  - apply (H (MkUser 1 "bot@example.com" demo_hash true false)).
    + split; [reflexivity|split; [reflexivity|split; [reflexivity|vm_compute; reflexivity]]].
    + vm_compute. lia.
Defined.

#[export] Instance DemoJwt : Jwt := {|
  jwt_encode c := str_of_Z (Zpos (countable.encode (sub c, claim_is_admin c, iat c, exp c)));
  jwt_decode now s :=
    n ← int_of_str s;
    '(s, a, i, e) ← countable.decode (A := string * bool * Z * Z) (Z.to_pos n);
    if (i <=? now) && (now <? e) then Some (MkClaims s a i e) else None
|}.
#[export] Instance DemoJwtSpec : JwtSpec DemoJwt.
Proof.
  split.
  - intros now [s a i e]. unfold jwt_decode, jwt_encode, DemoJwt. rewrite int_of_str_of_Z.
    cbn [mbind option_bind sub claim_is_admin iat exp Z.to_pos]. by rewrite countable.decode_encode.
  - intros c. unfold jwt_encode, DemoJwt. generalize (countable.encode (sub c, claim_is_admin c, iat c, exp c)).
    intros p. unfold str_of_Z. cbn [Z.to_int NilZero.string_of_int]. unfold NilZero.string_of_uint.
    destruct (Pos.to_uint p) eqn:E; [by constructor|..]; rewrite <- E;
      (eapply Forall_impl; [apply digits_of_uint|intros ch Hch; by apply digit_facts]).
Qed.
Definition demo_admin : Gateway (R := MemRedis) :=
  MkGateway (MkAccounts {[ 1 := MkUser 1 "root@example.com" demo_hash true true ]} 2 ∅ 1) empty_keyspace (f_of_Z 1700000000).
Lemma admin_session_witness :
  exists u token, admin_login "root@example.com" "hunter2" demo_admin = (demo_admin, inr (u, token)) /\
    admin_user (Some ("Bearer " +:+ token)) demo_admin = (demo_admin, inr u).
Proof.
  set (u := MkUser 1 "root@example.com" demo_hash true true).
  assert (Hok : accounts_ok (accounts demo_admin)).
  { split; cbn.
    - intros i v [<- <-]%lookup_singleton_Some. done.
    - by intros i j v w [<- <-]%lookup_singleton_Some [<- <-]%lookup_singleton_Some.
    - intros s k Hk. by rewrite lookup_empty in Hk.
    - intros s t k l Hk. by rewrite lookup_empty in Hk. }
  assert (Hnow : f_trunc (clock demo_admin) = Some 1700000000) by (vm_compute; reflexivity).
  assert (E : admin_login "root@example.com" "hunter2" demo_admin =
                (demo_admin, inr (u, create_jwt_token 1700000000 1 true))).
  { apply (admin_login_cases _ _ _ _ _ 1700000000 Hok Hnow). split; [|split; reflexivity].
    split; [reflexivity|split; [reflexivity|split; [reflexivity|vm_compute; reflexivity]]]. }
  exists u, (create_jwt_token 1700000000 1 true). split; [exact E|].
  pose proof (admin_session (JS := DemoJwtSpec) _ _ demo_admin demo_admin u _ 1700000000 Hok Hnow E) as (_ & _ & _ & H).
  apply (H demo_admin 1700000000 u); [exact Hnow|reflexivity|]. split; [lia|reflexivity].
Defined.
