(* ===== verification/WsPrivate.v ===== *)
(** * The private WebSocket channel: app/ws/private.py

    A client is let in by the headers of the upgrade request or by its first
    message; only then is the connection registered with the manager under the
    key's user.  Time-outs and disconnections before that are an argument, the
    client's first move; what follows the registration is in Sessions.
    [PrivateGateway] runs handshakes, broadcasts and disconnections of many
    sockets and records each handshake with the accounts and the clock it was
    judged by.  The permission of the key is not looked at. *)

From Stdlib Require Import ZArith Lia Bool Ascii SpecFloat.
From stdpp Require Import base tactics option list strings gmap sets relations.
From S2P Require Import Prelude Float64 PyDecimal Models RedisIface Queues Sha256 Auth WsManager.
#[local] Open Scope Z_scope.

(** ** Authentication *)

(** The key's row and its signature of the handshake; [None]: the signature of
    a message is not a text. *)
Definition check_handshake (acc : Accounts) (now : Z) (api_key : string) (ts : Z) (signature : option string) : exn + Z :=
  match api_keys acc !! api_key with
  | None => inl MissingApiKeyError
  | Some k =>
      if ak_is_revoked k then inl MissingApiKeyError
      else
        let verified :=
          match signature with
          | Some sg => verify_ws_signature now (ak_secret_hash k) api_key ts sg hmac_replay_window_seconds
          | None => if Z.abs (now - ts) >? hmac_replay_window_seconds then inr false
                    else inl (TypeError "unsupported operand types")
          end in
        match verified with
        | inl e => inl e
        | inr false => inl InvalidSignatureError
        | inr true => inr (ak_user_id k)
        end
  end.

Record WsHeaders := MkWsHeaders {
  wh_api_key : option string;
  wh_timestamp : option string;
  wh_signature : option string
}.

(** [None]: a header is missing. *)
Definition try_header_auth (acc : Accounts) (now : Z) (h : WsHeaders) : exn + option Z :=
  match header (wh_api_key h), header (wh_timestamp h), header (wh_signature h) with
  | Some api_key, Some timestamp, Some signature =>
      match int_of_str timestamp with
      | None => inl ExpiredTimestampError
      | Some ts => match check_handshake acc now api_key ts (Some signature) with
                   | inl e => inl e
                   | inr user_id => inr (Some user_id)
                   end
      end
  | _, _, _ => inr None
  end.

(** [msg.get(k)] when it is truthy. *)
Definition truthy_field (k : string) (msg : jval) : option jval :=
  v ← jfield k msg; if jtruthy v then Some v else None.

(** The first message; one that is not an object has no [get]. *)
Definition wait_for_auth_message (acc : Accounts) (now : Z) (msg : jval) : exn + Z :=
  match msg with
  | JObj _ =>
      if negb (bool_decide (jfield "action" msg ≫= jstr = Some "auth")) then inl (ValueError "Expected 'auth' message")
      else
        match truthy_field "api_key" msg, truthy_field "timestamp" msg, truthy_field "signature" msg with
        | Some api_key, Some timestamp, Some signature =>
            match jint timestamp with
            | None => inl ExpiredTimestampError
            | Some ts => match jstr api_key with
                         | Some key => check_handshake acc now key ts (jstr signature)
                         | None => inl DBError
                         end
            end
        | _, _, _ => inl (ValueError "Missing api_key/timestamp/signature in auth message")
        end
  | _ => inl (TypeError "not an object")
  end.

(** ** The channel up to registration *)

(** What the client does in the five seconds it has. *)
Inductive first_move := Silent | Gone | Says (msg : jval).
(** How the handler ends, or that it goes on to serve a user.  The close codes
    are 4001 after a time-out and 4003 after a failed authentication. *)
Inductive private_end :=
  | HandshakeError (e : exn)
  | AuthTimeout
  | ClientGone
  | AuthFailed (e : exn)
  | Serving (user_id : Z).
Definition close_code (r : private_end) : option Z :=
  match r with AuthTimeout => Some 4001 | AuthFailed _ => Some 4003 | _ => None end.

Definition handle_private_channel (acc : Accounts) (now : Z) (h : WsHeaders) (first : first_move) (ws : Z)
    (m : WebSocketManager) : WebSocketManager * private_end :=
  match try_header_auth acc now h with
  | inl e => (m, HandshakeError e)
  | inr (Some user_id) => (connect_private ws user_id m, Serving user_id)
  | inr None =>
      match first with
      | Silent => (m, AuthTimeout)
      | Gone => (m, ClientGone)
      | Says msg =>
          match wait_for_auth_message acc now msg with
          | inl e => (m, AuthFailed e)
          | inr user_id => (connect_private ws user_id m, Serving user_id)
          end
      end
  end.
(** The [finally] of the handler. *)
Definition end_private_channel (ws user_id : Z) (m : WebSocketManager) : WebSocketManager :=
  disconnect_private ws user_id m.

(** ** What lets a client in *)

(** The signature of a handshake by a live key of [user_id], within the window. *)
Definition handshake_authentic (acc : Accounts) (now : Z) (key : string) (ts : Z) (sg : string) (user_id : Z) : Prop :=
  exists k, api_keys acc !! key = Some k /\ ak_is_revoked k = false /\ ak_user_id k = user_id /\
    Z.abs (now - ts) <= hmac_replay_window_seconds /\ sg = compute_ws_signature (ak_secret_hash k) key ts.

Lemma verify_ws_signature_true now secret key ts sg w :
  verify_ws_signature now secret key ts sg w = inr true <->
  Z.abs (now - ts) <= w /\ sg = compute_ws_signature secret key ts.
Proof.
  unfold verify_ws_signature. destruct (Z.gtb_spec (Z.abs (now - ts)) w).
  - split; [done|]. intros [? _]. lia.
  - rewrite compare_digest_true by apply hexdigest_ascii, sha256_range.
    split; [intros ->; split; [lia|done]|by intros [_ ->]].
Qed.
Lemma check_handshake_iff acc now key ts sg uid :
  check_handshake acc now key ts (Some sg) = inr uid <-> handshake_authentic acc now key ts sg uid.
Proof.
  unfold check_handshake, handshake_authentic. split.
  - destruct (api_keys acc !! key) as [k|]; [|done]. destruct (ak_is_revoked k) eqn:Er; [done|].
    destruct (verify_ws_signature _ _ _ _ _ _) as [e|[|]] eqn:E; intros [= <-].
    apply verify_ws_signature_true in E as [? ?]. by exists k.
  - intros (k & -> & -> & <- & Hw). by rewrite (proj2 (verify_ws_signature_true _ _ _ _ _ _) Hw).
Qed.
Lemma check_handshake_none acc now key ts uid : check_handshake acc now key ts None <> inr uid.
Proof. unfold check_handshake. repeat case_match; congruence. Qed.

(** The credentials a client presents: its headers or, without them, its first
    message. *)
Definition presents (h : WsHeaders) (first : first_move) (key : string) (ts : Z) (sg : string) : Prop :=
  (header (wh_api_key h) = Some key /\ header (wh_signature h) = Some sg /\
   exists s, header (wh_timestamp h) = Some s /\ int_of_str s = Some ts) \/
  (header (wh_api_key h) = None \/ header (wh_timestamp h) = None \/ header (wh_signature h) = None) /\
  exists msg, first = Says msg /\ jfield "action" msg ≫= jstr = Some "auth" /\
    truthy_field "api_key" msg = Some (JStr key) /\ truthy_field "signature" msg = Some (JStr sg) /\
    (t ← truthy_field "timestamp" msg; jint t) = Some ts.

Lemma header_auth_iff acc now h :
  match try_header_auth acc now h with
  | inr None => header (wh_api_key h) = None \/ header (wh_timestamp h) = None \/ header (wh_signature h) = None
  | inr (Some uid) => exists key s ts sg, header (wh_api_key h) = Some key /\ header (wh_signature h) = Some sg /\
      header (wh_timestamp h) = Some s /\ int_of_str s = Some ts /\ handshake_authentic acc now key ts sg uid
  | inl e => is_Some (header (wh_api_key h)) /\ is_Some (header (wh_timestamp h)) /\ is_Some (header (wh_signature h))
  end.
Proof.
  unfold try_header_auth. destruct (header (wh_api_key h)) as [key|]; [|by left].
  destruct (header (wh_timestamp h)) as [s|]; [|by right; left].
  destruct (header (wh_signature h)) as [sg|]; [|by right; right].
  destruct (int_of_str s) as [ts|] eqn:Es; [|done].
  destruct (check_handshake acc now key ts (Some sg)) as [e|uid] eqn:E; [done|].
  apply check_handshake_iff in E. naive_solver.
Qed.
Lemma jstr_inv v s : jstr v = Some s -> v = JStr s.
Proof. destruct v; by intros [= ->]. Qed.
Lemma auth_message_iff acc now msg uid :
  wait_for_auth_message acc now msg = inr uid <->
  exists key ts sg, jfield "action" msg ≫= jstr = Some "auth" /\
    truthy_field "api_key" msg = Some (JStr key) /\ truthy_field "signature" msg = Some (JStr sg) /\
    (t ← truthy_field "timestamp" msg; jint t) = Some ts /\ handshake_authentic acc now key ts sg uid.
Proof.
  unfold wait_for_auth_message. split.
  - destruct msg; try done. case_bool_decide as Ha; cbn [negb]; [|done].
    destruct (truthy_field "api_key" _) as [ak|] eqn:E1; [|done].
    destruct (truthy_field "timestamp" _) as [tv|] eqn:E2; [|done].
    destruct (truthy_field "signature" _) as [sv|] eqn:E3; [|done].
    destruct (jint tv) as [ts|] eqn:E4; [|done]. destruct (jstr ak) as [key|] eqn:E5; [|done].
    apply jstr_inv in E5 as ->. destruct (jstr sv) as [sg|] eqn:E6; intros Hc; [|by apply check_handshake_none in Hc].
    apply jstr_inv in E6 as ->. exists key, ts, sg. rewrite check_handshake_iff in Hc. by split_and!.
  - intros (key & ts & sg & Ha & H1 & H2 & H3 & H4).
    destruct msg as [| | | | | |fs]; try done. rewrite bool_decide_eq_true_2 by done. cbn [negb]. rewrite H1, H2.
    destruct (truthy_field "timestamp" _) as [tv|]; [|done]. cbn in H3. rewrite H3. cbn [jstr].
    by apply check_handshake_iff.
Qed.

Lemma private_channel_cases acc now h first ws m :
  let r := handle_private_channel acc now h first ws m in
  (forall uid, r.2 = Serving uid <->
     exists key ts sg, presents h first key ts sg /\ handshake_authentic acc now key ts sg uid) /\
  (forall uid, r.2 = Serving uid -> r.1 = connect_private ws uid m) /\
  ((forall uid, r.2 <> Serving uid) -> r.1 = m).
Proof.
  intros r. unfold r, handle_private_channel, presents. pose proof (header_auth_iff acc now h) as Hh.
  destruct (try_header_auth acc now h) as [e|[uid|]] eqn:E.
  - split_and!; [|done..]. intros uid. split; [done|]. intros (key & ts & sg & [Hp|[Hp _]] & Hau); exfalso.
    + destruct Hp as (H1 & H2 & s & H3 & H4). unfold try_header_auth in E. rewrite H1, H2, H3, H4 in E.
      by rewrite (proj2 (check_handshake_iff _ _ _ _ _ _) Hau) in E.
    + destruct Hh as ([? ?] & [? ?] & [? ?]). naive_solver.
  - destruct Hh as (key & s & ts & sg & H1 & H2 & H3 & H4 & Hau). cbn [fst snd]. split_and!.
    + intros uid'. split; [intros [= <-]|].
      * exists key, ts, sg. split; [left; eauto|done].
      * intros (key' & ts' & sg' & [(H1' & H2' & s' & H3' & H4')|[Hp _]] & (k & Hk & _ & <- & _)); [|naive_solver].
        simplify_eq. destruct Hau as (k' & Hk' & _ & <- & _). by simplify_eq.
    + by intros uid' [= <-].
    + intros H. by destruct (H uid).
  - destruct first as [| |msg]; [split_and!; [|done..]; intros uid; split; [done|]..|].
    1,2: intros (key & ts & sg & [(H1 & H2 & s & H3 & _)|(_ & msg & [=] & _)] & _); naive_solver.
    pose proof (auth_message_iff acc now msg) as Hm.
    destruct (wait_for_auth_message acc now msg) as [e|uid] eqn:Ew; cbn [fst snd].
    + split_and!; [|done..]. intros uid. split; [done|].
      intros (key & ts & sg & [(H1 & H2 & s & H3 & _)|(_ & msg' & [= <-] & Hp)] & Hau); [naive_solver|].
      exfalso. enough (@inl exn Z e = inr uid) by done. apply Hm. exists key, ts, sg. naive_solver.
    + split_and!; [|by intros uid' [= <-]|intros H; by destruct (H uid)].
      intros uid'. split; [intros [= <-]|].
      * destruct (proj1 (Hm uid) eq_refl) as (key & ts & sg & Ha & H1 & H2 & H3 & Hau).
        exists key, ts, sg. split; [right; naive_solver|done].
      * intros (key & ts & sg & [(H1 & H2 & s & H3 & _)|(_ & msg' & [= <-] & Hp)] & Hau); [naive_solver|].
        f_equal. enough (@inr exn Z uid = inr uid') by congruence. apply Hm. exists key, ts, sg. naive_solver.
Qed.
Lemma private_channel_serves acc now h first ws m uid : (handle_private_channel acc now h first ws m).2 = Serving uid ->
  exists key ts sg, presents h first key ts sg /\ handshake_authentic acc now key ts sg uid.
Proof. apply private_channel_cases. Qed.

(** C23: a private channel serves exactly the authentic clients.  The handler goes
    on to serve a user, and registers the connection under that user, exactly
    when the credentials presented (the headers if all three are there,
    otherwise the first message) are a signature of the handshake within the
    replay window by a key of that user that is not revoked; in every other case
    the registries are left as they were. *)
Theorem private_channel_correct acc now h first ws m :
  let r := handle_private_channel acc now h first ws m in
  (forall uid, r.2 = Serving uid <->
     exists key ts sg, presents h first key ts sg /\ handshake_authentic acc now key ts sg uid) /\
  (forall uid, r.2 = Serving uid -> r.1 = connect_private ws uid m) /\
  ((forall uid, r.2 <> Serving uid) -> r.1 = m).
Proof. apply private_channel_cases. Qed.

(** ** With the fan-out *)

(** A handshake as it happened: the socket, what its client presented, and the
    accounts and the time it was checked against. *)
Record Handshake := MkHandshake {
  hs_ws : Z;
  hs_headers : WsHeaders;
  hs_first : first_move;
  hs_accounts : Accounts;
  hs_now : Z
}.
(** The accounts and the clock, the private registry with its broadcasts, and
    the handshakes so far, failed ones included. *)
Record PrivateGateway := MkPrivateGateway {
  pg_accounts : Accounts;
  pg_now : Z;
  pg_fanout : fanout (K := Z) (M := jval);
  pg_handshakes : list Handshake
}.
Definition with_fanout (f : fanout (K := Z) (M := jval)) (s : PrivateGateway) : PrivateGateway :=
  MkPrivateGateway (pg_accounts s) (pg_now s) f (pg_handshakes s).
(** The handler of a new socket, on the accounts and at the time of [s]. *)
Definition handshake (ws : Z) (h : WsHeaders) (first : first_move) (s : PrivateGateway) : PrivateGateway :=
  let f := pg_fanout s in
  let r := handle_private_channel (pg_accounts s) (pg_now s) h first ws (MkManager ∅ (reg f)) in
  MkPrivateGateway (pg_accounts s) (pg_now s)
    (MkFanout (private_connections r.1) (tasks f) (started f) (delivered f))
    (MkHandshake ws h first (pg_accounts s) (pg_now s) :: pg_handshakes s).

(** What happens between two awaits: accounts are created, keys revoked, time
    passes; a socket goes through its handshake; and what the fan-out does with
    the sockets that are registered, no new one. *)
Inductive private_step : PrivateGateway -> PrivateGateway -> Prop :=
  | private_world s acc now : private_step s (MkPrivateGateway acc now (pg_fanout s) (pg_handshakes s))
  | private_handshake s ws h first : private_step s (handshake ws h first s)
  | private_fanout s f : step (fun _ _ => False) (pg_fanout s) f -> private_step s (with_fanout f s).
Definition opened (s : PrivateGateway) : Prop := pg_fanout s = idle /\ pg_handshakes s = [].

(** A socket that was let in under a user by one of the handshakes of [l]. *)
Definition let_in (l : list Handshake) (user_id : Z) (ws : Z) : Prop :=
  exists hs, hs ∈ l /\ hs_ws hs = ws /\ exists key ts sg, presents (hs_headers hs) (hs_first hs) key ts sg /\
    handshake_authentic (hs_accounts hs) (hs_now hs) key ts sg user_id.

Lemma step_mono (P Q : Z -> Z -> Prop) (s s' : fanout (K := Z) (M := jval)) : (forall k c, P k c -> Q k c) -> step P s s' -> step Q s s'.
Proof. intros HPQ []; constructor; auto. Qed.
Lemma reachable_mono (P Q : Z -> Z -> Prop) (s : fanout (K := Z) (M := jval)) : (forall k c, P k c -> Q k c) -> reachable P s -> reachable Q s.
Proof.
  intros HPQ. unfold reachable. induction 1 as [|s1 s2 s3 H12 _ IH]; [apply rtc_refl|].
  eapply rtc_l; [by eapply step_mono|exact IH].
Qed.

(** The fan-out of a run is one whose sockets its handshakes let in. *)
Lemma private_run_reachable s s' : rtc private_step s s' -> opened s -> reachable (let_in (pg_handshakes s')) (pg_fanout s').
Proof.
  intros Hr [Hf Hh]. revert Hr.
  apply (rtc_ind_r (fun s' => reachable (let_in (pg_handshakes s')) (pg_fanout s')) s); [rewrite Hf; apply rtc_refl|].
  intros s1 s2 _ Hs IH. destruct Hs as [s1 acc now|s1 ws h first|s1 f Hstep]; [exact IH| |].
  - cbn [handshake pg_handshakes pg_fanout]. set (hs := MkHandshake _ _ _ _ _).
    assert (IH' : reachable (let_in (hs :: pg_handshakes s1)) (pg_fanout s1)).
    { eapply reachable_mono; [|exact IH]. intros k c (x & Hx & Hrest). exists x. split; [by right|done]. }
    destruct (private_channel_cases (pg_accounts s1) (pg_now s1) h first ws (MkManager ∅ (reg (pg_fanout s1)))) as (Hserve & Hreg & Hnot).
    set (r := handle_private_channel _ _ _ _ _ _) in *.
    assert (Hc : (exists uid, r.2 = Serving uid) \/ forall uid, r.2 <> Serving uid).
    { destruct r.2 as [e| | |e|uid]; try (by right); left; by exists uid. }
    destruct Hc as [[uid Huid]|Hno].
    + rewrite (Hreg uid Huid). eapply rtc_r; [exact IH'|]. apply step_connect.
      exists hs. split; [left|]. split; [done|]. by apply Hserve.
    + rewrite (Hnot Hno). by destruct (pg_fanout s1).
  - eapply rtc_r; [exact IH|]. eapply step_mono; [|exact Hstep]. done.
Qed.

(** C24: private events stay private.  Along every run of the private gateway
    (accounts and keys come and go, the clock moves, sockets go through their
    handshakes, successful or not, connect and disconnect, broadcasts are
    interleaved with all of it), a message that was delivered to a socket under
    a user was broadcast for that user, and that very socket went through a
    handshake in this run in which it presented, against the accounts and at
    the time of that moment, the signature of a key of that user that was not
    revoked. *)
Theorem private_events_confidential s s' uid ws msg : opened s -> rtc private_step s s' ->
  (uid, ws, msg) ∈ delivered (pg_fanout s') ->
  (uid, msg) ∈ started (pg_fanout s') /\
  exists hs, hs ∈ pg_handshakes s' /\ hs_ws hs = ws /\
    exists key ts sg, presents (hs_headers hs) (hs_first hs) key ts sg /\
      handshake_authentic (hs_accounts hs) (hs_now hs) key ts sg uid.
Proof.
  intros Ho Hr Hin. pose proof (private_run_reachable s s' Hr Ho) as Hreach.
  destruct (delivered_let_in _ _ _ _ _ Hreach Hin) as [Hl Hm]. by split.
Qed.

(** A handshake is never also the signed text of a request: the payloads differ
    in their number of lines. *)
Fixpoint lines (s : string) : nat :=
  match s with "" => O | String c s => (if (c =? "010")%char then S (lines s) else lines s) end.
Lemma lines_app a b : lines (a +:+ b) = (lines a + lines b)%nat.
Proof.
  induction a as [|c a IH]; [done|]. change (String c a +:+ b) with (String c (a +:+ b)). cbn [lines]. rewrite IH.
  by destruct (c =? "010")%char.
Qed.
Lemma no_newline_lines s : no_newline s -> lines s = O.
Proof.
  induction s as [|c s IH]; [done|]. intros [Hc Hs]. cbn. destruct (Ascii.eqb_spec c "010"); [done|by apply IH].
Qed.
Theorem handshake_is_not_a_request key ts method path ts' body :
  no_newline key -> ws_payload key ts <> signature_payload method path ts' body.
Proof.
  intros Hk E%(f_equal lines). unfold ws_payload, signature_payload in E. rewrite !lines_app in E.
  rewrite (no_newline_lines key Hk), (no_newline_lines _ (no_newline_int ts)) in E. cbn in E. lia.
Qed.

(** ** A client that authenticates by message *)

Definition demo_accounts : Accounts :=
  MkAccounts {[ 1 := MkUser 1 "bot@example.com" "" true false ]} 2
    {[ "k1" := MkApiKey 1 1 "k1" (hash_api_secret "s3cret") ["trade"] 120 false None ]} 2.
Definition demo_hello : jval :=
  JObj [("action", JStr "auth"); ("api_key", JStr "k1"); ("timestamp", JInt 1700000010);
        ("signature", JStr (compute_ws_signature (hash_api_secret "s3cret") "k1" 1700000010))].
Definition demo_no_headers : WsHeaders := MkWsHeaders None None None.

Definition demo_private : PrivateGateway := MkPrivateGateway demo_accounts 1700000000 idle [].
Lemma private_events_confidential_witness :
  exists s', rtc private_step demo_private s' /\ (1, 42, JNull) ∈ delivered (pg_fanout s') /\ (1, JNull) ∈ started (pg_fanout s').
Proof.
  set (s1 := handshake 42 demo_no_headers (Says demo_hello) demo_private).
  set (f2 := MkFanout (reg (pg_fanout s1)) [Sending 1 JNull [42] []] [(1, JNull)] [] : fanout (K := Z) (M := jval)).
  set (s2 := with_fanout f2 s1).
  set (s3 := with_fanout (run_task 0 true (Sending 1 JNull [42] []) f2) s2).
  assert (Hr : rtc private_step demo_private s3).
  { eapply rtc_l; [exact (private_handshake demo_private 42 demo_no_headers (Says demo_hello))|].
    assert (E : elements (connections 1 (reg (pg_fanout s1))) = [42]) by (vm_compute; reflexivity).
    pose proof (step_broadcast (M := jval) (fun _ _ => False) (pg_fanout s1) 1 JNull) as Hb. rewrite E in Hb.
    eapply rtc_l; [exact (private_fanout s1 f2 Hb)|].
    eapply rtc_l; [|apply rtc_refl]. apply (private_fanout s2). apply (step_resume (fun _ _ => False) f2 0 true). reflexivity. }
  assert (Hin : (1, 42, JNull) ∈ delivered (pg_fanout s3)) by left.
  exists s3. split; [exact Hr|]. split; [exact Hin|].
  refine (proj1 (private_events_confidential demo_private s3 1 42 JNull _ Hr Hin)). split; reflexivity.
Defined.
