(* ===== verification/Sessions.v ===== *)
(** * Sessions and subscribers: the loops of app/ws/public.py, app/ws/private.py
      and app/ws/manager.py, subscribe and unsubscribe of
      app/redis_client/pubsub.py

    A handler runs as long as its socket lives, and a subscriber as long as the
    manager runs; both wait for a peer at every await.  What the peer does there
    is an argument, an [outcome] per await; the loops are functions of the list
    of rounds they have served so far.  Whatever other tasks do to the hub in the
    meantime is part of a round.  When the rounds are used up the loop is still
    running: its [finally] has not been reached. *)

From Stdlib Require Import ZArith Lia Bool.
From stdpp Require Import base tactics option list strings gmap sets relations.
From S2P Require Import Prelude Float64 PyDecimal Models RedisIface OrderBook Queues World Pubsub Auth WsManager WsFanout WsPrivate.
#[local] Open Scope Z_scope.

(** ** Awaits and exceptions *)

(** The exceptions the handlers tell apart; [CancelledError] is no [Exception].
    [OtherError] is every other one: a lost connection, a text that is not JSON,
    a message without [get]. *)
Inductive ws_exn := TimeoutError | WebSocketDisconnect | CancelledError | OtherError.
Abbreviation outcome A := (ws_exn + A)%type (only parsing).

(** What a handler shares and holds: the hub, the frames its socket was sent
    (for a subscriber, the messages it broadcast), oldest first, and the
    dedicated connections to Redis that are open. *)
Record Endpoint := MkEndpoint {
  hub : Hub;
  outbox : list jval;
  open_links : gset Z;
  next_link : Z
}.
Abbreviation sprog := (prog Endpoint ws_exn).

Definition await {A} (o : outcome A) : sprog A := fun s => (s, o).
Definition on_hub (f : Hub -> Hub) : sprog unit :=
  modify (fun s => MkEndpoint (f (hub s)) (outbox s) (open_links s) (next_link s)).
Definition set_links (f : gset Z -> gset Z) : sprog unit :=
  modify (fun s => MkEndpoint (hub s) (outbox s) (f (open_links s)) (next_link s)).
Definition send_json (o : outcome unit) (message : jval) : sprog unit :=
  _ ← await o; modify (fun s => MkEndpoint (hub s) (outbox s ++ [message]) (open_links s) (next_link s)).

(** [except Exception] *)
Definition except_exception {A} (m : sprog A) (h : sprog A) : sprog A :=
  try_except m (fun e => match e with CancelledError => raise e | _ => h end).
(** [finally] *)
Definition try_finally {A} (m : sprog A) (fin : sprog unit) : sprog A := fun s =>
  let '(s1, r) := m s in
  match fin s1 with (s2, inl e) => (s2, inl e) | (s2, inr _) => (s2, r) end.
(** The same for a loop: [true] says that it was left, [false] that it runs on. *)
Definition loop_finally (m : sprog bool) (fin : sprog unit) : sprog bool := fun s =>
  let '(s1, r) := m s in
  match r with
  | inr false => (s1, r)
  | _ => match fin s1 with (s2, inl e) => (s2, inl e) | (s2, inr _) => (s2, r) end
  end.

(** ** Dedicated subscriptions *)

(** The client is there before the command that may fail. *)
Definition subscribe (o : outcome unit) : sprog Z :=
  n ← gets next_link;
  _ ← modify (fun s => MkEndpoint (hub s) (outbox s) ({[n]} ∪ open_links s) (n + 1));
  _ ← await o;
  mret n.
(** The three awaits of [unsubscribe]: the command, closing the subscription,
    closing the client. *)
Record Closing := MkClosing { unsubscribing : outcome unit; closing_pubsub : outcome unit; closing_client : outcome unit }.
Definition closes_well : Closing := MkClosing (inr tt) (inr tt) (inr tt).
Definition unsubscribe (n : Z) (c : Closing) : sprog unit :=
  _ ← await (unsubscribing c);
  _ ← await (closing_pubsub c);
  except_exception (_ ← await (closing_client c); set_links (.∖ {[n]})) (mret tt).

(** ** Public sessions *)

(** The steps of [open_public]. *)
Definition register_public (ws : Z) (symbol : string) (h : Hub) : Hub :=
  MkHub (connect_public true ws symbol (manager h)) (running h) (subscriber_tasks h) (private_tasks h) (clients h).
Definition listen_public (ws : Z) (symbol : string) (h : Hub) : Hub :=
  MkHub (manager h) (running h) (subscriber_tasks h) (private_tasks h) (clients h ++ [(ws, symbol)]).

(** [msg.get("action") == "ping"]; only an object has [get]. *)
Definition is_ping (msg : jval) : sprog bool :=
  match msg with
  | JObj _ => mret (bool_decide (jfield "action" msg ≫= jstr = Some "ping"))
  | _ => raise OtherError
  end.
Definition pong (ts : Z) : jval := JObj [("event", JStr "pong"); ("ts", JInt ts)].

(** What happens at the awaits of one round: other tasks, the poll of the
    subscription, the send of what it gave, the client's message and the send of
    the answer.  Each of the two waits has a time-out of its own. *)
Record PublicRound := MkRound {
  others : Hub -> Hub;
  got : outcome (option RawMessage);
  forwarding : outcome unit;
  received : outcome jval;
  answering : outcome unit;
  clock : Z
}.
Definition poll_pubsub (rd : PublicRound) : sprog unit :=
  except_exception
    (raw ← await (got rd);
     match raw ≫= forward_message with
     | Some msg => except_exception (send_json (forwarding rd) msg) (mret tt)
     | None => mret tt
     end) (mret tt).
(** Whether the loop is left. *)
Definition answer_client (rd : PublicRound) : sprog bool :=
  try_except
    (msg ← await (received rd);
     ping ← is_ping msg;
     _ ← (if ping : bool then send_json (answering rd) (pong (clock rd)) else mret tt);
     mret false)
    (fun e => match e with
              | WebSocketDisconnect => mret true
              | CancelledError => raise e
              | _ => mret false
              end).
Fixpoint public_loop (subscribed : bool) (rounds : list PublicRound) : sprog bool :=
  match rounds with
  | [] => mret false
  | rd :: rounds =>
      _ ← on_hub (others rd);
      _ ← (if subscribed then poll_pubsub rd else mret tt);
      leave ← answer_client rd;
      if leave : bool then mret true else public_loop subscribed rounds
  end.

(** The awaits of the handler outside its loop. *)
Record PublicSetup := MkPublicSetup {
  accepting : outcome unit;
  snapshot : outcome jval;
  sending_snapshot : outcome unit;
  subscribing : outcome unit;
  closing : Closing
}.
Definition public_cleanup (ws : Z) (symbol : string) (ps : option Z) (c : Closing) : sprog unit :=
  _ ← (match ps with Some n => except_exception (unsubscribe n c) (mret tt) | None => mret tt end);
  on_hub (close_public ws symbol).
(** Up to the loop: the subscription, when there is one. *)
Definition public_preamble (ws : Z) (symbol : string) (setup : PublicSetup) : sprog (option Z) :=
  _ ← await (accepting setup);
  _ ← on_hub (register_public ws symbol);
  _ ← except_exception (msg ← await (snapshot setup); send_json (sending_snapshot setup) msg) (mret tt);
  except_exception (n ← subscribe (subscribing setup); _ ← on_hub (listen_public ws symbol); mret (Some n)) (mret None).
Definition handle_public_orderbook (ws : Z) (symbol : string) (setup : PublicSetup) (rounds : list PublicRound) : sprog bool :=
  ps ← public_preamble ws symbol setup;
  loop_finally
    (except_exception (public_loop (bool_decide (is_Some ps)) rounds) (mret true))
    (public_cleanup ws symbol ps (closing setup)).

(** The snapshot is the one of the order book at that moment. *)
Definition snapshot_in `{R : Redis} (symbol : string) (ts : Z) (w : World) : outcome jval :=
  match (initial_snapshot symbol ts w).2 with inl _ => inl OtherError | inr msg => inr msg end.

(** ** Private sessions *)

Definition register_private (ws user_id : Z) (h : Hub) : Hub :=
  MkHub (connect_private ws user_id (manager h)) (running h) (subscriber_tasks h) (private_tasks h) (clients h).
Definition start_private_task (ws user_id : Z) (h : Hub) : Hub :=
  MkHub (manager h) (running h) (subscriber_tasks h)
    (if running h then private_tasks h ++ [(ws, user_id)] else private_tasks h) (clients h).

Record PrivateRound := MkPrivateRound {
  p_others : Hub -> Hub;
  p_received : outcome jval;
  p_answering : outcome unit;
  p_clock : Z
}.
Definition private_round (rd : PrivateRound) : sprog unit :=
  _ ← on_hub (p_others rd);
  msg ← await (p_received rd);
  ping ← is_ping msg;
  if ping : bool then send_json (p_answering rd) (pong (p_clock rd)) else mret tt.
Fixpoint private_loop (rounds : list PrivateRound) : sprog bool :=
  match rounds with
  | [] => mret false
  | rd :: rounds => _ ← private_round rd; private_loop rounds
  end.

Definition auth_ok (user_id ts : Z) : jval :=
  JObj [("event", JStr "auth_ok"); ("user_id", JInt user_id); ("ts", JInt ts)].
(** From the registration on. *)
Definition serve_private (ws user_id ts : Z) (greeting : outcome unit) (rounds : list PrivateRound) : sprog bool :=
  _ ← on_hub (register_private ws user_id);
  _ ← send_json greeting (auth_ok user_id ts);
  _ ← on_hub (start_private_task ws user_id);
  loop_finally
    (except_exception (private_loop rounds) (mret true))
    (on_hub (close_private ws user_id)).

(** The awaits before the registration: accepting, asking for the first message
    (which [first] says), telling a client that it is not let in, and closing its
    socket; then the greeting.  A first message that is not JSON fails like one
    that is not an object. *)
Record PrivateSetup := MkPrivateSetup {
  p_accepting : outcome unit;
  asking : outcome unit;
  first : first_move;
  telling : outcome unit;
  closing_socket : outcome unit;
  greeting : outcome unit;
  p_time : Z
}.
Section Handshake.
Variable str_of_exn : exn -> string.

Definition auth_required (ts : Z) : jval :=
  JObj [("event", JStr "auth_required"); ("message", JStr "Send auth message within 5 seconds"); ("ts", JInt ts)].
Definition auth_timeout : jval := JObj [("event", JStr "auth_timeout"); ("message", JStr "Authentication timed out")].
Definition auth_failed (e : exn) : jval := JObj [("event", JStr "auth_failed"); ("message", JStr (str_of_exn e))].

Definition turn_away (setup : PrivateSetup) (msg : jval) : sprog (option Z) :=
  _ ← except_exception (_ ← send_json (telling setup) msg; await (closing_socket setup)) (mret tt);
  mret None.
(** The user who is let in. *)
Definition private_handshake (acc : Accounts) (now : Z) (h : WsHeaders) (setup : PrivateSetup) : sprog (option Z) :=
  match try_header_auth acc now h with
  | inl _ => raise OtherError
  | inr (Some user_id) => _ ← await (p_accepting setup); mret (Some user_id)
  | inr None =>
      _ ← await (p_accepting setup);
      asked ← except_exception (_ ← send_json (asking setup) (auth_required (p_time setup)); mret true) (mret false);
      if negb asked then mret None
      else
        match first setup with
        | Silent => turn_away setup auth_timeout
        | Gone => mret None
        | Says msg =>
            match wait_for_auth_message acc now msg with
            | inl e => turn_away setup (auth_failed e)
            | inr user_id => mret (Some user_id)
            end
        end
  end.
(** The whole handler: [Some left] once a user is served. *)
Definition private_session (acc : Accounts) (now : Z) (h : WsHeaders) (setup : PrivateSetup) (ws : Z)
    (rounds : list PrivateRound) : sprog (option bool) :=
  user ← private_handshake acc now h setup;
  match user with
  | Some user_id => left ← serve_private ws user_id (p_time setup) (greeting setup) rounds; mret (Some left)
  | None => mret None
  end.
End Handshake.

(** ** Subscriber tasks of the manager *)

(** One turn of the outer loop: a subscription, what is heard on it (with
    [_running] as it is at each message), how listening ends, the pause after an
    error, and the closing of the subscription. *)
Record SubscriberRound := MkSubscriberRound {
  sr_running : bool;
  sr_subscribing : outcome unit;
  sr_heard : list (bool * RawMessage);
  sr_ending : outcome unit;
  sr_pause : outcome unit;
  sr_closing : Closing
}.
Definition broadcast_message (msg : jval) : sprog unit := send_json (inr tt) msg.
(** [checked]: the public subscriber looks at [_running] at each message. *)
Fixpoint listen (checked : bool) (heard : list (bool * RawMessage)) (ending : outcome unit) : sprog unit :=
  match heard with
  | [] => await ending
  | (is_running, raw) :: heard =>
      match iter_message true raw with
      | None => listen checked heard ending
      | Some msg => if checked && negb is_running then mret tt
                    else _ ← broadcast_message msg; listen checked heard ending
      end
  end.
(** Whether the task is over. *)
Definition subscriber_failed (rd : SubscriberRound) (e : ws_exn) : sprog bool :=
  match e with
  | CancelledError => mret true
  | _ => _ ← await (sr_pause rd); mret false
  end.
Definition catch {A} (m : sprog A) : sprog (ws_exn + A) := fun s => let '(s, r) := m s in (s, inr r).
Definition subscriber_round (checked : bool) (rd : SubscriberRound) : sprog bool :=
  if negb (sr_running rd) then mret true
  else
    ps ← catch (subscribe (sr_subscribing rd));
    match ps with
    | inl e => subscriber_failed rd e
    | inr n =>
        try_finally
          (try_except (_ ← listen checked (sr_heard rd) (sr_ending rd); mret false) (subscriber_failed rd))
          (except_exception (unsubscribe n (sr_closing rd)) (mret tt))
    end.
Fixpoint subscriber_loop (checked : bool) (rounds : list SubscriberRound) : sprog bool :=
  match rounds with
  | [] => mret false
  | rd :: rounds =>
      over ← subscriber_round checked rd;
      if over : bool then mret true else subscriber_loop checked rounds
  end.
Definition public_subscriber := subscriber_loop true.
Definition private_subscriber := subscriber_loop false.

(** ** One round *)

(** A client's message is a ping. *)
Definition pings (r : outcome jval) : bool :=
  match r with inr msg => bool_decide (jfield "action" msg ≫= jstr = Some "ping") | inl _ => false end.
Definition answers (r : outcome jval) (a : outcome unit) (ts : Z) : list jval :=
  if pings r then match a with inr _ => [pong ts] | inl _ => [] end else [].
(** What a round sends: the JSON message of the subscription, then the pong. *)
Definition forwards (rd : PublicRound) : list jval :=
  match got rd, forwarding rd with inr (Some raw), inr _ => option_list (forward_message raw) | _, _ => [] end.
Definition round_frames (subscribed : bool) (rd : PublicRound) : list jval :=
  (if subscribed then forwards rd else []) ++ answers (received rd) (answering rd) (clock rd).
(** The client is seen to be gone. *)
Definition leaves (rd : PublicRound) : bool :=
  match received rd, answering rd with
  | inl WebSocketDisconnect, _ => true
  | _, inl WebSocketDisconnect => pings (received rd)
  | _, _ => false
  end.
Definition not_cancelled {A} (o : outcome A) : Prop := o <> inl CancelledError.
Definition uncancelled (rd : PublicRound) : Prop :=
  not_cancelled (got rd) /\ not_cancelled (forwarding rd) /\ not_cancelled (received rd) /\ not_cancelled (answering rd).

Lemma is_ping_spec msg s :
  (exists fs, msg = JObj fs) /\ is_ping msg s = (s, inr (pings (inr msg))) \/
  (forall fs, msg <> JObj fs) /\ pings (inr msg) = false /\ is_ping msg s = (s, inl OtherError).
Proof. destruct msg; try (by right; split; [intros fs|split]); left; split; [by eexists|done]. Qed.

(** Sending and running the hub leave the rest of the endpoint alone. *)
Definition sends (s : Endpoint) (l : list jval) : Endpoint := MkEndpoint (hub s) (outbox s ++ l) (open_links s) (next_link s).
Lemma sends_nil s : sends s [] = s.
Proof. destruct s. unfold sends. cbn. by rewrite app_nil_r. Qed.
Lemma sends_sends s l1 l2 : sends (sends s l1) l2 = sends s (l1 ++ l2).
Proof. unfold sends. cbn. by rewrite app_assoc. Qed.
Lemma send_json_ok msg s : send_json (inr tt) msg s = (sends s [msg], inr tt).
Proof. done. Qed.
Lemma send_json_fails e msg s : send_json (inl e) msg s = (s, inl e).
Proof. done. Qed.

Lemma except_exception_ok {A} (m h : sprog A) s s' a : m s = (s', inr a) -> except_exception m h s = (s', inr a).
Proof. intros E. unfold except_exception, try_except. by rewrite E. Qed.
Lemma except_exception_error {A} (m h : sprog A) s s' e : m s = (s', inl e) -> e <> CancelledError ->
  except_exception m h s = h s'.
Proof. intros E He. unfold except_exception, try_except. rewrite E. by destruct e. Qed.

Lemma poll_pubsub_spec rd s : not_cancelled (got rd) -> not_cancelled (forwarding rd) ->
  poll_pubsub rd s = (sends s (forwards rd), inr tt).
Proof.
  intros Hg Hf. unfold poll_pubsub, forwards, not_cancelled in *. destruct (got rd) as [e|raw].
  { rewrite sends_nil. erewrite except_exception_error; [reflexivity|reflexivity|congruence]. }
  apply except_exception_ok. rewrite (bind_inr (await (inr raw)) _ s s raw eq_refl). destruct raw as [raw|]; cbn [mbind option_bind].
  - destruct (forward_message raw) as [msg|]; cbn [option_list].
    + destruct (forwarding rd) as [e|[]].
      * rewrite sends_nil. erewrite except_exception_error; [reflexivity|apply send_json_fails|congruence].
      * by apply except_exception_ok.
    + destruct (forwarding rd); by rewrite sends_nil.
  - by rewrite sends_nil.
Qed.
Lemma answer_client_spec rd s : not_cancelled (received rd) -> not_cancelled (answering rd) ->
  answer_client rd s = (sends s (answers (received rd) (answering rd) (clock rd)), inr (leaves rd)).
Proof.
  intros Hr Ha. unfold answer_client, answers, leaves, not_cancelled, try_except in *. destruct (received rd) as [e|msg].
  { cbn [pings]. rewrite sends_nil. cbn. destruct e; try done; by destruct (answering rd) as [[]|]. }
  rewrite (bind_inr (await (inr msg)) _ s s msg eq_refl). destruct (is_ping_spec msg s) as [[_ E]|(_ & Hp & E)].
  - rewrite (bind_inr _ _ _ _ _ E). destruct (pings (inr msg)).
    + destruct (answering rd) as [e|[]]; [|done]. rewrite sends_nil. by destruct e.
    + rewrite sends_nil. by destruct (answering rd) as [[]|].
  - rewrite (bind_inl _ _ _ _ _ E), Hp, sends_nil. by destruct (answering rd) as [[]|].
Qed.

(** ** Public sessions *)

(** The rounds of a session, up to the one in which the client is gone. *)
Fixpoint served_rounds (rounds : list PublicRound) : list PublicRound :=
  match rounds with
  | [] => []
  | rd :: rounds => rd :: if leaves rd then [] else served_rounds rounds
  end.
Lemma served_all rounds : existsb leaves rounds = false -> served_rounds rounds = rounds.
Proof. induction rounds as [|rd rounds IH]; [done|]. cbn. destruct (leaves rd); [done|]. intros E. by rewrite IH. Qed.
Definition run_others (rounds : list PublicRound) (h : Hub) : Hub := foldl (fun h rd => others rd h) h rounds.
Definition with_hub (h : Hub) (s : Endpoint) : Endpoint := MkEndpoint h (outbox s) (open_links s) (next_link s).

Lemma public_loop_spec subscribed rounds s : Forall uncancelled rounds ->
  public_loop subscribed rounds s =
    (with_hub (run_others (served_rounds rounds) (hub s)) (sends s (concat (round_frames subscribed <$> served_rounds rounds))),
     inr (existsb leaves rounds)).
Proof.
  intros Hu. revert s. induction Hu as [|rd rounds (Hg & Hf & Hr & Ha) _ IH]; intros s; cbn [public_loop].
  { cbn [served_rounds concat fmap list_fmap]. rewrite sends_nil. by destruct s. }
  rewrite (bind_inr (on_hub (others rd)) _ s (with_hub (others rd (hub s)) s) tt eq_refl).
  set (s1 := with_hub (others rd (hub s)) s).
  rewrite (bind_inr _ _ s1 (sends s1 (if subscribed then forwards rd else [])) tt).
  2:{ destruct subscribed; [by apply poll_pubsub_spec|by rewrite sends_nil]. }
  rewrite (bind_inr _ _ _ _ _ (answer_client_spec rd _ Hr Ha)), sends_sends. fold (round_frames subscribed rd).
  cbn [existsb served_rounds]. destruct (leaves rd); cbn [orb fmap list_fmap concat].
  - by rewrite app_nil_r.
  - rewrite IH. f_equal. unfold with_hub, sends. cbn. by rewrite app_assoc.
Qed.

(** The connections that stay open after [unsubscribe]. *)
Definition links_after (n : Z) (c : Closing) (links : gset Z) : gset Z :=
  match unsubscribing c, closing_pubsub c, closing_client c with
  | inr _, inr _, inr _ => links ∖ {[n]}
  | _, _, _ => links
  end.
Definition closing_uncancelled (c : Closing) : Prop :=
  not_cancelled (unsubscribing c) /\ not_cancelled (closing_pubsub c) /\ not_cancelled (closing_client c).
Definition with_links (f : gset Z -> gset Z) (s : Endpoint) : Endpoint := MkEndpoint (hub s) (outbox s) (f (open_links s)) (next_link s).

Lemma with_links_id s f : f (open_links s) = open_links s -> with_links f s = s.
Proof. destruct s. unfold with_links. cbn. by intros ->. Qed.
Lemma unsubscribe_quietly n c s : closing_uncancelled c ->
  except_exception (unsubscribe n c) (mret tt) s = (with_links (links_after n c) s, inr tt).
Proof.
  intros (H1 & H2 & H3). unfold unsubscribe, links_after, not_cancelled in *.
  destruct (unsubscribing c) as [e|[]].
  { rewrite with_links_id by done. erewrite except_exception_error; [reflexivity|reflexivity|congruence]. }
  destruct (closing_pubsub c) as [e|[]].
  { rewrite with_links_id by done. erewrite except_exception_error; [reflexivity|reflexivity|congruence]. }
  apply except_exception_ok. destruct (closing_client c) as [e|[]]; [|done].
  rewrite with_links_id by done. rewrite (bind_inr (await (inr tt)) _ s s tt eq_refl).
  rewrite (bind_inr (await (inr tt)) _ s s tt eq_refl). erewrite except_exception_error; [reflexivity|reflexivity|congruence].
Qed.

Definition links_left (ps : option Z) (c : Closing) (links : gset Z) : gset Z :=
  match ps with Some n => links_after n c links | None => links end.
Lemma public_cleanup_spec ws symbol ps c s : closing_uncancelled c ->
  public_cleanup ws symbol ps c s = (with_hub (close_public ws symbol (hub s)) (with_links (links_left ps c) s), inr tt).
Proof.
  intros Hc. unfold public_cleanup. rewrite (bind_inr _ _ s (with_links (links_left ps c) s) tt); [done|].
  destruct ps as [n|]; cbn [links_left]; [by apply unsubscribe_quietly|by rewrite with_links_id].
Qed.

(** A loop and its [finally]: it is run exactly when the loop is left. *)
Lemma loop_finally_left m fin s s1 r s2 : m s = (s1, r) -> r <> inr false -> fin s1 = (s2, inr tt) -> loop_finally m fin s = (s2, r).
Proof. intros E Hr Ef. unfold loop_finally. rewrite E, Ef. by destruct r as [|[]]. Qed.
Lemma loop_finally_running m fin s s1 : m s = (s1, inr false) -> loop_finally m fin s = (s1, inr false).
Proof. intros E. unfold loop_finally. by rewrite E. Qed.

Definition setup_uncancelled (setup : PublicSetup) : Prop :=
  not_cancelled (snapshot setup) /\ not_cancelled (sending_snapshot setup) /\ not_cancelled (subscribing setup) /\
  closing_uncancelled (closing setup).
Definition is_subscribed (setup : PublicSetup) : bool := match subscribing setup with inr _ => true | inl _ => false end.
(** The first frame. *)
Definition snapshot_frames (setup : PublicSetup) : list jval :=
  match snapshot setup, sending_snapshot setup with inr msg, inr _ => [msg] | _, _ => [] end.
(** The hub with the session in it. *)
Definition public_opened (ws : Z) (symbol : string) (setup : PublicSetup) (h : Hub) : Hub :=
  if is_subscribed setup then open_public ws symbol h else register_public ws symbol h.

Lemma snapshot_spec setup s : not_cancelled (snapshot setup) -> not_cancelled (sending_snapshot setup) ->
  except_exception (msg ← await (snapshot setup); send_json (sending_snapshot setup) msg) (mret tt) s =
  (sends s (snapshot_frames setup), inr tt).
Proof.
  intros H1 H2. unfold snapshot_frames, not_cancelled in *. destruct (snapshot setup) as [e|msg].
  { rewrite sends_nil. erewrite except_exception_error; [reflexivity|reflexivity|congruence]. }
  destruct (sending_snapshot setup) as [e|[]]; [|by apply except_exception_ok].
  rewrite sends_nil. erewrite except_exception_error; [reflexivity|reflexivity|congruence].
Qed.

Definition session_link (setup : PublicSetup) (s : Endpoint) : option Z :=
  if is_subscribed setup then Some (next_link s) else None.
(** The endpoint when the loop is entered. *)
Definition opened (ws : Z) (symbol : string) (setup : PublicSetup) (s : Endpoint) : Endpoint :=
  MkEndpoint (public_opened ws symbol setup (hub s)) (outbox s ++ snapshot_frames setup)
    ({[next_link s]} ∪ open_links s) (next_link s + 1).
Lemma subscribing_spec ws symbol setup s : not_cancelled (subscribing setup) ->
  except_exception (n ← subscribe (subscribing setup); _ ← on_hub (listen_public ws symbol); mret (Some n)) (mret None) s =
  (MkEndpoint (if is_subscribed setup then listen_public ws symbol (hub s) else hub s) (outbox s)
     ({[next_link s]} ∪ open_links s) (next_link s + 1), inr (session_link setup s)).
Proof.
  intros H. unfold session_link, is_subscribed, not_cancelled in *.
  destruct (subscribing setup) as [e|[]]; [|by apply except_exception_ok].
  erewrite except_exception_error; [reflexivity|reflexivity|congruence].
Qed.
Lemma public_preamble_spec ws symbol setup s : accepting setup = inr tt -> setup_uncancelled setup ->
  public_preamble ws symbol setup s = (opened ws symbol setup s, inr (session_link setup s)).
Proof.
  intros Ha (H1 & H2 & H3 & _). unfold public_preamble. rewrite Ha.
  rewrite (bind_inr (await (inr tt)) _ s s tt eq_refl).
  rewrite (bind_inr (on_hub _) _ s (with_hub (register_public ws symbol (hub s)) s) tt eq_refl).
  rewrite (bind_inr _ _ _ _ _ (snapshot_spec setup _ H1 H2)), subscribing_spec by done.
  unfold opened, public_opened, session_link. by destruct (is_subscribed setup).
Qed.

Lemma handle_public_spec ws symbol setup rounds s :
  accepting setup = inr tt -> setup_uncancelled setup -> Forall uncancelled rounds ->
  let served := served_rounds rounds in
  let left := existsb leaves rounds in
  let h := run_others served (public_opened ws symbol setup (hub s)) in
  let links := {[next_link s]} ∪ open_links s in
  handle_public_orderbook ws symbol setup rounds s =
    (MkEndpoint (if left then close_public ws symbol h else h)
       (outbox s ++ snapshot_frames setup ++ concat (round_frames (is_subscribed setup) <$> served))
       (if left then links_left (session_link setup s) (closing setup) links else links) (next_link s + 1), inr left).
Proof.
  intros Ha Hs Hu served left h links. unfold handle_public_orderbook.
  rewrite (bind_inr _ _ _ _ _ (public_preamble_spec ws symbol setup s Ha Hs)). set (ps := session_link setup s).
  assert (Ep : bool_decide (is_Some ps) = is_subscribed setup)
    by (unfold ps, session_link; by destruct (is_subscribed setup)).
  pose proof (public_loop_spec (is_subscribed setup) rounds (opened ws symbol setup s) Hu) as El.
  change (run_others _ _) with h in El. fold served left in El. rewrite Ep. destruct left.
  - erewrite loop_finally_left; [|by apply except_exception_ok, El|done|by apply public_cleanup_spec, Hs].
    unfold with_hub, with_links, sends. cbn. by rewrite <- app_assoc.
  - erewrite loop_finally_running; [|by apply except_exception_ok, El].
    unfold with_hub, sends. cbn. by rewrite <- app_assoc.
Qed.

Lemma close_public_gone ws symbol h :
  ws ∉ connections symbol (public_connections (manager (close_public ws symbol h))) /\ (ws, symbol) ∉ clients (close_public ws symbol h).
Proof.
  cbn. rewrite connections_unregister, decide_True by done. split; [set_solver|]. rewrite list_elem_of_filter. naive_solver.
Qed.

(** C25: a public session from end to end.  Whatever its peers do, short of
    cancelling the task: the client is sent the snapshot (when it can be read and
    sent) and then, round by round, the JSON messages of its own subscription
    and one answer to each of its pings, in order; the session is left exactly
    in a round in which the client is seen to be gone, and no error of Redis, no
    malformed message and no failed send ends it.  When it is left the socket is
    neither registered nor subscribed, whatever the other tasks did, and its
    connection to Redis is closed when closing it works; until then the hub is
    the one [open_public] made, as the other tasks changed it. *)
Theorem public_session_correct ws symbol setup rounds s :
  accepting setup = inr tt -> setup_uncancelled setup -> Forall uncancelled rounds ->
  let r := handle_public_orderbook ws symbol setup rounds s in
  r.2 = inr (existsb leaves rounds) /\
  outbox r.1 = outbox s ++ snapshot_frames setup ++ concat (round_frames (is_subscribed setup) <$> served_rounds rounds) /\
  (r.2 = inr true ->
     ws ∉ connections symbol (public_connections (manager (hub r.1))) /\ (ws, symbol) ∉ clients (hub r.1) /\
     (is_subscribed setup = true -> closing setup = closes_well -> next_link s ∉ open_links s -> open_links r.1 = open_links s)) /\
  (r.2 = inr false -> hub r.1 = run_others rounds (public_opened ws symbol setup (hub s))).
Proof.
  intros Ha Hs Hu r. unfold r. rewrite handle_public_spec by done. cbn [fst snd hub outbox open_links]. split_and!; [done..| |].
  - intros [= ->]. destruct (close_public_gone ws symbol (run_others (served_rounds rounds) (public_opened ws symbol setup (hub s)))).
    split_and!; [done..|]. unfold session_link. intros -> -> Hn. cbn. set_solver.
  - intros [= E]. by rewrite E, served_all.
Qed.

(** A socket whose [receive_json] only raises - what it does once a failed send
    has marked it as closed - keeps its session, its registration and its
    subscription for ever. *)
Theorem broken_socket_never_leaves ws symbol setup rounds s :
  accepting setup = inr tt -> setup_uncancelled setup -> Forall uncancelled rounds ->
  Forall (fun rd => received rd = inl OtherError /\ others rd = id) rounds ->
  let r := handle_public_orderbook ws symbol setup rounds s in
  r.2 = inr false /\ hub r.1 = public_opened ws symbol setup (hub s) /\
  (forall n, is_subscribed setup = true -> n = next_link s -> n ∈ open_links r.1).
Proof.
  intros Ha Hs Hu Hb r. unfold r. rewrite handle_public_spec by done. cbn [fst snd hub open_links].
  assert (E : existsb leaves rounds = false).
  { clear -Hb. induction Hb as [|rd rounds [Hr _] _ IH]; [done|]. cbn. rewrite IH. unfold leaves. rewrite Hr. by destruct (answering rd) as [[]|]. }
  assert (Eo : forall h, run_others rounds h = h).
  { clear -Hb. induction Hb as [|rd rounds [_ Ho] _ IH]; [done|]. intros h. cbn. rewrite Ho. by apply IH. }
  rewrite E, served_all, Eo by done. split_and!; [done..|]. intros n _ ->. set_solver.
Qed.

(** ** Private sessions *)

(** The client is gone, or sends what the loop does not survive. *)
Definition ends_session (rd : PrivateRound) : bool :=
  match p_received rd with
  | inl _ => true
  | inr (JObj fs) => pings (inr (JObj fs)) && match p_answering rd with inl _ => true | inr _ => false end
  | inr _ => true
  end.
Definition p_uncancelled (rd : PrivateRound) : Prop := not_cancelled (p_received rd) /\ not_cancelled (p_answering rd).
Definition p_frames (rd : PrivateRound) : list jval := answers (p_received rd) (p_answering rd) (p_clock rd).
Fixpoint p_served (rounds : list PrivateRound) : list PrivateRound :=
  match rounds with
  | [] => []
  | rd :: rounds => rd :: if ends_session rd then [] else p_served rounds
  end.
Lemma p_served_all rounds : existsb ends_session rounds = false -> p_served rounds = rounds.
Proof. induction rounds as [|rd rounds IH]; [done|]. cbn. destruct (ends_session rd); [done|]. intros E. by rewrite IH. Qed.
Definition p_run_others (rounds : list PrivateRound) (h : Hub) : Hub := foldl (fun h rd => p_others rd h) h rounds.

Lemma private_round_spec rd s : exists r,
  private_round rd s = (with_hub (p_others rd (hub s)) (sends s (p_frames rd)), r) /\
  (if ends_session rd then exists e, r = inl e /\ (p_uncancelled rd -> e <> CancelledError) else r = inr tt).
Proof.
  unfold private_round, p_frames, answers, ends_session, p_uncancelled, not_cancelled.
  set (s1 := with_hub (p_others rd (hub s)) s). rewrite (bind_inr (on_hub (p_others rd)) _ s s1 tt eq_refl).
  destruct (p_received rd) as [e|msg].
  { cbn [pings]. exists (inl e). rewrite sends_nil. split; [done|]. exists e. split; [done|]. intros [? _] ->. done. }
  rewrite (bind_inr (await (inr msg)) _ s1 s1 msg eq_refl).
  destruct (is_ping_spec msg s1) as [[[fs ->] E]|(Hn & Hp & E)].
  - rewrite (bind_inr _ _ _ _ _ E). destruct (pings (inr (JObj fs))); cbn [andb].
    + destruct (p_answering rd) as [e|[]].
      * exists (inl e). rewrite sends_nil. split; [done|]. exists e. split; [done|]. intros [_ ?] ->. done.
      * by exists (inr tt).
    + exists (inr tt). by rewrite sends_nil.
  - rewrite (bind_inl _ _ _ _ _ E), Hp, sends_nil. exists (inl OtherError). split; [done|].
    destruct msg as [| | | | | |fs]; try (by exists OtherError). by destruct (Hn fs).
Qed.
Lemma private_loop_spec rounds s : Forall p_uncancelled rounds ->
  except_exception (private_loop rounds) (mret true) s =
    (with_hub (p_run_others (p_served rounds) (hub s)) (sends s (concat (p_frames <$> p_served rounds))),
     inr (existsb ends_session rounds)).
Proof.
  intros Hu. revert s. induction Hu as [|rd rounds Hrd _ IH]; intros s.
  { cbn [p_served concat fmap list_fmap]. rewrite sends_nil. by destruct s. }
  destruct (private_round_spec rd s) as (r & E & Hr). set (s1 := with_hub _ _) in E. specialize (IH s1).
  cbn [private_loop existsb p_served] in *. destruct (ends_session rd); cbn [orb fmap list_fmap concat].
  - destruct Hr as (e & -> & He). erewrite except_exception_error; [|by apply bind_inl|by apply He].
    by rewrite app_nil_r.
  - subst r. revert IH. unfold except_exception, try_except. rewrite (bind_inr _ _ _ _ _ E). intros ->.
    unfold s1, with_hub, sends. cbn. by rewrite app_assoc.
Qed.

Lemma serve_private_spec ws uid ts rounds s : Forall p_uncancelled rounds ->
  let left := existsb ends_session rounds in
  let h := p_run_others (p_served rounds) (open_private ws uid (hub s)) in
  serve_private ws uid ts (inr tt) rounds s =
    (MkEndpoint (if left then close_private ws uid h else h)
       (outbox s ++ auth_ok uid ts :: concat (p_frames <$> p_served rounds)) (open_links s) (next_link s), inr left).
Proof.
  intros Hu left h. unfold serve_private.
  rewrite (bind_inr (on_hub _) _ s (with_hub (register_private ws uid (hub s)) s) tt eq_refl).
  rewrite (bind_inr _ _ _ _ _ (send_json_ok _ _)).
  set (s1 := with_hub (open_private ws uid (hub s)) (sends s [auth_ok uid ts])).
  rewrite (bind_inr (on_hub (start_private_task ws uid)) _ (sends (with_hub (register_private ws uid (hub s)) s) [auth_ok uid ts]) s1 tt eq_refl).
  pose proof (private_loop_spec rounds s1 Hu) as El.
  fold left in El. destruct left.
  - erewrite loop_finally_left; [|exact El|done|reflexivity]. unfold s1, with_hub, sends. cbn. by rewrite <- app_assoc.
  - erewrite loop_finally_running; [|exact El]. unfold s1, with_hub, sends. cbn. by rewrite <- app_assoc.
Qed.
Lemma close_private_gone ws uid h :
  ws ∉ connections uid (private_connections (manager (close_private ws uid h))) /\ (ws, uid) ∉ private_tasks (close_private ws uid h).
Proof.
  cbn. rewrite connections_unregister, decide_True by done. split; [set_solver|]. rewrite list_elem_of_filter. naive_solver.
Qed.

(** *** The handshake *)

Section HandshakeFacts.
Variable str_of_exn : exn -> string.

Definition p_setup_uncancelled (setup : PrivateSetup) : Prop :=
  not_cancelled (asking setup) /\ not_cancelled (telling setup) /\ not_cancelled (closing_socket setup).
(** What the handshake sends: nothing to a client with headers. *)
Definition told (setup : PrivateSetup) (msg : jval) : list jval := match telling setup with inr _ => [msg] | inl _ => [] end.
Definition handshake_frames (acc : Accounts) (now : Z) (h : WsHeaders) (setup : PrivateSetup) : list jval :=
  match try_header_auth acc now h, asking setup with
  | inr None, inr _ =>
      auth_required (p_time setup) ::
        match first setup with
        | Silent => told setup auth_timeout
        | Gone => []
        | Says msg => match wait_for_auth_message acc now msg with inl e => told setup (auth_failed str_of_exn e) | inr _ => [] end
        end
  | _, _ => []
  end.
(** Who is let in: as [handle_private_channel] says, when the client could be
    asked or need not be. *)
Definition admitted (acc : Accounts) (now : Z) (h : WsHeaders) (setup : PrivateSetup) (ws : Z) (m : WebSocketManager) : option Z :=
  match (handle_private_channel acc now h (first setup) ws m).2, try_header_auth acc now h, asking setup with
  | Serving _, inr None, inl _ => None
  | Serving user_id, _, _ => Some user_id
  | _, _, _ => None
  end.

Lemma turn_away_spec setup msg s : p_setup_uncancelled setup -> turn_away setup msg s = (sends s (told setup msg), inr None).
Proof.
  intros (_ & H1 & H2). unfold turn_away, told, not_cancelled in *.
  rewrite (bind_inr _ _ s (sends s (match telling setup with inr _ => [msg] | inl _ => [] end)) tt); [done|].
  destruct (telling setup) as [e|[]].
  - rewrite sends_nil. erewrite except_exception_error; [reflexivity|by apply bind_inl, send_json_fails|congruence].
  - destruct (closing_socket setup) as [e|[]]; [|by apply except_exception_ok].
    erewrite except_exception_error; [reflexivity|by rewrite (bind_inr _ _ _ _ _ (send_json_ok msg s))|congruence].
Qed.
Lemma private_handshake_spec acc now h setup ws s : p_accepting setup = inr tt -> p_setup_uncancelled setup ->
  private_handshake str_of_exn acc now h setup s =
    (sends s (handshake_frames acc now h setup),
     match try_header_auth acc now h with inl _ => inl OtherError | inr _ => inr (admitted acc now h setup ws (manager (hub s))) end).
Proof.
  intros Ha Hs. pose proof Hs as (H1 & _). unfold private_handshake, handshake_frames, admitted, handle_private_channel, not_cancelled in *.
  rewrite Ha. destruct (try_header_auth acc now h) as [e|[uid|]]; [by rewrite sends_nil..|].
  rewrite (bind_inr (await (inr tt)) _ s s tt eq_refl).
  rewrite (bind_inr _ _ s (sends s (match asking setup with inr _ => [auth_required (p_time setup)] | inl _ => [] end))
    (match asking setup with inr _ => true | inl _ => false end)).
  2:{ destruct (asking setup) as [e|[]]; [|by apply except_exception_ok].
      rewrite sends_nil. erewrite except_exception_error; [reflexivity|by apply bind_inl, send_json_fails|congruence]. }
  destruct (asking setup) as [e|[]]; cbn [negb].
  { by destruct (first setup) as [| |msg]; [..|destruct (wait_for_auth_message acc now msg)]. }
  destruct (first setup) as [| |msg]; [by rewrite turn_away_spec, sends_sends|done|].
  destruct (wait_for_auth_message acc now msg) as [e|uid]; [by rewrite turn_away_spec, sends_sends|done].
Qed.
Lemma admitted_serving acc now h setup ws m uid : admitted acc now h setup ws m = Some uid ->
  (handle_private_channel acc now h (first setup) ws m).2 = Serving uid.
Proof.
  unfold admitted. destruct (handle_private_channel _ _ _ _ _ _).2 as [e| | |e|u]; try done.
  destruct (try_header_auth acc now h) as [e|[u'|]], (asking setup); by intros [= ->].
Qed.

(** C26: a private session from end to end.  Without valid headers the client is
    asked for a message; one that is not let in is told so, when the sends go
    through, and leaves no trace in the hub.  One that is let in - exactly the
    authentic ones - and can be greeted is sent [auth_ok] and one answer to each
    of its pings; its session ends with the first disconnection, failed send,
    text that is not JSON or message that is not an object, and then its socket
    is not registered and its subscriber gone.  But one that cannot be greeted
    stays registered, without a subscriber: nothing takes it out but a broadcast
    that fails. *)
Theorem private_session_correct acc now h setup ws rounds s :
  p_accepting setup = inr tt -> p_setup_uncancelled setup -> Forall p_uncancelled rounds ->
  let r := private_session str_of_exn acc now h setup ws rounds s in
  let asked := outbox s ++ handshake_frames acc now h setup in
  match admitted acc now h setup ws (manager (hub s)) with
  | None => hub r.1 = hub s /\ outbox r.1 = asked /\ forall left, r.2 <> inr (Some left)
  | Some uid =>
      (exists key ts sg, presents h (first setup) key ts sg /\ handshake_authentic acc now key ts sg uid) /\
      match greeting setup with
      | inr _ =>
          r.2 = inr (Some (existsb ends_session rounds)) /\
          outbox r.1 = asked ++ auth_ok uid (p_time setup) :: concat (p_frames <$> p_served rounds) /\
          (existsb ends_session rounds = false -> hub r.1 = p_run_others rounds (open_private ws uid (hub s))) /\
          (existsb ends_session rounds = true ->
             ws ∉ connections uid (private_connections (manager (hub r.1))) /\ (ws, uid) ∉ private_tasks (hub r.1))
      | inl e =>
          r.2 = inl e /\ outbox r.1 = asked /\ ws ∈ connections uid (private_connections (manager (hub r.1))) /\
          private_tasks (hub r.1) = private_tasks (hub s)
      end
  end.
Proof.
  intros Ha Hs Hu r asked. unfold r, private_session. pose proof (private_handshake_spec acc now h setup ws s Ha Hs) as E.
  set (s1 := sends s _) in E.
  destruct (admitted acc now h setup ws (manager (hub s))) as [uid|] eqn:Ead.
  2:{ destruct (try_header_auth acc now h) as [e|o]; [rewrite (bind_inl _ _ _ _ _ E)|rewrite (bind_inr _ _ _ _ _ E)]; by split_and!. }
  apply admitted_serving in Ead. pose proof (private_channel_serves _ _ _ _ _ _ _ Ead) as Hp.
  assert (Eh : exists o, try_header_auth acc now h = inr o).
  { unfold handle_private_channel in Ead. destruct (try_header_auth acc now h); [done|by eexists]. }
  destruct Eh as [o Eh]. rewrite Eh in E. rewrite (bind_inr _ _ _ _ _ E). split; [exact Hp|].
  destruct (greeting setup) as [e|[]].
  - unfold serve_private. erewrite bind_inl by (by apply (bind_inl (send_json (inl e) _) _ (with_hub (register_private ws uid (hub s1)) s1))).
    cbn [fst snd hub outbox with_hub]. split_and!; [done..| |done]. cbn. rewrite connections_register, decide_True by done. set_solver.
  - rewrite (bind_inr _ _ _ _ _ (serve_private_spec ws uid (p_time setup) rounds s1 Hu)). cbn [fst snd hub outbox].
    split_and!; [done..| |].
    + intros Ee. by rewrite Ee, p_served_all.
    + intros ->. apply close_private_gone.
Qed.
End HandshakeFacts.

(** ** Sessions are runs of the gateway *)

(** The other tasks of a round make steps of the gateway. *)
Definition others_run (f : Hub -> Hub) : Prop := forall h, rtc hub_step h (f h).
Lemma run_others_steps rounds h : Forall (fun rd => others_run (others rd)) rounds -> rtc hub_step h (run_others rounds h).
Proof. intros Ho. revert h. induction Ho as [|rd rounds Hrd _ IH]; intros h; [apply rtc_refl|]. cbn. etrans; [apply Hrd|apply IH]. Qed.
Lemma p_run_others_steps rounds h : Forall (fun rd => others_run (p_others rd)) rounds -> rtc hub_step h (p_run_others rounds h).
Proof. intros Ho. revert h. induction Ho as [|rd rounds Hrd _ IH]; intros h; [apply rtc_refl|]. cbn. etrans; [apply Hrd|apply IH]. Qed.
Lemma Forall_served (Q : PublicRound -> Prop) rounds : Forall Q rounds -> Forall Q (served_rounds rounds).
Proof. induction 1 as [|rd rounds Hrd _ IH]; [constructor|]. cbn. constructor; [done|]. destruct (leaves rd); [constructor|done]. Qed.
Lemma Forall_p_served (Q : PrivateRound -> Prop) rounds : Forall Q rounds -> Forall Q (p_served rounds).
Proof. induction 1 as [|rd rounds Hrd _ IH]; [constructor|]. cbn. constructor; [done|]. destruct (ends_session rd); [constructor|done]. Qed.

(** What a session does to the hub, interleaved with what the others do, is a
    run of the step relation of the gateway: a public session that could
    subscribe, and a private one whose client could be greeted. *)
Theorem sessions_run_gateway :
  (forall ws symbol setup rounds s, accepting setup = inr tt -> is_subscribed setup = true -> setup_uncancelled setup ->
     Forall uncancelled rounds -> Forall (fun rd => others_run (others rd)) rounds -> (ws, symbol) ∉ clients (hub s) ->
     rtc hub_step (hub s) (hub (handle_public_orderbook ws symbol setup rounds s).1)) /\
  (forall ws uid ts rounds s, Forall p_uncancelled rounds -> Forall (fun rd => others_run (p_others rd)) rounds ->
     (ws, uid) ∉ private_tasks (hub s) -> rtc hub_step (hub s) (hub (serve_private ws uid ts (inr tt) rounds s).1)).
Proof.
  split.
  - intros ws symbol setup rounds s Ha Hsub Hs Hu Ho Hf. rewrite handle_public_spec by done. cbn [fst hub].
    unfold public_opened. rewrite Hsub. eapply rtc_l; [by apply hub_open_public|].
    etrans; [by apply run_others_steps, Forall_served|].
    destruct (existsb leaves rounds); [apply rtc_once, hub_close_public|apply rtc_refl].
  - intros ws uid ts rounds s Hu Ho Hf. rewrite serve_private_spec by done. cbn [fst hub].
    eapply rtc_l; [by apply hub_open_private|].
    etrans; [by apply p_run_others_steps, Forall_p_served|].
    destruct (existsb ends_session rounds); [apply rtc_once, hub_close_private|apply rtc_refl].
Qed.

(** ** Subscribers *)

(** A round while the manager runs: the subscription is tried, and nothing is
    cancelled. *)
Definition undisturbed (rd : SubscriberRound) : Prop :=
  sr_running rd = true /\ Forall (fun m => m.1 = true) (sr_heard rd) /\ not_cancelled (sr_subscribing rd) /\
  not_cancelled (sr_ending rd) /\ sr_pause rd = inr tt /\ closing_uncancelled (sr_closing rd).
Definition heard_on (rd : SubscriberRound) : list jval :=
  match sr_subscribing rd with inr _ => iter_messages true (sr_heard rd).*2 | inl _ => [] end.

Lemma listen_spec checked heard ending s : Forall (fun m => m.1 = true) heard ->
  listen checked heard ending s = (sends s (iter_messages true heard.*2), ending).
Proof.
  intros Hh. revert s. induction Hh as [|[? raw] heard [= ->] _ IH]; intros s; cbn [listen].
  { by rewrite sends_nil. }
  unfold iter_messages in *. cbn [fmap list_fmap omap list_omap snd]. rewrite andb_false_r.
  destruct (iter_message true raw) as [msg|]; [|apply IH].
  unfold broadcast_message. rewrite (bind_inr _ _ _ _ _ (send_json_ok msg s)), IH, sends_sends. done.
Qed.
Lemma subscriber_round_spec checked rd s : undisturbed rd -> exists links,
  subscriber_round checked rd s = (MkEndpoint (hub s) (outbox s ++ heard_on rd) links (next_link s + 1), inr false) /\
  (sr_subscribing rd = inr tt -> sr_closing rd = closes_well -> next_link s ∉ open_links s -> links = open_links s).
Proof.
  intros (H1 & H2 & H3 & H4 & H5 & H6). unfold subscriber_round, heard_on, not_cancelled in *. rewrite H1. cbn [negb].
  destruct (sr_subscribing rd) as [e|[]].
  - exists ({[next_link s]} ∪ open_links s). split; [|done]. rewrite app_nil_r.
    rewrite (bind_inr (catch (subscribe (inl e))) _ s (MkEndpoint (hub s) (outbox s) ({[next_link s]} ∪ open_links s) (next_link s + 1)) (inl e) eq_refl).
    unfold subscriber_failed. rewrite H5. by destruct e.
  - set (s1 := MkEndpoint (hub s) (outbox s) ({[next_link s]} ∪ open_links s) (next_link s + 1)).
    rewrite (bind_inr (catch (subscribe (inr tt))) _ s s1 (inr (next_link s)) eq_refl).
    exists (links_after (next_link s) (sr_closing rd) (open_links s1)). split.
    + unfold try_finally, try_except.
      assert (El : (_ ← listen checked (sr_heard rd) (sr_ending rd); mret false) s1 =
        (sends s1 (iter_messages true (sr_heard rd).*2), match sr_ending rd with inl e => inl e | inr _ => inr false end)).
      { unfold mbind, prog_bind. rewrite listen_spec by done. by destruct (sr_ending rd). }
      rewrite El. destruct (sr_ending rd) as [e|[]]; [|by rewrite unsubscribe_quietly].
      assert (Ef : subscriber_failed rd e (sends s1 (iter_messages true (sr_heard rd).*2)) =
        (sends s1 (iter_messages true (sr_heard rd).*2), inr false)) by (unfold subscriber_failed; rewrite H5; by destruct e).
      rewrite Ef. by rewrite unsubscribe_quietly.
    + intros _ -> Hn. cbn. set_solver.
Qed.

(** The subscribers of the manager lose nothing they hear and outlive every
    error.  While the manager runs and nothing is cancelled, a task broadcasts
    exactly the messages of its successful subscriptions, in order, and is not
    over, whichever subscriptions fail and however listening ends; if all of
    them succeed and close well, no connection to Redis stays behind.  What is
    published between two subscriptions is not in any of them. *)
Theorem subscriber_correct checked rounds s : Forall undisturbed rounds ->
  let r := subscriber_loop checked rounds s in
  r.2 = inr false /\ outbox r.1 = outbox s ++ concat (heard_on <$> rounds) /\
  (Forall (fun rd => sr_subscribing rd = inr tt /\ sr_closing rd = closes_well) rounds ->
     (forall n, n ∈ open_links s -> n < next_link s) -> open_links r.1 = open_links s).
Proof.
  intros Hu. revert s. induction Hu as [|rd rounds Hrd _ IH]; intros s r; [by rewrite app_nil_r|]. unfold r.
  destruct (subscriber_round_spec checked rd s Hrd) as (links & E & Hl). cbn [subscriber_loop].
  rewrite (bind_inr _ _ _ _ _ E). destruct (IH (MkEndpoint (hub s) (outbox s ++ heard_on rd) links (next_link s + 1))) as (I1 & I2 & I3).
  split_and!; [done| |].
  - rewrite I2. cbn [outbox fmap list_fmap concat]. by rewrite app_assoc.
  - intros [[H1 H2] Hc]%Forall_cons Hb. rewrite I3; [|done|].
    + cbn. apply Hl; [done..|]. intros Hn%Hb. lia.
    + cbn. rewrite Hl; [intros n Hn%Hb; lia|done..|]. intros Hn%Hb. lia.
Qed.
(** It ends when it is cancelled while it listens, or finds the manager
    stopped, and then closes its subscription. *)
Theorem subscriber_ends checked rd rounds s : closing_uncancelled (sr_closing rd) ->
  Forall (fun m => m.1 = true) (sr_heard rd) ->
  sr_running rd = false \/ sr_running rd = true /\ sr_subscribing rd = inr tt /\ sr_ending rd = inl CancelledError ->
  let r := subscriber_loop checked (rd :: rounds) s in
  r.2 = inr true /\ (sr_closing rd = closes_well -> next_link s ∉ open_links s -> open_links r.1 = open_links s).
Proof.
  intros Hc Hh H r. unfold r. cbn [subscriber_loop]. destruct H as [H|(H1 & H2 & H3)].
  { rewrite (bind_inr (subscriber_round checked rd) _ s s true); [done|]. unfold subscriber_round. by rewrite H. }
  set (s1 := MkEndpoint (hub s) (outbox s) ({[next_link s]} ∪ open_links s) (next_link s + 1)).
  rewrite (bind_inr _ _ s (with_links (links_after (next_link s) (sr_closing rd)) (sends s1 (iter_messages true (sr_heard rd).*2))) true).
  - split; [done|]. intros -> Hn. cbn. set_solver.
  - unfold subscriber_round. rewrite H1, H2. cbn [negb].
    rewrite (bind_inr (catch (subscribe (inr tt))) _ s s1 (inr (next_link s)) eq_refl). unfold try_finally, try_except.
    assert (El : (_ ← listen checked (sr_heard rd) (sr_ending rd); mret false) s1 =
      (sends s1 (iter_messages true (sr_heard rd).*2), inl CancelledError)).
    { apply bind_inl. by rewrite listen_spec, H3. }
    rewrite El. cbn [subscriber_failed mret prog_ret]. by rewrite unsubscribe_quietly.
Qed.

(** ** A session of two rounds, a client that leaves at once, and a broken one *)

Definition demo_endpoint : Endpoint := MkEndpoint (start_subscribers ["BTC/USD"] new_hub) [] ∅ 0.
Definition demo_setup : PublicSetup :=
  MkPublicSetup (inr tt) (inr (JObj [("event", JStr "orderbook_snapshot")])) (inr tt) (inr tt) closes_well.
Definition demo_trade : jval := JObj [("event", JStr "trade")].
Definition demo_rounds : list PublicRound :=
  [MkRound id (inr (Some (MkRaw "message" (RJson demo_trade)))) (inr tt)
     (inr (JObj [("action", JStr "ping")])) (inr tt) 7;
   MkRound id (inl TimeoutError) (inr tt) (inl OtherError) (inr tt) 8;
   MkRound id (inl TimeoutError) (inr tt) (inl WebSocketDisconnect) (inr tt) 9].
Lemma demo_uncancelled : Forall uncancelled demo_rounds.
Proof. repeat constructor; discriminate. Qed.
Lemma demo_setup_uncancelled : setup_uncancelled demo_setup.
Proof. repeat split; discriminate. Qed.

Lemma public_session_correct_witness :
  outbox (handle_public_orderbook 5 "BTC/USD" demo_setup demo_rounds demo_endpoint).1 =
    [JObj [("event", JStr "orderbook_snapshot")]; demo_trade; pong 7] /\
  open_links (handle_public_orderbook 5 "BTC/USD" demo_setup demo_rounds demo_endpoint).1 = ∅.
Proof.
  destruct (public_session_correct 5 "BTC/USD" demo_setup demo_rounds demo_endpoint eq_refl demo_setup_uncancelled
    demo_uncancelled) as (H1 & H2 & H3 & _).
  split; [rewrite H2; vm_compute; reflexivity|]. apply H3; [rewrite H1; vm_compute; reflexivity|reflexivity..|].
  vm_compute. discriminate.
Defined.

Definition demo_private_rounds : list PrivateRound :=
  [MkPrivateRound id (inr (JObj [("action", JStr "ping")])) (inr tt) 7; MkPrivateRound id (inr (JInt 3)) (inr tt) 8].
Definition demo_private_setup (greeting : outcome unit) : PrivateSetup :=
  MkPrivateSetup (inr tt) (inr tt) (Says demo_hello) (inr tt) (inr tt) greeting 3.
Lemma private_session_correct_witness :
  let session greeting := private_session (fun _ => "error") demo_accounts 1700000000 demo_no_headers (demo_private_setup greeting) 42
    demo_private_rounds demo_endpoint in
  outbox (session (inr tt)).1 = [auth_required 3; auth_ok 1 3; pong 7] /\
  42 ∈ connections 1 (private_connections (manager (hub (session (inl WebSocketDisconnect)).1))).
Proof.
  assert (Hu : Forall p_uncancelled demo_private_rounds) by (repeat constructor; discriminate).
  assert (Hs : forall g, p_setup_uncancelled (demo_private_setup g)) by (intros g; repeat split; discriminate).
  pose proof (private_session_correct (fun _ => "error") demo_accounts 1700000000 demo_no_headers (demo_private_setup (inr tt)) 42
    demo_private_rounds demo_endpoint eq_refl (Hs _) Hu) as H1.
  pose proof (private_session_correct (fun _ => "error") demo_accounts 1700000000 demo_no_headers
    (demo_private_setup (inl WebSocketDisconnect)) 42 demo_private_rounds demo_endpoint eq_refl (Hs _) Hu) as H2.
  assert (E : forall g, admitted demo_accounts 1700000000 demo_no_headers (demo_private_setup g) 42 (manager (hub demo_endpoint)) = Some 1)
    by (intros g; vm_compute; reflexivity).
  cbv zeta in H1, H2. rewrite E in H1, H2. destruct H1 as (_ & _ & Ho & _). destruct H2 as (_ & _ & _ & Hr & _).
  split; [rewrite Ho; vm_compute; reflexivity|exact Hr].
Defined.
