(* ===== verification/Api.v ===== *)
(** * The HTTP API: app/api/, app/schemas/, app/core/exceptions.py

    What FastAPI runs for a request: the dependencies (authentication, then the
    permission, or the admin's token), the pydantic validators, the service in
    the request's database session, whose commit and refresh may fail
    ([Connection]), and the mapping of exceptions to status codes.  A request body is a typed record; one whose JSON does not have
    these types is answered 422 like one the validators refuse. *)

From Stdlib Require Import ZArith Lia Bool Ascii SpecFloat.
From stdpp Require Import base tactics option list strings gmap sets sorting.
From S2P Require Import Prelude Float64 PyDecimal Models RedisIface OrderBook RateLimit World Pubsub Balance OrderRepo OrderService Sha256 Auth MarketData Login.
#[local] Open Scope Z_scope.

(** ** Errors as responses *)

(** The handlers of core/exceptions.py: the class attribute [status_code], and
    500 for everything else. *)
Definition status_of (e : exn) : Z :=
  match e with
  | AppError c _ => c
  | AuthenticationError _ | InvalidSignatureError | ExpiredTimestampError | MissingApiKeyError | RevokedApiKeyError => 401
  | InsufficientPermissionsError _ => 403
  | RateLimitExceededError _ _ _ => 429
  | _ => 500
  end.
Definition code_of (e : exn) : string :=
  match e with
  | AppError _ c => c
  | AuthenticationError _ => "unauthorized"
  | InvalidSignatureError => "invalid_signature"
  | ExpiredTimestampError => "expired_timestamp"
  | MissingApiKeyError => "missing_api_key"
  | RevokedApiKeyError => "revoked_api_key"
  | InsufficientPermissionsError _ => "insufficient_permissions"
  | RateLimitExceededError _ _ _ => "rate_limit_exceeded"
  | _ => "internal_error"
  end.
(** FastAPI's own error for a body or parameter that does not validate. *)
Definition RequestValidationError : exn := AppError 422 "request_validation".
Definition InsufficientBalanceHTTPError : exn := AppError 402 "insufficient_balance".
Definition OrderNotFoundHTTPError : exn := AppError 404 "order_not_found".
Definition OrderNotCancelableHTTPError : exn := AppError 409 "order_not_cancelable".
Definition OrderValidationHTTPError : exn := AppError 400 "order_validation_error".
Definition TradingPairNotFoundHTTPError : exn := AppError 404 "trading_pair_not_found".
Definition UserNotFoundHTTPError : exn := AppError 404 "user_not_found".

(** ** schemas/order.py

    [time_in_force] and [post_only], which nothing reads, are left out. *)

Record SLTPConfigSchema := MkSLTPSchema {
  sc_type : string;
  sc_stop_price : option decimal;
  sc_price : option decimal;
  sc_quantity : option decimal
}.
Record OrderCreateRequest := MkCreateRequest {
  cr_symbol : string;
  cr_side : OrderSide;
  cr_type : OrderType;
  cr_price : option decimal;
  cr_stop_price : option decimal;
  cr_trailing_delta : option decimal;
  cr_quantity : decimal;
  cr_client_order_id : option string;
  cr_iceberg_visible_quantity : option decimal;
  cr_iceberg_hidden_quantity : option decimal;
  cr_sl : option SLTPConfigSchema;
  cr_tp : option SLTPConfigSchema
}.
Record OrderBulkCreateRequest := MkBulkRequest { br_bulk_id : option string; br_orders : list OrderCreateRequest }.
Record OrderModifyRequest := MkModifyRequest { mr_price : decimal; mr_quantity : decimal }.
Record OrderBulkCancelRequest := MkBulkCancel {
  bc_order_ids : option (list Z);
  bc_symbol : option string;
  bc_cancel_all : bool
}.

Definition len_between (lo hi : nat) (s : string) : bool :=
  ((lo <=? String.length s) && (String.length s <=? hi))%nat.
(** The validator [must_be_positive] of an optional field. *)
Definition must_be_positive (o : option decimal) : bool :=
  match o with Some v => negb (dec_leb v dec_zero) | None => true end.
Definition validate_sltp (c : SLTPConfigSchema) : bool :=
  str_in (sc_type c) ["stop_market"; "stop_limit"; "limit"]
  && must_be_positive (sc_stop_price c) && must_be_positive (sc_price c) && must_be_positive (sc_quantity c).
Definition opt_all {A} (p : A -> bool) (o : option A) : bool := match o with Some a => p a | None => true end.

(** White space around texts is stripped, then the constraints are checked. *)
Definition validate_create (r : OrderCreateRequest) : option OrderCreateRequest :=
  let symbol := strip (cr_symbol r) in
  let client_order_id := strip <$> cr_client_order_id r in
  if len_between 3 20 symbol
     && must_be_positive (cr_price r) && must_be_positive (cr_stop_price r) && must_be_positive (cr_trailing_delta r)
     && dec_ltb dec_zero (cr_quantity r) && opt_all (len_between 0 64) client_order_id
     && opt_all validate_sltp (cr_sl r) && opt_all validate_sltp (cr_tp r)
  then Some (MkCreateRequest symbol (cr_side r) (cr_type r) (cr_price r) (cr_stop_price r) (cr_trailing_delta r)
               (cr_quantity r) client_order_id (cr_iceberg_visible_quantity r) (cr_iceberg_hidden_quantity r)
               (cr_sl r) (cr_tp r))
  else None.
Definition validate_bulk (r : OrderBulkCreateRequest) : option OrderBulkCreateRequest :=
  let bulk_id := strip <$> br_bulk_id r in
  if opt_all (len_between 0 36) bulk_id && ((1 <=? length (br_orders r)) && (length (br_orders r) <=? 50))%nat
  then MkBulkRequest bulk_id <$> mapM validate_create (br_orders r)
  else None.
Definition validate_modify (r : OrderModifyRequest) : option OrderModifyRequest :=
  if dec_ltb dec_zero (mr_price r) && dec_ltb dec_zero (mr_quantity r) then Some r else None.

Definition sltp_config (c : SLTPConfigSchema) : SLTPConfig :=
  MkSLTP (sc_type c) (sc_stop_price c) (sc_price c) (sc_quantity c).
Definition request_to_dto (req : OrderCreateRequest) (bulk_id : option string) : OrderCreateDTO :=
  MkDTO (cr_symbol req) (OrderSide_value (cr_side req)) (OrderType_value (cr_type req)) (cr_price req)
    (cr_stop_price req) (cr_trailing_delta req) (cr_quantity req) (cr_iceberg_visible_quantity req)
    (cr_iceberg_hidden_quantity req) (sltp_config <$> cr_sl req) (sltp_config <$> cr_tp req)
    (cr_client_order_id req) bulk_id.

(** ** Responses *)

Record OrderResponse := MkOrderResponse {
  or_order : Order;                       (* the columns, passed through *)
  or_remaining_quantity : decimal;
  or_avg_fill_price : option decimal
}.
Definition order_to_response (o : Order) : OrderResponse :=
  MkOrderResponse o (remaining_quantity o) (avg_fill_price o).
Record OrderBulkCreateResponse := MkBulkResponse {
  bo_bulk_id : string;
  bo_result : string;
  bo_total : Z;
  bo_succeeded : Z;
  bo_orders : list OrderResponse;
  bo_errors : list string                 (* the codes *)
}.
Record BalanceResponse := MkBalanceResponse {
  rb_asset : string;
  rb_total : decimal;
  rb_locked : decimal;
  rb_available : decimal
}.
Definition balance_response (b : Balance) : BalanceResponse :=
  MkBalanceResponse (b_asset b) (total_balance b) (locked_balance b) (available_balance b).

(** [s.split(",")] *)
Fixpoint split_comma (s : string) : list string :=
  match s with
  | "" => [""]
  | String c s =>
      let parts := split_comma s in
      if (c =? ",")%char then "" :: parts
      else match parts with p :: ps => String c p :: ps | [] => [String c ""] end
  end.
Definition all_statuses := [PENDING; NEW; PARTIALLY_FILLED; FILLED; CANCELED; REJECTED; EXPIRED].
Definition OrderStatus_of (s : string) : option OrderStatus :=
  snd <$> list_find (fun x => OrderStatus_value x = s) all_statuses.

(** ** The order routes, in the order of their declaration *)

Inductive order_route := PlaceRoute | BulkRoute | ModifyRoute | CancelRoute | BulkCancelRoute | ListRoute.
(** The path below the prefix: a text, or the parameter [{order_id}]. *)
Inductive pattern := Exactly (s : string) | Segment.
Definition path_matches (p : pattern) (rest : string) : bool :=
  match p with
  | Exactly s => String.eqb rest s
  | Segment =>
      match rest with
      | String "/" s => negb (String.eqb s "") && forallb (fun c => negb (c =? "/")%char) (String.list_ascii_of_string s)
      | _ => false
      end
  end.
Definition order_routes : list (string * pattern * order_route) := [
  ("POST", Exactly "", PlaceRoute);
  ("POST", Exactly "/bulk", BulkRoute);
  ("PUT", Segment, ModifyRoute);
  ("DELETE", Segment, CancelRoute);
  ("DELETE", Exactly "/bulk", BulkCancelRoute);
  ("GET", Exactly "", ListRoute)
].
(** The first route that matches method and path. *)
Definition dispatch (method rest : string) : option order_route :=
  snd <$> head (filter (fun r => String.eqb r.1.1 method && path_matches r.1.2 rest = true) order_routes).

(** What a database connection may do to a request after its statements: fail to
    commit them, which leaves them rolled back, or fail to read a row back once
    they are committed. *)
Class Connection := { commit_fails : Database -> bool; refresh_fails : Database -> bool }.
Definition Connected : Connection := {| commit_fails _ := false; refresh_fails _ := false |}.

Section Api.
Context {R : Redis} {P : PgNumeric} {I : Interference} {F : Connection} {B : Bcrypt} {J : Jwt}.

(** The accounts, the exchange (whose Redis also holds the rate limits) and
    [time.time()]. *)
Record Server := MkServer { s_accounts : Accounts; s_world : World; s_clock : float64 }.
Abbreviation sprog := (prog Server exn).

Definition at_gateway {A} (m : prog Gateway exn A) : sprog A := fun s =>
  let '(g, r) := m (MkGateway (s_accounts s) (redis (s_world s)) (s_clock s)) in
  (MkServer (accounts g) (MkWorld (db (s_world s)) (g_redis g) (now_ms (s_world s))) (clock g), r).
Definition at_exchange {A} (m : wprog A) : sprog A := fun s =>
  let '(w, r) := m (s_world s) in (MkServer (s_accounts s) w (s_clock s), r).

Definition on_connection (fails : Database -> bool) : sprog unit :=
  d ← gets (fun s => db (s_world s)); if fails d then raise DBError else mret tt.
(** [await session.commit()] and [await session.refresh(row)]. *)
Definition session_commit : sprog unit := on_connection commit_fails.
Definition session_refresh : sprog unit := on_connection refresh_fails.

(** The statements of a request up to its commit.  An exception before the
    commit has gone through rolls the tables back (explicitly, or when the
    session is closed), and never Redis. *)
Definition in_session {A} (m : sprog A) : sprog A := fun s =>
  match (a ← m; _ ← session_commit; mret a) s with
  | (s', inl e) => (MkServer (s_accounts s) (MkWorld (db (s_world s)) (redis (s_world s')) (now_ms (s_world s')))
                      (s_clock s'), inl e)
  | r => r
  end.
(** ... and the row read back for the response: too late to roll back. *)
Definition then_refreshed {A} (m : sprog A) : sprog A := a ← m; _ ← session_refresh; mret a.
(** [except E as e: raise E'] *)
Definition reraise {A} (f : exn -> exn) (m : sprog A) : sprog A := try_except m (fun e => raise (f e)).

(** What the client receives: a status and, on success, a body. *)
Definition respond {A} (ok : Z) (m : sprog A) (s : Server) : Server * (Z * option A) :=
  match m s with
  | (s', inr a) => (s', (ok, Some a))
  | (s', inl e) => (s', (status_of e, None))
  end.

(** ** Dependencies *)

(** [require_permission(perm)] with the user of the key. *)
Definition guarded {A} (perm : string) (rq : HttpRequest) (handler : Z -> sprog A) : sprog A :=
  rs ← at_gateway (authenticate_request rq);
  _ ← at_gateway (g_lift (require_permission perm rs));
  handler (rs_user_id rs).
Definition admin_only {A} (authorization : option string) (handler : User -> sprog A) : sprog A :=
  admin ← at_gateway (admin_user authorization);
  handler admin.
Definition validated {A B} (o : option A) (handler : A -> sprog B) : sprog B :=
  match o with Some a => handler a | None => raise RequestValidationError end.

(** ** Orders *)

Definition place_http_error (e : exn) : exn :=
  match e with
  | InsufficientBalanceError _ _ _ _ => InsufficientBalanceHTTPError
  | OrderValidationError _ => OrderValidationHTTPError
  | e => e
  end.
Definition place_order_route (rq : HttpRequest) (body : OrderCreateRequest) : sprog OrderResponse :=
  guarded "trade" rq (fun user_id =>
    validated (validate_create body) (fun req =>
      order ← reraise place_http_error
        (then_refreshed (in_session (at_exchange (place_order user_id (request_to_dto req None)))));
      mret (order_to_response order))).

(** [fresh_id]: the uuid the service draws when the request has no [bulk_id]. *)
Definition bulk_rejected (body : OrderBulkCreateRequest) (code : string) : OrderBulkCreateResponse :=
  MkBulkResponse (default "" (br_bulk_id body)) "rejected" (Z.of_nat (length (br_orders body))) 0 [] [code].
Definition place_bulk_route (rq : HttpRequest) (body : OrderBulkCreateRequest) (fresh_id : string)
    : sprog OrderBulkCreateResponse :=
  guarded "trade" rq (fun user_id =>
    validated (validate_bulk body) (fun req =>
      let dtos := (fun r => request_to_dto r (br_bulk_id req)) <$> br_orders req in
      let bulk_id := match br_bulk_id req with
                     | Some b => if String.eqb b "" then fresh_id else b
                     | None => fresh_id
                     end in
      try_except
        (os ← in_session (at_exchange (place_bulk_orders user_id dtos bulk_id));
         mret (MkBulkResponse (match os with o :: _ => default "" (o_bulk_id o) | [] => "" end) "success"
                 (Z.of_nat (length (br_orders req))) (Z.of_nat (length os)) (order_to_response <$> os) []))
        (fun e => match e with
                  | InsufficientBalanceError _ _ _ _ => mret (bulk_rejected req "insufficient_balance")
                  | OrderValidationError _ => mret (bulk_rejected req "validation_error")
                  | e => raise e
                  end))).

Definition modify_http_error (e : exn) : exn :=
  match e with
  | OrderNotFoundError _ _ => OrderNotFoundHTTPError
  | OrderNotCancelableError _ _ | CannotModifyType _ _ => OrderNotCancelableHTTPError
  | e => place_http_error e
  end.
(** [order_id]: the path parameter, when it is an integer. *)
Definition modify_order_route (rq : HttpRequest) (order_id : option Z) (body : OrderModifyRequest) : sprog OrderResponse :=
  guarded "trade" rq (fun user_id =>
    validated order_id (fun order_id =>
      validated (validate_modify body) (fun req =>
        order ← reraise modify_http_error
                  (then_refreshed (in_session (at_exchange (modify_order user_id order_id (mr_price req) (mr_quantity req)))));
        mret (order_to_response order)))).

Definition cancel_http_error (e : exn) : exn :=
  match e with
  | OrderNotFoundError _ _ => OrderNotFoundHTTPError
  | OrderNotCancelableError _ _ => OrderNotCancelableHTTPError
  | e => e
  end.
(** The response names the order and its status. *)
Definition cancel_order_route (rq : HttpRequest) (order_id : option Z) : sprog (Z * OrderStatus) :=
  guarded "trade" rq (fun user_id =>
    validated order_id (fun order_id =>
      order ← reraise cancel_http_error (then_refreshed (in_session (at_exchange (cancel_order user_id order_id))));
      mret (o_id order, o_status order))).
Definition cancel_bulk_route (rq : HttpRequest) (body : OrderBulkCancelRequest) (fresh_id : string) : sprog (list Z) :=
  guarded "trade" rq (fun user_id =>
    in_session (at_exchange (cancel_bulk_orders user_id (bc_order_ids body) (bc_symbol body) (bc_cancel_all body) fresh_id))).

(** OrderRepository.list_user_orders; the newest order has the largest id. *)
Definition list_user_orders (user_id : Z) (symbol : option string) (statuses : option (list OrderStatus))
    (offset limit : Z) : wprog (list Order) :=
  from_db (fun d => page offset limit (reverse (merge_sort id_le (snd <$> filter (fun ko =>
    (o_user_id ko.2 =? user_id) && matches symbol (o_symbol ko.2)
    && match statuses with Some (s :: ss) => bool_decide (o_status ko.2 ∈ s :: ss) | _ => true end = true)
    (map_to_list (orders d)))))).
Definition page_ok (offset limit : Z) : bool := (0 <=? offset) && (1 <=? limit) && (limit <=? 500).
Definition list_orders_route (rq : HttpRequest) (symbol status_filter : option string) (offset limit : Z)
    : sprog (list OrderResponse) :=
  guarded "read" rq (fun user_id =>
    if negb (page_ok offset limit) then raise RequestValidationError
    else
      statuses ← match header status_filter with
                 | Some f => match mapM (fun s => OrderStatus_of (strip s)) (split_comma f) with
                             | Some ss => mret (Some ss)
                             | None => raise OrderValidationHTTPError
                             end
                 | None => mret None
                 end;
      os ← at_exchange (list_user_orders user_id symbol statuses offset limit);
      mret (order_to_response <$> os)).

(** ** Balances and pairs *)

Definition wanted_assets (asset : string) : list string := (fun a => upper (strip a)) <$> split_comma asset.
Definition get_balance_route (rq : HttpRequest) (asset : option string) : sprog (list BalanceResponse) :=
  guarded "read" rq (fun user_id =>
    bs ← at_exchange (get_all_balances user_id);
    mret (balance_response <$>
            match header asset with
            | Some a => filter (fun b => upper (b_asset b) ∈ wanted_assets a) bs
            | None => bs
            end)).

Definition symbol_le (a b : TradingPair) : Prop := str_le (p_symbol a) (p_symbol b).
#[local] Instance symbol_le_dec a b : Decision (symbol_le a b).
Proof. unfold symbol_le. apply _. Defined.
Definition list_active : wprog (list TradingPair) :=
  from_db (fun d => merge_sort symbol_le (snd <$> filter (fun kp => p_is_active kp.2 = true) (map_to_list (pairs d)))).
Definition list_public_pairs : sprog (list TradingPair) := at_exchange list_active.

(** ** The admin routes *)

Definition create_user_route (authorization : option string) (email password salt : string) (is_admin : bool) : sprog User :=
  admin_only authorization (fun _ =>
    if negb (8 <=? String.length password)%nat then raise RequestValidationError
    else then_refreshed (in_session (at_gateway (create_user email (hash_password password salt) is_admin)))).
Definition get_user_route (authorization : option string) (user_id : Z) : sprog User :=
  admin_only authorization (fun _ =>
    user ← at_gateway (gets (fun g => users (accounts g) !! user_id));
    match user with Some u => mret u | None => raise UserNotFoundHTTPError end).
Definition toggle_user_route (authorization : option string) (user_id : Z) (is_active : bool) : sprog User :=
  admin_only authorization (fun _ =>
    user ← in_session (at_gateway (toggle_user_active user_id is_active));
    match user with Some u => _ ← session_refresh; mret u | None => raise UserNotFoundHTTPError end).
Definition adjust_http_error (e : exn) : exn :=
  match e with InsufficientBalanceError _ _ _ _ => InsufficientBalanceHTTPError | e => e end.
Definition adjust_balance_route (authorization : option string) (user_id : Z) (asset : string) (delta : decimal)
    (reason : string) : sprog BalanceResponse :=
  admin_only authorization (fun _ =>
    b ← reraise adjust_http_error (then_refreshed (in_session (at_exchange (adjust_balance user_id asset delta reason))));
    mret (balance_response b)).
Definition user_balances_route (authorization : option string) (user_id : Z) : sprog (list BalanceResponse) :=
  admin_only authorization (fun _ =>
    bs ← at_exchange (get_all_balances user_id); mret (balance_response <$> bs)).
Definition create_api_key_route (authorization : option string) (user_id : Z) (permissions : list string)
    (rate_limit_per_min : Z) (raw_key raw_secret : string) : sprog (ApiKey * string) :=
  admin_only authorization (fun _ =>
    if negb (forallb (fun p => str_in p ["trade"; "read"; "ws"]) permissions) then raise RequestValidationError
    else then_refreshed (in_session (at_gateway (create_api_key user_id permissions rate_limit_per_min raw_key raw_secret)))).
Definition revoke_api_key_route (authorization : option string) (api_key_id : Z) : sprog bool :=
  admin_only authorization (fun _ => in_session (at_gateway (revoke_api_key api_key_id))).
Definition create_trading_pair_route (authorization : option string) (symbol base_asset quote_asset : string)
    (min_lot_size max_lot_size tick_size : decimal) : sprog TradingPair :=
  admin_only authorization (fun _ =>
    if len_between 3 20 symbol && dec_ltb dec_zero min_lot_size && dec_ltb dec_zero max_lot_size
       && dec_ltb dec_zero tick_size
    then then_refreshed
           (in_session (at_exchange (create_trading_pair symbol base_asset quote_asset min_lot_size max_lot_size tick_size)))
    else raise RequestValidationError).
Definition toggle_pair_route (authorization : option string) (pair_id : Z) (is_active : bool) : sprog TradingPair :=
  admin_only authorization (fun _ =>
    pair ← in_session (at_exchange (toggle_pair_active pair_id is_active));
    match pair with Some p => _ ← session_refresh; mret p | None => raise TradingPairNotFoundHTTPError end).
Definition list_trading_pairs_route (authorization : option string) : sprog (list TradingPair) :=
  admin_only authorization (fun _ => at_exchange list_active).

(** ** The market emulator *)

Definition inject_trade_route (authorization : option string) (symbol : string) (price quantity : decimal) (side : string)
    : sprog unit :=
  admin_only authorization (fun _ =>
    if negb (str_in side ["buy"; "sell"]) then raise RequestValidationError
    else at_exchange (publish_trade symbol (-1) (f_of_dec price) (f_of_dec quantity) side None None)).

(** The random draws of one step; the shock depends on the deviation asked for. *)
Record Draw := MkDraw { dr_gauss : float64 -> float64; dr_quantity : float64; dr_buy : bool }.
Definition price_floor : float64 := f_of_dec (Dec 1 (-2)).
Definition walk_step (vol price : float64) (d : Draw) : float64 :=
  py_max price_floor (f_mul price (f_add (f_of_Z 1) (dr_gauss d vol))).
Fixpoint walk (symbol : string) (vol price : float64) (draws : list Draw) : wprog unit :=
  match draws with
  | [] => mret tt
  | d :: draws =>
      let price := walk_step vol price d in
      _ ← publish_trade symbol (-1) price (dr_quantity d) (if dr_buy d then "buy" else "sell") None None;
      walk symbol vol price draws
  end.
(** The background task; one draw per step. *)
Definition run_random_walk (symbol : string) (start_price volatility_pct : decimal) (draws : list Draw) : wprog unit :=
  walk symbol (f_div (f_of_dec volatility_pct) (f_of_Z 100)) (f_of_dec start_price) draws.
End Api.
