(* ===== verification/ApiSpec.v ===== *)
(** * What the HTTP API guarantees

    Every trading route is behind the signature, the rate limit and the
    permission of an API key; a signed order goes all the way to the queue, and
    a signed cancellation to the tables, the book and the queue, also when the
    connection fails between the two. *)

From Stdlib Require Import ZArith Lia Bool SpecFloat.
From stdpp Require Import base tactics option list strings gmap sets sorting.
From S2P Require Import Prelude Float64 FloatPos PyDecimal Models RedisIface OrderBook Queues OrdersIndex RateLimit World Pubsub Balance OrderRepo OrderService OrderSpec CancelSpec Sha256 Auth MarketData Login Api.
#[local] Open Scope Z_scope.

Section ApiSpec.
Context {R : Redis} {RS : RedisSpec R}.

Definition gateway_of (s : Server) : Gateway := MkGateway (s_accounts s) (redis (s_world s)) (s_clock s).

(** What authentication may change: the bucket of a key and when the key was
    last used. *)
Record authenticated_as (key : string) (acc : Accounts -> Accounts) (s s1 : Server) : Prop := {
  aa_accounts : s_accounts s1 = acc (s_accounts s);
  aa_db : db (s_world s1) = db (s_world s);
  aa_now : now_ms (s_world s1) = now_ms (s_world s);
  aa_clock : s_clock s1 = s_clock s;
  aa_redis : only_zset (ratelimit_key key) (view (redis (s_world s))) (view (redis (s_world s1)))
}.
Definition admitted (key : string) (k : ApiKey) (s : Server) : Server -> Prop :=
  authenticated_as key (used_at (ak_id k) (s_clock s)) s.

(** Authentication as a dependency of a route. *)
Lemma dependency_decides rq s now : f_trunc (s_clock s) = Some now ->
  (forall key k, authentic (gateway_of s) now rq key k -> window_count (gateway_of s) key < ak_rate_limit_per_min k ->
     exists s1, admitted key k s s1 /\ at_gateway (authenticate_request rq) s = (s1, inr (state_of key k))) /\
  (forall key k, authentic (gateway_of s) now rq key k -> ak_rate_limit_per_min k <= window_count (gateway_of s) key ->
     exists s1 e, authenticated_as key id s s1 /\ at_gateway (authenticate_request rq) s = (s1, inl e) /\
       (retry_defined (window_of (gateway_of s) key) 60 (s_clock s) -> status_of e = 429)) /\
  (~ (exists key k, authentic (gateway_of s) now rq key k) ->
     exists e, at_gateway (authenticate_request rq) s = (s, inl e) /\ status_of e ∈ [401; 500]).
Proof.
  intros Hnow. destruct (authenticate_decides rq (gateway_of s) now Hnow) as (Hin & Hover & Hno).
  unfold at_gateway. change (MkGateway _ _ _) with (gateway_of s). split_and!.
  - intros key k Ha Hl. destruct (Hin key k Ha Hl) as (st & E & Hz & _). rewrite E.
    eexists. split; [|reflexivity]. by split.
  - intros key k Ha Hl. destruct (Hover key k Ha Hl) as (st & e & E & Hz & _ & He). rewrite E.
    eexists _, e. split; [|split; [reflexivity|]]; [by split|]. intros Hd. by destruct (He Hd) as (retry & -> & _).
  - intros Ha. destruct (Hno Ha) as (e & E & He). rewrite E. exists e. split; [by destruct s as [? [] ?]|].
    destruct e; try done; cbn; set_solver.
Qed.

Lemma guarded_decides {A} perm rq (h : Z -> prog Server exn A) s now : f_trunc (s_clock s) = Some now ->
  (forall key k, authentic (gateway_of s) now rq key k -> window_count (gateway_of s) key < ak_rate_limit_per_min k ->
     exists s1, admitted key k s s1 /\
       guarded perm rq h s = if bool_decide (perm ∈ ak_permissions k) then h (ak_user_id k) s1
                             else (s1, inl (InsufficientPermissionsError perm))) /\
  (forall key k, authentic (gateway_of s) now rq key k -> ak_rate_limit_per_min k <= window_count (gateway_of s) key ->
     exists s1 e, authenticated_as key id s s1 /\ guarded perm rq h s = (s1, inl e) /\
       (retry_defined (window_of (gateway_of s) key) 60 (s_clock s) -> status_of e = 429)) /\
  (~ (exists key k, authentic (gateway_of s) now rq key k) ->
     exists e, guarded perm rq h s = (s, inl e) /\ status_of e ∈ [401; 500]).
Proof.
  intros Hnow. destruct (dependency_decides rq s now Hnow) as (Hin & Hover & Hno). unfold guarded. split_and!.
  - intros key k Ha Hl. destruct (Hin key k Ha Hl) as (s1 & Had & E). exists s1. split; [done|].
    rewrite (bind_inr _ _ _ _ _ E). unfold require_permission. cbn [rs_permissions rs_user_id state_of].
    case_bool_decide; unfold at_gateway, g_lift; run_prog; by destruct s1 as [? [] ?].
  - intros key k Ha Hl. destruct (Hover key k Ha Hl) as (s1 & e & Had & E & He). exists s1, e.
    by rewrite (bind_inl _ _ _ _ _ E).
  - intros Ha. destruct (Hno Ha) as (e & E & He). exists e. by rewrite (bind_inl _ _ _ _ _ E).
Qed.

(** A request of a key under its rate limit with the permission reaches the handler. *)
Lemma guarded_live {A} perm rq (h : Z -> prog Server exn A) s now key k :
  f_trunc (s_clock s) = Some now -> authentic (gateway_of s) now rq key k -> perm ∈ ak_permissions k ->
  window_count (gateway_of s) key < ak_rate_limit_per_min k ->
  exists s1, admitted key k s s1 /\ guarded perm rq h s = h (ak_user_id k) s1.
Proof.
  intros Hnow Ha Hp Hlim. destruct (proj1 (guarded_decides perm rq h s now Hnow) key k Ha Hlim) as (s1 & Had & E).
  exists s1. by rewrite bool_decide_eq_true_2 in E.
Qed.

(** C19: no trading route without the key's signature and permission.  A route
    behind [require_permission] runs its handler, as the key's user, on every
    authentic request of a key with the permission that is under its rate limit,
    in the state in which only the key's last use and bucket have changed.
    Every other request is refused without running the handler: 403 for a key
    without the permission; 429 over the limit, with only the bucket changed;
    and 401 (500 for a signature that is not ASCII) for a request that is not
    authentic, with nothing changed at all. *)
Theorem api_requires_permission {A} perm rq (h : Z -> prog Server exn A) s now : f_trunc (s_clock s) = Some now ->
  (forall key k, authentic (gateway_of s) now rq key k -> window_count (gateway_of s) key < ak_rate_limit_per_min k ->
     perm ∈ ak_permissions k ->
     exists s1, admitted key k s s1 /\ guarded perm rq h s = h (ak_user_id k) s1) /\
  (forall key k, authentic (gateway_of s) now rq key k -> window_count (gateway_of s) key < ak_rate_limit_per_min k ->
     perm ∉ ak_permissions k ->
     exists s1 e, admitted key k s s1 /\ guarded perm rq h s = (s1, inl e) /\ status_of e = 403) /\
  (forall key k, authentic (gateway_of s) now rq key k -> ak_rate_limit_per_min k <= window_count (gateway_of s) key ->
     exists s1 e, authenticated_as key id s s1 /\ guarded perm rq h s = (s1, inl e) /\
       (retry_defined (window_of (gateway_of s) key) 60 (s_clock s) -> status_of e = 429)) /\
  (~ (exists key k, authentic (gateway_of s) now rq key k) ->
     exists e, guarded perm rq h s = (s, inl e) /\ status_of e ∈ [401; 500]).
Proof.
  intros Hnow. destruct (guarded_decides perm rq h s now Hnow) as (Hin & Hrest). split; [|split; [|exact Hrest]].
  - intros key k Ha Hl Hp. by apply (guarded_live perm rq h s now).
  - intros key k Ha Hl Hp. destruct (Hin key k Ha Hl) as (s1 & Had & E). rewrite bool_decide_eq_false_2 in E by done.
    by eexists s1, _.
Qed.
End ApiSpec.

(** ** From the signed request to the queue *)

Lemma respond_inr {R : Redis} {A} ok (m : prog Server exn A) s s1 a : m s = (s1, inr a) -> respond ok m s = (s1, (ok, Some a)).
Proof. intros E. unfold respond. by rewrite E. Qed.
Lemma respond_inl {R : Redis} {A} ok (m : prog Server exn A) s s1 e : m s = (s1, inl e) -> respond ok m s = (s1, (status_of e, None)).
Proof. intros E. unfold respond. by rewrite E. Qed.

Section EndToEnd.
Context {R : Redis} {RS : RedisSpec R} {P : PgNumeric} {PS : PgNumericSpec P}.

(** The handler of an admitted order request, run to the answer. *)
Lemma placed_answer rq body req uid s s1 w' res :
  validate_create body = Some req ->
  respond 201 (place_order_route (I := NoInterference) (F := Connected) rq body) s =
    respond 201 (fun s => validated (validate_create body) (fun req =>
      order ← reraise place_http_error (then_refreshed (F := Connected) (in_session (F := Connected) (at_exchange
        (place_order (I := NoInterference) uid (request_to_dto req None)))));
      mret (order_to_response order)) s) s1 ->
  place_order (I := NoInterference) uid (request_to_dto req None) (s_world s1) = (w', res) ->
  respond 201 (place_order_route (I := NoInterference) (F := Connected) rq body) s =
    match res with
    | inr o => (MkServer (s_accounts s1) w' (s_clock s1), (201, Some (order_to_response o)))
    | inl e => (MkServer (s_accounts s1) (MkWorld (db (s_world s1)) (redis w') (now_ms w')) (s_clock s1),
                (status_of (place_http_error e), None))
    end.
Proof.
  intros Hbody -> E. rewrite Hbody. unfold respond. cbn [validated].
  unfold reraise, try_except, then_refreshed, in_session, at_exchange. run_prog. rewrite E. by destruct res.
Qed.


(** C18: a signed cancellation is served.  An authentic DELETE /orders/{id} of a
    key with the trade permission under its rate limit is answered 404 when the
    order is not one of the user's and 409 when it is not active, and nothing
    but the key's last use and bucket changes.  For an active order that is not
    a stop, the order leaves its side of the book and the open-order index and
    the cancel action is queued; and either the answer is 200 with the order and
    its new status, and the tables hold the cancellation (the funds unlocked, the
    order and its active children CANCELED, no other row changed); or it is 500:
    then the tables are as they were, because the snapshot of the book raised or
    the commit failed, or they hold the cancellation, because only reading the
    row back failed. *)
Theorem signed_cancel_is_served {F : Connection} rq oid s now key k :
  let d := db (s_world s) in
  let uid := ak_user_id k in
  let r := respond 200 (cancel_order_route rq (Some oid)) s in
  f_trunc (s_clock s) = Some now -> authentic (gateway_of s) now rq key k -> "trade" ∈ ak_permissions k ->
  window_count (gateway_of s) key < ak_rate_limit_per_min k ->
  (~ (exists o, orders d !! oid = Some o /\ o_user_id o = uid) -> exists s1, r = (s1, (404, None)) /\ admitted key k s s1) /\
  (forall o, orders d !! oid = Some o -> o_user_id o = uid -> is_active o = false ->
     exists s1, r = (s1, (409, None)) /\ admitted key k s s1) /\
  (forall o pr opn, orders d !! oid = Some o -> o_id o = oid -> o_user_id o = uid -> is_active o = true ->
     is_stop_type o = false -> pairs d !! o_symbol o = Some pr -> money (snd (cancel_unlock o pr)) ->
     balances_ok (balances d) -> represents (view (redis (s_world s))) opn -> opn !! oid = Some (uid, o_symbol o) ->
     exists s1 t' answer, r = (s1, answer) /\
       unlock_step (uid, fst (cancel_unlock o pr)) (dunits (snd (cancel_unlock o pr))) (balances d) t' /\
       ks_zset (view (redis (s_world s1))) (resting_key o) !! str_of_Z oid = None /\
       represents (view (redis (s_world s1))) (delete oid opn) /\
       fifo ORDERS_QUEUE (redis (s_world s1)) = fifo ORDERS_QUEUE (redis (s_world s)) ++
         [build_order_action_payload (cancel_payload o (now_ms (s_world s)))] /\
       let d' := MkDatabase t' (cancel_child oid <$> <[oid := with_status CANCELED o]> (orders d))
                   (next_order_id d) (trades d) (pairs d) in
       (answer = (200, Some (oid, CANCELED)) /\ db (s_world s1) = d' /\ commit_fails d' = false /\ refresh_fails d' = false \/
        answer = (500, None) /\ db (s_world s1) = d' /\ commit_fails d' = false /\ refresh_fails d' = true \/
        answer = (500, None) /\ db (s_world s1) = d /\
          (commit_fails d' = true \/ exists e, (get_book_snapshot (o_symbol o) 20 (redis (s_world s1))).2 = inl e))).
Proof.
  intros d uid r Hnow Ha Hperm Hlim.
  destruct (guarded_live "trade" rq (fun user_id => validated (Some oid) (fun order_id =>
      order ← reraise cancel_http_error (then_refreshed (in_session (at_exchange (cancel_order user_id order_id))));
      mret (o_id order, o_status order))) s now key k Hnow Ha Hperm Hlim) as (s1 & Had & E).
  assert (Er : forall w' res, cancel_order uid oid (s_world s1) = (w', res) ->
    r = respond 200 (fun s => (order ← reraise cancel_http_error (then_refreshed (in_session (fun s =>
          (MkServer (s_accounts s) w' (s_clock s), res)))); mret (o_id order, o_status order)) s) s1).
  { intros w' res Ec. subst r. unfold respond, cancel_order_route. rewrite E. cbn [validated].
    unfold reraise, try_except, then_refreshed, in_session, at_exchange, mbind, prog_bind. fold uid. by rewrite Ec. }
  clear E. clearbody r. destruct (Had) as [Hacc Hd Hn Hc [_ Hl Hs _ _ _]].
  destruct (cancel_service_cases uid oid (s_world s1)) as (H404 & H409 & Hok). rewrite Hd in H404, H409, Hok.
  split; [|split].
  - intros Hno. rewrite (Er _ _ (H404 Hno)). eexists. split; [reflexivity|]. by destruct s1 as [? [] ?].
  - intros o Ho Hu Hina. rewrite (Er _ _ (H409 o Ho Hu Hina)). eexists. split; [reflexivity|]. by destruct s1 as [? [] ?].
  - intros o pr opn Ho Hid Hu Hact Hst Hp Hm Hbal Hrep Hopn.
    destruct (Hok o pr opn Ho Hid Hu Hact Hst Hp Hm Hbal) as (w' & t' & res & Ec & Hun & Hdb & Hz & Hrep' & Hq & Hres);
      [by apply (represents_ext (view (redis (s_world s))))|done|].
    rewrite (Er _ _ Ec). clear Er Ec. set (d' := MkDatabase t' _ _ _ _) in *.
    rewrite Hn, (fifo_ext _ _ _ Hl) in Hq.
    unfold respond, reraise, try_except, then_refreshed, session_refresh, in_session, session_commit, on_connection. run_prog.
    destruct Hres as [->|(e & -> & He)]; cbn [s_world].
    + rewrite Hdb. destruct (commit_fails d') eqn:Ecf; cbn [s_world db].
      * eexists _, t', _. split; [reflexivity|]. cbn [s_world redis db]. split_and!; [done..|]. right. right. split_and!; [done..|by left].
      * rewrite Hdb. destruct (refresh_fails d') eqn:Erf; eexists _, t', _; (split; [reflexivity|]); cbn [s_world redis db];
          (split_and!; [done..|]); [right; left; by split_and!|left; split_and!; try done].
        by rewrite <- Hid.
    + destruct (snapshot_value_error _ _ _ _ He) as [msg ->]. eexists _, t', _. split; [reflexivity|].
      cbn [s_world redis db]. split_and!; [done..|]. right. right. split_and!; [done..|right; by eexists].
Qed.
End EndToEnd.

(** ** Routes and the emulator *)

(** DELETE /orders/bulk is declared after DELETE /orders/{order_id}, which
    matches its path: no request is ever dispatched to it. *)
Theorem bulk_cancel_unreachable method rest : dispatch method rest <> Some BulkCancelRoute.
Proof.
  unfold dispatch, order_routes. rewrite !filter_cons. cbn [fst snd].
  repeat (case_decide; [cbn; try congruence|]).
  - match goal with H : String.eqb "DELETE" method && path_matches (Exactly _) rest = true |- _ =>
      apply andb_true_iff in H as [<-%String.eqb_eq ->%String.eqb_eq] end.
    match goal with H : ~ _ && path_matches Segment _ = true |- _ => by destruct H end.
  - by cbn.
Qed.

(** A price the random walk prints: a trade of the symbol at 0.01 or more. *)
Definition printed_above_floor (symbol : string) (m : string * jval) : Prop :=
  fst m = trades_channel symbol /\
  exists p, jfield "price" (snd m) = Some (JFloat p) /\ f_leb price_floor p = true.
Lemma walk_step_floor vol price d : f_leb price_floor (walk_step vol price d) = true.
Proof.
  unfold walk_step, py_max. destruct (f_ltb _ _) eqn:E; [by apply f_ltb_leb|]. by apply f_leb_refl.
Qed.
(** The random walk prints exactly one trade per step, each at 0.01 or more,
    whatever is drawn (also when the product is not a number), and touches no
    table. *)
Theorem random_walk_prints {R : Redis} {RS : RedisSpec R} symbol start vol draws w :
  exists w' ms, run_random_walk symbol start vol draws w = (w', inr tt) /\ db w' = db w /\
    published (view (redis w')) = published (view (redis w)) ++ ms /\
    length ms = length draws /\ Forall (printed_above_floor symbol) ms.
Proof.
  unfold run_random_walk. generalize (f_div (f_of_dec vol) (f_of_Z 100)), (f_of_dec start). clear vol start. intros vol.
  revert w. induction draws as [|d draws IH]; intros w price; cbn [walk].
  { exists w, []. split_and!; try done. by rewrite app_nil_r. }
  set (p := walk_step vol price d). unfold publish_trade.
  destruct (publish_event_spec (trades_channel symbol) "trade"
    ([("symbol", JStr symbol); ("trade_id", JInt (-1)); ("price", JFloat p); ("quantity", JFloat (dr_quantity d));
      ("side", JStr (if dr_buy d then "buy" else "sell"))] ++ jopt "taker_order_id" JInt None ++ jopt "maker_order_id" JInt None) w)
    as (w1 & E & D & _ & L).
  rewrite (bind_inr _ _ _ _ _ E). destruct (IH w1 p) as (w2 & ms & E2 & D2 & L2 & N2 & F2).
  exists w2. eexists. split; [exact E2|]. split; [congruence|]. split; [rewrite L2, L, <- app_assoc; reflexivity|].
  split; [cbn; by rewrite N2|]. constructor; [|done]. split; [done|]. exists p. split; [reflexivity|apply walk_step_floor].
Qed.

(** ** A signed order *)

Definition demo_create : OrderCreateRequest :=
  MkCreateRequest " BTCUSD" BUY LIMIT (Some (dec_of_Z 10)) None None (dec_of_Z 3) None None None None None.
Definition demo_parsed : OrderCreateRequest :=
  MkCreateRequest "BTCUSD" BUY LIMIT (Some (dec_of_Z 10)) None None (dec_of_Z 3) None None None None None.
Definition demo_key : ApiKey := MkApiKey 1 1 "k1" (hash_api_secret "s3cret") ["trade"; "read"; "ws"] 120 false None.
Definition demo_post : HttpRequest :=
  MkRequest "POST" "/api/v1/orders" "" "{}" (Some "k1") (Some "1700000010")
    (Some (compute_signature (hash_api_secret "s3cret") "POST" "/api/v1/orders" 1700000010 "{}")).
Definition demo_server : Server (R := MemRedis) :=
  MkServer (MkAccounts {[ 1 := MkUser 1 "bot@example.com" "" true false ]} 2 {[ "k1" := demo_key ]} 2)
    demo_exchange (f_of_Z 1700000000).
Lemma demo_authentic : authentic (gateway_of demo_server) 1700000000 demo_post "k1" demo_key.
Proof.
  split; [reflexivity|apply lookup_singleton_eq|reflexivity|].
  exists "1700000010", 1700000010, (compute_signature (hash_api_secret "s3cret") "POST" "/api/v1/orders" 1700000010 "{}").
  split; [reflexivity|]. split; [vm_compute; reflexivity|]. split; [vm_compute; reflexivity|].
  split; [vm_compute; congruence|vm_compute; reflexivity].
Qed.


(** A signed cancellation of the resting order of CancelSpec. *)
Definition demo_delete : HttpRequest :=
  MkRequest "DELETE" "/api/v1/orders/1" "" "" (Some "k1") (Some "1700000010")
    (Some (compute_signature (hash_api_secret "s3cret") "DELETE" "/api/v1/orders/1" 1700000010 "")).
Definition demo_open_server : Server (R := MemRedis) := MkServer (s_accounts demo_server) demo_open (f_of_Z 1700000000).
Lemma demo_delete_authentic : authentic (gateway_of demo_open_server) 1700000000 demo_delete "k1" demo_key.
Proof.
  split; [reflexivity|apply lookup_singleton_eq|reflexivity|].
  exists "1700000010", 1700000010, (compute_signature (hash_api_secret "s3cret") "DELETE" "/api/v1/orders/1" 1700000010 "").
  split; [reflexivity|]. split; [vm_compute; reflexivity|]. split; [vm_compute; reflexivity|].
  split; [vm_compute; congruence|vm_compute; reflexivity].
Qed.

Lemma signed_cancel_is_served_witness :
  exists s1 answer, respond 200 (cancel_order_route (F := Connected) demo_delete (Some 1))
      demo_open_server = (s1, answer) /\
    fifo ORDERS_QUEUE (redis (s_world s1)) =
      fifo ORDERS_QUEUE (redis demo_open) ++ [build_order_action_payload (cancel_payload demo_resting 1700000000000)].
Proof.
  destruct (signed_cancel_is_served (RS := MemRedisSpec) (F := Connected) demo_delete 1 demo_open_server
    1700000000 "k1" demo_key) as (_ & _ & H).
  - vm_compute. reflexivity.
  - apply demo_delete_authentic.
  - apply list_elem_of_here.
  - vm_compute. reflexivity.
  - destruct (H demo_resting demo_pair {[ 1 := (1, "BTCUSD") ]}) as (s1 & t' & answer & E & _ & _ & _ & Q & _).
    + reflexivity.
    + reflexivity.
    + reflexivity.
    + reflexivity.
    + reflexivity.
    + reflexivity.
    + split; vm_compute; congruence.
    + cbn [demo_open_server demo_open s_world db balances]. apply map_Forall_singleton. split; [reflexivity|apply demo_balance_ok].
    + apply demo_open_represents.
    + reflexivity.
    + exists s1, answer. split; [exact E|exact Q].
Defined.

(** A request without headers changes nothing. *)
Lemma api_requires_permission_witness :
  let rq := MkRequest "POST" "/api/v1/orders" "" "{}" None None None in
  exists e, guarded (A := unit) "trade" rq (fun _ => mret tt) demo_server = (demo_server, inl e) /\ status_of e ∈ [401; 500].
Proof.
  intros rq.
  destruct (api_requires_permission (RS := MemRedisSpec) (A := unit) "trade" rq (fun _ => mret tt) demo_server 1700000000)
    as (_ & _ & _ & H).
  - vm_compute. reflexivity.
  - apply H. intros (key & k & [Hk _ _ _]). discriminate Hk.
Defined.
