(* ===== verification/Repos.v ===== *)
(** * Repositories: app/repositories/base.py and the listings of
      user_repo.py, api_key_repo.py, order_repo.py and balance_repo.py

    The generic operations every repository inherits, on a table that refuses a
    flush when one of its constraints would not hold, and the queries the other
    files do not need.  SQL leaves the order of an unsorted result open: it is the
    [heap], any arrangement of the rows.  [created_at] grows with the id. *)

From Stdlib Require Import ZArith Lia Bool SpecFloat Sorted.
From stdpp Require Import base tactics option list strings gmap sets sorting.
From S2P Require Import Prelude Float64 PyDecimal Models RedisIface World Auth MarketData OrderRepo Login Api.
#[local] Open Scope Z_scope.

(** ** BaseRepository *)

(** The order in which PostgreSQL reads the rows of a query. *)
Class Heap := heap : forall {A}, list A -> list A.
Class HeapSpec (H : Heap) := heap_perm : forall A (l : list A), heap l ≡ₚ l.
Definition InOrder : Heap := fun A l => l.
Definition Backwards : Heap := fun A l => reverse l.
#[export] Instance InOrderSpec : HeapSpec InOrder.
Proof. by intros A l. Qed.
#[export] Instance BackwardsSpec : HeapSpec Backwards.
Proof. intros A l. apply reverse_Permutation. Qed.

(** A column one can sort by. *)
Record Column (A : Type) := MkColumn { col_le : A -> A -> Prop; col_dec : forall a b, Decision (col_le a b) }.
Arguments MkColumn {A} _ _.
Arguments col_le {A} _ _ _.
Arguments col_dec {A} _ _ _.
#[export] Existing Instance col_dec.

Section Base.
Context {A : Type} {H : Heap}.

Record Table := MkTable { rows : gmap Z A; next_id : Z }.
Abbreviation repo := (prog Table exn).

(** The constraints of the table, as a property of its rows. *)
Context (allowed : gmap Z A -> Prop) `{!forall t, Decision (allowed t)}.
Definition flush (f : gmap Z A -> gmap Z A) : repo unit :=
  t ← gets rows;
  if decide (allowed (f t)) then modify (fun t => MkTable (f (rows t)) (next_id t)) else raise DBError.

Definition get (id : Z) : repo (option A) := gets (fun t => rows t !! id).
(** [getattr(self.model, order_by, None)]: a name that is no column does not
    sort. *)
Definition get_multi (columns : string -> option (Column A)) (offset limit : Z) (order_by : option string) (order_desc : bool)
    : repo (list A) :=
  gets (fun t =>
    let result := heap (map_to_list (rows t)).*2 in
    page offset limit
      match order_by ≫= columns with
      | Some c => if order_desc then @merge_sort A (flip (col_le c)) (fun a b => col_dec c b a) result else merge_sort (col_le c) result
      | None => result
      end).
Definition count : repo Z := gets (fun t => Z.of_nat (size (rows t))).
(** The id comes from the sequence, which no rollback takes back. *)
Definition create (mk : Z -> A) : repo A :=
  id ← gets next_id;
  _ ← modify (fun t => MkTable (rows t) (next_id t + 1));
  _ ← flush <[id := mk id]>;
  mret (mk id).
Definition update (id : Z) (f : A -> A) : repo (option A) :=
  obj ← get id;
  match obj with
  | None => mret None
  | Some a => _ ← flush <[id := f a]>; mret (Some (f a))
  end.
Definition delete_row (id : Z) : repo bool :=
  obj ← get id;
  match obj with
  | None => mret false
  | Some _ => _ ← flush (delete id); mret true
  end.
End Base.

(** ** What the generic operations promise *)

Section BaseFacts.
Context {A : Type} {H : Heap} (allowed : gmap Z A -> Prop) `{!forall t, Decision (allowed t)}.
Abbreviation table := (@Table A).

(** Ids come from the sequence. *)
Definition table_ok (t : table) : Prop := allowed (rows t) /\ forall id, is_Some (rows t !! id) -> id < next_id t.

Lemma flush_spec f t :
  flush allowed f t = if decide (allowed (f (rows t))) then (MkTable (f (rows t)) (next_id t), inr tt) else (t, inl DBError).
Proof. unfold flush. run_prog. by case_decide. Qed.

(** The repository is a map with constraints.  Whatever a table allows, creating
    gives a fresh id, updating and deleting touch one row, a missing row is
    reported, and an operation that a constraint refuses changes no row; the
    table stays one the constraints allow. *)
Theorem repository_correct t : table_ok t ->
  (forall mk, let id := next_id t in let '(t', r) := create allowed mk t in
     rows t !! id = None /\ table_ok t' /\
     (r = inr (mk id) /\ rows t' = <[id := mk id]> (rows t) \/ r = inl DBError /\ rows t' = rows t /\ ~ allowed (<[id := mk id]> (rows t)))) /\
  (forall id f, let '(t', r) := update allowed id f t in table_ok t' /\
     match rows t !! id with
     | None => t' = t /\ r = inr None
     | Some a => r = inr (Some (f a)) /\ rows t' = <[id := f a]> (rows t) \/ r = inl DBError /\ t' = t
     end) /\
  (forall id, let '(t', r) := delete_row allowed id t in table_ok t' /\
     match rows t !! id with
     | None => t' = t /\ r = inr false
     | Some _ => r = inr true /\ rows t' = delete id (rows t) \/ r = inl DBError /\ t' = t
     end) /\
  (count t).2 = inr (Z.of_nat (size (rows t))).
Proof.
  intros [Ha Hid]. split_and!; [| | |done].
  - intros mk. unfold create. run_prog. rewrite flush_spec. cbn [rows next_id].
    assert (Hn : rows t !! next_id t = None) by (apply eq_None_not_Some; intros Hs%Hid; lia).
    case_decide as Hd; cbn; split_and!; try done; [split|by left|split|right; by split_and!]; cbn; try done.
    + intros id. destruct (decide (id = next_id t)) as [->|Hne]; [lia|]. rewrite lookup_insert_ne by done. intros ?%Hid. lia.
    + intros id ?%Hid. lia.
  - intros id f. unfold update, get. run_prog. destruct (rows t !! id) as [a|] eqn:E; [|by repeat split].
    rewrite flush_spec. case_decide as Hd; cbn; [|by split; [split|right]]. split; [|by left]. split; cbn; [done|].
    intros id'. destruct (decide (id' = id)) as [->|Hne]; [intros _; apply Hid; by rewrite E|rewrite lookup_insert_ne by done; apply Hid].
  - intros id. unfold delete_row, get. run_prog. destruct (rows t !! id) as [a|] eqn:E; [|by repeat split].
    rewrite flush_spec. case_decide as Hd; cbn; [|by split; [split|right]]. split; [|by left]. split; cbn; [done|].
    intros id' [x [_ Hx]%lookup_delete_Some]. apply Hid. by rewrite Hx.
Qed.
End BaseFacts.

(** *** Pages *)

Section Pages.
Context {A : Type}.

(** Pages of one listing follow each other. *)
Lemma page_drop (limit : Z) (i : nat) (l : list A) : 0 <= limit ->
  page (Z.of_nat i * limit) limit l = take (Z.to_nat limit) (drop (i * Z.to_nat limit) l).
Proof. intros Hl. unfold page. f_equal. f_equal. lia. Qed.
Lemma pages_cover (limit : Z) (n : nat) (l : list A) : 0 <= limit -> (length l <= n * Z.to_nat limit)%nat ->
  concat ((fun i => page (Z.of_nat i * limit) limit l) <$> seq 0 n) = l.
Proof.
  intros Hl. rewrite (list_fmap_ext _ (fun i => take (Z.to_nat limit) (drop (i * Z.to_nat limit) l)) (seq 0 n))
    by (intros; by apply page_drop).
  generalize (Z.to_nat limit) as m. clear Hl limit. intros m. revert l. induction n as [|n IH]; intros l Hn.
  { destruct l; [done|cbn in Hn; lia]. }
  cbn [seq fmap list_fmap concat]. rewrite <- fmap_S_seq, <- list_fmap_compose.
  rewrite (list_fmap_ext _ (fun i => take m (drop (i * m) (drop m l)))).
  2:{ intros i x _. unfold compose. cbn. by rewrite drop_drop. }
  rewrite IH; [by rewrite take_drop|]. rewrite length_drop. cbn in Hn. lia.
Qed.

(** A listing sorted by a column that tells the rows apart does not depend on
    the heap. *)
Definition sorts_rows (c : Column A) (t : @Table A) : Prop :=
  Total (col_le c) /\ Transitive (col_le c) /\
  forall a b, a ∈ (map_to_list (rows t)).*2 -> b ∈ (map_to_list (rows t)).*2 -> col_le c a b -> col_le c b a -> a = b.
End Pages.

(** Paging through a table shows every row exactly once when it is sorted by a
    column that tells the rows apart, however PostgreSQL reads them for each
    page. *)
Theorem sorted_pages_cover {A} (heaps : nat -> Heap) (Hh : forall i, HeapSpec (heaps i)) columns name c (t : @Table A) limit n :
  columns name = Some c -> sorts_rows c t -> 0 <= limit -> (size (rows t) <= n * Z.to_nat limit)%nat ->
  exists pages, (forall i, (get_multi (H := heaps i) columns (Z.of_nat i * limit) limit (Some name) false t).2 = inr (pages i)) /\
    concat (pages <$> seq 0 n) ≡ₚ (map_to_list (rows t)).*2.
Proof.
  intros Hc (Ht & Htr & Ha) Hl Hn. set (sorted := merge_sort (col_le c) (map_to_list (rows t)).*2).
  exists (fun i => page (Z.of_nat i * limit) limit sorted). split.
  - intros i. unfold get_multi. cbn. rewrite Hc. cbn. do 2 f_equal.
    apply (StronglySorted_unique_strong (col_le c)); [|by apply StronglySorted_merge_sort..|].
    + intros a b Hin1 Hin2. apply Ha.
      * by rewrite <- (heap_perm (HeapSpec := Hh i) A (map_to_list (rows t)).*2), <- (merge_sort_Permutation (col_le c)).
      * by rewrite <- (merge_sort_Permutation (col_le c)).
    + unfold sorted. rewrite !merge_sort_Permutation. apply (heap_perm (HeapSpec := Hh i)).
  - rewrite pages_cover; [apply merge_sort_Permutation|done|].
    unfold sorted. by rewrite merge_sort_Permutation, length_fmap, length_map_to_list.
Qed.

(** ** The repositories *)

Section Listings.
Context {R : Redis} {P : PgNumeric} {J : Jwt} {H : Heap}.

(** *** Users and keys *)

Definition user_le (a b : User) : Prop := u_id a <= u_id b.
#[export] Instance user_le_dec a b : Decision (user_le a b).
Proof. unfold user_le. apply _. Defined.
Definition list_users_where (f : User -> bool) : prog Gateway exn (list User) :=
  gets (fun g => merge_sort user_le (heap (filter (fun u => f u = true) (map_to_list (users (accounts g))).*2))).
Definition list_active_users := list_users_where u_is_active.
Definition list_admins := list_users_where u_is_admin.

Definition newer_key (a b : ApiKey) : Prop := ak_id b <= ak_id a.
#[export] Instance newer_key_dec a b : Decision (newer_key a b).
Proof. unfold newer_key. apply _. Defined.
Definition list_keys_where (f : ApiKey -> bool) : prog Gateway exn (list ApiKey) :=
  gets (fun g => merge_sort newer_key (heap (filter (fun k => f k = true) (map_to_list (api_keys (accounts g))).*2))).
Definition list_by_user (user_id : Z) := list_keys_where (fun k => ak_user_id k =? user_id).
Definition list_active_by_user (user_id : Z) := list_keys_where (fun k => (ak_user_id k =? user_id) && negb (ak_is_revoked k)).

(** [AdminService.list_users], which names no column, and its route. *)
Definition users_table (a : Accounts) : @Table User := MkTable (users a) (next_user_id a).
Definition list_users (offset limit : Z) : prog Gateway exn (list User) := fun g =>
  (g, (get_multi (fun _ => None) offset limit None false (users_table (accounts g))).2).
Definition list_users_route (authorization : option string) (offset limit : Z) : prog Server exn (list User * Z) :=
  admin_only authorization (fun _ =>
    if negb (page_ok offset limit) then raise RequestValidationError
    else us ← at_gateway (list_users offset limit); mret (us, Z.of_nat (length us))).

(** *** Orders and balances *)

Definition open_status (s : OrderStatus) : bool := match s with NEW | PARTIALLY_FILLED => true | _ => false end.
Definition list_open_orders_by_symbol (symbol : string) : wprog (list Order) :=
  from_db (fun d => merge_sort id_le (heap (filter (fun o => String.eqb (o_symbol o) symbol && open_status (o_status o) = true)
                                              (map_to_list (orders d)).*2))).
Definition get_for_update_multi (user_id : Z) (assets : list string) : wprog (gmap string Balance) :=
  from_db (fun d => list_to_map ((fun b => (b_asset b, b)) <$>
    heap (filter (fun b => b_user_id b = user_id /\ b_asset b ∈ assets) (map_to_list (balances d)).*2))).
End Listings.

(** ** What they return *)

#[export] Instance user_le_total : Total user_le.
Proof. intros a b. unfold user_le. lia. Qed.
#[export] Instance user_le_trans : Transitive user_le.
Proof. intros a b c. unfold user_le. lia. Qed.
#[export] Instance newer_key_total : Total newer_key.
Proof. intros a b. unfold newer_key. lia. Qed.
#[export] Instance newer_key_trans : Transitive newer_key.
Proof. intros a b c. unfold newer_key. lia. Qed.
#[local] Instance id_le_total : Total id_le.
Proof. intros a b. unfold id_le. lia. Qed.
#[local] Instance id_le_trans : Transitive id_le.
Proof. intros a b c. unfold id_le. lia. Qed.

Section ListingFacts.
Context {R : Redis} {P : PgNumeric} {H : Heap} {HS : HeapSpec H}.

(** A sorted query over the rows of a table: its rows, in order. *)
Lemma listing_spec {K A} `{Countable K} (le : A -> A -> Prop) `{!forall a b, Decision (le a b), !Total le, !Transitive le}
    (Q : A -> Prop) `{!forall a, Decision (Q a)} (t : gmap K A) :
  let l := merge_sort le (heap (filter Q (map_to_list t).*2)) in
  StronglySorted le l /\ forall a, a ∈ l <-> Q a /\ exists k, t !! k = Some a.
Proof.
  intros l. split; [by apply StronglySorted_merge_sort|]. intros a. unfold l.
  rewrite merge_sort_Permutation, heap_perm, list_elem_of_filter, list_elem_of_fmap. f_equiv. split.
  - intros ([k a'] & -> & Hin%elem_of_map_to_list). by exists k.
  - intros [k Hk]. exists (k, a). split; [done|]. by apply elem_of_map_to_list.
Qed.

(** The open orders of a symbol, oldest first; the live keys of a user, newest
    first; the active users and the administrators by id. *)
Theorem listings_correct :
  (forall symbol w, exists l, list_open_orders_by_symbol symbol w = (w, inr l) /\ StronglySorted id_le l /\
     forall o, o ∈ l <-> (o_symbol o = symbol /\ (o_status o = NEW \/ o_status o = PARTIALLY_FILLED)) /\
       exists id, orders (db w) !! id = Some o) /\
  (forall user_id g, exists l, list_active_by_user user_id g = (g, inr l) /\ StronglySorted newer_key l /\
     forall k, k ∈ l <-> (ak_user_id k = user_id /\ ak_is_revoked k = false) /\ exists key, api_keys (accounts g) !! key = Some k) /\
  (forall g, exists l, list_active_users g = (g, inr l) /\ StronglySorted user_le l /\
     forall u, u ∈ l <-> u_is_active u = true /\ exists id, users (accounts g) !! id = Some u).
Proof.
  split_and!.
  - intros symbol w. eexists. split; [reflexivity|].
    destruct (listing_spec id_le (fun o => String.eqb (o_symbol o) symbol && open_status (o_status o) = true) (orders (db w))) as [Hs Hl].
    split; [exact Hs|]. intros o. rewrite Hl, andb_true_iff, String.eqb_eq.
    assert (open_status (o_status o) = true <-> o_status o = NEW \/ o_status o = PARTIALLY_FILLED) as ->
      by (destruct (o_status o); cbn; naive_solver). done.
  - intros uid g. eexists. split; [reflexivity|].
    destruct (listing_spec newer_key (fun k => (ak_user_id k =? uid) && negb (ak_is_revoked k) = true) (api_keys (accounts g))) as [Hs Hl].
    split; [exact Hs|]. intros k. by rewrite Hl, andb_true_iff, Z.eqb_eq, negb_true_iff.
  - intros g. eexists. split; [reflexivity|].
    destruct (listing_spec user_le (fun u => u_is_active u = true) (users (accounts g))) as [Hs Hl]. by split.
Qed.

(** The rows of a user for some assets, locked by one query: a map from the
    asset. *)
Theorem get_for_update_multi_correct user_id assets w :
  (forall k b, balances (db w) !! k = Some b -> k = (b_user_id b, b_asset b)) ->
  exists m, get_for_update_multi user_id assets w = (w, inr m) /\
    forall asset, m !! asset = if decide (asset ∈ assets) then balances (db w) !! (user_id, asset) else None.
Proof.
  intros Hk. eexists. split; [reflexivity|]. intros asset.
  set (l := heap _). assert (Hl : forall b, b ∈ l <-> (b_user_id b = user_id /\ b_asset b ∈ assets) /\ exists k, balances (db w) !! k = Some b).
  { intros b. unfold l. rewrite heap_perm, list_elem_of_filter, list_elem_of_fmap. f_equiv. split.
    - intros ([k b'] & -> & Hin%elem_of_map_to_list). by exists k.
    - intros [k Hb]. exists (k, b). split; [done|]. by apply elem_of_map_to_list. }
  assert (Hu : forall b1 b2, b1 ∈ l -> b2 ∈ l -> b_asset b1 = b_asset b2 -> b1 = b2).
  { intros b1 b2 [[U1 _] [k1 E1]]%Hl [[U2 _] [k2 E2]]%Hl Ea. pose proof (Hk _ _ E1). pose proof (Hk _ _ E2). congruence. }
  apply option_eq. intros b. rewrite <- elem_of_list_to_map'.
  - rewrite list_elem_of_fmap. split.
    + intros (b' & [= -> ->] & [[Hb Ha] [k E]]%Hl). rewrite decide_True by done. pose proof (Hk _ _ E). congruence.
    + case_decide as Ha; [|done]. intros E. pose proof (Hk _ _ E) as [= E1 E2]. exists b. split; [by subst|]. apply Hl.
      split; [by subst|]. by eexists.
  - intros b2 (x1 & [= -> ->] & H1)%list_elem_of_fmap (x2 & [= E ->] & H2)%list_elem_of_fmap. by apply Hu.
Qed.
End ListingFacts.

(** ** The admin's listing of users has no order *)

Definition demo_two_users : Gateway (R := MemRedis) :=
  MkGateway (MkAccounts {[ 1 := MkUser 1 "a@example.com" "" true false; 2 := MkUser 2 "b@example.com" "" true false ]} 3 ∅ 1)
    empty_keyspace f_zero.
Definition listed (H : Heap) (offset : Z) : exn + list Z := match (list_users (H := H) offset 1 demo_two_users).2 with
  inl e => inl e | inr us => inr (u_id <$> us) end.
(** Two requests for pages of one user, between which PostgreSQL reads the table
    in another order: the first user is shown twice, the second never. *)
Theorem user_pages_repeat_and_skip : listed InOrder 0 = listed Backwards 1 /\ listed InOrder 0 <> listed InOrder 1.
Proof. split; vm_compute; [reflexivity|discriminate]. Qed.
