(* ===== verification/Schema.v ===== *)
(** * The schema: alembic/versions/0001_initial.py against app/models/*.py

    The migration as the list of its statements, the tables as the models declare
    them, and a ledger of what exists while a script runs: a statement may only
    use what is there, and may not drop what is still used.  Python-side
    defaults, comments and the mode of alembic (online or offline) are not part of
    it. *)

From Stdlib Require Import ZArith Bool.
From stdpp Require Import base tactics option list strings sets.
From S2P Require Import Prelude Models.
#[local] Open Scope Z_scope.

(** ** Statements *)

Inductive ColumnType :=
  | BigInteger | Integer | Boolean | Timestamp | TextArray
  | Varchar (length : Z)
  | Numeric (precision scale : Z)
  | EnumType (name : string).
Inductive OnDelete := Cascade | Restrict | NoAction.
Record SqlColumn := MkColumn { c_name : string; c_type : ColumnType; c_nullable : bool; c_default : option string }.
Record ForeignKey := MkForeignKey { fk_name : string; fk_column : string; fk_table : string; fk_target : string; fk_on_delete : OnDelete }.
Record SqlTable := MkTable {
  t_name : string;
  t_columns : list SqlColumn;
  t_primary_key : string;
  t_foreign_keys : list ForeignKey;
  t_unique : list (string * list string)
}.
Inductive Statement :=
  | CreateEnum (name : string) (labels : list string)
  | CreateTable (t : SqlTable)
  | CreateIndex (name table : string) (columns : list string) (unique : bool)
  | DropIndex (name : string)
  | DropTable (name : string)
  | DropEnum (name : string).

#[export] Instance column_type_eq : EqDecision ColumnType.
Proof. solve_decision. Defined.
#[export] Instance on_delete_eq : EqDecision OnDelete.
Proof. solve_decision. Defined.

(** ** The migration *)

Definition ORDERSIDE : list string := ["buy"; "sell"].
Definition ORDERTYPE : list string :=
  ["market"; "limit"; "stop_market"; "stop_limit"; "post_only"; "ioc"; "fok"; "trailing_stop"; "iceberg"].
Definition ORDERSTATUS : list string := ["pending"; "new"; "partially_filled"; "filled"; "canceled"; "rejected"; "expired"].

Definition upgrade : list Statement := [
  CreateEnum "orderside" ORDERSIDE;
  CreateEnum "ordertype" ORDERTYPE;
  CreateEnum "orderstatus" ORDERSTATUS;
  CreateTable (MkTable "users"
    [MkColumn "id" BigInteger false None;
     MkColumn "email" (Varchar 255) false None;
     MkColumn "password_hash" (Varchar 255) false None;
     MkColumn "is_active" Boolean false (Some "true");
     MkColumn "is_admin" Boolean false (Some "false");
     MkColumn "created_at" Timestamp false (Some "now()");
     MkColumn "updated_at" Timestamp false (Some "now()")]
    "id"
    []
    []);
  CreateIndex "ix_users_email" "users" ["email"] true;
  CreateTable (MkTable "api_keys"
    [MkColumn "id" BigInteger false None;
     MkColumn "user_id" BigInteger false None;
     MkColumn "api_key" (Varchar 64) false None;
     MkColumn "secret_hash" (Varchar 255) false None;
     MkColumn "label" (Varchar 100) true None;
     MkColumn "permissions" TextArray false (Some "ARRAY['trade', 'read', 'ws']::text[]");
     MkColumn "rate_limit_per_min" Integer false (Some "120");
     MkColumn "is_revoked" Boolean false (Some "false");
     MkColumn "created_at" Timestamp false (Some "now()");
     MkColumn "last_used_at" Timestamp true None;
     MkColumn "expires_at" Timestamp true None]
    "id"
    [MkForeignKey "fk_api_keys_user_id_users" "user_id" "users" "id" Cascade]
    [("uq_api_keys_api_key", ["api_key"])]);
  CreateIndex "ix_api_keys_api_key" "api_keys" ["api_key"] true;
  CreateIndex "ix_api_keys_user_id" "api_keys" ["user_id"] false;
  CreateTable (MkTable "balances"
    [MkColumn "id" BigInteger false None;
     MkColumn "user_id" BigInteger false None;
     MkColumn "asset" (Varchar 20) false None;
     MkColumn "total_balance" (Numeric 36 18) false (Some "0");
     MkColumn "locked_balance" (Numeric 36 18) false (Some "0");
     MkColumn "available_balance" (Numeric 36 18) false (Some "0");
     MkColumn "version" BigInteger false (Some "1");
     MkColumn "updated_at" Timestamp false (Some "now()")]
    "id"
    [MkForeignKey "fk_balances_user_id_users" "user_id" "users" "id" Cascade]
    [("uq_balances_user_asset", ["user_id"; "asset"])]);
  CreateIndex "ix_balances_user_asset" "balances" ["user_id"; "asset"] false;
  CreateTable (MkTable "trading_pairs"
    [MkColumn "id" Integer false None;
     MkColumn "symbol" (Varchar 20) false None;
     MkColumn "base_asset" (Varchar 20) false None;
     MkColumn "quote_asset" (Varchar 20) false None;
     MkColumn "price_precision" Integer false None;
     MkColumn "quantity_precision" Integer false None;
     MkColumn "min_lot_size" (Numeric 36 18) false None;
     MkColumn "max_lot_size" (Numeric 36 18) false None;
     MkColumn "tick_size" (Numeric 36 18) false None;
     MkColumn "maker_fee_bps" (Numeric 10 6) false (Some "0");
     MkColumn "taker_fee_bps" (Numeric 10 6) false (Some "0");
     MkColumn "is_active" Boolean false (Some "true");
     MkColumn "created_at" Timestamp false (Some "now()")]
    "id"
    []
    [("uq_trading_pairs_symbol", ["symbol"])]);
  CreateIndex "ix_trading_pairs_symbol" "trading_pairs" ["symbol"] true;
  CreateTable (MkTable "orders"
    [MkColumn "id" BigInteger false None;
     MkColumn "user_id" BigInteger false None;
     MkColumn "symbol" (Varchar 20) false None;
     MkColumn "side" (EnumType "orderside") false None;
     MkColumn "type" (EnumType "ordertype") false None;
     MkColumn "status" (EnumType "orderstatus") false (Some "'new'::orderstatus");
     MkColumn "price" (Numeric 36 18) true None;
     MkColumn "stop_price" (Numeric 36 18) true None;
     MkColumn "trailing_delta" (Numeric 36 18) true None;
     MkColumn "quantity" (Numeric 36 18) false None;
     MkColumn "filled_quantity" (Numeric 36 18) false (Some "0");
     MkColumn "filled_quote_qty" (Numeric 36 18) false (Some "0");
     MkColumn "visible_quantity" (Numeric 36 18) true None;
     MkColumn "hidden_quantity" (Numeric 36 18) true None;
     MkColumn "replace_count" Integer false (Some "0");
     MkColumn "replaces_id" BigInteger true None;
     MkColumn "replaced_by_id" BigInteger true None;
     MkColumn "parent_order_id" BigInteger true None;
     MkColumn "sl_order_id" BigInteger true None;
     MkColumn "tp_order_id" BigInteger true None;
     MkColumn "bulk_id" (Varchar 36) true None;
     MkColumn "created_at" Timestamp false (Some "now()");
     MkColumn "updated_at" Timestamp false (Some "now()");
     MkColumn "version" BigInteger false (Some "1")]
    "id"
    [MkForeignKey "fk_orders_user_id_users" "user_id" "users" "id" Cascade;
     MkForeignKey "fk_orders_symbol_trading_pairs" "symbol" "trading_pairs" "symbol" NoAction;
     MkForeignKey "fk_orders_replaces_id_orders" "replaces_id" "orders" "id" NoAction;
     MkForeignKey "fk_orders_replaced_by_id_orders" "replaced_by_id" "orders" "id" NoAction;
     MkForeignKey "fk_orders_parent_order_id_orders" "parent_order_id" "orders" "id" NoAction;
     MkForeignKey "fk_orders_sl_order_id_orders" "sl_order_id" "orders" "id" NoAction;
     MkForeignKey "fk_orders_tp_order_id_orders" "tp_order_id" "orders" "id" NoAction]
    []);
  CreateIndex "ix_orders_user_symbol_status" "orders" ["user_id"; "symbol"; "status"] false;
  CreateIndex "ix_orders_status_symbol" "orders" ["status"; "symbol"] false;
  CreateIndex "ix_orders_parent_id" "orders" ["parent_order_id"] false;
  CreateIndex "ix_orders_bulk_id" "orders" ["bulk_id"] false;
  CreateIndex "ix_orders_replaces_id" "orders" ["replaces_id"] false;
  CreateTable (MkTable "trades"
    [MkColumn "id" BigInteger false None;
     MkColumn "taker_order_id" BigInteger false None;
     MkColumn "maker_order_id" BigInteger false None;
     MkColumn "symbol" (Varchar 20) false None;
     MkColumn "price" (Numeric 36 18) false None;
     MkColumn "quantity" (Numeric 36 18) false None;
     MkColumn "quote_quantity" (Numeric 36 18) false None;
     MkColumn "side" (EnumType "orderside") false None;
     MkColumn "taker_user_id" BigInteger false None;
     MkColumn "maker_user_id" BigInteger false None;
     MkColumn "taker_fee" (Numeric 36 18) false (Some "0");
     MkColumn "maker_fee" (Numeric 36 18) false (Some "0");
     MkColumn "executed_at" Timestamp false (Some "now()")]
    "id"
    [MkForeignKey "fk_trades_taker_order_id_orders" "taker_order_id" "orders" "id" Restrict;
     MkForeignKey "fk_trades_maker_order_id_orders" "maker_order_id" "orders" "id" Restrict;
     MkForeignKey "fk_trades_symbol_trading_pairs" "symbol" "trading_pairs" "symbol" NoAction;
     MkForeignKey "fk_trades_taker_user_id_users" "taker_user_id" "users" "id" NoAction;
     MkForeignKey "fk_trades_maker_user_id_users" "maker_user_id" "users" "id" NoAction]
    []);
  CreateIndex "ix_trades_symbol_executed_at" "trades" ["symbol"; "executed_at"] false;
  CreateIndex "ix_trades_taker_user_id" "trades" ["taker_user_id"] false;
  CreateIndex "ix_trades_maker_user_id" "trades" ["maker_user_id"] false;
  CreateIndex "ix_trades_taker_order_id" "trades" ["taker_order_id"] false].

Definition downgrade : list Statement :=
  [DropIndex "ix_trades_taker_order_id";
   DropIndex "ix_trades_maker_user_id";
   DropIndex "ix_trades_taker_user_id";
   DropIndex "ix_trades_symbol_executed_at";
   DropTable "trades";
   DropIndex "ix_orders_replaces_id";
   DropIndex "ix_orders_bulk_id";
   DropIndex "ix_orders_parent_id";
   DropIndex "ix_orders_status_symbol";
   DropIndex "ix_orders_user_symbol_status";
   DropTable "orders";
   DropIndex "ix_trading_pairs_symbol";
   DropTable "trading_pairs";
   DropIndex "ix_balances_user_asset";
   DropTable "balances";
   DropIndex "ix_api_keys_user_id";
   DropIndex "ix_api_keys_api_key";
   DropTable "api_keys";
   DropIndex "ix_users_email";
   DropTable "users";
   DropEnum "orderstatus";
   DropEnum "ordertype";
   DropEnum "orderside"].

(** ** The models *)

(** A table as a model declares it: the names of constraints and the server's
    defaults are left to SQLAlchemy; [unique=True, index=True] is one unique
    index. *)
Record ModelTable := MkModelTable {
  m_name : string;
  m_columns : list (string * ColumnType * bool);
  m_primary_key : string;
  m_foreign_keys : list (string * string * string * OnDelete);
  m_unique : list (list string);
  m_indexes : list (string * list string * bool)
}.
Definition not_null (name : string) (t : ColumnType) : string * ColumnType * bool := (name, t, false).
Definition nullable (name : string) (t : ColumnType) : string * ColumnType * bool := (name, t, true).
Definition money_column : ColumnType := Numeric 36 18.

Definition users_model : ModelTable := MkModelTable "users"
  [not_null "id" BigInteger; not_null "email" (Varchar 255); not_null "password_hash" (Varchar 255);
   not_null "is_active" Boolean; not_null "is_admin" Boolean; not_null "created_at" Timestamp; not_null "updated_at" Timestamp]
  "id" [] [] [("ix_users_email", ["email"], true)].
Definition api_keys_model : ModelTable := MkModelTable "api_keys"
  [not_null "id" BigInteger; not_null "user_id" BigInteger; not_null "api_key" (Varchar 64); not_null "secret_hash" (Varchar 255);
   nullable "label" (Varchar 100); not_null "permissions" TextArray; not_null "rate_limit_per_min" Integer;
   not_null "is_revoked" Boolean; not_null "created_at" Timestamp; nullable "last_used_at" Timestamp; nullable "expires_at" Timestamp]
  "id" [("user_id", "users", "id", Cascade)] [] [("ix_api_keys_api_key", ["api_key"], true); ("ix_api_keys_user_id", ["user_id"], false)].
Definition balances_model : ModelTable := MkModelTable "balances"
  [not_null "id" BigInteger; not_null "user_id" BigInteger; not_null "asset" (Varchar 20); not_null "total_balance" money_column;
   not_null "locked_balance" money_column; not_null "available_balance" money_column; not_null "version" BigInteger;
   not_null "updated_at" Timestamp]
  "id" [("user_id", "users", "id", Cascade)] [["user_id"; "asset"]] [("ix_balances_user_asset", ["user_id"; "asset"], false)].
Definition trading_pairs_model : ModelTable := MkModelTable "trading_pairs"
  [not_null "id" Integer; not_null "symbol" (Varchar 20); not_null "base_asset" (Varchar 20); not_null "quote_asset" (Varchar 20);
   not_null "price_precision" Integer; not_null "quantity_precision" Integer; not_null "min_lot_size" money_column;
   not_null "max_lot_size" money_column; not_null "tick_size" money_column; not_null "maker_fee_bps" (Numeric 10 6);
   not_null "taker_fee_bps" (Numeric 10 6); not_null "is_active" Boolean; not_null "created_at" Timestamp]
  "id" [] [] [("ix_trading_pairs_symbol", ["symbol"], true)].
Definition orders_model : ModelTable := MkModelTable "orders"
  [not_null "id" BigInteger; not_null "user_id" BigInteger; not_null "symbol" (Varchar 20); not_null "side" (EnumType "orderside");
   not_null "type" (EnumType "ordertype"); not_null "status" (EnumType "orderstatus"); nullable "price" money_column;
   nullable "stop_price" money_column; nullable "trailing_delta" money_column; not_null "quantity" money_column;
   not_null "filled_quantity" money_column; not_null "filled_quote_qty" money_column; nullable "visible_quantity" money_column;
   nullable "hidden_quantity" money_column; not_null "replace_count" Integer; nullable "replaces_id" BigInteger;
   nullable "replaced_by_id" BigInteger; nullable "parent_order_id" BigInteger; nullable "sl_order_id" BigInteger;
   nullable "tp_order_id" BigInteger; nullable "bulk_id" (Varchar 36); not_null "created_at" Timestamp;
   not_null "updated_at" Timestamp; not_null "version" BigInteger]
  "id"
  [("user_id", "users", "id", Cascade); ("symbol", "trading_pairs", "symbol", NoAction); ("replaces_id", "orders", "id", NoAction);
   ("replaced_by_id", "orders", "id", NoAction); ("parent_order_id", "orders", "id", NoAction); ("sl_order_id", "orders", "id", NoAction);
   ("tp_order_id", "orders", "id", NoAction)]
  []
  [("ix_orders_user_symbol_status", ["user_id"; "symbol"; "status"], false); ("ix_orders_status_symbol", ["status"; "symbol"], false);
   ("ix_orders_parent_id", ["parent_order_id"], false); ("ix_orders_bulk_id", ["bulk_id"], false);
   ("ix_orders_replaces_id", ["replaces_id"], false)].
Definition trades_model : ModelTable := MkModelTable "trades"
  [not_null "id" BigInteger; not_null "taker_order_id" BigInteger; not_null "maker_order_id" BigInteger; not_null "symbol" (Varchar 20);
   not_null "price" money_column; not_null "quantity" money_column; not_null "quote_quantity" money_column;
   not_null "side" (EnumType "orderside"); not_null "taker_user_id" BigInteger; not_null "maker_user_id" BigInteger;
   not_null "taker_fee" money_column; not_null "maker_fee" money_column; not_null "executed_at" Timestamp]
  "id"
  [("taker_order_id", "orders", "id", Restrict); ("maker_order_id", "orders", "id", Restrict);
   ("symbol", "trading_pairs", "symbol", NoAction); ("taker_user_id", "users", "id", NoAction); ("maker_user_id", "users", "id", NoAction)]
  []
  [("ix_trades_symbol_executed_at", ["symbol"; "executed_at"], false); ("ix_trades_taker_user_id", ["taker_user_id"], false);
   ("ix_trades_maker_user_id", ["maker_user_id"], false); ("ix_trades_taker_order_id", ["taker_order_id"], false)].
(** [Base.metadata] *)
Definition metadata : list ModelTable :=
  [users_model; api_keys_model; balances_model; trading_pairs_model; orders_model; trades_model].

(** ** Running a script *)

(** What exists: the enums, the tables with what they use, the indexes with
    their tables. *)
Record Catalog := MkCatalog {
  cat_enums : list string;
  cat_tables : list SqlTable;
  cat_indexes : list (string * string)
}.
Definition empty_catalog : Catalog := MkCatalog [] [] [].
Definition table_named (name : string) (cat : Catalog) : option SqlTable := find (fun t => String.eqb (t_name t) name) (cat_tables cat).
Definition has_column (t : SqlTable) (c : string) : bool := existsb (fun x => String.eqb (c_name x) c) (t_columns t).
(** The target of a foreign key is a primary key or unique. *)
Definition referable (t : SqlTable) (c : string) : bool :=
  String.eqb (t_primary_key t) c || existsb (fun u => bool_decide (u.2 = [c])) (t_unique t).
Definition uses_enum (name : string) (t : SqlTable) : bool := existsb (fun c => bool_decide (c_type c = EnumType name)) (t_columns t).
Definition refers_to (name : string) (t : SqlTable) : bool :=
  negb (String.eqb (t_name t) name) && existsb (fun fk => String.eqb (fk_table fk) name) (t_foreign_keys t).
Definition enum_known (cat : Catalog) (c : SqlColumn) : bool :=
  match c_type c with EnumType e => bool_decide (e ∈ cat_enums cat) | _ => true end.
(** A table may refer to itself. *)
Definition fk_known (cat : Catalog) (t : SqlTable) (fk : ForeignKey) : bool :=
  has_column t (fk_column fk) &&
  match (if String.eqb (fk_table fk) (t_name t) then Some t else table_named (fk_table fk) cat) with
  | Some target => has_column target (fk_target fk) && referable target (fk_target fk)
  | None => false
  end.

(** [None]: the server refuses the statement. *)
Definition run_statement (s : Statement) (cat : Catalog) : option Catalog :=
  match s with
  | CreateEnum name _ =>
      if bool_decide (name ∈ cat_enums cat) then None
      else Some (MkCatalog (name :: cat_enums cat) (cat_tables cat) (cat_indexes cat))
  | CreateTable t =>
      if bool_decide (is_Some (table_named (t_name t) cat)) || negb (forallb (enum_known cat) (t_columns t))
         || negb (forallb (fk_known cat t) (t_foreign_keys t)) || negb (has_column t (t_primary_key t))
         || negb (forallb (fun u => forallb (has_column t) u.2) (t_unique t))
      then None else Some (MkCatalog (cat_enums cat) (t :: cat_tables cat) (cat_indexes cat))
  | CreateIndex name table columns _ =>
      match table_named table cat with
      | Some t => if bool_decide (name ∈ (cat_indexes cat).*1) || negb (forallb (has_column t) columns) then None
                  else Some (MkCatalog (cat_enums cat) (cat_tables cat) ((name, table) :: cat_indexes cat))
      | None => None
      end
  | DropIndex name =>
      if bool_decide (name ∈ (cat_indexes cat).*1)
      then Some (MkCatalog (cat_enums cat) (cat_tables cat) (base.filter (fun i => i.1 <> name) (cat_indexes cat))) else None
  | DropTable name =>
      if bool_decide (is_Some (table_named name cat)) && negb (existsb (refers_to name) (cat_tables cat))
      then Some (MkCatalog (cat_enums cat) (base.filter (fun t => t_name t <> name) (cat_tables cat))
                   (base.filter (fun i => i.2 <> name) (cat_indexes cat))) else None
  | DropEnum name =>
      if bool_decide (name ∈ cat_enums cat) && negb (existsb (uses_enum name) (cat_tables cat))
      then Some (MkCatalog (base.filter (fun e => e <> name) (cat_enums cat)) (cat_tables cat) (cat_indexes cat)) else None
  end.
Definition run_script (script : list Statement) (cat : Catalog) : option Catalog :=
  foldl (fun o s => cat ← o; run_statement s cat) (Some cat) script.

(** ** What the migration creates *)

Definition indexes_of (script : list Statement) (table : string) : list (string * list string * bool) :=
  omap (fun s => match s with
                 | CreateIndex name t columns unique => if String.eqb t table then Some (name, columns, unique) else None
                 | _ => None
                 end) script.
(** A table created by a script, as a model would declare it. *)
Definition model_of (script : list Statement) (t : SqlTable) : ModelTable :=
  MkModelTable (t_name t) ((fun c => (c_name c, c_type c, c_nullable c)) <$> t_columns t) (t_primary_key t)
    ((fun fk => (fk_column fk, fk_table fk, fk_target fk, fk_on_delete fk)) <$> t_foreign_keys t) (t_unique t).*2
    (indexes_of script (t_name t)).
Definition created (script : list Statement) : list ModelTable :=
  omap (fun s => match s with CreateTable t => Some (model_of script t) | _ => None end) script.
Definition labels_of (script : list Statement) (name : string) : option (list string) :=
  head (omap (fun s => match s with CreateEnum n labels => if String.eqb n name then Some labels else None | _ => None end) script).

(** Upgrading an empty database is accepted statement by statement, and
    downgrading the result is too and leaves nothing behind. *)
Theorem migration_roundtrip : exists cat,
  run_script upgrade empty_catalog = Some cat /\ length (cat_tables cat) = length metadata /\
  run_script downgrade cat = Some empty_catalog.
Proof. eexists. split; [vm_compute; reflexivity|]. split; vm_compute; reflexivity. Qed.

(** The migration creates the tables the models declare - columns, types,
    nullability, keys and indexes, in the same order - and two unique
    constraints more, of columns that a unique index covers already. *)
Definition with_unique (name : string) (columns : list string) (m : ModelTable) : ModelTable :=
  if String.eqb (m_name m) name
  then MkModelTable (m_name m) (m_columns m) (m_primary_key m) (m_foreign_keys m) (m_unique m ++ [columns]) (m_indexes m) else m.
Theorem migration_creates_the_models :
  created upgrade = with_unique "api_keys" ["api_key"] ∘ with_unique "trading_pairs" ["symbol"] <$> metadata /\
  created upgrade <> metadata.
Proof. split; [vm_compute; reflexivity|]. vm_compute. intros [=]. Qed.

(** The labels of the enums are the values of the Python enums, which they tell
    apart: every value a row may hold has a label and every label is one. *)
Theorem migration_enums :
  (forall s, exists l, labels_of upgrade "orderside" = Some l /\ OrderSide_value s ∈ l) /\
  (forall t, exists l, labels_of upgrade "ordertype" = Some l /\ OrderType_value t ∈ l) /\
  (forall s, exists l, labels_of upgrade "orderstatus" = Some l /\ OrderStatus_value s ∈ l) /\
  Forall (fun x => is_Some (OrderSide_of x)) ORDERSIDE /\ Forall (fun x => is_Some (OrderType_of x)) ORDERTYPE /\
  Forall (fun x => exists s, OrderStatus_value s = x) ORDERSTATUS.
Proof.
  split_and!.
  - intros s. eexists. split; [vm_compute; reflexivity|]. destruct s; cbn; set_solver.
  - intros t. eexists. split; [vm_compute; reflexivity|]. destruct t; cbn; set_solver.
  - intros s. eexists. split; [vm_compute; reflexivity|]. destruct s; cbn; set_solver.
  - repeat constructor; vm_compute; by eexists.
  - repeat constructor; vm_compute; by eexists.
  - repeat constructor; [by exists PENDING|by exists NEW|by exists PARTIALLY_FILLED|by exists FILLED|by exists CANCELED
      |by exists REJECTED|by exists EXPIRED].
Qed.
