(* ===== verification/Seed.v ===== *)
(** * The seed: app/db/seed.py

    The default users, balances and trading pair, inserted at start-up where
    they are missing.  The seed runs at every start, so it must change nothing
    the second time. *)

From Stdlib Require Import ZArith Lia Bool Ascii SpecFloat.
From stdpp Require Import base tactics option list strings gmap sets.
From S2P Require Import Prelude Float64 PyDecimal Models RedisIface OrderBook World Balance OrderService Auth Login Api.
#[local] Open Scope Z_scope.

Definition DEFAULT_PASSWORD_HASH : string := "$2b$12$YoOvlVHqBqmjojR56Om.WOjhr6ILQj.0mmZXs8bwBfDidn.2t4bla".
Definition TEST_PASSWORD_HASH : string := "$2b$12$Eq1doW2/woemUOk4jajY4OuK/28ynaYs26KD1BNcB8px73BPQOSZW".

(** [h.startswith("$2b$")]; the empty text does not. *)
Definition is_bcrypt_hash (h : string) : bool := String.prefix "$2b$" h.
Definition with_password_hash (h : string) (u : User) : User :=
  MkUser (u_id u) (u_email u) h (u_is_active u) (u_is_admin u).

Section Seed.
Context {R : Redis} {F : Connection}.

Definition ensure_user (login password_hash : string) (is_admin : bool) : prog Gateway exn User :=
  user ← get_by_email login;
  match user with
  | None => insert_user login password_hash is_admin
  | Some u =>
      if negb (is_bcrypt_hash (u_password_hash u)) then
        let u := with_password_hash password_hash u in
        _ ← g_update (fun a => MkAccounts (<[u_id u := u]> (users a)) (next_user_id a) (api_keys a) (next_api_key_id a));
        mret u
      else mret u
  end.
Definition ensure_balance (user_id : Z) (asset : string) (amount : decimal) : wprog unit :=
  row ← get_by_user_asset user_id asset;
  match row with
  | None => write_balance (MkBalance user_id asset amount dec_zero amount 1)
  | Some _ => mret tt
  end.
Definition default_pair (id : Z) : TradingPair :=
  MkPair "BTC/USD" "BTC" "USD" (Dec 1 (-4)) (dec_of_Z 1000) (Dec 1 (-2)) true id.
Definition ensure_pair : wprog unit :=
  existing ← get_by_symbol "BTC/USD";
  match existing with
  | None =>
      id ← from_db (fun d => next_pair_id (pairs d));
      update_db (set_pairs <["BTC/USD" := default_pair id]>)
  | Some _ => mret tt
  end.

Definition seed_database : prog Server exn unit :=
  in_session (
    _ ← at_gateway (ensure_user "admin" DEFAULT_PASSWORD_HASH true);
    test_user ← at_gateway (ensure_user "test" TEST_PASSWORD_HASH false);
    test2_user ← at_gateway (ensure_user "test2" TEST_PASSWORD_HASH false);
    _ ← at_exchange (ensure_balance (u_id test_user) "USD" (dec_of_Z 100000));
    _ ← at_exchange (ensure_balance (u_id test_user) "BTC" (dec_of_Z 10));
    _ ← at_exchange (ensure_balance (u_id test2_user) "USD" (dec_of_Z 100000));
    _ ← at_exchange (ensure_balance (u_id test2_user) "BTC" (dec_of_Z 10));
    at_exchange ensure_pair).
End Seed.

(** ** Users *)

Section SeedSpec.
Context {R : Redis}.

(** The passwords of the default users, and what the seed makes of a user that
    exists: a default user whose hash is not a bcrypt hash gets the default one. *)
Definition default_hash (login : string) : option string :=
  if String.eqb login "admin" then Some DEFAULT_PASSWORD_HASH
  else if String.eqb login "test" || String.eqb login "test2" then Some TEST_PASSWORD_HASH else None.
Definition repaired (u : User) : User :=
  if is_bcrypt_hash (u_password_hash u) then u
  else match default_hash (u_email u) with Some h => with_password_hash h u | None => u end.
(** The same for one of them. *)
Definition repaired_as (login h : string) (u : User) : User :=
  if is_bcrypt_hash (u_password_hash u) then u
  else if String.eqb (u_email u) login then with_password_hash h u else u.

Lemma repaired_as_bcrypt login h u : is_bcrypt_hash (u_password_hash u) = true -> repaired_as login h u = u.
Proof. intros E. unfold repaired_as. by rewrite E. Qed.
Lemma repaired_as_other login h u : u_email u <> login -> repaired_as login h u = u.
Proof. intros E. unfold repaired_as. destruct (is_bcrypt_hash _); [done|]. by rewrite (proj2 (String.eqb_neq _ _) E). Qed.
Lemma repaired_as_hit h u : is_bcrypt_hash (u_password_hash u) = false -> repaired_as (u_email u) h u = with_password_hash h u.
Proof. intros E. unfold repaired_as. by rewrite E, String.eqb_refl. Qed.

Lemma repaired_steps u :
  repaired u = repaired_as "test2" TEST_PASSWORD_HASH (repaired_as "test" TEST_PASSWORD_HASH
                 (repaired_as "admin" DEFAULT_PASSWORD_HASH u)).
Proof.
  unfold repaired. destruct (is_bcrypt_hash (u_password_hash u)) eqn:E; [|].
  { by rewrite (repaired_as_bcrypt "admin"), (repaired_as_bcrypt "test"), repaired_as_bcrypt. }
  unfold default_hash. destruct (String.eqb_spec (u_email u) "admin") as [Ea|Ea].
  { rewrite <- Ea, repaired_as_hit by done. reflexivity. }
  rewrite (repaired_as_other "admin") by done. destruct (String.eqb_spec (u_email u) "test") as [Et|Et].
  { rewrite <- Et, repaired_as_hit by done. reflexivity. }
  rewrite (repaired_as_other "test") by done. cbn [orb]. destruct (String.eqb_spec (u_email u) "test2") as [E2|E2].
  { by rewrite <- E2, repaired_as_hit. }
  by rewrite repaired_as_other.
Qed.

Definition default_users : list (string * string * bool) :=
  [("admin", DEFAULT_PASSWORD_HASH, true); ("test", TEST_PASSWORD_HASH, false); ("test2", TEST_PASSWORD_HASH, false)].

(** What seeding one user does to the table of users. *)
Record one_seeded (login h : string) (adm : bool) (t t' : gmap Z User) : Prop := {
  os_kept i v : t !! i = Some v -> t' !! i = Some (repaired_as login h v);
  os_new i v : t' !! i = Some v -> t !! i = None -> v = MkUser i login h true adm
}.

(** A user that the seed leaves alone. *)
Definition settled (login : string) (a : Accounts) (u : User) : Prop :=
  users a !! u_id u = Some u /\ u_email u = login /\ is_bcrypt_hash (u_password_hash u) = true.

Lemma ensure_user_settled login h adm g u : accounts_ok (accounts g) -> settled login (accounts g) u ->
  ensure_user login h adm g = (g, inr u).
Proof.
  intros Hok (Hu & <- & Hh). unfold ensure_user.
  rewrite (bind_inr _ _ g g (Some u)) by (by apply (get_by_email_found g (u_id u))). by rewrite Hh.
Qed.

(** Replacing the hash of a user keeps the accounts well formed. *)
Lemma rehash_ok a u h : accounts_ok a -> users a !! u_id u = Some u ->
  accounts_ok (MkAccounts (<[u_id u := with_password_hash h u]> (users a)) (next_user_id a) (api_keys a) (next_api_key_id a)).
Proof.
  intros [Hi He Hk Hd] Hu. assert (Hl : forall i v, <[u_id u := with_password_hash h u]> (users a) !! i = Some v ->
    exists v0, users a !! i = Some v0 /\ u_id v = u_id v0 /\ u_email v = u_email v0).
  { intros i v [[<- <-]|[_ Hv]]%lookup_insert_Some; [by exists u|by exists v]. }
  split; cbn [users next_user_id api_keys next_api_key_id].
  - intros i v (v0 & Hv & -> & _)%Hl. by apply Hi.
  - intros i j v v' (v0 & Hv & _ & ->)%Hl (v1 & Hv' & _ & ->)%Hl. by apply He.
  - intros s k Hs. destruct (Hk s k Hs) as (H1 & H2 & H3). split_and!; [done| |done].
    destruct (decide (u_id u = ak_user_id k)) as [<-|]; [rewrite lookup_insert_eq; by eexists|by rewrite lookup_insert_ne].
  - done.
Qed.

Lemma ensure_user_spec login h adm g : accounts_ok (accounts g) -> is_bcrypt_hash h = true ->
  exists g' u, ensure_user login h adm g = (g', inr u) /\ settled login (accounts g') u /\ accounts_ok (accounts g') /\
    (forall i, i <> u_id u -> users (accounts g') !! i = users (accounts g) !! i) /\
    (forall v, users (accounts g) !! u_id u = Some v -> u_email v = login) /\
    one_seeded login h adm (users (accounts g)) (users (accounts g')) /\
    api_keys (accounts g') = api_keys (accounts g) /\ g_redis g' = g_redis g /\ clock g' = clock g.
Proof.
  intros Hok Hh. unfold ensure_user. destruct (get_by_email_spec login g Hok) as (o & E & Ho).
  rewrite (bind_inr _ _ _ _ _ E). destruct o as [u|].
  - destruct Ho as [Hu He]. assert (Hother : forall i v, users (accounts g) !! i = Some v -> i <> u_id u -> repaired_as login h v = v).
    { intros i v Hv Hi. apply repaired_as_other. intros Ev.
      destruct Hi. apply (ac_emails _ Hok i (u_id u) v u Hv Hu). congruence. }
    destruct (is_bcrypt_hash (u_password_hash u)) eqn:Eh; cbn [negb].
    + exists g, u. split_and!; try done; [intros v Hv; congruence|]. split; [|congruence]. intros i v Hv.
      destruct (decide (i = u_id u)) as [->|Hi]; [|by rewrite (Hother i)]. simplify_eq. by rewrite repaired_as_bcrypt.
    + eexists _, (with_password_hash h u). split; [reflexivity|]. cbn [accounts api_keys users g_redis clock].
      change (u_id (with_password_hash h u)) with (u_id u).
      split; [split; [apply (lookup_insert_eq (users (accounts g)) (u_id u))|done]|]. split; [by apply rehash_ok|].
      split; [intros i Hi; by rewrite lookup_insert_ne|]. split; [intros v Hv; cbn in Hv; congruence|]. split; [|done]. split.
      * intros i v Hv. destruct (decide (i = u_id u)) as [->|Hi].
        { rewrite lookup_insert_eq. simplify_eq. by rewrite repaired_as_hit. }
        by rewrite lookup_insert_ne, (Hother i).
      * intros i v Hv Hn. destruct (decide (i = u_id u)) as [->|Hi]; [congruence|]. rewrite lookup_insert_ne in Hv by done. congruence.
  - destruct (insert_user_spec login h adm g Hok Ho) as (g' & u & E' & -> & Ha & Hr & Hc & Hok').
    exists g'. eexists. split; [exact E'|]. rewrite Ha in Hok' |- *. cbn [users api_keys u_id].
    split; [split; [apply lookup_insert_eq|done]|]. split; [exact Hok'|].
    split; [intros i Hi; by rewrite lookup_insert_ne|].
    split; [intros v Hv; destruct (ac_users _ Hok _ _ Hv); lia|]. split; [|done]. split.
    + intros i v Hv. destruct (ac_users _ Hok _ _ Hv). rewrite lookup_insert_ne by lia. 
      rewrite repaired_as_other; [done|by apply (Ho i)].
    + intros i v [[<- <-]|[_ Hv]]%lookup_insert_Some Hn; [done|congruence].
Qed.

(** Seeding one user leaves the settled ones settled. *)
Lemma settled_other login login' a a' u v : settled login a u -> login <> login' ->
  (forall i, i <> u_id v -> users a' !! i = users a !! i) ->
  (forall v0, users a !! u_id v = Some v0 -> u_email v0 = login') -> settled login a' u.
Proof.
  intros (Hu & He & Hh) Hne Hfix Hsame. split; [|done]. destruct (decide (u_id u = u_id v)) as [Hid|Hid].
  - rewrite Hid in Hu. by destruct Hne; rewrite <- He; apply Hsame.
  - by rewrite Hfix.
Qed.

(** ** Balances and the pair *)

Definition seed_row (kb : Z * string * Z) (d : Database) : Database :=
  let '(uid, asset, n) := kb in
  match balances d !! (uid, asset) with
  | Some _ => d
  | None => set_balances <[(uid, asset) := MkBalance uid asset (dec_of_Z n) dec_zero (dec_of_Z n) 1]> d
  end.
Definition seed_pair (d : Database) : Database :=
  match pairs d !! "BTC/USD" with
  | Some _ => d
  | None => set_pairs <["BTC/USD" := default_pair (next_pair_id (pairs d))]> d
  end.
(** The tables after the seed, for the ids of the two test users. *)
Definition seed_tables (t1 t2 : Z) (d : Database) : Database :=
  seed_pair (seed_row (t2, "BTC", 10) (seed_row (t2, "USD", 100000) (seed_row (t1, "BTC", 10) (seed_row (t1, "USD", 100000) d)))).

Lemma ensure_balance_spec uid asset n w :
  ensure_balance uid asset (dec_of_Z n) w = (with_db (seed_row (uid, asset, n)) w, inr tt).
Proof.
  unfold ensure_balance, get_by_user_asset, from_db, with_db, seed_row. run_prog.
  destruct (balances (db w) !! (uid, asset)); [by destruct w|done].
Qed.
Lemma ensure_pair_spec w : ensure_pair w = (with_db seed_pair w, inr tt).
Proof.
  unfold ensure_pair, get_by_symbol, from_db, with_db, seed_pair. run_prog.
  destruct (pairs (db w) !! "BTC/USD"); [by destruct w|done].
Qed.

(** Rows that exist are kept. *)
Lemma seed_row_lookup kb d k b : balances d !! k = Some b -> balances (seed_row kb d) !! k = Some b.
Proof.
  destruct kb as [[uid asset] n]. unfold seed_row. destruct (balances d !! (uid, asset)) eqn:E; [done|]. intros Hk.
  cbn [set_balances balances]. rewrite lookup_insert_ne; [done|]. intros <-. congruence.
Qed.
Lemma seed_row_present uid asset n d : is_Some (balances (seed_row (uid, asset, n) d) !! (uid, asset)).
Proof.
  unfold seed_row. destruct (balances d !! (uid, asset)) eqn:E; [by rewrite E|].
  cbn [set_balances balances]. rewrite lookup_insert_eq. by eexists.
Qed.
Lemma seed_row_id uid asset n d : is_Some (balances d !! (uid, asset)) -> seed_row (uid, asset, n) d = d.
Proof. intros [b E]. unfold seed_row. by rewrite E. Qed.
Lemma seed_row_mono kb d k : is_Some (balances d !! k) -> is_Some (balances (seed_row kb d) !! k).
Proof. intros [b E]. exists b. by apply seed_row_lookup. Qed.
Lemma balances_seed_pair d : balances (seed_pair d) = balances d.
Proof. unfold seed_pair. by destruct (pairs d !! "BTC/USD"). Qed.
Lemma seed_pair_id d : seed_pair (seed_pair d) = seed_pair d.
Proof.
  unfold seed_pair at 1. replace (pairs (seed_pair d) !! "BTC/USD") with
    (Some (default (default_pair (next_pair_id (pairs d))) (pairs d !! "BTC/USD"))); [done|].
  unfold seed_pair. destruct (pairs d !! "BTC/USD") eqn:E; [by rewrite E|]. cbn [set_pairs pairs]. by rewrite lookup_insert_eq.
Qed.
#[local] Hint Resolve seed_row_present seed_row_mono : core.
Lemma seed_tables_id t1 t2 d : seed_tables t1 t2 (seed_tables t1 t2 d) = seed_tables t1 t2 d.
Proof.
  unfold seed_tables at 1. set (d4 := seed_tables t1 t2 d). assert (Hb : forall k,
    is_Some (balances (seed_row (t2, "BTC", 10) (seed_row (t2, "USD", 100000) (seed_row (t1, "BTC", 10)
      (seed_row (t1, "USD", 100000) d)))) !! k) -> is_Some (balances d4 !! k)).
  { intros k Hk. unfold d4, seed_tables. by rewrite balances_seed_pair. }
  rewrite !seed_row_id by auto 10. apply seed_pair_id.
Qed.
End SeedSpec.

(** ** The whole seed *)

Section SeedTheorem.
Context {R : Redis} {RS : RedisSpec R}.

(** A step on the accounts that changes neither tables nor Redis. *)
Lemma at_gateway_run {A} (m : prog Gateway exn A) s g a :
  m (MkGateway (s_accounts s) (redis (s_world s)) (s_clock s)) = (g, inr a) ->
  g_redis g = redis (s_world s) -> clock g = s_clock s ->
  at_gateway m s = (MkServer (accounts g) (s_world s) (s_clock s), inr a).
Proof. intros E Hr Hc. unfold at_gateway. rewrite E, Hr, Hc. by destruct s as [? [] ?]. Qed.

(** The table part of the seed. *)
Definition seed_rows (u v : User) : prog Server exn unit :=
  _ ← at_exchange (ensure_balance (u_id u) "USD" (dec_of_Z 100000));
  _ ← at_exchange (ensure_balance (u_id u) "BTC" (dec_of_Z 10));
  _ ← at_exchange (ensure_balance (u_id v) "USD" (dec_of_Z 100000));
  _ ← at_exchange (ensure_balance (u_id v) "BTC" (dec_of_Z 10));
  at_exchange ensure_pair.
Lemma at_exchange_run {A} (m : wprog A) f s a : (forall w, m w = (with_db f w, inr a)) ->
  at_exchange m s = (MkServer (s_accounts s) (with_db f (s_world s)) (s_clock s), inr a).
Proof. intros E. unfold at_exchange. by rewrite E. Qed.
Lemma seed_rows_spec u v s :
  seed_rows u v s = (MkServer (s_accounts s) (with_db (seed_tables (u_id u) (u_id v)) (s_world s)) (s_clock s), inr tt).
Proof.
  unfold seed_rows. do 4 (rewrite (bind_inr _ _ _ _ _ (at_exchange_run _ _ _ _ (ensure_balance_spec _ _ _)))).
  by rewrite (at_exchange_run _ _ _ _ ensure_pair_spec).
Qed.

(** The user part of the seed, before any continuation. *)
Definition seed_users {A} (k : User -> User -> prog Server exn A) : prog Server exn A :=
  _ ← at_gateway (ensure_user "admin" DEFAULT_PASSWORD_HASH true);
  test_user ← at_gateway (ensure_user "test" TEST_PASSWORD_HASH false);
  test2_user ← at_gateway (ensure_user "test2" TEST_PASSWORD_HASH false);
  k test_user test2_user.
Lemma seed_database_users : seed_database (F := Connected) = in_session (F := Connected) (seed_users seed_rows).
Proof. reflexivity. Qed.

Lemma default_hash_bcrypt : is_bcrypt_hash DEFAULT_PASSWORD_HASH = true.
Proof. reflexivity. Qed.
Lemma test_hash_bcrypt : is_bcrypt_hash TEST_PASSWORD_HASH = true.
Proof. reflexivity. Qed.
#[local] Opaque DEFAULT_PASSWORD_HASH TEST_PASSWORD_HASH ensure_user.

(** The same at the server, for one user. *)
Lemma ensure_user_run login h adm s : accounts_ok (s_accounts s) -> is_bcrypt_hash h = true ->
  exists A u, at_gateway (ensure_user login h adm) s = (MkServer A (s_world s) (s_clock s), inr u) /\
    settled login A u /\ accounts_ok A /\ api_keys A = api_keys (s_accounts s) /\
    (forall i, i <> u_id u -> users A !! i = users (s_accounts s) !! i) /\
    (forall login' v, settled login' (s_accounts s) v -> login' <> login -> settled login' A v) /\
    one_seeded login h adm (users (s_accounts s)) (users A).
Proof.
  intros Hok Hh. pose proof (ensure_user_spec login h adm (MkGateway (s_accounts s) (redis (s_world s)) (s_clock s)) Hok Hh)
    as (g & u & E & Su & Hok' & F & M & O & K & Hr & Hc).
  exists (accounts g), u. split; [exact (at_gateway_run _ s g u E Hr Hc)|]. split; [exact Su|]. split; [exact Hok'|].
  split; [exact K|]. split; [exact F|]. split; [|exact O]. intros login' v Sv Hne. exact (settled_other _ _ _ _ _ u Sv Hne F M).
Qed.
Lemma settled_run login h adm s u : accounts_ok (s_accounts s) -> settled login (s_accounts s) u ->
  at_gateway (ensure_user login h adm) s = (s, inr u).
Proof.
  intros Hok Su. rewrite (at_gateway_run _ s _ u (ensure_user_settled login h adm
    (MkGateway (s_accounts s) (redis (s_world s)) (s_clock s)) u Hok Su) eq_refl eq_refl). by destruct s.
Qed.
Lemma seed_users_settled {A} (k : User -> User -> prog Server exn A) s a t1 t2 : accounts_ok (s_accounts s) ->
  settled "admin" (s_accounts s) a -> settled "test" (s_accounts s) t1 -> settled "test2" (s_accounts s) t2 ->
  seed_users k s = k t1 t2 s.
Proof.
  intros Hok Ha H1 H2. unfold seed_users.
  rewrite (bind_inr _ _ _ _ _ (settled_run _ _ _ s a Hok Ha)).
  rewrite (bind_inr _ _ _ _ _ (settled_run _ _ _ s t1 Hok H1)).
  by rewrite (bind_inr _ _ _ _ _ (settled_run _ _ _ s t2 Hok H2)).
Qed.

Lemma seed_users_spec s : accounts_ok (s_accounts s) -> exists A a t1 t2,
  (forall B (k : User -> User -> prog Server exn B), seed_users k s = k t1 t2 (MkServer A (s_world s) (s_clock s))) /\
  settled "admin" A a /\ settled "test" A t1 /\ settled "test2" A t2 /\ accounts_ok A /\
  api_keys A = api_keys (s_accounts s) /\
  (forall i u, users (s_accounts s) !! i = Some u -> users A !! i = Some (repaired u)) /\
  (forall i u, users A !! i = Some u -> users (s_accounts s) !! i = None ->
     exists login h adm, u = MkUser i login h true adm /\ (login, h, adm) ∈ default_users).
Proof.
  intros Hok. destruct (ensure_user_run "admin" _ true s Hok default_hash_bcrypt) as (A1 & a & E1 & Sa & Ok1 & K1 & F1 & _ & O1).
  destruct (ensure_user_run "test" _ false (MkServer A1 (s_world s) (s_clock s)) Ok1 test_hash_bcrypt)
    as (A2 & t1 & E2 & St1 & Ok2 & K2 & F2 & P2 & O2).
  destruct (ensure_user_run "test2" _ false (MkServer A2 (s_world s) (s_clock s)) Ok2 test_hash_bcrypt)
    as (A3 & t2 & E3 & St2 & Ok3 & K3 & F3 & P3 & O3).
  cbn [s_accounts s_world s_clock] in *. exists A3, a, t1, t2. split; [|split_and!].
  - intros B k. unfold seed_users. by rewrite (bind_inr _ _ _ _ _ E1), (bind_inr _ _ _ _ _ E2), (bind_inr _ _ _ _ _ E3).
  - apply P3; [by apply P2|discriminate].
  - by apply P3.
  - exact St2.
  - exact Ok3.
  - congruence.
  - intros i u Hu. rewrite repaired_steps. by apply O3, O2, O1.
  - intros i u Hu Hn. assert (Hd : forall login h adm, (login, h, adm) ∈ default_users -> repaired_as "test2" TEST_PASSWORD_HASH
        (repaired_as "test" TEST_PASSWORD_HASH (MkUser i login h true adm)) = MkUser i login h true adm /\
        repaired_as "test2" TEST_PASSWORD_HASH (MkUser i login h true adm) = MkUser i login h true adm).
    { intros login h adm Hin. assert (Hb : is_bcrypt_hash h = true).
      { unfold default_users in Hin. rewrite !elem_of_cons, elem_of_nil in Hin.
        destruct Hin as [Hin|[Hin|[Hin|[]]]]; simplify_eq; [exact default_hash_bcrypt|exact test_hash_bcrypt..]. }
      by rewrite (repaired_as_bcrypt "test"), repaired_as_bcrypt. }
    destruct (users A2 !! i) as [u2|] eqn:E2i.
    2:{ exists "test2", TEST_PASSWORD_HASH, false. split; [by apply O3|set_solver]. }
    pose proof (os_kept _ _ _ _ _ O3 _ _ E2i) as Hk3. destruct (users A1 !! i) as [u1|] eqn:E1i.
    2:{ pose proof (os_new _ _ _ _ _ O2 _ _ E2i E1i) as ->. exists "test", TEST_PASSWORD_HASH, false.
        split; [|set_solver]. rewrite Hu in Hk3. injection Hk3 as ->. by apply Hd; set_solver. }
    pose proof (os_new _ _ _ _ _ O1 _ _ E1i Hn) as ->. pose proof (os_kept _ _ _ _ _ O2 _ _ E1i) as Hk2.
    exists "admin", DEFAULT_PASSWORD_HASH, true. split; [|set_solver].
    rewrite E2i in Hk2. injection Hk2 as ->. rewrite Hu in Hk3. injection Hk3 as ->. by apply Hd; set_solver.
Qed.

(** C39: the seed is idempotent.  On well-formed accounts and a connection that
    commits it never fails; it
    leaves the three default users with a bcrypt hash.  A user that exists is
    kept as it is, hash included, unless it is a default user whose hash is not
    a bcrypt hash, which then gets the default one; a user that is new is a
    default user with its default row.  Each test user gets the balances it
    misses, the default pair is added when there is none, and no balance row
    that exists, no API key and nothing in Redis is touched.  Running it again
    changes nothing. *)
Theorem seed_idempotent s : accounts_ok (s_accounts s) ->
  exists s1 a t1 t2, seed_database (F := Connected) s = (s1, inr tt) /\
  settled "admin" (s_accounts s1) a /\ settled "test" (s_accounts s1) t1 /\ settled "test2" (s_accounts s1) t2 /\
    accounts_ok (s_accounts s1) /\ api_keys (s_accounts s1) = api_keys (s_accounts s) /\
    (forall i u, users (s_accounts s) !! i = Some u -> users (s_accounts s1) !! i = Some (repaired u)) /\
    (forall i u, users (s_accounts s1) !! i = Some u -> users (s_accounts s) !! i = None ->
       exists login h adm, u = MkUser i login h true adm /\ (login, h, adm) ∈ default_users) /\
    db (s_world s1) = seed_tables (u_id t1) (u_id t2) (db (s_world s)) /\
    (forall k b, balances (db (s_world s)) !! k = Some b -> balances (db (s_world s1)) !! k = Some b) /\
    redis (s_world s1) = redis (s_world s) /\
    seed_database (F := Connected) s1 = (s1, inr tt).
Proof.
  intros Hok. destruct (seed_users_spec s Hok) as (A & a & t1 & t2 & Run & Sa & St1 & St2 & Ok & K & F & N).
  exists (MkServer A (with_db (seed_tables (u_id t1) (u_id t2)) (s_world s)) (s_clock s)), a, t1, t2.
  rewrite seed_database_users. unfold in_session, session_commit, on_connection. run_prog. rewrite Run, seed_rows_spec. cbn [s_accounts s_world s_clock].
  cbn [commit_fails Connected].
  rewrite (seed_users_settled seed_rows _ a t1 t2) by assumption. rewrite seed_rows_spec.
  cbn [s_accounts s_world s_clock with_db db redis now_ms]. unfold with_db. cbn [db redis now_ms]. rewrite seed_tables_id.
  split_and!; try assumption; try reflexivity.
  intros k b Hk. unfold seed_tables. rewrite balances_seed_pair. by do 4 apply seed_row_lookup.
Qed.
End SeedTheorem.

Lemma seed_idempotent_witness :
  let s := MkServer (R := MemRedis) demo_accounts (MkWorld (MkDatabase ∅ ∅ 1 [] ∅) empty_keyspace 1) (f_of_Z 1700000000) in
  exists s1, seed_database (F := Connected) s = (s1, inr tt) /\ seed_database (F := Connected) s1 = (s1, inr tt).
Proof.
  intros s. destruct (seed_idempotent s) as (s1 & a & t1 & t2 & E & _ & _ & _ & _ & _ & _ & _ & _ & _ & _ & E').
  - apply demo_accounts_ok.
  - exists s1. split; [exact E|exact E'].
Defined.
