(* ===== verification/Exchange.v ===== *)
(** * The exchange as a whole conserves money

    Every transaction of the services that touches the balances - placing,
    bulk placing, cancelling, modifying, triggering a stop, settling a match,
    refunding, the admin's adjustment - as one step of a system.  Between the
    steps everything else may change: Redis, the clock, every table but the
    balances.  The invariant of the balances and the supply of each asset are
    preserved along every run, deposits apart; an iteration of the worker is
    such a run. *)

From Stdlib Require Import ZArith Lia Bool SpecFloat.
From stdpp Require Import base tactics option list strings gmap sets.
From S2P Require Import Prelude Float64 PyDecimal Models RedisIface OrderBook Queues OrdersIndex World Pubsub Balance OrderRepo OrderService OrderSpec CancelSpec BulkSpec Engine Bridge Trade SettleSpec Worker WorkerSpec StopMonitor.
#[local] Open Scope Z_scope.

(** ** Balanced books *)

(** Every row is consistent and asset [a] totals [sup a]. *)
Definition books (sup : string -> Z) (t : gmap bkey Balance) : Prop := balances_ok t /\ forall a, supply a t = sup a.

Lemma supply_insert_new asset t k b : t !! k = None ->
  supply asset (<[k := b]> t) = supply asset t + supply_of asset (k, b).
Proof.
  intros Hk. unfold supply. rewrite (zsum_perm _ _ _ (map_to_list_insert t k b Hk)), zsum_cons. lia.
Qed.

(** A row that moves takes its asset's supply along. *)
Lemma books_moves sup t k b b' dl da : books sup t -> t !! k = Some b -> moves b b' dl da ->
  books (shift k.2 (dl + da) sup) (<[k := b']> t).
Proof.
  intros [Hok Hs] Hk Hm. destruct (Hok _ _ Hk) as [-> Hb]. pose proof Hm as (Hu & Ha & _ & _ & _ & Ht & Hb').
  split.
  - rewrite <- Hu, <- Ha. by apply balances_ok_insert.
  - intros a. rewrite (supply_insert a _ _ b b' Hk), Hs, Ht. unfold shift. cbn [snd]. destruct (String.eqb _ a); lia.
Qed.
Lemma shift_zero a sup b : shift a 0 sup b = sup b.
Proof. unfold shift. destruct (String.eqb a b); lia. Qed.
Lemma books_ext sup sup' t : (forall a, sup a = sup' a) -> books sup t -> books sup' t.
Proof. intros E [Hok Hs]. split; [done|]. intros a. by rewrite Hs. Qed.
Lemma books_internal sup t k b b' d : books sup t -> t !! k = Some b -> moves b b' (- d) d ->
  books sup (<[k := b']> t).
Proof.
  intros Hb Hk Hm. eapply books_ext; [|exact (books_moves _ _ _ _ _ _ _ Hb Hk Hm)].
  intros a. rewrite Z.add_opp_diag_l. apply shift_zero.
Qed.
Lemma books_new sup t uid asset : books sup t -> t !! (uid, asset) = None ->
  books sup (<[(uid, asset) := new_balance uid asset]> t).
Proof.
  intros [Hok Hs] Hk. split.
  - apply (balances_ok_insert t (new_balance uid asset) Hok), new_balance_ok.
  - intros a. rewrite supply_insert_new by done. rewrite Hs. unfold supply_of. cbn [fst snd new_balance total_balance].
    change (dunits dec_zero) with 0. destruct (String.eqb _ _); lia.
Qed.

(** ** The services keep the books *)

Section Books.
Context {R : Redis} {RS : RedisSpec R} {P : PgNumeric} {PS : PgNumericSpec P} {I : Interference}.

(** Concurrent transactions keep the books too. *)
Definition others_keep_books : Prop :=
  (forall n sup t, books sup t -> books sup (interfere n t)) /\ (forall n b, same_row b (seen_as n b)).
Hypothesis others_ok : others_keep_books.
Context (sup : string -> Z).
Definition balanced : World -> Prop := on_db (fun d => books sup (balances d)).

Lemma others_rely : rely.
Proof. split; [|apply others_ok]. intros n t Ht. by apply (proj1 others_ok n (fun a => supply a t)). Qed.

Lemma evolves_books t t' : books sup t -> evolves t t' -> books sup t'.
Proof. intros Ht. induction 1 as [|n t' H IH|uid asset t' H IH Hn]; [done|by apply (proj1 others_ok)|by apply books_new]. Qed.

Lemma keeps_optimistic (m : wprog Balance) k d :
  (forall w, balances_ok (balances (db w)) -> operation_outcome (balances (db w)) k (- d) d (m w)) ->
  keeps balanced m.
Proof.
  intros H w Hw. specialize (H w (proj1 Hw)). unfold balanced, on_db in *. destruct (m w) as [w' [e|b]]; cbn in H.
  - by eapply evolves_books.
  - destruct H as [(s & row & row' & He & Hk & Hm & Ht) _]. rewrite Ht.
    eapply books_internal; [by eapply evolves_books|done|done].
Qed.
Lemma balanced_lock_optimistic uid asset amount reason oid :
  money amount -> keeps balanced (lock_optimistic uid asset amount reason oid).
Proof.
  intros Ha. apply (keeps_optimistic _ (uid, asset) (- dunits amount)). intros w Hw. rewrite Z.opp_involutive.
  by apply lock_optimistic_spec; [apply others_rely|..].
Qed.
Lemma balanced_unlock_optimistic uid asset amount reason oid :
  money amount -> keeps balanced (unlock_optimistic uid asset amount reason oid).
Proof.
  intros Ha. apply (keeps_optimistic _ (uid, asset) (dunits amount)). intros w Hw.
  by apply unlock_optimistic_spec; [apply others_rely|..].
Qed.

(** Steps that leave the balances table alone. *)
Lemma balanced_update f : (forall d, balances (f d) = balances d) -> keeps balanced (update_db f).
Proof. intros H. apply keeps_update_db. intros d. by rewrite H. Qed.
Lemma balanced_write_order o : keeps balanced (write_order o).
Proof. by apply balanced_update. Qed.
Lemma balanced_add_order mk : keeps balanced (add_order mk).
Proof. by intros w. Qed.
Lemma balanced_update_status id s : keeps balanced (update_status id s).
Proof. by apply (keeps_update_order_row (fun d => books sup (balances d))). Qed.
Lemma balanced_cancel_children id : keeps balanced (cancel_children id).
Proof. by intros w. Qed.
Hint Resolve balanced_lock_optimistic balanced_unlock_optimistic balanced_write_order balanced_add_order
  balanced_update_status balanced_cancel_children : keeps.

Lemma balanced_publish_order uid ev oid symbol side type status opts :
  keeps balanced (publish_order_update uid ev oid symbol side type status opts).
Proof. unfold publish_order_update, publish_event. keeps_tac. Qed.
Lemma balanced_publish_bulk uid bid op n m errs : keeps balanced (publish_bulk_result uid bid op n m errs).
Proof. unfold publish_bulk_result, publish_event. keeps_tac. Qed.
Lemma balanced_publish_book symbol : keeps balanced (publish_book symbol).
Proof. unfold publish_book, publish_orderbook_snapshot, publish_event. keeps_tac. Qed.
Lemma balanced_enqueue mk : keeps balanced (enqueue mk).
Proof. unfold enqueue. keeps_tac. Qed.
Hint Resolve balanced_publish_order balanced_publish_bulk balanced_publish_book balanced_enqueue : keeps.

Lemma balanced_create_order uid dto bulk : keeps balanced (create_order uid dto bulk).
Proof. unfold create_order, create_sltp_child. keeps_tac. Qed.
Lemma balanced_register_order o bulk hb : keeps balanced (register_order o bulk hb).
Proof. unfold register_order. keeps_tac. Qed.
Lemma balanced_register_stop o : keeps balanced (register_stop_order o).
Proof. unfold register_stop_order. keeps_tac. Qed.
Lemma balanced_drop_resting o : keeps balanced (drop_resting o).
Proof. unfold drop_resting. keeps_tac. Qed.
Hint Resolve balanced_create_order balanced_register_order balanced_register_stop balanced_drop_resting : keeps.

(** Running a preserving program from a balanced world; a prefix that only
    reads. *)
Lemma keeps_fst {A} J (m : wprog A) w : keeps J m -> J w -> J (m w).1.
Proof. intros H Hw. specialize (H w Hw). by destruct (m w) as [w' [e|a]]. Qed.
Lemma keeps_of_fst {A} J (m : wprog A) : (forall w, J w -> J (m w).1) -> keeps J m.
Proof. intros H w Hw. specialize (H w Hw). by destruct (m w) as [w' [e|a]]. Qed.
Lemma bind_reads {A B} (m : wprog A) (f : A -> wprog B) w : reads m ->
  (m ≫= f) w = match (m w).2 with inl e => (w, inl e) | inr a => f a w end.
Proof.
  intros H. specialize (H w). unfold mbind, prog_bind. destruct (m w) as [w' [e|a]]; cbn in H |- *; by subst.
Qed.
Lemma transaction_fst {A} (m : wprog A) w : balanced w -> balanced (m w).1 -> balanced (transaction m w).1.
Proof. intros Hw Hm. unfold transaction. by destruct (m w) as [w' [e|a]]. Qed.
Lemma reads_validate symbol : reads (validate_and_get_pair symbol).
Proof.
  unfold validate_and_get_pair, get_by_symbol. intros w. run_prog.
  destruct (from_db _ w) as [w1 [e|[pr|]]] eqn:E; injection E as <- E; [done| |done]. by destruct (p_is_active pr).
Qed.
Lemma validate_pair_result symbol pr w : (validate_and_get_pair symbol w).2 = inr pr -> pairs (db w) !! symbol = Some pr.
Proof.
  unfold validate_and_get_pair, get_by_symbol, from_db. run_prog. destruct (pairs (db w) !! symbol) as [pr'|]; [|done].
  destruct (p_is_active pr'); [by intros [= ->]|done].
Qed.

(** *** Placement *)

Lemma place_balanced uid dto w : balanced w ->
  (forall pr req, pairs (db w) !! d_symbol dto = Some pr -> (lock_requirement dto pr w).2 = inr req -> money req.2) ->
  balanced (place_order uid dto w).1.
Proof.
  intros Hw Hm. unfold place_order. rewrite bind_reads by apply reads_validate.
  destruct (validate_and_get_pair (d_symbol dto) w).2 as [e|pr] eqn:Ep; [done|]. apply validate_pair_result in Ep.
  rewrite bind_reads by done. destruct (lift _ _).2; [done|].
  rewrite bind_reads by apply reads_lock_requirement.
  destruct (lock_requirement dto pr w).2 as [e|req] eqn:Er; [done|]. specialize (Hm pr req Ep Er).
  apply keeps_fst; [|done]. keeps_tac.
Qed.

(** *** Bulk placement *)

Definition all_money (reqs : gmap string decimal) : Prop := map_Forall (fun _ a => money a) reqs.
Lemma money_requirement reqs asset : all_money reqs -> money (default dec_zero (reqs !! asset)).
Proof. intros H. destruct (reqs !! asset) as [a|] eqn:E; [by apply (H asset)|apply money_zero]. Qed.
Hint Resolve money_requirement : keeps.
Lemma balanced_on_insufficient {A} (m : wprog A) h : keeps balanced m -> keeps balanced h -> keeps balanced (on_insufficient m h).
Proof. intros Hm Hh. unfold on_insufficient. apply keeps_try; [done|]. intros e. destruct e; keeps_tac. Qed.
Lemma balanced_unlock_all uid reqs assets : all_money reqs -> keeps balanced (unlock_all uid reqs assets).
Proof. intros Hr. induction assets as [|a assets IH]; cbn [unlock_all]; keeps_tac. Qed.
Lemma balanced_lock_all uid bulk total reqs locked assets : all_money reqs ->
  keeps balanced (lock_all uid bulk total reqs locked assets).
Proof.
  intros Hr. revert locked. induction assets as [|a assets IH]; intros locked; cbn [lock_all]; [apply keeps_ret|].
  apply keeps_bind; [|intros _; apply IH]. apply balanced_on_insufficient; [auto with keeps|].
  apply keeps_bind; [by apply balanced_unlock_all|intros _; auto with keeps].
Qed.
Lemma balanced_insert_all uid bulk dtos : keeps balanced (insert_all uid bulk dtos).
Proof. induction dtos as [|dto dtos IH]; cbn [insert_all]; keeps_tac. Qed.
Hint Resolve balanced_insert_all balanced_lock_all : keeps.

Lemma bulk_balanced uid dtos bulk w : balanced w ->
  (forall reqs, (bulk_requirements (set_d_bulk_id (Some bulk) <$> dtos) ∅ w).2 = inr reqs -> all_money reqs) ->
  balanced (place_bulk_orders uid dtos bulk w).1.
Proof.
  intros Hw Hm. unfold place_bulk_orders. destruct dtos as [|dto dtos]; [done|]. cbn zeta.
  rewrite bind_reads by apply reads_bulk_requirements.
  destruct (bulk_requirements _ ∅ w).2 as [e|reqs]; [done|]. specialize (Hm reqs eq_refl).
  apply keeps_fst; [|done]. keeps_tac.
Qed.

(** *** Operations on a row held FOR UPDATE *)

Lemma balanced_unlock_row b a reason oid w : balanced w ->
  balances (db w) !! (b_user_id b, b_asset b) = Some b -> money a ->
  balanced (unlock_pessimistic b a reason oid w).1.
Proof.
  intros Hw Hk Ma. destruct (balances_ok_lookup _ _ _ _ (proj1 Hw) Hk) as (_ & _ & Hb).
  pose proof (unlock_spec b a reason oid w Hb Ma) as H. unfold written in H.
  destruct (_ && _); [|by destruct H as [msg ->]]. destruct H as (b' & _ & Hm & Hd). unfold balanced, on_db. rewrite Hd.
  by eapply books_internal.
Qed.
(** [row] looked up, then unlocked by an amount that is money. *)
Lemma balanced_unlock_found uid asset (amount : Balance -> decimal) (guard : Balance -> bool) reason oid :
  (forall b, balance_ok b -> money (amount b)) ->
  keeps balanced (row ← get_for_update uid asset;
    match row with
    | Some b => if guard b then _ ← unlock_pessimistic b (amount b) reason oid; mret tt else mret tt
    | None => mret tt
    end).
Proof.
  intros Ha. apply keeps_of_fst. intros w Hw. rewrite bind_reads by done. unfold get_for_update, from_db, gets. cbn [snd].
  destruct (balances (db w) !! (uid, asset)) as [b|] eqn:Hk; [|done]. destruct (guard b); [|done].
  destruct (balances_ok_lookup _ _ _ _ (proj1 Hw) Hk) as (Hu & Hs & Hb).
  pose proof (balanced_unlock_row b (amount b) reason oid w Hw ltac:(by rewrite Hu, Hs) (Ha b Hb)) as H.
  unfold mbind, prog_bind. by destruct (unlock_pessimistic _ _ _ _ w) as [w' [e|b']].
Qed.

Lemma dec_min_is_money a b : money a -> balance_ok b -> money (dec_min a (locked_balance b)).
Proof. intros Ha Hb. apply dec_min_money; [done|apply Hb]. Qed.
Lemma balanced_unlock_canceled o asset amount : money amount -> keeps balanced (unlock_canceled o asset amount).
Proof.
  intros Ha. unfold unlock_canceled. destruct (_ && _); [|apply keeps_ret].
  apply (balanced_unlock_found _ _ (fun b => dec_min amount (locked_balance b))
    (fun b => dec_ltb dec_zero (dec_min amount (locked_balance b)))).
  intros b Hb. by apply dec_min_is_money.
Qed.
Lemma balanced_refund p : keeps balanced (refund_market_buy_leftover p).
Proof.
  unfold refund_market_buy_leftover. apply keeps_transaction. apply keeps_bind; [auto with keeps|].
  intros [pr|]; [|apply keeps_ret].
  apply (balanced_unlock_found _ _ locked_balance (fun b => dec_ltb dec_zero (locked_balance b))).
  intros b Hb. apply Hb.
Qed.
(** *** Cancellation *)

(** What cancelling the order unlocks is a money amount. *)
Definition cancel_exact (d : Database) (o : Order) : Prop :=
  forall pr, pairs d !! o_symbol o = Some pr -> money (cancel_unlock o pr).2.
Definition cancels_exact (d : Database) : Prop := map_Forall (fun _ o => cancel_exact d o) (orders d).

Lemma pair_result symbol pr w : ((get_by_symbol symbol ≫= require AssertionError) w).2 = inr pr -> pairs (db w) !! symbol = Some pr.
Proof.
  unfold get_by_symbol, from_db. run_prog. destruct (pairs (db w) !! symbol) as [pr'|]; cbn; [by intros [= ->]|done].
Qed.
Lemma reads_pair symbol : reads (get_by_symbol symbol ≫= require AssertionError).
Proof. apply reads_bind; [done|]. by intros [pr|]. Qed.

Lemma cancel_balanced uid oid w : balanced w ->
  (forall o, orders (db w) !! oid = Some o -> cancel_exact (db w) o) -> balanced (OrderService.cancel_order uid oid w).1.
Proof.
  intros Hw Hm. unfold OrderService.cancel_order. rewrite bind_reads by done. unfold get_by_user at 1, from_db at 1, gets. cbn [snd].
  destruct (orders (db w) !! oid) as [o|] eqn:Eo; [|done]. cbn [mbind option_bind]. destruct (o_user_id o =? uid); [|done].
  destruct (negb (is_active o)); [done|]. rewrite bind_reads by apply reads_pair.
  destruct ((get_by_symbol _ ≫= _) w).2 as [e|pr] eqn:Ep; [done|]. apply pair_result in Ep.
  specialize (Hm o eq_refl pr Ep). apply keeps_fst; [|done].
  apply keeps_bind; [by apply balanced_unlock_canceled|intros _]. keeps_tac.
Qed.

Lemma exact_keys d f : pairs (f d) = pairs d ->
  (forall k o', orders (f d) !! k = Some o' -> exists k0 o, orders d !! k0 = Some o /\ o_symbol o' = o_symbol o /\
    forall pr, cancel_unlock o' pr = cancel_unlock o pr) -> cancels_exact d -> cancels_exact (f d).
Proof.
  intros Ep Ho Hd k o' Hk pr. destruct (Ho k o' Hk) as (k0 & o & Hk0 & -> & ->). rewrite Ep. by apply (Hd k0 o).
Qed.
Lemma exact_balances f : keeps (on_db cancels_exact) (update_db (set_balances f)).
Proof. apply keeps_update_db. intros d. apply exact_keys; [done|]. intros k o Hk. by exists k, o. Qed.
Lemma exact_status id s : keeps (on_db cancels_exact) (update_status id s).
Proof.
  apply keeps_of_fst. intros w Hw. rewrite update_status_spec. destruct (orders (db w) !! id) as [o|] eqn:E; [|done].
  revert Hw. unfold on_db. apply exact_keys; [done|]. cbn. intros k o' [[<- <-]|[_ Hk]]%lookup_insert_Some; [by exists id, o|by exists k, o'].
Qed.
Lemma exact_children id : keeps (on_db cancels_exact) (cancel_children id).
Proof.
  apply keeps_of_fst. intros w. destruct (cancel_children_spec id w) as [n ->]. unfold on_db. apply exact_keys; [done|].
  cbn. intros k o' (o & <- & Hk)%lookup_fmap_Some. exists k, o. unfold cancel_child. by destruct (is_child_of id o).
Qed.
Hint Resolve exact_balances exact_status exact_children : keeps.
Lemma exact_cancel uid oid : keeps (on_db cancels_exact) (OrderService.cancel_order uid oid).
Proof.
  unfold OrderService.cancel_order, get_by_user, unlock_canceled, get_for_update, unlock_pessimistic, pessimistic, write_balance,
    publish_balance, publish_balance_update, drop_resting, enqueue, publish_order_update, publish_book,
    publish_orderbook_snapshot, publish_event. keeps_tac.
Qed.

Lemma keeps_both {A} (J K : World -> Prop) (m : wprog A) : (forall w, J w -> K w -> J (m w).1) -> keeps K m ->
  keeps (fun w => J w /\ K w) m.
Proof.
  intros H1 H2. apply keeps_of_fst. intros w [Hj Hk]. split; [by apply H1|by apply keeps_fst].
Qed.
Lemma cancel_bulk_balanced uid ids symbol all batch w : balanced w -> cancels_exact (db w) ->
  balanced (cancel_bulk_orders uid ids symbol all batch w).1.
Proof.
  intros Hw Hx. assert (H : keeps (fun w => balanced w /\ on_db cancels_exact w) (cancel_bulk_orders uid ids symbol all batch)).
  { assert (Hr : forall A (m : rprog A), keeps (fun w => balanced w /\ on_db cancels_exact w) (on_redis m)).
    { intros A m. apply keeps_both; [|apply keeps_on_redis]. intros w' Hw' _. by apply keeps_fst; [apply keeps_on_redis|]. }
    unfold cancel_bulk_orders. apply keeps_bind; [destruct all; [apply Hr|apply keeps_ret]|]. intros [|i l]; [apply keeps_ret|].
    apply keeps_bind; [|intros res; unfold publish_bulk_result, publish_event; keeps_tac; apply Hr].
    apply keeps_for_fold. intros acc oid. unfold cancel_one. apply keeps_try; [|intros e; destruct e; keeps_tac].
    apply keeps_bind; [|intros _; apply keeps_ret]. apply keeps_both; [|apply exact_cancel].
    intros w' Hw' Hx'. apply cancel_balanced; [done|]. intros o Ho. by apply (Hx' oid o). }
  by apply (keeps_fst _ _ w H).
Qed.
(** *** Cancel-replace *)

Lemma modify_balanced uid oid price qty w : balanced w ->
  (forall o pr, orders (db w) !! oid = Some o -> pairs (db w) !! o_symbol o = Some pr ->
    money (modify_unlock o pr).2 /\ money (modify_lock o pr price qty).2) ->
  balanced (modify_order uid oid price qty w).1.
Proof.
  intros Hw Hm. unfold modify_order. rewrite bind_reads by done. unfold get_order_for_update, from_db at 1, gets. cbn [snd].
  destruct (orders (db w) !! oid) as [o|] eqn:Eo; [|done]. destruct (negb (o_user_id o =? uid)); [done|].
  destruct (negb (is_active o)); [done|]. destruct (negb (modifiable _)); [done|].
  rewrite bind_reads by apply reads_pair.
  destruct ((get_by_symbol _ ≫= _) w).2 as [e|pr] eqn:Ep; [done|]. apply pair_result in Ep.
  destruct (Hm o pr eq_refl Ep) as [Mu Ml]. apply keeps_fst; [|done]. cbn zeta.
  apply keeps_bind; [keeps_tac|intros _]. apply keeps_bind; [apply keeps_lift|intros _].
  apply keeps_bind; [apply balanced_on_insufficient; keeps_tac|intros _].
  assert (Hu : forall f, keeps balanced (update_db (set_orders f))) by (intros f; by apply balanced_update).
  keeps_tac.
Qed.

(** *** Triggering a stop *)

Lemma reads_trigger_lock o pr : reads (trigger_lock o pr).
Proof.
  unfold trigger_lock. destruct (o_side o); [|done].
  assert (H : forall X (m : rprog X), reads m -> reads (on_redis m)) by (intros X m; apply reads_on_redis).
  destruct (child_terms o) as [[] [p|]]; try done;
    (apply reads_bind; [apply H, reads_opposite|intros asks]; destruct asks; [done|];
     apply reads_bind; [done|intros walked]; by destruct (dec_ltb _ _)).
Qed.
Lemma trigger_balanced oid price trailing w : balanced w ->
  (forall o pr asset amount, orders (db w) !! oid = Some o -> pairs (db w) !! o_symbol o = Some pr ->
    (trigger_lock o pr w).2 = inr (Some (asset, amount)) -> money amount) ->
  balanced (trigger_stop_order oid price trailing w).1.
Proof.
  intros Hw Hm. unfold trigger_stop_order. apply transaction_fst; [done|].
  rewrite bind_reads by done. unfold get_order_for_update, from_db at 1, gets. cbn [snd].
  destruct (orders (db w) !! oid) as [o|] eqn:Eo; [|done]. destruct (negb _); [done|].
  rewrite bind_reads by done. unfold get_by_symbol, from_db at 1, gets. cbn [snd].
  destruct (pairs (db w) !! o_symbol o) as [pr|] eqn:Ep; [|done]. rewrite bind_reads by apply reads_trigger_lock.
  destruct (trigger_lock o pr w).2 as [e|[[asset amount]|]] eqn:El; [done| |done].
  specialize (Hm o pr asset amount eq_refl Ep El). apply keeps_fst; [|done].
  apply keeps_bind; [keeps_tac|intros []; [|apply keeps_ret]]. unfold fire_stop. keeps_tac.
Qed.

(** *** Settlement *)

(** The trades [ts] of a match of payload [p] can be settled exactly. *)
Definition settleable (p : OrderActionPayload) (ts : list TradeResult) (w : World) : Prop :=
  forall pr ds, pairs (db w) !! pl_symbol p = Some pr -> (enrich (pl_symbol p) ts w).2 = inr ds ->
    base_asset pr <> quote_asset pr /\ Forall trade_money ds /\
    owners_have_rows (base_asset pr) (quote_asset pr) (pl_order_id p) ds (db w) /\
    supply (base_asset pr) (balances (db w)) + zsum tq ds < 10 ^ 46 /\
    supply (quote_asset pr) (balances (db w)) + zsum tv ds < 10 ^ 46.

Lemma reads_enrich symbol ts : reads (enrich symbol ts).
Proof.
  induction ts as [|t ts IH]; cbn [enrich]; [done|].
  apply reads_bind; [by apply reads_on_redis|].
  intros h. apply reads_bind; [destruct h as [h|]; [by destruct (hval_int _)|done]|]. intros uid.
  apply reads_bind; [done|]. intros d. apply reads_bind; [done|]. done.
Qed.
Lemma settle_balanced p ts w : balanced w -> settleable p ts w -> balanced (settle_match p ts w).1.
Proof.
  intros Hw Hs. unfold settle_match, transaction. rewrite bind_reads by done. unfold get_by_symbol, from_db at 1, gets. cbn [snd].
  destruct (pairs (db w) !! pl_symbol p) as [pr|] eqn:Ep; [|done]. rewrite bind_reads by apply reads_enrich.
  destruct (enrich _ _ w).2 as [e|ds] eqn:Ed; [done|]. destruct (Hs pr ds Ep Ed) as (Hne & Hts & Hrows & Rb & Rq).
  destruct (OrderSide_of (pl_side p)) as [side|]; [|done]. rewrite (bind_inr _ _ w w side eq_refl).
  destruct (OrderType_of (pl_type p)) as [ty|]; [|done]. rewrite (bind_inr _ _ w w ty eq_refl).
  pose proof (persist_conserves _ _ ds (pl_user_id p) (pl_order_id p) side (pl_symbol p) w Hne (proj1 Hw) Hrows Hts Rb Rq) as H.
  unfold mbind, prog_bind. destruct (persist_trade_batch _ _ _ _ _ _ _ w) as [w' [e|l]]; [exact Hw|].
  destruct H as [Hok Hsup]. split; [exact Hok|]. intros a. cbn. rewrite Hsup. apply (proj2 Hw).
Qed.

(** *** The admin's adjustment: the only deposit *)

Lemma adjust_balanced uid asset delta reason w : balanced w -> money delta ->
  (let b := default (new_balance uid asset) (balances (db w) !! (uid, asset)) in
   dunits (total_balance b) + dunits delta < 10 ^ 46) ->
  let r := admin_adjust uid asset delta reason w in
  books (match r.2 with inr _ => shift asset (dunits delta) sup | inl _ => sup end) (balances (db r.1)).
Proof.
  intros Hw Md Hroom r. subst r.
  assert (Hrow : forall w b, balanced w -> balances (db w) !! (uid, asset) = Some b ->
    dunits (total_balance b) + dunits delta < 10 ^ 46 ->
    let r := admin_adjust uid asset delta reason w in
    books (match r.2 with inr _ => shift asset (dunits delta) sup | inl _ => sup end) (balances (db r.1))).
  { clear w Hw Hroom. intros w b Hw Hk Hroom r.
    pose proof (admin_adjust_row uid asset delta reason w b Hk (proj1 Hw) Md Hroom) as H. cbn zeta in H. subst r. revert H.
    destruct (0 <=? _).
    - intros (b' & -> & Hm & ->). exact (books_moves _ _ _ _ _ _ _ Hw Hk Hm).
    - intros (need & -> & _). exact Hw. }
  destruct (balances (db w) !! (uid, asset)) as [b|] eqn:Hk; cbn [default] in Hroom; [by apply (Hrow w b)|].
  rewrite admin_adjust_missing by done. eapply (Hrow _ (new_balance uid asset)); [|apply lookup_insert_eq|exact Hroom].
  by apply books_new.
Qed.
End Books.

(** ** The system *)

Section System.
Context {R : Redis} {RS : RedisSpec R} {P : PgNumeric} {PS : PgNumericSpec P} {I : Interference}.

(** The transactions that can write to the balances. *)
Inductive action :=
  | APlace (user_id : Z) (dto : OrderCreateDTO)
  | APlaceBulk (user_id : Z) (dtos : list OrderCreateDTO) (bulk_id : string)
  | ACancel (user_id order_id : Z)
  | ACancelBulk (user_id : Z) (order_ids : option (list Z)) (symbol : option string) (cancel_all : bool) (batch_id : string)
  | AModify (user_id order_id : Z) (price quantity : decimal)
  | ATrigger (order_id : Z) (price : decimal) (is_trailing : bool)
  | ASettle (p : OrderActionPayload) (ts : list TradeResult)
  | ARefund (p : OrderActionPayload)
  | AAdjust (user_id : Z) (asset : string) (delta : decimal) (reason : string).

Definition void {A} (m : wprog A) : wprog unit := _ ← m; mret tt.
Definition perform (a : action) : wprog unit :=
  match a with
  | APlace uid dto => transaction (void (place_order uid dto))
  | APlaceBulk uid dtos bulk => transaction (void (place_bulk_orders uid dtos bulk))
  | ACancel uid oid => transaction (void (OrderService.cancel_order uid oid))
  | ACancelBulk uid ids symbol all batch => transaction (void (cancel_bulk_orders uid ids symbol all batch))
  | AModify uid oid price qty => transaction (void (modify_order uid oid price qty))
  | ATrigger oid price trailing => trigger_stop_order oid price trailing
  | ASettle p ts => void (settle_match p ts)
  | ARefund p => refund_market_buy_leftover p
  | AAdjust uid asset delta reason => transaction (void (admin_adjust uid asset delta reason))
  end.

(** The amounts the action moves fit the columns: multiples of 10^-18 within
    their range.  A settlement also needs the rows it credits. *)
Definition exact (a : action) (w : World) : Prop :=
  match a with
  | APlace uid dto => forall pr req, pairs (db w) !! d_symbol dto = Some pr ->
      (lock_requirement dto pr w).2 = inr req -> money req.2
  | APlaceBulk uid dtos bulk => forall reqs,
      (bulk_requirements (set_d_bulk_id (Some bulk) <$> dtos) ∅ w).2 = inr reqs -> all_money reqs
  | ACancel uid oid => forall o, orders (db w) !! oid = Some o -> cancel_exact (db w) o
  | ACancelBulk _ _ _ _ _ => cancels_exact (db w)
  | AModify uid oid price qty => forall o pr, orders (db w) !! oid = Some o -> pairs (db w) !! o_symbol o = Some pr ->
      money (modify_unlock o pr).2 /\ money (modify_lock o pr price qty).2
  | ATrigger oid _ _ => forall o pr asset amount, orders (db w) !! oid = Some o ->
      pairs (db w) !! o_symbol o = Some pr -> (trigger_lock o pr w).2 = inr (Some (asset, amount)) -> money amount
  | ASettle p ts => settleable p ts w
  | ARefund _ => True
  | AAdjust uid asset delta _ => money delta /\
      dunits (total_balance (default (new_balance uid asset) (balances (db w) !! (uid, asset)))) + dunits delta < 10 ^ 46
  end.

(** What enters the exchange: the admin's adjustment, when it succeeds. *)
Definition deposit (a : action) (w : World) (asset : string) : Z :=
  match a with
  | AAdjust uid s delta reason =>
      match (admin_adjust uid s delta reason w).2 with
      | inr _ => if String.eqb s asset then dunits delta else 0
      | inl _ => 0
      end
  | _ => 0
  end.

(** The runs, with what they deposit: actions, and between them any change that
    leaves the balances alone. *)
Inductive run : World -> (string -> Z) -> World -> Prop :=
  | run_stop w : run w (fun _ => 0) w
  | run_other w w1 dep w' : balances (db w1) = balances (db w) -> run w1 dep w' -> run w dep w'
  | run_action a w dep w' : exact a w -> run (perform a w).1 dep w' -> run w (fun s => deposit a w s + dep s) w'.

Lemma void_fst {A} (m : wprog A) w : (void m w).1 = (m w).1.
Proof. unfold void, mbind, prog_bind. by destruct (m w) as [w' [e|a]]. Qed.

(** One action: the books move by its deposit. *)
Lemma action_books a sup w : others_keep_books -> exact a w -> books sup (balances (db w)) ->
  books (fun s => sup s + deposit a w s) (balances (db (perform a w).1)).
Proof.
  intros Ho Hx Hw.
  assert (H0 : forall w', balanced sup w' -> (forall s, deposit a w s = 0) ->
    books (fun s => sup s + deposit a w s) (balances (db w'))).
  { intros w' H Hd. eapply books_ext; [|exact H]. intros s. cbn. rewrite Hd. lia. }
  destruct a; cbn [perform exact] in *.
  1-5: apply H0; [apply transaction_fst; [done|rewrite void_fst]|done];
    first [by apply place_balanced|by apply bulk_balanced|by apply cancel_balanced|by apply cancel_bulk_balanced|by apply modify_balanced].
  - apply H0; [by apply trigger_balanced|done].
  - apply H0; [|done]. rewrite void_fst. by apply settle_balanced.
  - apply H0; [|done]. by apply keeps_fst; [apply balanced_refund|].
  - destruct Hx as [Md Hr]. pose proof (adjust_balanced sup user_id asset delta reason w Hw Md Hr) as H. cbn zeta in H.
    unfold deposit, transaction, void, mbind, prog_bind. revert H.
    destruct (admin_adjust user_id asset delta reason w) as [w' [e|b]]; cbn [fst snd db]; intros H.
    + eapply books_ext; [|exact Hw]. intros s. cbn. lia.
    + eapply books_ext; [|exact H]. intros s. done.
Qed.

(** C1: the exchange conserves money.  A run of the system is any interleaving of
    placements, bulk placements, cancellations, replacements, stop triggers,
    settlements, refunds and admin adjustments, each succeeding or failing, with
    any change of Redis, of the clock and of the other tables in between.  Its
    actions are [exact] where they are performed: the amounts that are locked,
    unlocked, adjusted or traded are multiples of 10^-18 within the range of the
    columns, and where a match is settled the owners of all its orders have a
    balance row for BOTH assets of the pair, the two assets differ, and the
    supplies stay in range.  (Without a row the credit is lost, see
    [settlement_missing_row_loses_credit]; below 10^-18 the rows break, see
    [lock_below_precision_breaks_row].)  The concurrent transactions inside the
    optimistic operations keep the books.  Along every such run, from consistent
    balances, every balance still satisfies total = locked + available with no
    negative part, and the supply of every asset over all users is the initial
    one plus what the admin deposited. *)
Theorem exchange_conserves_money w dep w' : others_keep_books -> balances_ok (balances (db w)) -> run w dep w' ->
  balances_ok (balances (db w')) /\ forall s, supply s (balances (db w')) = supply s (balances (db w)) + dep s.
Proof.
  intros Ho Hok Hrun. assert (H : forall sup, books sup (balances (db w)) -> books (fun s => sup s + dep s) (balances (db w'))).
  { clear Hok. induction Hrun as [w|w w1 dep w' E Hrun IH|a w dep w' Hx Hrun IH]; intros sup Hw.
    - eapply books_ext; [|exact Hw]. intros s. cbn. lia.
    - apply IH. by rewrite E.
    - eapply books_ext; [|exact (IH _ (action_books a sup w Ho Hx Hw))]. intros s. cbn. lia. }
  destruct (H (fun s => supply s (balances (db w)))) as [H1 H2]; [done|]. done.
Qed.

(** ** The worker runs the system *)

(** A run without deposit. *)
Definition quiet (w w' : World) : Prop := exists dep, run w dep w' /\ forall s, dep s = 0.

Lemma run_trans w d1 w1 : run w d1 w1 -> forall d2 w2, run w1 d2 w2 -> exists d, run w d w2 /\ forall s, d s = d1 s + d2 s.
Proof.
  induction 1 as [w|w w0 dep w1 E H IH|a w dep w1 Hx H IH]; intros d2 w2 H2; [by exists d2| |].
  - destruct (IH d2 w2 H2) as (d & Hd & E'). exists d. split; [by eapply run_other|done].
  - destruct (IH d2 w2 H2) as (d & Hd & E'). eexists. split; [by apply run_action|]. intros s. cbn. rewrite E'. lia.
Qed.
Lemma quiet_trans w w1 w2 : quiet w w1 -> quiet w1 w2 -> quiet w w2.
Proof.
  intros (d1 & H1 & E1) (d2 & H2 & E2). destruct (run_trans _ _ _ H1 _ _ H2) as (d & H & E). exists d.
  split; [done|]. intros s. rewrite E, E1, E2. lia.
Qed.
Lemma quiet_same w w' : balances (db w') = balances (db w) -> quiet w w'.
Proof. intros E. exists (fun _ => 0). split; [|done]. eapply run_other; [exact E|apply run_stop]. Qed.
Lemma quiet_action a w : exact a w -> (forall s, deposit a w s = 0) -> quiet w (perform a w).1.
Proof. intros Hx Hd. eexists. split; [apply run_action; [done|apply run_stop]|]. intros s. cbn. rewrite Hd. lia. Qed.
Lemma quiet_bind {A B} (m : wprog A) (f : A -> wprog B) w : quiet w (m w).1 ->
  (forall a w1, m w = (w1, inr a) -> quiet w1 (f a w1).1) -> quiet w ((m ≫= f) w).1.
Proof.
  intros H1 H2. unfold mbind, prog_bind. destruct (m w) as [w1 [e|a]]; [done|].
  eapply quiet_trans; [exact H1|by apply H2].
Qed.
(** A program that never writes to the balances. *)
Lemma quiet_idle {A} (m : wprog A) w : (forall t, keeps (on_db (fun d => balances d = t)) m) -> quiet w (m w).1.
Proof. intros H. apply quiet_same. by apply (keeps_fst (on_db (fun d => balances d = balances (db w))) m w). Qed.

Lemma quiet_after_settlement p rem w : quiet w (after_settlement p rem w).1.
Proof.
  unfold after_settlement. apply quiet_bind.
  - destruct (_ && str_in _ ["limit"; "post_only"; "iceberg"]).
    + apply quiet_idle. intros t. unfold insert_resting_taker. keeps_tac.
    + destruct (_ && _); [|by apply quiet_same]. exact (quiet_action (ARefund p) w Logic.I (fun _ => eq_refl)).
  - intros _ w1 _. apply quiet_idle. intros t. unfold publish_orderbook_delta, publish_orderbook_snapshot, publish_event. keeps_tac.
Qed.

Lemma quiet_in_world {A} (m : wprog A) k : quiet (world k) (m (world k)).1 -> quiet (world k) (world (in_world m k).1).
Proof. unfold in_world. by destruct (m (world k)) as [w r]. Qed.

(** The trades of a placement, when its match goes through, can be settled. *)
Definition match_settleable (p : OrderActionPayload) (k : MatchingWorker) : Prop :=
  forall k' ts outcome rem, match_payload p k = (k', inr (ts, outcome, rem)) -> settleable p ts (world k').

Lemma quiet_handle_place p k : match_settleable p k -> quiet (world k) (world (handle_place p k).1).
Proof.
  intros Hs. unfold handle_place. pose proof (match_payload_world p k) as Hw. unfold match_settleable in Hs.
  unfold mbind at 1, prog_bind at 1. destruct (match_payload p k) as [k' [e|[[ts outcome] rem]]]; cbn [fst] in Hw |- *.
  { apply quiet_same. by rewrite Hw. }
  specialize (Hs k' ts outcome rem eq_refl). rewrite <- Hw. apply quiet_in_world.
  apply quiet_bind; [by apply quiet_same|]. intros out w1 [= <- _]. cbn zeta. destruct (is_outcome_reject outcome).
  { apply quiet_idle. intros t. unfold publish_rejection, publish_order_update, publish_event. keeps_tac. }
  apply quiet_bind.
  - destruct ts as [|t ts]; [by apply quiet_same|].
    pose proof (quiet_action (ASettle p (t :: ts)) (world k') Hs (fun _ => eq_refl)) as H. cbn [perform] in H. by rewrite void_fst in H.
  - intros [] w1 _; [|by apply quiet_same]. apply quiet_bind; [apply quiet_after_settlement|intros _ w2 _; by apply quiet_same].
Qed.

(** C4: the worker stays inside the system.  An iteration of the worker's loop -
    popping an item, matching and settling it, refunding, resting the remainder,
    dead-lettering what fails - is a run of the system of C1 without deposits,
    PROVIDED that, when the item popped is a placement whose match goes through,
    its trades are [settleable]: the pair's assets differ, the owner of every
    order of the match has a balance row for both, and the traded amounts are
    multiples of 10^-18 that keep the supplies in range.  An iteration whose
    match credits a user without a row is not covered. *)
Theorem worker_iteration_runs str_of_exn k :
  (forall payload p k1, in_world (on_redis brpop_order_action) k = (k1, inr (Some payload)) ->
     from_dict payload = Some p -> match_settleable p k1) ->
  exists dep, run (world k) dep (world (worker_step str_of_exn k).1) /\ forall s, dep s = 0.
Proof.
  intros Hs. change (quiet (world k) (world (worker_step str_of_exn k).1)). unfold worker_step.
  assert (H1 : quiet (world k) (world (in_world (on_redis brpop_order_action) k).1)).
  { apply quiet_in_world, quiet_idle. intros t. auto with keeps. }
  unfold mbind at 1, prog_bind at 1. destruct (in_world (on_redis brpop_order_action) k) as [k1 [e|[payload|]]] eqn:E; [done| |done].
  eapply quiet_trans; [exact H1|]. cbn [fst]. specialize (Hs payload).
  assert (H2 : quiet (world k1) (world ((p ← in_world (require (KeyError "payload") (from_dict payload));
    _ ← process_action p; mret tt) k1).1)).
  { destruct (from_dict payload) as [p|] eqn:Ep; [|by apply quiet_same]. specialize (Hs p k1 eq_refl eq_refl).
    rewrite (bind_inr _ _ k1 k1 p) by (by destruct k1).
    assert (H : quiet (world k1) (world (process_action p k1).1)).
    { unfold process_action. destruct (String.eqb _ _); [by apply quiet_same|]. destruct (String.eqb _ _); [by apply quiet_same|].
      by apply quiet_handle_place. }
    revert H. unfold mbind, prog_bind. by destruct (process_action p k1) as [k2 [e|r]]. }
  revert H2. unfold try_except.
  match goal with |- quiet _ (world (?m k1).1) -> _ => destruct (m k1) as [k2 [e|[]]] end; cbn [fst]; intros H2; [|done].
  eapply quiet_trans; [exact H2|]. unfold gets. rewrite (bind_inr _ _ k2 k2 (now_ms (world k2)) eq_refl).
  apply quiet_in_world, quiet_idle. intros t. auto with keeps.
Qed.
End System.

(** ** Concrete runs *)

Definition no_others : others_keep_books (I := NoInterference) :=
  conj (fun _ _ _ H => H) (fun _ _ => conj eq_refl eq_refl).
Lemma money_check d : bool_decide (money d) = true -> money d.
Proof. apply bool_decide_eq_true_1. Defined.

(** A deposit of 50 USD, then an order of user 1 that locks 30. *)
Lemma exchange_conserves_money_witness :
  let deposited := (perform (I := NoInterference) (AAdjust 1 "USD" (dec_of_Z 50) "admin_credit") demo_exchange).1 in
  let placed := (perform (I := NoInterference) (APlace 1 demo_dto) deposited).1 in
  supply "USD" (balances (db placed)) = supply "USD" (balances (db demo_exchange)) + dunits (dec_of_Z 50) /\
  is_Some (orders (db placed) !! 1).
Proof.
  intros deposited placed. split; [|eexists; vm_compute; reflexivity].
  destruct (exchange_conserves_money (PS := PgExactSpec) (I := NoInterference) demo_exchange
    (fun s => deposit (AAdjust 1 "USD" (dec_of_Z 50) "admin_credit") demo_exchange s + (0 + 0)) placed) as [_ H].
  - exact no_others.
  - cbn [demo_exchange db balances]. apply map_Forall_singleton. split; [reflexivity|apply demo_balance_ok].
  - apply (run_action (AAdjust 1 "USD" (dec_of_Z 50) "admin_credit") demo_exchange (fun _ => 0 + 0)).
    { split; [apply money_check; vm_compute; reflexivity|vm_compute; reflexivity]. }
    apply (run_action (APlace 1 demo_dto) deposited (fun _ => 0)); [|apply run_stop].
    intros pr req Hp Hr. vm_compute in Hp. injection Hp as <-. vm_compute in Hr. injection Hr as <-.
    apply money_check. vm_compute. reflexivity.
  - rewrite (H "USD"). vm_compute. reflexivity.
Defined.

(** User 2's offer rests in the book; user 1's bid is the next item. *)
Definition demo_crossing : MatchingWorker (R := MemRedis) :=
  ((_ ← place_and_match 2 "sell" 3 10;
    in_world (R := MemRedis) (transaction (void (place_order (I := NoInterference) 1 (limit_dto "buy" 5 10))))) demo_worker).1.
Lemma worker_iteration_runs_witness :
  exists dep, run (P := PgExact) (I := NoInterference) (world demo_crossing) dep
    (world (worker_step (R := MemRedis) (fun _ => "error") demo_crossing).1) /\ dep "USD" = 0 /\
  order_fill (worker_step (R := MemRedis) (fun _ => "error") demo_crossing).1 1 = Some (dec_of_Z 3, dec_of_Z 3).
Proof.
  destruct (worker_iteration_runs (R := MemRedis) (P := PgExact) (I := NoInterference) (fun _ => "error") demo_crossing)
    as (dep & Hrun & Hd).
  - intros payload p k1 E Ep k' ts o r Em pr ds Hp Hds.
    pose proof (f_equal fst E) as E1. cbn [fst] in E1. subst k1. apply (f_equal snd) in E. cbn [snd] in E.
    vm_compute in E. injection E as <-. vm_compute in Ep. injection Ep as <-.
    match type of Em with match_payload ?p ?k = _ => pose proof (match_payload_world (R := MemRedis) p k) as Hw end.
    rewrite Em in Hw. cbn [fst] in Hw. rewrite Hw in Hp, Hds |- *. clear Hw.
    apply (f_equal snd) in Em. cbn [snd] in Em. vm_compute in Em. injection Em as <- <- <-.
    vm_compute in Hp. injection Hp as <-. vm_compute in Hds. injection Hds as <-.
    split; [discriminate|]. split; [repeat constructor; vm_compute; congruence|]. split; [|split; vm_compute; reflexivity].
    apply map_Forall_to_list. vm_compute. repeat constructor; eexists; reflexivity.
  - exists dep. split; [exact Hrun|]. split; [apply Hd|vm_compute; reflexivity].
Defined.

(** Why [exact] is needed: an amount of 19 decimals passes the guard of the
    optimistic lock, and PostgreSQL, rounding each column half away from zero,
    stores a row that fails the check of models/balance.py. *)
Theorem lock_below_precision_breaks_row :
  let amount := Dec 5 (-19) in
  dec_leb amount (available_balance demo_balance) = true /\
  exists b', sql_lock (P := PgExact) amount demo_balance = Some b' /\ (forall b, check_invariant b' <> inr b).
Proof. split; [vm_compute; reflexivity|]. eexists. split; [vm_compute; reflexivity|]. intros b. vm_compute. discriminate. Qed.
