(* ===== verification/OrderLife.v ===== *)
(** * The orders table refines a table of order state machines

    Each order of models/order.py goes through a life: born NEW or PENDING,
    then cancelled, fired, activated, filled, linked.  [order_step] is that
    machine; every transaction of the services and the worker moves each row of
    the table along it, creates rows in a birth state under fresh keys, and
    removes none. *)

From Stdlib Require Import ZArith Lia Bool.
From stdpp Require Import base tactics option list strings gmap sets relations.
From S2P Require Import Prelude Float64 PyDecimal Models RedisIface OrderBook Queues OrdersIndex World Pubsub Balance OrderRepo OrderService OrderSpec CancelSpec BulkSpec Engine Bridge Trade SettleSpec Worker WorkerSpec StopMonitor Exchange.
#[local] Open Scope Z_scope.

(** ** The life of an order *)

(** The row as INSERTed, up to the links to its children. *)
Definition born (o : Order) : Prop :=
  (o_status o = NEW \/ o_status o = PENDING) /\ o_filled_quantity o = dec_zero /\ o_filled_quote_qty o = dec_zero /\
  o_replaced_by_id o = None /\ o_version o = 1.

Inductive order_step : relation Order :=
  | step_link_sl o id : born o -> order_step o (set_o_sl_order_id (Some id) o)
  | step_link_tp o id : born o -> order_step o (set_o_tp_order_id (Some id) o)
  | step_cancel o : active_status (o_status o) = true -> order_step o (with_status CANCELED o)
  | step_fire o : o_status o = PENDING -> order_step o (with_status FILLED o)
  | step_activate o : o_status o = PENDING -> order_step o (with_status NEW o)
  | step_replaced o id : o_status o = CANCELED -> order_step o (set_o_replaced_by_id (Some id) o)
  | step_maker_fill o q v : order_step o (maker_fill q v o)
  | step_taker_fill o q v : order_step o (taker_fill q v o).

(** What the user agreed to; no step changes it. *)
Definition terms (o : Order) :=
  (o_id o, o_user_id o, (o_symbol o, o_side o, o_type o), (o_price o, o_stop_price o, o_trailing_delta o),
   (o_quantity o, o_visible_quantity o, o_hidden_quantity o),
   (o_replace_count o, o_replaces_id o, o_parent_order_id o, o_bulk_id o)).

Lemma maker_fill_status q v o : o_status (maker_fill q v o) = FILLED \/ o_status (maker_fill q v o) = PARTIALLY_FILLED.
Proof. unfold maker_fill. destruct (dec_leb _ _); [by left|by right]. Qed.
Lemma taker_fill_status q v o :
  o_status (taker_fill q v o) = FILLED \/ o_status (taker_fill q v o) = PARTIALLY_FILLED \/
  o_status (taker_fill q v o) = o_status o.
Proof. unfold taker_fill. destruct (dec_leb _ _); [by left|]. destruct (dec_ltb _ _); [by right; left|by right; right]. Qed.
Lemma taker_fill_terms q v o : terms (taker_fill q v o) = terms o /\ o_version (taker_fill q v o) = o_version o + 1.
Proof. unfold taker_fill. destruct (dec_leb _ _); [done|]. by destruct (dec_ltb _ _). Qed.

Lemma order_step_terms o o' : order_step o o' -> terms o' = terms o.
Proof. destruct 1; try reflexivity. apply taker_fill_terms. Qed.
Lemma order_steps_terms o o' : rtc order_step o o' -> terms o' = terms o.
Proof. induction 1 as [|o o1 o' H _ IH]; [done|]. rewrite IH. by apply order_step_terms. Qed.
Lemma terms_id o o' : terms o' = terms o -> o_id o' = o_id o.
Proof. unfold terms. by intros [= ->]. Qed.

(** The statuses: a NEW order was NEW or PENDING, a PENDING one was PENDING, and
    the version never falls. *)
Definition status_after (s s' : OrderStatus) : Prop :=
  s' = s \/
  match s' with
  | PENDING | REJECTED | EXPIRED => False
  | NEW => s = PENDING
  | CANCELED => True
  | PARTIALLY_FILLED | FILLED => True
  end.
#[export] Instance status_after_preorder : PreOrder status_after.
Proof.
  split; [by left|]. intros s1 s2 s3 [->|H1] H2; [done|]. destruct H2 as [->|H2]; [by right|].
  right. destruct s3; try done. by subst.
Qed.
Lemma order_step_status o o' : order_step o o' -> status_after (o_status o) (o_status o') /\ o_version o <= o_version o'.
Proof.
  destruct 1 as [o id H|o id H|o H|o H|o H|o id H|o q v|o q v]; try (split; [by left|cbn; lia]);
    try (split; [by right|cbn; lia]).
  - split; [|cbn; lia]. destruct (maker_fill_status q v o) as [E|E]; rewrite E; by right.
  - destruct (taker_fill_terms q v o) as [_ ->]. split; [|lia].
    destruct (taker_fill_status q v o) as [E|[E|E]]; rewrite E; [by right|by right|by left].
Qed.
Lemma order_steps_status o o' : rtc order_step o o' -> status_after (o_status o) (o_status o') /\ o_version o <= o_version o'.
Proof.
  induction 1 as [|o o1 o' H _ [IH1 IH2]]; [by split|]. destruct (order_step_status _ _ H) as [H1 H2].
  split; [by etrans|lia].
Qed.

(** ** The table *)

Lemma alter_present {A} (f : A -> A) (m : gmap Z A) k x : m !! k = Some x -> alter f k m = <[k := f x]> m.
Proof.
  intros Hk. apply map_eq. intros j. destruct (decide (j = k)) as [->|Hne].
  - by rewrite lookup_alter_eq, lookup_insert_eq, Hk.
  - by rewrite lookup_alter_ne, lookup_insert_ne by done.
Qed.

(** The orders a row refers to: the self-referential foreign keys. *)
Definition refs (o : Order) : list Z :=
  omap id [o_replaces_id o; o_replaced_by_id o; o_parent_order_id o; o_sl_order_id o; o_tp_order_id o].
(** Rows are stored under their id, the next key is fresh, and every row refers
    to rows of the table. *)
Definition rows_ok (os : gmap Z Order) (n : Z) : Prop :=
  map_Forall (fun k o => o_id o = k /\ k < n /\ forall i, i ∈ refs o -> is_Some (os !! i)) os.

(** The table [os] descends from [os0]. *)
Record descends (os0 : gmap Z Order) (n0 : Z) (os : gmap Z Order) (n : Z) : Prop := {
  descends_ok : rows_ok os n;
  descends_next : n0 <= n;
  descends_old : forall k o, os0 !! k = Some o -> exists o', os !! k = Some o' /\ rtc order_step o o';
  descends_new : forall k o', os !! k = Some o' -> os0 !! k = None -> n0 <= k /\ exists o, born o /\ rtc order_step o o'
}.

Lemma descends_refl os n : rows_ok os n -> descends os n os n.
Proof. intros H. split; [done|lia| |congruence]. intros k o Hk. exists o. by split. Qed.
Lemma descends_trans os0 n0 os1 n1 os2 n2 : descends os0 n0 os1 n1 -> descends os1 n1 os2 n2 -> descends os0 n0 os2 n2.
Proof.
  intros [H1 H2 H3 H4] [K1 K2 K3 K4]. split; [done|lia| |].
  - intros k o Hk. destruct (H3 k o Hk) as (o1 & E1 & S1). destruct (K3 k o1 E1) as (o2 & E2 & S2).
    exists o2. split; [done|by etrans].
  - intros k o2 E2 Hk. destruct (os1 !! k) as [o1|] eqn:E1.
    2: { destruct (K4 k o2 E2 E1) as [Hn Hb]. split; [lia|done]. }
    destruct (H4 k o1 E1 Hk) as (Hn & o & Hb & S). destruct (K3 k o1 E1) as (o2' & E2' & S2). simplify_eq.
    split; [done|]. exists o. split; [done|by etrans].
Qed.

Section Table.
Context {os0 : gmap Z Order} {n0 : Z}.
Implicit Types (os : gmap Z Order) (n : Z).

Lemma descends_lookup os n k o : descends os0 n0 os n -> os !! k = Some o -> o_id o = k /\ k < n.
Proof. intros H Hk. destruct (descends_ok _ _ _ _ H k o Hk) as (H1 & H2 & _). by split. Qed.
(** Rows that no longer vanish keep the references. *)
Lemma rows_grow os n n' os' : rows_ok os n -> n <= n' -> (forall i, is_Some (os !! i) -> is_Some (os' !! i)) ->
  (forall k o', os' !! k = Some o' -> o_id o' = k /\ k < n' /\
     ((exists o, os !! k = Some o /\ forall i, i ∈ refs o' -> i ∈ refs o \/ is_Some (os' !! i)) \/
      forall i, i ∈ refs o' -> is_Some (os' !! i))) -> rows_ok os' n'.
Proof.
  intros Hok Hn Hdom H k o' Hk. destruct (H k o' Hk) as (H1 & H2 & H3). split_and!; [done|done|]. intros i Hi.
  destruct H3 as [(o & Ho & Hr)|Hr]; [|by apply Hr]. destruct (Hr i Hi) as [Hi'|]; [|done].
  destruct (Hok k o Ho) as (_ & _ & Hs). by apply Hdom, Hs.
Qed.

(** A row moves. *)
Lemma descends_write os n k o o' : descends os0 n0 os n -> os !! k = Some o -> rtc order_step o o' ->
  (forall i, i ∈ refs o' -> i ∈ refs o \/ is_Some (os !! i)) -> descends os0 n0 (<[k := o']> os) n.
Proof.
  intros H Hk Hs Hr. apply (descends_trans _ _ os n); [done|]. destruct (descends_lookup _ _ _ _ H Hk) as [Hid Hn].
  assert (Hdom : forall i, is_Some (os !! i) -> is_Some (<[k := o']> os !! i)).
  { intros i Hi. destruct (decide (i = k)) as [->|]; [rewrite lookup_insert_eq; by eexists|by rewrite lookup_insert_ne]. }
  split; [|lia| |].
  - apply (rows_grow os n); [apply H|lia|done|]. intros k' o1 [[<- <-]|[Hne Hk']]%lookup_insert_Some.
    + split_and!; [rewrite <- Hid; by apply terms_id, order_steps_terms|done|]. left. exists o. split; [done|].
      intros i Hi. destruct (Hr i Hi); [by left|right; by apply Hdom].
    + destruct (descends_lookup _ _ _ _ H Hk'). split_and!; [done|done|]. left. exists o1. split; [done|by left].
  - intros k' o1 Hk'. destruct (decide (k' = k)) as [->|Hne].
    + simplify_eq. exists o'. by rewrite lookup_insert_eq.
    + exists o1. by rewrite lookup_insert_ne.
  - intros k' o1 Hk' Hn'. rewrite lookup_insert_ne in Hk' by congruence. congruence.
Qed.
(** A row is inserted. *)
Lemma descends_insert os n o : descends os0 n0 os n -> born o -> o_id o = n -> (forall i, i ∈ refs o -> is_Some (os !! i)) ->
  descends os0 n0 (<[n := o]> os) (n + 1).
Proof.
  intros H Hb Hid Hr. apply (descends_trans _ _ os n); [done|].
  assert (Hn : os !! n = None).
  { destruct (os !! n) as [o1|] eqn:E; [|done]. destruct (descends_lookup _ _ _ _ H E); lia. }
  assert (Hdom : forall i, is_Some (os !! i) -> is_Some (<[n := o]> os !! i)).
  { intros i [o1 Hi]. rewrite lookup_insert_ne by congruence. by eexists. }
  split; [|lia| |].
  - apply (rows_grow os n); [apply H|lia|done|]. intros k o1 [[<- <-]|[_ Hk]]%lookup_insert_Some.
    + split_and!; [done|lia|]. right. intros i Hi. by apply Hdom, Hr.
    + destruct (descends_lookup _ _ _ _ H Hk). split_and!; [done|lia|]. left. exists o1. split; [done|by left].
  - intros k o1 Hk. exists o1. rewrite lookup_insert_ne by congruence. by split.
  - intros k o1 [[<- <-]|[_ Hk]]%lookup_insert_Some Hk'; [|congruence].
    split; [done|by exists o].
Qed.
(** Every row moves or stays. *)
Lemma descends_fmap os n f : descends os0 n0 os n -> (forall o, rtc order_step o (f o)) -> (forall o, refs (f o) = refs o) ->
  descends os0 n0 (f <$> os) n.
Proof.
  intros H Hf Hr. apply (descends_trans _ _ os n); [done|]. split; [|lia| |].
  - apply (rows_grow os n); [apply H|lia|intros i [o Hi]; rewrite lookup_fmap, Hi; by eexists|].
    intros k o' (o & <- & Hk)%lookup_fmap_Some. destruct (descends_lookup _ _ _ _ H Hk) as [<- Hn].
    split_and!; [by apply terms_id, order_steps_terms|done|]. left. exists o. split; [done|]. rewrite Hr. by left.
  - intros k o Hk. exists (f o). rewrite lookup_fmap, Hk. by split.
  - intros k o' (o & <- & Hk)%lookup_fmap_Some Hn. congruence.
Qed.
End Table.

(** ** Programs that leave the orders alone *)

(** A property of the tables that looks at the orders only. *)
Class OrdersOnly (Q : Database -> Prop) : Prop :=
  orders_only d d' : orders d' = orders d -> next_order_id d' = next_order_id d -> Q d -> Q d'.
#[export] Instance orders_only_blind Q : OrdersOnly Q -> BalanceBlind Q.
Proof. intros HQ f d. by apply HQ. Qed.
#[local] Hint Extern 0 (OrdersOnly _) => apply _ : keeps.
#[local] Hint Extern 0 (BalanceBlind _) => apply _ : keeps.

Section Frame.
Context {R : Redis} {P : PgNumeric} {I : Interference} {Q : Database -> Prop} {HQ : OrdersOnly Q}.

Lemma frame_trades f : keeps (on_db Q) (update_db (set_trades f)).
Proof. apply keeps_update_db. intros d. by apply HQ. Qed.
#[local] Hint Resolve frame_balances frame_trades frame_publish_balance frame_get_or_create : keeps.
Lemma frame_pessimistic op b amount change reason oid : keeps (on_db Q) (pessimistic op b amount change reason oid).
Proof. unfold pessimistic, write_balance. keeps_tac. Qed.
#[local] Hint Resolve frame_lock_optimistic frame_unlock_optimistic frame_pessimistic : keeps.

Lemma frame_enqueue mk : keeps (on_db Q) (enqueue mk).
Proof. unfold enqueue. keeps_tac. Qed.
Lemma frame_unlock_canceled o asset amount : keeps (on_db Q) (unlock_canceled o asset amount).
Proof. unfold unlock_canceled, get_for_update, unlock_pessimistic. keeps_tac. Qed.
Lemma frame_validate symbol : keeps (on_db Q) (validate_and_get_pair symbol).
Proof. unfold validate_and_get_pair. keeps_tac. Qed.
Lemma frame_reads {A} (m : wprog A) : reads m -> keeps (on_db Q) m.
Proof. intros H w Hw. specialize (H w). destruct (m w) as [w' [e|a]]; cbn in H; by subst. Qed.
Lemma frame_register o bulk hb : keeps (on_db Q) (register_order o bulk hb).
Proof. unfold register_order, enqueue. keeps_tac. Qed.
Lemma frame_register_stop o : keeps (on_db Q) (register_stop_order o).
Proof. unfold register_stop_order. keeps_tac. Qed.
Lemma frame_drop o : keeps (on_db Q) (drop_resting o).
Proof. unfold drop_resting. keeps_tac. Qed.
Lemma frame_publish_book symbol : keeps (on_db Q) (publish_book symbol).
Proof. unfold publish_book, publish_orderbook_snapshot. keeps_tac. Qed.
Lemma frame_settle_balances side is_taker o q v b a : keeps (on_db Q) (settle_trade_balances side is_taker o q v b a).
Proof.
  unfold settle_trade_balances, exchange, get_for_update, settle_row, credit_row, settle_pessimistic, credit_pessimistic.
  keeps_tac.
Qed.
End Frame.
#[local] Hint Resolve frame_balances frame_trades frame_lock_optimistic frame_unlock_optimistic frame_pessimistic frame_enqueue
  frame_unlock_canceled frame_validate frame_register frame_register_stop frame_drop frame_publish_book
  frame_settle_balances frame_on_insufficient frame_lock_all frame_get_or_create frame_publish_balance : keeps.
#[local] Hint Unfold get_for_update get_by_symbol : keeps.

(** ** Reading a row, then writing it *)

Section Life.
Context {R : Redis} {P : PgNumeric} {I : Interference} {os0 : gmap Z Order} {n0 : Z}.

Definition alive (d : Database) : Prop := descends os0 n0 (orders d) (next_order_id d).
(** ... and [o] is its row. *)
Definition alive_with (o : Order) (d : Database) : Prop := alive d /\ orders d !! o_id o = Some o.
#[local] Instance orders_only_alive : OrdersOnly alive.
Proof. intros d d' Ho Hn H. unfold alive. by rewrite Ho, Hn. Qed.
#[local] Instance orders_only_with o : OrdersOnly (alive_with o).
Proof. intros d d' Ho Hn [H Hk]. split; [by apply (orders_only_alive d)|by rewrite Ho]. Qed.

(** From a row [o], [m] runs inside the life of the table. *)
Definition from_row {A} (o : Order) (m : wprog A) : Prop :=
  triple (on_db (alive_with o)) m (fun _ => on_db alive) (fun _ => on_db alive).

Lemma from_row_keeps {A} o (m : wprog A) : keeps (on_db alive) m -> from_row o m.
Proof. intros H w [Hw _]. by apply (H w). Qed.
Lemma keeps_into {A} (J K : World -> Prop) (m : wprog A) : (forall w, J w -> K w) -> keeps J m ->
  triple J m (fun _ => J) (fun _ => K).
Proof. intros HJ H. eapply triple_weaken; [exact H|done|done|]. intros e w. apply HJ. Qed.
(** A step that keeps the row keeps what was read. *)
Lemma from_row_frame {A B} o (m : wprog A) (f : A -> wprog B) :
  keeps (on_db (alive_with o)) m -> (forall a, from_row o (f a)) -> from_row o (m ≫= f).
Proof. intros Hm Hf. eapply triple_bind; [|exact Hf]. apply keeps_into; [by intros w [Hw _]|exact Hm]. Qed.
Lemma alive_then {A B} J (m : wprog A) (f : A -> wprog B) :
  triple J m (fun _ => on_db alive) (fun _ => on_db alive) -> (forall a, keeps (on_db alive) (f a)) ->
  triple J (m ≫= f) (fun _ => on_db alive) (fun _ => on_db alive).
Proof. intros Hm Hf. by eapply triple_bind. Qed.
Lemma keeps_read_row {A} k (f : option Order -> wprog A) :
  (forall o, from_row o (f (Some o))) -> keeps (on_db alive) (f None) -> keeps (on_db alive) (get_order_for_update k ≫= f).
Proof.
  intros Hs Hn w Hw. unfold get_order_for_update. rewrite (bind_inr _ _ w w _ eq_refl).
  destruct (orders (db w) !! k) as [o|] eqn:E; [|by apply Hn].
  apply Hs. destruct (descends_lookup _ _ _ _ Hw E) as [<- _]. by split.
Qed.
Lemma keeps_read_own_row {A} k uid (f : option Order -> wprog A) :
  (forall o, from_row o (f (Some o))) -> keeps (on_db alive) (f None) -> keeps (on_db alive) (get_by_user k uid ≫= f).
Proof.
  intros Hs Hn w Hw. unfold get_by_user. rewrite (bind_inr _ _ w w _ eq_refl).
  destruct (orders (db w) !! k) as [o|] eqn:E; cbn [mbind option_bind]; [|by apply Hn].
  destruct (o_user_id o =? uid); [|by apply Hn]. apply Hs. destruct (descends_lookup _ _ _ _ Hw E) as [<- _]. by split.
Qed.

Lemma taker_fill_refs q v o : refs (taker_fill q v o) = refs o.
Proof. unfold taker_fill. destruct (dec_leb _ _); [done|]. by destruct (dec_ltb _ _). Qed.

(** Writing the row read. *)
Lemma write_with o o' : rtc order_step o o' -> refs o' = refs o ->
  triple (on_db (alive_with o)) (write_order o') (fun _ => on_db (alive_with o')) (fun _ => on_db alive).
Proof.
  intros Hs Hr w [Hw Hk]. unfold write_order, update_db. run_prog.
  assert (E : o_id o' = o_id o) by (by apply terms_id, order_steps_terms). unfold on_db, alive_with, alive. cbn.
  rewrite E. split; [|apply lookup_insert_eq]. eapply descends_write; [done..|]. rewrite Hr. by left.
Qed.
Lemma status_with o s : rtc order_step o (with_status s o) ->
  triple (on_db (alive_with o)) (update_status (o_id o) s) (fun _ => on_db (alive_with (with_status s o))) (fun _ => on_db alive).
Proof.
  intros Hs w [Hw Hk]. rewrite update_status_spec, Hk. unfold on_db, alive_with, alive. cbn.
  split; [|apply lookup_insert_eq]. eapply descends_write; [done..|]. by left.
Qed.
Lemma from_row_write {B} o o' (f : unit -> wprog B) : rtc order_step o o' -> refs o' = refs o -> (forall u, from_row o' (f u)) ->
  from_row o (write_order o' ≫= f).
Proof. intros Hs Hr Hf. eapply triple_bind; [by apply write_with|exact Hf]. Qed.
Lemma from_row_status {B} o s (f : bool -> wprog B) : rtc order_step o (with_status s o) ->
  (forall b, from_row (with_status s o) (f b)) -> from_row o (update_status (o_id o) s ≫= f).
Proof. intros Hs Hf. eapply triple_bind; [by apply status_with|exact Hf]. Qed.

(** Inserting a row, and keeping the one read. *)
Lemma add_with mk : (forall i, born (mk i) /\ o_id (mk i) = i /\ refs (mk i) = []) ->
  triple (on_db alive) (add_order mk) (fun o => on_db (fun d => alive_with o d /\ born o /\ refs o = [])) (fun _ => on_db alive).
Proof.
  intros Hb w Hw. unfold add_order, on_db, alive_with, alive. cbn. destruct (Hb (next_order_id (db w))) as (H1 & H2 & H3).
  rewrite H2. split_and!; [apply descends_insert; try done; rewrite H3; set_solver|apply lookup_insert_eq|done|done].
Qed.
(** ... which the new row may refer to. *)
Definition knows (o : Order) (i : Z) (d : Database) : Prop := alive_with o d /\ is_Some (orders d !! i).
Lemma add_knows o mk : (forall i, born (mk i) /\ o_id (mk i) = i /\ refs (mk i) = [o_id o]) ->
  triple (on_db (alive_with o)) (add_order mk) (fun c => on_db (knows o (o_id c))) (fun _ => on_db alive).
Proof.
  intros Hb w [Hw Hk]. unfold add_order, on_db, knows, alive_with, alive. cbn. destruct (Hb (next_order_id (db w))) as (H1 & H2 & H3).
  destruct (descends_lookup _ _ _ _ Hw Hk) as [_ Hn]. rewrite H2, lookup_insert_eq, lookup_insert_ne by lia.
  split_and!; [|done|by eexists]. apply descends_insert; try done. rewrite H3. intros i ->%list_elem_of_singleton. by eexists.
Qed.
Lemma keeps_add_with o mk : (forall i, born (mk i) /\ o_id (mk i) = i /\ refs (mk i) = [o_id o]) ->
  keeps (on_db (alive_with o)) (add_order mk).
Proof. intros Hb w Hw. exact (proj1 (add_knows o mk Hb w Hw)). Qed.
Lemma keeps_add_knows o i mk : (forall i, born (mk i) /\ o_id (mk i) = i /\ refs (mk i) = [o_id o]) ->
  keeps (on_db (knows o i)) (add_order mk).
Proof.
  intros Hb w [Hw [o1 Hi]]. split; [by apply (keeps_add_with o mk Hb w)|]. cbn.
  destruct (descends_lookup _ _ _ _ (proj1 Hw) Hi). rewrite lookup_insert_ne by lia. by eexists.
Qed.
#[local] Instance orders_only_knows o i : OrdersOnly (knows o i).
Proof. intros d d' Ho Hn [H Hk]. split; [by apply (orders_only_with o d)|by rewrite Ho]. Qed.

Lemma step_one o o' : order_step o o' -> rtc order_step o o'.
Proof. apply rtc_once. Qed.
Lemma is_active_status o : is_active o = active_status (o_status o).
Proof. unfold is_active. by destruct (o_status o). Qed.

(** ** The operations *)

Lemma alive_cancel_children k : keeps (on_db alive) (cancel_children k).
Proof.
  intros w Hw. destruct (cancel_children_spec k w) as [n ->]. unfold on_db, alive. cbn.
  apply descends_fmap; [done|..]; intros o; unfold cancel_child, is_child_of; destruct (bool_decide _); try done;
    destruct (active_status (o_status o)) eqn:E; try done.
  by apply rtc_once, step_cancel.
Qed.

Lemma alive_cancel uid oid : keeps (on_db alive) (OrderService.cancel_order uid oid).
Proof.
  unfold OrderService.cancel_order. apply keeps_read_own_row; [|keeps_tac]. intros o.
  destruct (is_active o) eqn:Ea; cbn [negb]; [|apply from_row_keeps; keeps_tac].
  apply from_row_frame; [keeps_tac|intros pr]. cbn zeta. apply from_row_frame; [keeps_tac|intros _].
  apply from_row_status; [by apply rtc_once, step_cancel; rewrite <- is_active_status|intros _].
  apply from_row_keeps. apply keeps_bind; [apply alive_cancel_children|intros _].
  unfold publish_order_update. keeps_tac.
Qed.

Lemma born_replacement uid o price qty i : let r := replacement uid o price qty i in born r /\ o_id r = i /\ refs r = [o_id o].
Proof. split; [|done]. split; [by left|done]. Qed.
Lemma alive_modify uid oid price qty : keeps (on_db alive) (modify_order uid oid price qty).
Proof.
  unfold modify_order. apply keeps_read_row; [|keeps_tac]. intros o.
  destruct (negb (o_user_id o =? uid)); [apply from_row_keeps; keeps_tac|].
  destruct (is_active o) eqn:Ea; cbn [negb]; [|apply from_row_keeps; keeps_tac].
  destruct (negb (modifiable _)); [apply from_row_keeps; keeps_tac|].
  apply from_row_frame; [keeps_tac|intros pr]. cbn zeta. apply from_row_frame; [keeps_tac|intros _].
  apply from_row_frame; [keeps_tac|intros _]. apply from_row_frame; [apply frame_on_insufficient; keeps_tac|intros _].
  apply from_row_status; [by apply rtc_once, step_cancel; rewrite <- is_active_status|intros _].
  set (o' := with_status CANCELED o).
  eapply triple_bind; [apply (add_knows o'); intros i; exact (born_replacement uid o price qty i)|].
  intros new. apply alive_then; [|intros _; unfold publish_order_update; keeps_tac].
  intros w [[Hw Hk] Hi]. cbn in Hk. unfold update_db, on_db, alive. run_prog. cbn.
  rewrite (alter_present _ _ _ _ Hk). eapply descends_write; [done|exact Hk|by apply rtc_once, step_replaced|].
  intros i Hi'. destruct (decide (i = o_id new)) as [->|Hne]; [by right|left]. unfold refs in *. cbn in Hi' |- *.
  destruct (o_replaces_id o), (o_replaced_by_id o), (o_parent_order_id o), (o_sl_order_id o), (o_tp_order_id o); set_solver.
Qed.

Lemma born_mk_order uid dto side type bulk i :
  let r := mk_order uid dto side type bulk i in born r /\ o_id r = i /\ refs r = [].
Proof.
  split; [|done]. split; [|done]. change (o_status _) with (if is_stop_dto dto then PENDING else NEW).
  destruct (is_stop_dto dto); [by right|by left].
Qed.
Lemma born_child o config type i : let r := mk_sltp_child o config type i in born r /\ o_id r = i /\ refs r = [o_id o].
Proof. split; [|done]. split; [by right|done]. Qed.

(** The row [o] is as inserted while its links, to rows that exist, are
    collected in [x]. *)
Definition linking (o x : Order) (d : Database) : Prop :=
  alive_with o d /\ rtc order_step o x /\ born x /\ forall i, i ∈ refs x -> is_Some (orders d !! i).
#[local] Instance orders_only_linking o x : OrdersOnly (linking o x).
Proof. intros d d' Ho Hn (H & Hs & Hb & Hr). split_and!; [by apply (orders_only_with o d)|done|done|by rewrite Ho]. Qed.
Lemma add_linking o x mk : (forall i, born (mk i) /\ o_id (mk i) = i /\ refs (mk i) = [o_id o]) ->
  triple (on_db (linking o x)) (add_order mk) (fun c => on_db (fun d => linking o x d /\ is_Some (orders d !! o_id c)))
    (fun _ => on_db alive).
Proof.
  intros Hb w (Hw & Hs & Hx & Hr). destruct (add_knows o mk Hb w Hw) as [Hw' Hi]. split; [|exact Hi]. split_and!; [exact Hw'|done|done|].
  intros i Hi'. destruct (Hr i Hi') as [o1 Ho]. destruct (descends_lookup _ _ _ _ (proj1 Hw) Ho). cbn.
  rewrite lookup_insert_ne by lia. by eexists.
Qed.
Definition linked_to (link : Z -> Order) (x : Order) : Prop :=
  forall i, order_step x (link i) /\ born (link i) /\ forall j, j ∈ refs (link i) -> j = i \/ j ∈ refs x.
Lemma link_child {A} o x config link (f : Order -> wprog A) : o_id x = o_id o -> linked_to link x ->
  (forall y, y = x \/ (exists i, y = link i) -> triple (on_db (linking o y)) (f y) (fun _ => on_db alive) (fun _ => on_db alive)) ->
  triple (on_db (linking o x))
    ((match config with
      | Some c => child ← create_sltp_child x c; mret (link (o_id child))
      | None => mret x
      end) ≫= f) (fun _ => on_db alive) (fun _ => on_db alive).
Proof.
  intros Hid Hl Hf. destruct config as [c|]; [|apply Hf; by left].
  eapply triple_bind with (M := fun y w => on_db (linking o y) w /\ exists i, y = link i).
  2: { intros y w [Hw Hy]. apply (Hf y); [by right|done]. }
  eapply triple_bind with (M := fun c w => on_db (linking o x) w /\ is_Some (orders (db w) !! o_id c)).
  - unfold create_sltp_child. eapply triple_bind with (M := fun _ => on_db (linking o x)).
    + apply keeps_into; [by intros w [[Hw _] _]|]. keeps_tac.
    + intros t. apply add_linking. intros i. rewrite <- Hid. apply born_child.
  - intros child w [(Hw & Hs & Hb & Hr) Hi]. destruct (Hl (o_id child)) as (H1 & H2 & H3). split; [|by eexists].
    split_and!; [done|by eapply rtc_r|done|]. intros i [->|Hi']%H3; [done|by apply Hr].
Qed.
Lemma sl_linked x : o_sl_order_id x = None -> born x -> linked_to (fun i => set_o_sl_order_id (Some i) x) x.
Proof.
  intros Hn Hb i. split; [by apply step_link_sl|]. split; [done|]. intros j. unfold refs. cbn. rewrite Hn.
  destruct (o_replaces_id x), (o_replaced_by_id x), (o_parent_order_id x), (o_tp_order_id x); set_solver.
Qed.
Lemma tp_linked x : o_tp_order_id x = None -> born x -> linked_to (fun i => set_o_tp_order_id (Some i) x) x.
Proof.
  intros Hn Hb i. split; [by apply step_link_tp|]. split; [done|]. intros j. unfold refs. cbn. rewrite Hn.
  destruct (o_replaces_id x), (o_replaced_by_id x), (o_parent_order_id x), (o_sl_order_id x); set_solver.
Qed.
Lemma write_linked o x : triple (on_db (linking o x)) (_ ← write_order x; mret x) (fun _ => on_db alive) (fun _ => on_db alive).
Proof.
  intros w ([Hw Hk] & Hs & _ & Hr). unfold write_order, update_db, on_db, alive. run_prog. cbn.
  assert (E : o_id x = o_id o) by (by apply terms_id, order_steps_terms). rewrite E.
  eapply descends_write; [done..|]. intros i Hi. right. by apply Hr.
Qed.
Lemma alive_create uid dto bulk : keeps (on_db alive) (create_order uid dto bulk).
Proof.
  unfold create_order. apply keeps_bind; [keeps_tac|intros side]. apply keeps_bind; [keeps_tac|intros type].
  eapply triple_bind; [apply add_with; intros i; apply born_mk_order|]. intros o w (Hw & Hb & Hr).
  assert (Hn : o_sl_order_id o = None /\ o_tp_order_id o = None).
  { unfold refs in Hr. cbn in Hr. by destruct (o_replaces_id o), (o_replaced_by_id o), (o_parent_order_id o), (o_sl_order_id o),
      (o_tp_order_id o). }
  assert (H0 : on_db (linking o o) w) by (split_and!; [done|done|done|rewrite Hr; set_solver]). clear Hw. revert w H0.
  refine (link_child o o (d_sl dto) (fun i => set_o_sl_order_id (Some i) o) _ eq_refl _ _); [by apply sl_linked; [apply Hn|]|]. intros y Hy.
  apply (link_child o y (d_tp dto) (fun i => set_o_tp_order_id (Some i) y)); [by destruct Hy as [->|[i ->]]| |intros z _; apply write_linked].
  destruct Hn as [_ Hn]. apply tp_linked; by destruct Hy as [->|[i ->]].
Qed.
#[local] Hint Resolve alive_cancel alive_modify alive_create : keeps.

Lemma alive_reads {A} (m : wprog A) : reads m -> keeps (on_db alive) m.
Proof. apply frame_reads. Qed.
Lemma alive_place uid dto : keeps (on_db alive) (place_order uid dto).
Proof.
  unfold place_order. apply keeps_bind; [auto with keeps|intros pr]. apply keeps_bind; [auto with keeps|intros _].
  apply keeps_bind; [apply alive_reads, reads_lock_requirement|intros req]. unfold publish_order_update. keeps_tac.
Qed.
Lemma alive_insert_all uid bulk dtos : keeps (on_db alive) (insert_all uid bulk dtos).
Proof. induction dtos as [|dto dtos IH]; cbn [insert_all]; keeps_tac. Qed.
Lemma alive_bulk uid dtos bulk : keeps (on_db alive) (place_bulk_orders uid dtos bulk).
Proof.
  unfold place_bulk_orders. destruct dtos as [|dto dtos]; [apply keeps_ret|]. cbn zeta.
  apply keeps_bind; [apply alive_reads, reads_bulk_requirements|intros reqs].
  apply keeps_bind; [auto with keeps|intros _]. apply keeps_bind; [apply alive_insert_all|intros os].
  unfold publish_bulk_result. keeps_tac.
Qed.
Lemma alive_cancel_bulk uid ids symbol all batch : keeps (on_db alive) (cancel_bulk_orders uid ids symbol all batch).
Proof. unfold cancel_bulk_orders, cancel_one, publish_bulk_result. keeps_tac. Qed.

Lemma born_stop_child o type price i :
  let r := stop_child o type price i in born r /\ o_id r = i /\ refs r = [o_id o].
Proof. split; [|done]. split; [by left|done]. Qed.
Lemma alive_trigger oid price trailing : keeps (on_db alive) (trigger_stop_order oid price trailing).
Proof.
  unfold trigger_stop_order. apply keeps_transaction, keeps_read_row; [|apply keeps_ret]. intros o.
  destruct (bool_decide_reflect (o_status o = PENDING)) as [Ep|]; cbn [negb]; [|apply from_row_keeps, keeps_ret].
  apply from_row_frame; [auto with keeps|intros [pr|]]; [|apply from_row_keeps, keeps_ret].
  apply from_row_frame; [apply frame_reads, reads_trigger_lock|intros [[asset amount]|]]; [|apply from_row_keeps, keeps_ret].
  apply from_row_frame; [keeps_tac|intros []]; [|apply from_row_keeps, keeps_ret].
  unfold fire_stop. cbn zeta. apply from_row_write; [by apply rtc_once, step_fire|done|intros _].
  apply from_row_frame; [apply keeps_add_with; intros i; exact (born_stop_child o _ _ i)|intros child]. apply from_row_keeps.
  unfold publish_order_update. keeps_tac.
Qed.

(** Settlement: the children are activated from the rows of one query. *)
Definition all_with (cs : list Order) (d : Database) : Prop := alive d /\ forall c, c ∈ cs -> orders d !! o_id c = Some c.
#[local] Instance orders_only_all cs : OrdersOnly (all_with cs).
Proof. intros d d' Ho Hn [H Hk]. split; [by apply (orders_only_alive d)|by rewrite Ho]. Qed.
Lemma activate_one parent c cs : o_id c ∉ o_id <$> cs ->
  triple (on_db (all_with (c :: cs))) (activate_child parent c) (fun _ => on_db (all_with cs)) (fun _ => on_db alive).
Proof.
  intros Hc. unfold activate_child. destruct (bool_decide_reflect (o_status c = PENDING)) as [Ep|]; cbn [negb].
  2: { intros w [Hw Hk]. split; [exact Hw|]. intros c' Hin. apply Hk. by right. }
  eapply triple_bind with (M := fun _ => on_db (all_with cs)).
  - intros w [Hw Hk]. pose proof (write_with c (with_status NEW c) (rtc_once _ _ (step_activate _ Ep)) eq_refl w) as H.
    unfold write_order, update_db in *. run_prog in H. run_prog. split; [apply H; split; [exact Hw|apply Hk; left]|].
    intros c' Hin. cbn. rewrite lookup_insert_ne; [apply Hk; by right|]. intros E. apply Hc. rewrite E.
    by apply list_elem_of_fmap_2.
  - intros []. apply keeps_into; [by intros w [Hw _]|]. unfold publish_sl_tp_activated. keeps_tac.
Qed.
Lemma activate_all parent cs : NoDup (o_id <$> cs) ->
  triple (on_db (all_with cs)) (for_each cs (activate_child parent)) (fun _ => on_db alive) (fun _ => on_db alive).
Proof.
  induction cs as [|c cs IH]; intros Hd; cbn [for_each].
  { intros w [Hw _]. exact Hw. }
  rewrite fmap_cons in Hd. apply NoDup_cons in Hd as [Hc Hd].
  eapply triple_bind; [by apply activate_one|]. intros []. apply (IH Hd).
Qed.
Lemma alive_activate parent : keeps (on_db alive) (activate_sltp_children parent).
Proof.
  intros w Hw. unfold activate_sltp_children, list_children_by_parent. rewrite (bind_inr _ _ w w _ eq_refl).
  set (l := filter _ _). assert (Hl : forall kc, kc ∈ l -> orders (db w) !! kc.1 = Some kc.2 /\ o_id kc.2 = kc.1).
  { intros [k c] Hin. apply list_elem_of_filter in Hin as [_ Hin]. apply elem_of_map_to_list in Hin.
    split; [done|]. by destruct (descends_lookup _ _ _ _ Hw Hin). }
  apply activate_all.
  - assert (E : o_id <$> (snd <$> l) = fst <$> l).
    { rewrite <- list_fmap_compose. apply list_fmap_ext. intros i kc Hi. apply Hl. by eapply list_elem_of_lookup_2. }
    rewrite E. eapply sublist_NoDup; [apply (NoDup_fst_map_to_list (orders (db w)))|]. apply fmap_sublist, sublist_filter.
  - split; [exact Hw|]. intros c (kc & -> & Hin)%list_elem_of_fmap. destruct (Hl kc Hin) as [H1 H2]. by rewrite H2.
Qed.

Lemma alive_settle_maker side b a n makers delta : keeps (on_db alive) (settle_maker side b a n makers delta).
Proof.
  destruct delta as [k [q v]]. unfold settle_maker. apply keeps_read_row; [|apply keeps_ret]. intros o. cbn zeta.
  apply from_row_write; [by apply rtc_once, step_maker_fill|done|intros _]. apply from_row_keeps. keeps_tac.
Qed.
Lemma alive_settle_taker side b a k q v : keeps (on_db alive) (settle_taker side b a k q v).
Proof.
  unfold settle_taker. apply keeps_read_row; [|apply keeps_ret]. intros o. cbn zeta.
  apply from_row_write; [by apply rtc_once, step_taker_fill|apply taker_fill_refs|intros _]. apply from_row_keeps.
  apply keeps_bind; [auto with keeps|intros _]. apply keeps_bind; [|intros _; apply keeps_ret].
  destruct (bool_decide _); [apply alive_activate|apply keeps_ret].
Qed.
#[local] Hint Resolve alive_settle_maker alive_settle_taker : keeps.
Lemma alive_persist ts uid oid side symbol b q : keeps (on_db alive) (persist_trade_batch ts uid oid side symbol b q).
Proof. unfold persist_trade_batch, settle_batch. keeps_tac. Qed.
Lemma alive_settle p ts : keeps (on_db alive) (settle_match p ts).
Proof.
  unfold settle_match. apply keeps_transaction. apply keeps_bind; [auto with keeps|intros [pr|]; [|apply keeps_ret]].
  apply keeps_bind; [apply frame_reads, reads_enrich|intros ds]. pose proof alive_persist. keeps_tac.
Qed.
Lemma alive_refund p : keeps (on_db alive) (refund_market_buy_leftover p).
Proof. unfold refund_market_buy_leftover, get_for_update, unlock_pessimistic. apply keeps_transaction. keeps_tac. Qed.
Lemma alive_adjust uid asset delta reason : keeps (on_db alive) (admin_adjust uid asset delta reason).
Proof. unfold admin_adjust, admin_row, get_for_update, write_balance. keeps_tac. Qed.
Lemma alive_void {A} (m : wprog A) : keeps (on_db alive) m -> keeps (on_db alive) (void m).
Proof. intros H. unfold void. keeps_tac. Qed.

(** Every transaction of the system. *)
Lemma alive_perform a : keeps (on_db alive) (perform a).
Proof.
  destruct a; cbn [perform].
  6, 8: by auto using alive_trigger, alive_refund.
  6: by apply alive_void, alive_settle.
  all: apply keeps_transaction, alive_void;
    auto using alive_place, alive_bulk, alive_cancel, alive_cancel_bulk, alive_modify, alive_adjust.
Qed.

(** The worker's iteration. *)
Definition wlive (k : MatchingWorker) : Prop := on_db alive (world k).
Lemma wlive_in_world {A} (m : wprog A) : keeps (on_db alive) m -> keeps wlive (in_world m).
Proof. intros H k Hk. specialize (H (world k) Hk). unfold in_world, wlive. by destruct (m (world k)) as [w [e|a]]. Qed.
Lemma alive_after_settlement p rem : keeps (on_db alive) (after_settlement p rem).
Proof.
  pose proof alive_refund. unfold after_settlement, insert_resting_taker, publish_orderbook_delta, publish_orderbook_snapshot.
  keeps_tac.
Qed.
Lemma wlive_handle_place p : keeps wlive (handle_place p).
Proof.
  unfold handle_place. apply keeps_bind.
  - intros k Hk. pose proof (match_payload_world p k) as E. unfold wlive in *.
    destruct (match_payload p k) as [k' [e|r]]; cbn in E |- *; by rewrite E.
  - intros [[ts outcome] rem]. apply wlive_in_world. apply keeps_bind; [auto with keeps|intros out]. cbn zeta.
    pose proof alive_after_settlement. pose proof alive_settle.
    unfold publish_rejection, publish_order_update. keeps_tac.
Qed.
Lemma wlive_worker_step str : keeps wlive (worker_step str).
Proof.
  unfold worker_step. apply keeps_bind; [apply wlive_in_world; auto with keeps|intros [payload|]; [|apply keeps_ret]].
  apply keeps_try.
  - apply keeps_bind; [apply wlive_in_world; auto with keeps|intros p]. apply keeps_bind; [|intros _; apply keeps_ret].
    unfold process_action, handle_cancel, handle_modify. pose proof wlive_handle_place. keeps_tac.
  - intros e. apply keeps_bind; [apply keeps_gets|intros now]. apply wlive_in_world. auto with keeps.
Qed.
End Life.

(** ** The system *)

Section Lifecycle.
Context {R : Redis} {P : PgNumeric} {I : Interference}.

(** Runs: the transactions, the worker's iterations, and between them anything
    that leaves the orders table alone. *)
Inductive orders_run : World -> World -> Prop :=
  | orders_stop w : orders_run w w
  | orders_other w w1 w' : orders (db w1) = orders (db w) -> next_order_id (db w1) = next_order_id (db w) ->
      orders_run w1 w' -> orders_run w w'
  | orders_action a w w' : orders_run (perform a w).1 w' -> orders_run w w'
  | orders_worker str_of_exn k w' : orders_run (world (worker_step str_of_exn k).1) w' -> orders_run (world k) w'.

Lemma run_descends w w' : orders_run w w' -> rows_ok (orders (db w)) (next_order_id (db w)) ->
  descends (orders (db w)) (next_order_id (db w)) (orders (db w')) (next_order_id (db w')).
Proof.
  intros H Hw. pose proof (descends_refl _ _ Hw) as H0. revert H0. clear Hw.
  generalize (orders (db w)) at 1 3 as os0. generalize (next_order_id (db w)) at 1 3 as n0. intros n0 os0.
  induction H as [w|w w1 w' Eo En H IH|a w w' H IH|str k w' H IH]; intros H0; [done|..]; apply IH.
  - by rewrite Eo, En.
  - by apply (keeps_fst (on_db (alive (os0 := os0) (n0 := n0))) (perform a) w (alive_perform a)).
  - pose proof (wlive_worker_step (os0 := os0) (n0 := n0) str k H0) as Hk. by destruct (worker_step str k) as [k' [e|u]].
Qed.

(** C5: the orders table refines a table of order state machines.  Along every
    run - placements, bulk placements, cancellations, replacements, triggers,
    settlements, refunds and worker iterations, each succeeding or failing -
    every row stays under its id, refers only to rows of the table (its parent,
    its children, what it replaces and what replaces it) and has moved along
    [order_step]; every new row was inserted NEW or PENDING with nothing filled,
    under a key never used before, and has moved along [order_step] since. *)
Theorem orders_refine_lifecycle w w' : rows_ok (orders (db w)) (next_order_id (db w)) -> orders_run w w' ->
  rows_ok (orders (db w')) (next_order_id (db w')) /\
  (forall k o, orders (db w) !! k = Some o -> exists o', orders (db w') !! k = Some o' /\ rtc order_step o o') /\
  (forall k o', orders (db w') !! k = Some o' -> orders (db w) !! k = None ->
     next_order_id (db w) <= k /\ exists o, born o /\ rtc order_step o o').
Proof.
  intros Hw H. destruct (run_descends w w' H Hw) as [H1 H2 H3 H4]. auto.
Qed.

(** C13: an order is never lost and never rewritten.  Along every run an order
    keeps its user, symbol, side, type, prices, quantities and lineage; its
    version never falls; it becomes NEW only from PENDING and never PENDING
    again, so what is filled or canceled never waits again; REJECTED and EXPIRED
    are never written. *)
Theorem orders_keep_terms w w' k o : rows_ok (orders (db w)) (next_order_id (db w)) -> orders_run w w' ->
  orders (db w) !! k = Some o ->
  exists o', orders (db w') !! k = Some o' /\ terms o' = terms o /\ o_version o <= o_version o' /\
    (o_status o' = o_status o \/
     match o_status o' with
     | PENDING | REJECTED | EXPIRED => False
     | NEW => o_status o = PENDING
     | _ => True
     end).
Proof.
  intros Hw H Hk. destruct (descends_old _ _ _ _ (run_descends w w' H Hw) k o Hk) as (o' & Hk' & Hs). exists o'.
  destruct (order_steps_status _ _ Hs). split_and!; [done|by apply order_steps_terms|done|done].
Qed.
End Lifecycle.

(** ** Concrete runs *)

Lemma demo_rows_ok : rows_ok (orders (db demo_exchange2)) (next_order_id (db demo_exchange2)).
Proof. apply map_Forall_empty. Defined.

(** User 1 places a bid and cancels it. *)
Definition demo_place : World (R := MemRedis) :=
  (perform (R := MemRedis) (P := PgExact) (I := NoInterference) (APlace 1 (limit_dto "buy" 3 10)) demo_exchange2).1.
Definition demo_canceled : World (R := MemRedis) :=
  (perform (R := MemRedis) (P := PgExact) (I := NoInterference) (ACancel 1 1) demo_place).1.
Definition row_status (k : Z) (w : World (R := MemRedis)) : option OrderStatus := o_status <$> orders (db w) !! k.

Lemma orders_refine_lifecycle_witness : row_status 1 demo_canceled = Some CANCELED /\
  exists o o', orders (db demo_canceled) !! 1 = Some o' /\ born o /\ rtc order_step o o'.
Proof.
  split; [vm_compute; reflexivity|].
  destruct (orders_refine_lifecycle (R := MemRedis) (P := PgExact) (I := NoInterference) demo_exchange2 demo_canceled) as (_ & _ & H).
  - exact demo_rows_ok.
  - apply (orders_action (APlace 1 (limit_dto "buy" 3 10)) demo_exchange2).
    apply (orders_action (ACancel 1 1) demo_place). apply orders_stop.
  - destruct (orders (db demo_canceled) !! 1) as [o'|] eqn:E; [|vm_compute in E; discriminate E].
    destruct (H 1 o' E) as (_ & o & Hb & Hs); [reflexivity|]. exists o, o'. exact (conj eq_refl (conj Hb Hs)).
Defined.

Lemma orders_keep_terms_witness :
  exists o o', orders (db demo_place) !! 1 = Some o /\ orders (db demo_canceled) !! 1 = Some o' /\
    terms o' = terms o /\ o_version o < o_version o'.
Proof.
  destruct (orders (db demo_place) !! 1) as [o|] eqn:E; [|vm_compute in E; discriminate E].
  destruct (orders_keep_terms (R := MemRedis) (P := PgExact) (I := NoInterference) demo_place demo_canceled 1 o) as (o' & E' & Ht & _).
  - apply map_Forall_to_list. vm_compute. repeat constructor. intros i Hi. inversion Hi.
  - apply (orders_action (ACancel 1 1) demo_place). apply orders_stop.
  - exact E.
  - exists o, o'. refine (conj eq_refl (conj E' (conj Ht _))).
    assert (H : o_version o = 1 /\ o_version o' = 2); [|destruct H as [-> ->]; reflexivity].
    apply (f_equal (fmap o_version)) in E, E'. vm_compute in E, E'. injection E as E. injection E' as E'. symmetry in E, E'. split; [exact E|exact E'].
Defined.
