(* ===== verification/Drift.v ===== *)
(** * Where Redis and the tables drift apart

    Closed runs of the services and the worker on a small market, each showing
    a state the two stores should not reach: the book and the open-order index
    live in Redis, which no rollback restores, and the worker trusts the queue
    and the HASHes without reading the order's row. *)

From Stdlib Require Import ZArith Lia Bool.
From stdpp Require Import base tactics option list strings gmap sets.
From S2P Require Import Prelude Float64 PyDecimal Models RedisIface OrderBook Queues OrdersIndex World Balance OrderService Engine Bridge Trade Worker WorkerSpec Exchange OrderLife.
#[local] Open Scope Z_scope.

Abbreviation demo_run := (prog (MatchingWorker (R := MemRedis)) exn unit).
Definition place (user : Z) (dto : OrderCreateDTO) : demo_run :=
  in_world (R := MemRedis) (perform (P := PgExact) (I := NoInterference) (APlace user dto)).
Definition cancel (user oid : Z) : demo_run :=
  in_world (R := MemRedis) (perform (P := PgExact) (I := NoInterference) (ACancel user oid)).
Definition serve : demo_run := worker_step (R := MemRedis) (fun _ => "error").
Definition after (m : demo_run) : World (R := MemRedis) := world (m demo_worker).1.
Definition locked_of (user : Z) (asset : string) (w : World (R := MemRedis)) : option Z :=
  dunits ∘ locked_balance <$> balances (db w) !! (user, asset).
(** The offers the worker would load against a buyer, and a user's index. *)
Definition offers (w : World (R := MemRedis)) : exn + list Z :=
  match (get_opposite_orders_for_match "BTCUSD" "buy" 1000 (redis w)).2 with
  | inl e => inl e | inr mos => inr (mo_order_id <$> mos)
  end.
Definition index_of (user : Z) (w : World (R := MemRedis)) : exn + list Z := (get_user_open_orders user (redis w)).2.
Definition typed_dto (type side : string) (qty price : Z) : OrderCreateDTO :=
  MkDTO "BTCUSD" side type (Some (dec_of_Z price)) None None (dec_of_Z qty) None None None None None None.

(** The worker trades canceled orders.  User 2 offers 3 at 10 and user 1 has a
    bid open elsewhere; user 1 bids 3 at 10 and cancels it before the worker pops
    the placement: the row says CANCELED and the lock is returned.  The worker,
    which does not read the row, matches the bid: the canceled order becomes
    FILLED, paid from the lock of the other bid. *)
Theorem canceled_order_still_trades :
  let canceled := _ ← place_and_match 2 "sell" 3 10; _ ← place_and_match 1 "buy" 10 5; _ ← place 1 (limit_dto "buy" 3 10); cancel 1 3 in
  let served := _ ← canceled; serve in
  row_status 3 (after canceled) = Some CANCELED /\ locked_of 1 "USD" (after canceled) = Some (dunits (dec_of_Z 50)) /\
  row_status 3 (after served) = Some FILLED /\ locked_of 1 "USD" (after served) = Some 0.
Proof. vm_compute. split_and!; reflexivity. Qed.

(** A settlement that fails empties the book.  As above, but user 1 has
    nothing else locked: the taker's payment is refused and the transaction is
    rolled back, so the offer is NEW, unfilled and funded again; but its maker
    had been settled first, and Redis no longer has the offer: nobody can
    trade with it any more. *)
Theorem failed_settlement_drops_makers :
  let canceled := _ ← place_and_match 2 "sell" 3 10; _ ← place 1 (limit_dto "buy" 3 10); cancel 1 2 in
  let served := _ ← canceled; serve in
  offers (after canceled) = inr [1] /\ offers (after served) = inr [] /\
  row_status 1 (after served) = Some NEW /\ order_fill (served demo_worker).1 1 = Some (dec_zero, dec_of_Z 3) /\
  locked_of 2 "BTC" (after served) = Some (dunits (dec_of_Z 3)) /\ index_of 2 (after served) = inr [].
Proof. vm_compute. split_and!; reflexivity. Qed.

(** A taker that is filled at once stays in its user's index of open orders. *)
Theorem filled_taker_stays_open :
  let w := after (_ ← place_and_match 2 "sell" 3 10; place_and_match 1 "buy" 3 10) in
  row_status 2 w = Some FILLED /\ index_of 1 w = inr [2] /\ row_status 1 w = Some FILLED /\ index_of 2 w = inr [].
Proof. vm_compute. split_and!; reflexivity. Qed.

(** The rest of an immediate-or-cancel order is never expired: its row stays
    PARTIALLY_FILLED, its money locked, and no book holds it. *)
Theorem ioc_remainder_stays_locked :
  let w := after (_ ← place_and_match 2 "sell" 3 10; _ ← place 1 (typed_dto "ioc" "buy" 5 10); serve) in
  row_status 2 w = Some PARTIALLY_FILLED /\ locked_of 1 "USD" w = Some (dunits (dec_of_Z 20)) /\
  (get_opposite_orders_for_match "BTCUSD" "sell" 1000 (redis w)).2 = inr [].
Proof. vm_compute. split_and!; reflexivity. Qed.
