(* ===== verification/App.v ===== *)
(** * The application entry: app/main.py, and the tasks of the stop monitor
      (start, refresh, stop and the message loop of
      app/services/stop_monitor_service.py)

    Start-up seeds the tables, starts the WebSocket subscribers and the stop
    monitor for the pairs that are active then; the monitor's refresh task looks
    for new pairs every 30 seconds.  A task is an entry of a list; an iteration
    of its loop is an operation.  The back-off after an error (during which
    messages are lost), the ping of Redis and the cancellation of tasks that are
    suspended are not modelled. *)

From Stdlib Require Import ZArith Lia Bool SpecFloat.
From stdpp Require Import base tactics option list strings gmap sets sorting.
From S2P Require Import Prelude Float64 PyDecimal Models RedisIface OrderBook Queues OrdersIndex Stops World Pubsub Balance OrderRepo OrderService OrderSpec StopMonitor Auth WsManager WsFanout Login Api Seed Exchange OrderLife.
#[local] Open Scope Z_scope.

Section Monitor.
Context {R : Redis} {P : PgNumeric} {I : Interference} {F : Connection}.

(** ** The tasks of the monitor *)

(** StopMonitorService with its [_tasks], keyed by symbol, [_running] and
    [_refresh_task]. *)
Record StopTasks := MkStopTasks {
  tasks : list string;
  mon_running : bool;
  refresh_task : bool;
  service : StopMonitorService
}.
Abbreviation tprog := (prog StopTasks exn).
Definition in_service {A} (m : wprog A) : tprog A := fun k =>
  let '(s, r) := in_monitored m (service k) in (MkStopTasks (tasks k) (mon_running k) (refresh_task k) s, r).
Definition with_service {A} (m : prog StopMonitorService exn A) : tprog A := fun k =>
  let '(s, r) := m (service k) in (MkStopTasks (tasks k) (mon_running k) (refresh_task k) s, r).

(** [if symbol not in self._tasks: self._tasks[symbol] = create_task(...)]:
    whether the task is new. *)
Definition ensure_task (symbol : string) : tprog bool :=
  known ← gets (fun k => bool_decide (symbol ∈ tasks k));
  if known : bool then mret false
  else _ ← modify (fun k => MkStopTasks (tasks k ++ [symbol]) (mon_running k) (refresh_task k) (service k)); mret true.

Definition start (symbols : list string) : tprog unit :=
  _ ← modify (fun k => MkStopTasks (tasks k) true (refresh_task k) (service k));
  _ ← for_each symbols (fun symbol => _ ← ensure_task symbol; mret tt);
  _ ← in_service (rescan_pending_stops symbols);
  modify (fun k => MkStopTasks (tasks k) (mon_running k) true (service k)).

Definition refresh_pair (symbol : string) : tprog unit :=
  added ← ensure_task symbol;
  if added : bool then in_service (rescan_pending_stops [symbol]) else mret tt.
(** One iteration of [_periodic_refresh], after the sleep. *)
Definition periodic_refresh : tprog unit :=
  there ← gets refresh_task;
  running ← gets mon_running;
  if negb there then mret tt
  else if negb running then modify (fun k => MkStopTasks (tasks k) (mon_running k) false (service k))
  else try_except (active ← in_service list_active; for_each (p_symbol <$> active) refresh_pair) (fun _ => mret tt).

Definition stop : tprog unit := modify (fun k => MkStopTasks [] false false (service k)).

(** [Decimal(str(v))] of a field: the publishers print numbers; the text of
    anything else that JSON holds, strings apart, is no number. *)
Definition json_price (v : jval) : option decimal :=
  match v with JFloat f => dec_of_float f | JInt n => Some (dec_of_Z n) | _ => None end.
(** [msg.get(k)]: an error on what is not a dict. *)
Definition msg_get (k : string) (msg : jval) : tprog (option jval) :=
  match msg with JObj _ => mret (jfield k msg) | _ => raise (KeyError k) end.

(** One message of the subscription of the task of [symbol]; after an error the
    task logs it and subscribes again. *)
Definition monitor_symbol (symbol : string) (raw : RawMessage) : tprog unit :=
  there ← gets (fun k => bool_decide (symbol ∈ tasks k));
  running ← gets mon_running;
  match iter_message true raw with
  | Some msg =>
      if there && running : bool then
        try_except
          (event ← msg_get "event" msg;
           match event with
           | Some (JStr "trade") =>
               v ← (match jfield "price" msg with Some v => mret v | None => raise (KeyError "price") end);
               price ← (match json_price v with Some d => mret d | None => raise InvalidOperation end);
               with_service (process_trade_print symbol price)
           | _ => mret tt
           end)
          (fun _ => mret tt)
      else mret tt
  | None => mret tt
  end.

(** ** The application *)

Record App := MkApp {
  app_accounts : Accounts;
  app_clock : float64;
  app_hub : Hub;
  app_stops : StopTasks;
  has_stop_monitor : bool
}.
Abbreviation aprog := (prog App exn).
Definition server_of (a : App) : Server := MkServer (app_accounts a) (monitored (service (app_stops a))) (app_clock a).
Definition set_server (s : Server) (a : App) : App :=
  let k := app_stops a in
  MkApp (s_accounts s) (s_clock s) (app_hub a)
    (MkStopTasks (tasks k) (mon_running k) (refresh_task k)
       (MkMonitor (local_high (service k)) (local_low (service k)) (s_world s))) (has_stop_monitor a).
Definition at_server {A} (m : prog Server exn A) : aprog A := fun a =>
  let '(s, r) := m (server_of a) in (set_server s a, r).
Definition at_stops {A} (m : tprog A) : aprog A := fun a =>
  let '(k, r) := m (app_stops a) in (MkApp (app_accounts a) (app_clock a) (app_hub a) k (has_stop_monitor a), r).
Definition at_hub (f : Hub -> Hub) : aprog unit :=
  modify (fun a => MkApp (app_accounts a) (app_clock a) (f (app_hub a)) (app_stops a) (has_stop_monitor a)).

(** The start of [lifespan], and its end. *)
Definition startup : aprog unit :=
  _ ← try_except (at_server seed_database) (fun _ => mret tt);
  active ← at_server (at_exchange list_active);
  match p_symbol <$> active with
  | [] => mret tt
  | symbols =>
      _ ← at_hub (start_subscribers symbols);
      _ ← at_stops (start symbols);
      modify (fun a => MkApp (app_accounts a) (app_clock a) (app_hub a) (app_stops a) true)
  end.
Definition stop_subscribers (h : Hub) : Hub := MkHub (manager h) false [] (private_tasks h) (clients h).
Definition shutdown : aprog unit :=
  there ← gets has_stop_monitor;
  _ ← (if there : bool then at_stops stop else mret tt);
  at_hub stop_subscribers.
End Monitor.

(** ** Rescanning leaves the pairs, and the tasks, alone *)

Section Rescan.
Context {R : Redis} {P : PgNumeric} {I : Interference} {F : Connection}.

Definition pairs_are (t : gmap string TradingPair) (d : Database) : Prop := pairs d = t.
Lemma pairs_update f t : (forall d, pairs (f d) = pairs d) -> keeps (on_db (pairs_are t)) (update_db f).
Proof. intros H. apply keeps_update_db. intros d Hd. unfold pairs_are. by rewrite H. Qed.
Lemma pairs_add_order mk t : keeps (on_db (pairs_are t)) (add_order mk).
Proof. by intros w. Qed.
#[local] Hint Resolve pairs_add_order : keeps.
#[local] Hint Extern 1 (keeps _ (update_db _)) => by apply pairs_update : keeps.
Lemma pairs_lock uid asset amount reason oid t : keeps (on_db (pairs_are t)) (lock_optimistic uid asset amount reason oid).
Proof.
  unfold lock_optimistic. destruct (dec_leb _ _); [apply keeps_raise|]. generalize 0 at 1. generalize MAX_OPTIMISTIC_RETRIES.
  intros n. induction n as [|n IH]; intros i; cbn [attempts]; [apply keeps_raise|].
  apply keeps_bind; [|intros [b|]; [apply keeps_ret|apply IH]].
  unfold seen_balance, get_by_user_asset, others, optimistic_lock, conditional_update, updated, get_or_create, get_by_user_asset, write_balance,
    publish_balance, publish_balance_update. keeps_tac.
Qed.
#[local] Hint Resolve pairs_lock : keeps.
Lemma pairs_trigger oid price trailing t : keeps (on_db (pairs_are t)) (trigger_stop_order oid price trailing).
Proof.
  unfold trigger_stop_order, get_order_for_update. apply keeps_transaction. apply keeps_bind; [auto with keeps|].
  intros [o|]; [|apply keeps_ret]. destruct (negb _); [apply keeps_ret|]. apply keeps_bind; [auto with keeps|].
  intros [pr|]; [|apply keeps_ret]. apply keeps_bind; [apply keeps_of_fst; intros w; by rewrite (reads_trigger_lock o pr w)|].
  intros [[asset amount]|]; [|apply keeps_ret]. apply keeps_bind; [keeps_tac|]. intros []; [|apply keeps_ret].
  unfold fire_stop, write_order, enqueue, publish_order_update. keeps_tac.
Qed.
#[local] Hint Resolve pairs_trigger : keeps.
Lemma pairs_rescan symbols t : keeps (on_db (pairs_are t)) (rescan_pending_stops symbols).
Proof. unfold rescan_pending_stops, rescan_symbol, get_last_price, list_pending_stops_by_symbol. keeps_tac. Qed.

(** ** The refresh finds every active pair *)

Definition active_symbols (d : Database) : list string :=
  p_symbol <$> merge_sort symbol_le (snd <$> filter (fun kp => p_is_active kp.2 = true) (map_to_list (pairs d))).
Definition mon_db (k : StopTasks) : Database := db (monitored (service k)).

(** What may happen to the monitor while its loop runs: tasks are added, the
    pairs stay. *)
Record continues (k k' : StopTasks) : Prop := {
  co_running : mon_running k' = mon_running k;
  co_refresh : refresh_task k' = refresh_task k;
  co_pairs : pairs (mon_db k') = pairs (mon_db k);
  co_tasks s : s ∈ tasks k -> s ∈ tasks k'
}.
#[export] Instance continues_preorder : PreOrder continues.
Proof.
  split; [by split|]. intros k1 k2 k3 [A1 A2 A3 A4] [B1 B2 B3 B4]. split; [congruence..|]. auto.
Qed.

Lemma in_service_continues {A} (m : wprog A) k : (forall t, keeps (on_db (pairs_are t)) m) ->
  continues k (in_service m k).1 /\ tasks (in_service m k).1 = tasks k.
Proof.
  intros Hm. specialize (Hm _ (monitored (service k)) eq_refl). unfold in_service, in_monitored.
  destruct (m (monitored (service k))) as [w [e|a]]; (split; [split; [done|done|exact Hm|done]|done]).
Qed.
Lemma ensure_task_spec symbol k : exists k' b, ensure_task symbol k = (k', inr b) /\ continues k k' /\ symbol ∈ tasks k' /\
  (b = true -> symbol ∉ tasks k).
Proof.
  unfold ensure_task. run_prog. case_bool_decide as E.
  - exists k, false. split_and!; [done|by split|done|done].
  - do 2 eexists. split; [reflexivity|]. split_and!; [|cbn; set_solver|done]. split; cbn; try done. set_solver.
Qed.
(** A pair is looked at: it has a task afterwards; if something raises, the task
    is a new one. *)
Lemma refresh_pair_spec symbol k :
  let r := refresh_pair symbol k in
  continues k r.1 /\ symbol ∈ tasks r.1 /\ (forall e, r.2 = inl e -> symbol ∉ tasks k).
Proof.
  unfold refresh_pair. destruct (ensure_task_spec symbol k) as (k1 & b & E & Hc & Hin & Hb).
  rewrite (bind_inr _ _ _ _ _ E). destruct b; cbn zeta; [|by split_and!].
  destruct (in_service_continues (rescan_pending_stops [symbol]) k1) as [Hc' Ht]; [intros t; apply pairs_rescan|].
  split_and!; [by etrans|by rewrite Ht|]. intros e _. by apply Hb.
Qed.
Lemma refresh_all_spec symbols k :
  let r := for_each symbols refresh_pair k in
  continues k r.1 /\
  match r.2 with
  | inr _ => forall s, s ∈ symbols -> s ∈ tasks r.1
  | inl _ => exists s, s ∈ symbols /\ s ∉ tasks k /\ s ∈ tasks r.1
  end.
Proof.
  revert k. induction symbols as [|s symbols IH]; intros k; cbn [for_each]; cbn zeta.
  { split; [by split|]. intros s Hs. by apply not_elem_of_nil in Hs. }
  pose proof (refresh_pair_spec s k) as H. cbn zeta in H. unfold mbind, prog_bind.
  destruct (refresh_pair s k) as [k1 [e|u]]; cbn [fst snd] in H |- *; destruct H as (Hc & Hin & He).
  - split; [done|]. exists s. split_and!; [left|by apply (He e)|done].
  - specialize (IH k1). cbn zeta in IH. destruct (for_each symbols refresh_pair k1) as [k2 [e|u2]]; cbn [fst snd] in IH |- *;
      destruct IH as [Hc2 H2]; (split; [by etrans|]).
    + destruct H2 as (s' & Hs & Hn & Hs'). exists s'. split_and!; [by right|intros Hk; by apply Hn, (co_tasks _ _ Hc)|done].
    + intros s' [->|Hs']%elem_of_cons; [by apply (co_tasks _ _ Hc2)|by apply H2].
Qed.

(** The active pairs without a task. *)
Definition missing (k : StopTasks) : list string := base.filter (fun s => s ∉ tasks k) (active_symbols (mon_db k)).
Lemma missing_continues k k' : continues k k' -> (length (missing k') <= length (missing k))%nat.
Proof.
  intros [_ _ Hp Ht]. unfold missing, active_symbols. rewrite Hp. generalize (p_symbol <$> merge_sort symbol_le
    (snd <$> filter (fun kp : string * TradingPair => p_is_active kp.2 = true) (map_to_list (pairs (mon_db k))))). intros l.
  induction l as [|s l IH]; [done|]. rewrite !filter_cons. repeat case_decide; cbn [length]; try lia. naive_solver.
Qed.
Lemma missing_progress k k' s : continues k k' -> s ∈ active_symbols (mon_db k) -> s ∉ tasks k -> s ∈ tasks k' ->
  (length (missing k') < length (missing k))%nat.
Proof.
  intros [_ _ Hp Ht] Hs Hn Hs'. unfold missing. unfold active_symbols in *. rewrite Hp. revert Hs. generalize (p_symbol <$> merge_sort symbol_le
    (snd <$> filter (fun kp : string * TradingPair => p_is_active kp.2 = true) (map_to_list (pairs (mon_db k))))). intros l Hl.
  assert (Hle : forall l, (length (base.filter (fun s => s ∉ tasks k') l) <= length (base.filter (fun s => s ∉ tasks k) l))%nat).
  { clear l Hl. intros l. induction l as [|x l IH]; [done|]. rewrite !filter_cons. repeat case_decide; cbn [length]; try lia. naive_solver. }
  induction l as [|x l IH]; [by apply not_elem_of_nil in Hl|]. rewrite !filter_cons. specialize (Hle l).
  destruct (decide (s ∈ l)) as [Hsl|Hsl]; [specialize (IH Hsl)|].
  - repeat case_decide; cbn [length]; try lia. naive_solver.
  - assert (x = s) as -> by set_solver. repeat case_decide; cbn [length]; try lia; done.
Qed.

(** One tick covers every active pair, or covers one more. *)
Lemma tick_progress k : mon_running k = true -> refresh_task k = true ->
  let k' := (periodic_refresh k).1 in
  continues k k' /\ (missing k' = [] \/ (length (missing k') < length (missing k))%nat).
Proof.
  intros Hr Ht k'. subst k'. unfold periodic_refresh. run_prog. rewrite Ht, Hr. cbn [negb]. unfold try_except.
  assert (E : in_service list_active k = (k, inr (merge_sort symbol_le
    (snd <$> filter (fun kp => p_is_active kp.2 = true) (map_to_list (pairs (mon_db k))))))) by (by destruct k as [? ? ? []]).
  change (fun s => match in_service list_active s with (s', inl e) => (s', inl e) | (s', inr a) => for_each (p_symbol <$> a) refresh_pair s' end)
    with (in_service list_active ≫= fun a => for_each (p_symbol <$> a) refresh_pair).
  rewrite E. change (p_symbol <$> _) with (active_symbols (mon_db k)).
  pose proof (refresh_all_spec (active_symbols (mon_db k)) k) as H. cbn zeta in H.
  destruct (for_each (active_symbols (mon_db k)) refresh_pair k) as [k1 [e|u]]; cbn [fst snd] in H |- *; destruct H as [Hc H];
    (split; [done|]).
  - right. destruct H as (s & Hs & Hn & Hs'). by eapply missing_progress.
  - left. unfold missing. apply filter_none. intros s Hs Hn. apply Hn, H. unfold active_symbols in *. by rewrite <- (co_pairs _ _ Hc).
Qed.

(** Iterations of the refresh loop; between them the rest of the system runs. *)
Inductive ticks : nat -> StopTasks -> StopTasks -> Prop :=
  | ticks_none k k' : continues k k' -> ticks 0 k k'
  | ticks_more n k k1 k' : continues k k1 -> ticks n (periodic_refresh k1).1 k' -> ticks (S n) k k'.

(** C27: the monitor catches up.  While the stop monitor runs, whatever else
    happens meanwhile, as many refreshes as there are active pairs without a task
    give every active pair one, although an error of a rescan ends a refresh
    early. *)
Theorem monitor_catches_up n k k' : mon_running k = true -> refresh_task k = true -> ticks n k k' ->
  (length (missing k) <= n)%nat -> forall s, s ∈ active_symbols (mon_db k) -> s ∈ tasks k'.
Proof.
  intros Hr Ht Hs Hn.
  assert (H : continues k k' /\ missing k' = []).
  { induction Hs as [k k' Hc|n k k1 k' Hc Hs IH].
    - split; [done|]. apply missing_continues in Hc. destruct (missing k'); [done|cbn in *; lia].
    - pose proof (missing_continues _ _ Hc) as Hm.
      destruct (tick_progress k1) as [Hc1 Hp]; [by rewrite (co_running _ _ Hc)|by rewrite (co_refresh _ _ Hc)|].
      destruct IH as [Hc2 H2].
      + by rewrite (co_running _ _ Hc1), (co_running _ _ Hc).
      + by rewrite (co_refresh _ _ Hc1), (co_refresh _ _ Hc).
      + destruct Hp as [->|Hp]; [cbn|]; lia.
      + split; [by etrans; [|etrans]|done]. }
  destruct H as [Hc Hm]. intros s Hin. destruct (decide (s ∈ tasks k')) as [|Hno]; [done|].
  assert (Hs' : s ∈ missing k').
  { apply list_elem_of_filter. split; [done|]. unfold active_symbols in *. by rewrite (co_pairs _ _ Hc). }
  rewrite Hm in Hs'. by apply not_elem_of_nil in Hs'.
Qed.

(** ** Start-up *)

Lemma start_tasks symbols k :
  let k1 := (for_each symbols (fun s => _ ← ensure_task s; mret tt) k).1 in
  for_each symbols (fun s => _ ← ensure_task s; mret tt) k = (k1, inr tt) /\
  service k1 = service k /\ mon_running k1 = mon_running k /\ refresh_task k1 = refresh_task k /\
  (forall s, s ∈ tasks k1 <-> s ∈ tasks k \/ s ∈ symbols).
Proof.
  revert k. induction symbols as [|s symbols IH]; intros k; cbn zeta.
  { split_and!; try done. intros s. set_solver. }
  cbn [for_each].
  assert (E : exists k1, (_ ← ensure_task s; mret tt) k = (k1, inr tt) /\ service k1 = service k /\
    mon_running k1 = mon_running k /\ refresh_task k1 = refresh_task k /\ forall x, x ∈ tasks k1 <-> x ∈ tasks k \/ x = s).
  { unfold ensure_task. run_prog. case_bool_decide; eexists; (split; [reflexivity|]); cbn; split_and!; try done; intros x; set_solver. }
  destruct E as (k1 & E & S1 & R1 & F1 & T1). rewrite (bind_inr _ _ _ _ _ E).
  destruct (IH k1) as (E2 & S2 & R2 & F2 & T2). cbn zeta in *. split; [exact E2|].
  split_and!; [by rewrite S2|by rewrite R2|by rewrite F2|]. intros x. rewrite T2, T1, elem_of_cons. tauto.
Qed.

(** [start]: unless the rescan raises, every symbol has its task and the refresh
    runs. *)
Lemma start_spec symbols k :
  let r := start symbols k in
  mon_running r.1 = true /\ (forall s, s ∈ tasks r.1 <-> s ∈ tasks k \/ s ∈ symbols) /\
  pairs (mon_db r.1) = pairs (mon_db k) /\
  r.2 = (rescan_pending_stops symbols (monitored (service k))).2 /\
  (r.2 = inr tt -> refresh_task r.1 = true).
Proof.
  unfold start. set (k0 := MkStopTasks (tasks k) true (refresh_task k) (service k)).
  rewrite (bind_inr _ _ k k0 tt eq_refl). destruct (start_tasks symbols k0) as (E & S1 & R1 & F1 & T1). cbn zeta in E.
  rewrite (bind_inr _ _ _ _ _ E). set (k1 := (for_each _ _ k0).1) in *.
  pose proof (pairs_rescan symbols _ (monitored (service k1)) eq_refl) as Hp.
  unfold mbind, prog_bind, in_service, in_monitored. rewrite S1 in Hp |- *. cbn [service k0] in *.
  destruct (rescan_pending_stops symbols (monitored (service k))) as [w [e|[]]]; cbn [fst snd tasks mon_running refresh_task]; by split_and!.
Qed.
End Rescan.

(** ** The life of the application *)

Section Life.
Context {R : Redis} {P : PgNumeric} {I : Interference} {F : Connection}.

Definition new_app (accounts : Accounts) (now : float64) (w : World) : App :=
  MkApp accounts now new_hub (MkStopTasks [] false false (MkMonitor ∅ ∅ w)) false.

(** What runs after start-up: requests and the worker, the monitor's messages and
    ticks, the sockets. *)
Inductive app_step : App -> App -> Prop :=
  | app_request A (m : prog Server exn A) a : app_step a (at_server m a).1
  | app_message s raw a : app_step a (at_stops (monitor_symbol s raw) a).1
  | app_tick a : app_step a (at_stops periodic_refresh a).1
  | app_sockets a h' : hub_step (app_hub a) h' ->
      app_step a (MkApp (app_accounts a) (app_clock a) h' (app_stops a) (has_stop_monitor a)).

(** No background task runs. *)
Definition nothing_runs (a : App) : Prop :=
  tasks (app_stops a) = [] /\ mon_running (app_stops a) = false /\ refresh_task (app_stops a) = false /\
  running (app_hub a) = false /\ subscriber_tasks (app_hub a) = [].

Lemma nothing_step a a' : app_step a a' -> nothing_runs a -> nothing_runs a'.
Proof.
  intros Hs (H1 & H2 & H3 & H4 & H5). destruct Hs as [A m a|s raw a|a|a h' Hh].
  - unfold at_server. destruct (m (server_of a)) as [s r]. by split_and!.
  - unfold at_stops, monitor_symbol. run_prog. rewrite H1, H2. rewrite bool_decide_eq_false_2 by (by apply not_elem_of_nil).
    cbn [andb]. by destruct (iter_message true raw).
  - unfold at_stops, periodic_refresh. run_prog. rewrite H3. by split_and!.
  - split_and!; try done; by destruct Hh.
Qed.

(** C15: the application starts its background tasks once and for all.  The
    tables are seeded, and an error of the seed is ignored.  When some pair is
    active then, exactly the active pairs get a subscriber for the sockets and a
    task of the stop monitor, the refresh runs, and start-up fails only as the
    rescan of the pending stops does.  When no pair is active, nothing is
    started, and nothing will be, whatever pairs are created later. *)
Theorem startup_correct accounts now w :
  let a := new_app accounts now w in
  let seeded := (seed_database (server_of a)).1 in
  let active := active_symbols (db (s_world seeded)) in
  let r := startup a in
  match active with
  | [] => r.2 = inr tt /\ forall a', rtc app_step r.1 a' -> nothing_runs a'
  | _ =>
      r.2 = (rescan_pending_stops active (s_world seeded)).2 /\
      running (app_hub r.1) = true /\ subscriber_tasks (app_hub r.1) = active /\
      mon_running (app_stops r.1) = true /\ (forall s, s ∈ tasks (app_stops r.1) <-> s ∈ active) /\
      (r.2 = inr tt -> refresh_task (app_stops r.1) = true /\ has_stop_monitor r.1 = true)
  end.
Proof.
  intros a seeded active r. subst r. unfold startup.
  assert (E1 : try_except (at_server seed_database) (fun _ => mret tt) a = (set_server seeded a, inr tt)).
  { unfold try_except, at_server. subst seeded. by destruct (seed_database (server_of a)) as [s [e|[]]]. }
  rewrite (bind_inr _ _ _ _ _ E1). set (a1 := set_server seeded a).
  rewrite (bind_inr (at_server (at_exchange list_active)) _ a1 a1 (merge_sort symbol_le
    (snd <$> filter (fun kp => p_is_active kp.2 = true) (map_to_list (pairs (db (s_world seeded)))))))
    by (by subst a1; destruct seeded).
  fold (active_symbols (db (s_world seeded))). fold active.
  destruct active as [|s symbols] eqn:Ea.
  - split; [done|]. intros a' Hr. change (rtc app_step a1 a') in Hr. assert (H : nothing_runs a1) by (by split_and!).
    clear E1. revert H.
    induction Hr as [x|x y z Hxy _ IH]; [done|]. intros Hx. apply IH. by eapply nothing_step.
  - rewrite <- Ea. set (a2 := MkApp (app_accounts a1) (app_clock a1) (start_subscribers active (app_hub a1)) (app_stops a1) false).
    rewrite (bind_inr (at_hub (start_subscribers active)) _ a1 a2 tt eq_refl).
    destruct (start_spec active (app_stops a2)) as (H1 & H2 & H3 & H4 & H5). cbn zeta in *.
    assert (E3 : forall f : App -> App, (at_stops (start active) ≫= fun _ => modify f) a2 =
      let a3 := MkApp (app_accounts a2) (app_clock a2) (app_hub a2) (start active (app_stops a2)).1 false in
      match (start active (app_stops a2)).2 with inl e => (a3, inl e) | inr _ => (f a3, inr tt) end).
    { intros f. unfold mbind, prog_bind, at_stops. by destruct (start active (app_stops a2)) as [k [e|[]]]. }
    rewrite E3. cbn zeta. clear E1 E3. revert H1 H2 H3 H4 H5.
    destruct (start active (app_stops a2)) as [k [e|[]]]; cbn [fst snd]; intros H1 H2 H3 H4 H5;
      split_and!; try done; try (by rewrite <- H4); try (intros x; rewrite H2; subst a2 a1 a; cbn; set_solver).
    intros _. by split; [apply H5|].
Qed.

(** *** Messages *)

Lemma msg_event k ev ts data : msg_get "event" (envelope ev ts data) k = (k, inr (Some (JStr ev))).
Proof. done. Qed.
Lemma not_trade {A} ev (x y : A) : ev <> "trade" -> (match Some (JStr ev) with Some (JStr "trade") => x | _ => y end) = y.
Proof.
  intros H. destruct (String.eqb_spec ev "trade") as [|_]; [done|]. clear -H.
  repeat (match goal with |- context [match ?e with _ => _ end] => is_var e; destruct e; try done end).
Qed.

(** the stop monitor hears every trade, and only trades.  What
    [publish_trade] sends on the channel of a symbol makes the task of that
    symbol, while the monitor runs, process a print at the price of the trade, an
    error of the processing being swallowed; without a task or after [stop] it
    has no effect, and neither has any other event or the confirmation of a
    subscription. *)
Theorem trade_heard {RS : RedisSpec R} symbol trade_id f qty side taker maker w k :
  (exists w' msg, publish_trade symbol trade_id f qty side taker maker w = (w', inr tt) /\
    published (view (redis w')) = published (view (redis w)) ++ [(trades_channel symbol, msg)] /\
    (forall d, dec_of_float f = Some d -> symbol ∈ tasks k -> mon_running k = true ->
       monitor_symbol symbol (MkRaw "message" (RJson msg)) k =
         try_except (with_service (process_trade_print symbol d)) (fun _ => mret tt) k) /\
    (symbol ∉ tasks k \/ mon_running k = false -> monitor_symbol symbol (MkRaw "message" (RJson msg)) k = (k, inr tt))) /\
  (forall type ev ts data, ev <> "trade" -> monitor_symbol symbol (MkRaw type (RJson (envelope ev ts data))) k = (k, inr tt)) /\
  (forall data, monitor_symbol symbol (MkRaw "subscribe" data) k = (k, inr tt)).
Proof.
  split; [|split].
  - unfold publish_trade. destruct (publish_event_spec (trades_channel symbol) "trade"
      ([("symbol", JStr symbol); ("trade_id", JInt trade_id); ("price", JFloat f); ("quantity", JFloat qty); ("side", JStr side)]
        ++ jopt "taker_order_id" JInt taker ++ jopt "maker_order_id" JInt maker) w) as (w' & E & _ & _ & Hp).
    exists w'. eexists. split_and!; [exact E|exact Hp| |].
    + intros d Hd Hin Hr. unfold monitor_symbol. run_prog. rewrite bool_decide_eq_true_2 by done. rewrite Hr. cbn [andb].
      assert (Ep : jfield "price" (envelope "trade" (now_ms w) ([("symbol", JStr symbol); ("trade_id", JInt trade_id);
        ("price", JFloat f); ("quantity", JFloat qty); ("side", JStr side)] ++ jopt "taker_order_id" JInt taker ++
        jopt "maker_order_id" JInt maker)) = Some (JFloat f)) by done.
      unfold iter_message. cbn [raw_type raw_data]. rewrite bool_decide_eq_true_2 by (by left). cbn [negb andb].
      unfold try_except. run_prog. rewrite msg_event. rewrite Ep. cbn [json_price]. by rewrite Hd.
    + intros H. unfold monitor_symbol. run_prog. cbn. destruct H as [H| ->]; [by rewrite bool_decide_eq_false_2|by rewrite andb_false_r].
  - intros type ev ts data Hev. unfold monitor_symbol. run_prog. unfold iter_message. destruct (negb _ && true); [done|]. cbn [raw_data].
    destruct (_ && _); [|done]. unfold try_except. run_prog. rewrite msg_event. by rewrite not_trade.
  - intros data. unfold monitor_symbol. by run_prog.
Qed.
End Life.

(** ** Concrete runs *)

(** A new database: the seed creates the pair that the application then serves. *)
Definition first_app : App (R := MemRedis) :=
  new_app (R := MemRedis) (MkAccounts ∅ 1 ∅ 1) f_zero (MkWorld (MkDatabase ∅ ∅ 1 [] ∅) empty_keyspace 1700000000000).
Example first_startup :
  let r := startup (R := MemRedis) (P := PgExact) (I := NoInterference) (F := Connected) first_app in
  r.2 = inr tt /\ tasks (app_stops r.1) = ["BTC/USD"] /\ subscriber_tasks (app_hub r.1) = ["BTC/USD"].
Proof. vm_compute. done. Qed.

(** A running monitor without a task, and one active pair. *)
Definition demo_tasks : StopTasks (R := MemRedis) := MkStopTasks [] true true (MkMonitor ∅ ∅ demo_stop_world).
Lemma monitor_catches_up_witness :
  "BTCUSD" ∈ tasks (periodic_refresh (R := MemRedis) (P := PgExact) (I := NoInterference) demo_tasks).1.
Proof.
  apply (monitor_catches_up (R := MemRedis) (P := PgExact) (I := NoInterference) 1 demo_tasks).
  - reflexivity.
  - reflexivity.
  - eapply ticks_more; [reflexivity|]. apply ticks_none. reflexivity.
  - vm_compute. lia.
  - vm_compute. left.
Defined.

Definition demo_monitor : StopTasks (R := MemRedis) := MkStopTasks ["BTCUSD"] true true (MkMonitor ∅ ∅ demo_stop_world).
Definition demo_print : StopTasks (R := MemRedis) * (exn + unit) :=
  try_except (with_service (process_trade_print (R := MemRedis) (P := PgExact) (I := NoInterference) "BTCUSD" (Dec 9 1)))
    (fun _ => mret tt) demo_monitor.
(** The trade of 90 that the stop of the example waits for. *)
Lemma trade_heard_witness :
  exists w' msg, publish_trade (R := MemRedis) "BTCUSD" 1 (f_of_Z 90) (f_of_Z 1) "sell" None None demo_stop_world = (w', inr tt) /\
    monitor_symbol (R := MemRedis) (P := PgExact) (I := NoInterference) "BTCUSD" (MkRaw "message" (RJson msg)) demo_monitor = demo_print /\
    demo_print.2 = inr tt /\ row_status 1 (monitored (service demo_print.1)) = Some FILLED.
Proof.
  destruct (trade_heard (RS := MemRedisSpec) (P := PgExact) (I := NoInterference) "BTCUSD" 1 (f_of_Z 90) (f_of_Z 1) "sell" None None
    demo_stop_world demo_monitor) as [(w' & msg & E & _ & H & _) _].
  exists w', msg. split; [exact E|]. split.
  - apply H; [vm_compute; reflexivity|left|reflexivity].
  - split; vm_compute; reflexivity.
Defined.
