(* ===== verification/FrontendCopy.v ===== *)
(** * The copy of the backend under src/frontend/backend

    The client's tree holds an earlier state of the backend.  Its files are those
    of src/backend but for the functions below, defined here with the prefix
    [copy_]; everything they call that did not change is the definition of the
    main library.  The theorems say what the changes repaired. *)

From Stdlib Require Import ZArith Lia Bool.
From stdpp Require Import base tactics option list strings gmap sets.
From S2P Require Import Prelude Float64 PyDecimal Models RedisIface OrderBook Queues OrdersIndex Stops World Pubsub Auth WsManager WsFanout WsPrivate Sessions Balance OrderRepo OrderService OrderSpec CancelSpec Engine Bridge Trade Worker WorkerSpec StopMonitor Exchange OrderLife Drift.
#[local] Open Scope Z_scope.

(** ** Queue items: the quantity is there only when it is given *)

Definition copy_build_order_action_payload (quantity : option float64) (p : OrderActionPayload) : jval :=
  JObj ([("action", JStr (pl_action p)); ("order_id", JInt (pl_order_id p));
         ("symbol", JStr (pl_symbol p)); ("user_id", JInt (pl_user_id p));
         ("side", JStr (pl_side p)); ("type", JStr (pl_type p)); ("ts", JInt (pl_ts p))]
        ++ jopt "price" JFloat (pl_price p)
        ++ jopt "stop_price" JFloat (pl_stop_price p)
        ++ jopt "quantity" JFloat quantity
        ++ (if pl_is_iceberg p
            then [("is_iceberg", JBool true); ("visible_qty", jfloat_opt (pl_visible_qty p));
                  ("hidden_qty", jfloat_opt (pl_hidden_qty p))]
            else [])
        ++ jopt "parent_order_id" JInt (pl_parent_order_id p)
        ++ jopt "replaces_id" JInt (pl_replaces_id p)
        ++ jopt "bulk_id" JStr (pl_bulk_id p)).

Section Copy.
Context {R : Redis} {P : PgNumeric} {I : Interference}.

(** ** Locks from the best ask alone *)

(** [Decimal(str(best_ask[0])) * Decimal("1.01")] *)
Definition copy_worst_price (best_ask : float64) : exn + decimal :=
  match dec_of_float best_ask with Some d => inr (dec_mul d (Dec 101 (-2))) | None => inl InvalidOperation end.

Definition copy_compute_market_buy_lock (dto : OrderCreateDTO) (pair : TradingPair) : wprog (string * decimal) :=
  best_ask ← on_redis (get_best_ask (d_symbol dto));
  match best_ask with
  | None => raise (OrderValidationError "Cannot place MARKET BUY: no asks available")
  | Some (price, _) => buffer ← lift (copy_worst_price price); mret (quote_asset pair, dec_mul buffer (d_quantity dto))
  end.
Definition copy_lock_requirement (dto : OrderCreateDTO) (pair : TradingPair) : wprog (string * decimal) :=
  if is_stop_dto dto then mret ("", dec_zero)
  else if is_market_buy dto then copy_compute_market_buy_lock dto pair
  else lift (compute_lock_asset_and_amount dto pair).

Definition copy_place_order (user_id : Z) (dto : OrderCreateDTO) : wprog Order :=
  pr ← validate_and_get_pair (d_symbol dto);
  _ ← lift (validate_params dto pr);
  req ← copy_lock_requirement dto pr;
  _ ← (if negb (is_stop_dto dto) && dec_ltb dec_zero (snd req)
       then _ ← lock_optimistic user_id (fst req) (snd req)
                  (if is_market_buy dto then "market_buy_estimate" else "order_placed") None;
            mret tt
       else mret tt);
  order ← create_order user_id dto (d_bulk_id dto);
  _ ← (if is_stop_dto dto then register_stop_order order
       else register_order order (o_bulk_id order) None);
  _ ← publish_order_update user_id (if is_stop_dto dto then "pending" else "placed") (o_id order) (o_symbol order)
        (OrderSide_value (o_side order)) (OrderType_value (o_type order)) (OrderStatus_value (o_status order))
        (MkOpts (float_or_none (o_price order)) (Some (f_of_dec (o_quantity order))) None None None None None
           (d_client_order_id dto) (o_bulk_id order));
  mret order.

Definition copy_trigger_lock (o : Order) (pr : TradingPair) : wprog (option (string * decimal)) :=
  match o_side o with
  | SELL => mret (Some (base_asset pr, o_quantity o))
  | BUY =>
      match child_terms o with
      | (LIMIT, Some p) => mret (Some (quote_asset pr, dec_mul p (o_quantity o)))
      | _ =>
          best_ask ← on_redis (get_best_ask (o_symbol o));
          match best_ask with
          | None => mret None
          | Some (price, _) => worst_price ← lift (copy_worst_price price);
                               mret (Some (quote_asset pr, dec_mul worst_price (o_quantity o)))
          end
      end
  end.

(** ** Cancelling: an optimistic unlock of the whole amount *)

Definition copy_enqueue_cancel (o : Order) : wprog unit :=
  ts ← gets now_ms; on_redis (enqueue_order_action (copy_build_order_action_payload None (cancel_payload o ts))).

Definition copy_cancel_order (user_id order_id : Z) : wprog Order :=
  row ← get_by_user order_id user_id;
  match row with
  | None => raise (OrderNotFoundError order_id user_id)
  | Some o =>
      if negb (is_active o) then raise (OrderNotCancelableError order_id (o_status o))
      else
        pr ← get_by_symbol (o_symbol o) ≫= require AssertionError;
        let unlock := cancel_unlock o pr in
        _ ← (if negb (is_stop_type o) && dec_ltb dec_zero (snd unlock)
             then _ ← unlock_optimistic user_id (fst unlock) (snd unlock) "order_canceled" (Some (o_id o)); mret tt
             else mret tt);
        _ ← update_status (o_id o) CANCELED;
        _ ← cancel_children (o_id o);
        _ ← (if is_stop_type o
             then _ ← on_redis (if bool_decide (o_type o = TRAILING_STOP)
                                then remove_trailing_stop (o_id o) (o_symbol o)
                                else remove_stop_order (o_id o) (o_symbol o));
                  mret tt
             else drop_resting o);
        _ ← on_redis (remove_open_order user_id (o_symbol o) (o_id o));
        _ ← copy_enqueue_cancel o;
        _ ← publish_order_update user_id "canceled" (o_id o) (o_symbol o) (OrderSide_value (o_side o))
              (OrderType_value (o_type o)) (OrderStatus_value CANCELED)
              (MkOpts None None (Some (f_of_dec (o_filled_quantity o))) (Some f_zero) None None None None None);
        row ← from_db (fun d => orders d !! o_id o);
        require (OrderNotFoundError order_id user_id) row
  end.

(** ** After a match *)

(** The HASH of a partly filled maker keeps its quantity. *)
Definition copy_update_redis_maker (mo : Order) : wprog unit :=
  if bool_decide (o_status mo = FILLED) then
    _ ← on_redis (remove_resting_order (o_id mo) (o_symbol mo) (OrderSide_value (o_side mo)));
    _ ← on_redis (delete_order_hash (o_id mo));
    on_redis (remove_open_order (o_user_id mo) (o_symbol mo) (o_id mo))
  else
    on_redis (update_order_hash_fields (o_id mo)
      {[ "filled_quantity" := Some (HDecimal (o_filled_quantity mo)); "status" := Some (HText (OrderStatus_value (o_status mo))) ]}).

(** Only a market buy is refunded. *)
Definition copy_after_settlement (p : OrderActionPayload) (remaining : float64) : wprog unit :=
  _ ← (if f_ltb f_zero remaining && str_in (pl_type p) ["limit"; "post_only"; "iceberg"]
       then insert_resting_taker p remaining
       else if String.eqb (pl_type p) "market" && String.eqb (pl_side p) "buy"
       then refund_market_buy_leftover p
       else mret tt);
  publish_orderbook_delta (pl_symbol p).
End Copy.

(** ** What changed *)

(** The worker of the copy, whose parser is that of the main backend, cannot
    read a cancel action: every one ends in the dead-letter queue. *)
Theorem copy_cancel_unreadable o ts :
  from_dict (copy_build_order_action_payload None (cancel_payload o ts)) = None /\
  is_Some (from_dict (build_order_action_payload (cancel_payload o ts))).
Proof. split; [reflexivity|eexists; reflexivity]. Qed.
(** Payloads that carry their quantity are those of the main backend. *)
Lemma copy_payload_same p : copy_build_order_action_payload (Some (pl_quantity p)) p = build_order_action_payload p.
Proof. reflexivity. Qed.

Section Placement.
Context {R : Redis} {P : PgNumeric} {I : Interference}.

(** Placements other than market buys are those of the main backend. *)
Theorem copy_place_same uid dto w : is_market_buy dto = false -> copy_place_order uid dto w = place_order uid dto w.
Proof.
  intros Hm. unfold copy_place_order, place_order, mbind, prog_bind.
  destruct (validate_and_get_pair (d_symbol dto) w) as [w1 [e|pr]]; [done|]. destruct (lift _ w1) as [w2 [e|u]]; [done|].
  unfold copy_lock_requirement, lock_requirement. by rewrite Hm.
Qed.
End Placement.

Section Cancellation.
Context {R : Redis} {RS : RedisSpec R}.

(** An optimistic unlock of more than what is locked fails in every attempt. *)
Lemma unlock_uncovered uid asset amount reason oid w b :
  balances_ok (balances (db w)) -> money amount -> balances (db w) !! (uid, asset) = Some b ->
  0 < dunits amount -> dunits (locked_balance b) < dunits amount ->
  unlock_optimistic (P := PgExact) (I := NoInterference) uid asset amount reason oid w = (w, inl (BalanceVersionConflict uid asset 3)).
Proof.
  intros Hw Ha Hk Hp Hlt. unfold unlock_optimistic. rewrite (proj2 (pos_units _ Ha) Hp).
  destruct (balances_ok_lookup _ _ _ _ Hw Hk) as (_ & _ & Hb). pose proof Hb as (_ & Hl & _).
  assert (Hbody : forall i, (row ← seen_balance (I := NoInterference) i uid asset;
      balance ← require (ValueError "Balance not found") row;
      _ ← others (I := NoInterference) i;
      success ← optimistic_unlock (P := PgExact) uid asset amount (b_version balance);
      match success with true => updated balance amount reason oid | false => mret None end) w = (w, inr None)).
  { intros i. rewrite (bind_inr _ _ w w (Some b)) by (rewrite seen_balance_spec; by rewrite Hk).
    rewrite (bind_inr _ _ w w b eq_refl). rewrite (bind_inr _ _ w w tt) by apply others_none.
    rewrite (bind_inr _ _ w w false); [done|]. unfold optimistic_unlock, conditional_update, from_db. run_prog.
    rewrite Hk, Z.eqb_refl, dec_leb_units by (by apply money_on_grid).
    by rewrite (proj2 (Z.leb_gt _ _) Hlt). }
  unfold MAX_OPTIMISTIC_RETRIES. cbn [attempts].
  rewrite (bind_inr _ _ _ _ _ (Hbody _)). rewrite (bind_inr _ _ _ _ _ (Hbody _)). by rewrite (bind_inr _ _ _ _ _ (Hbody _)).
Qed.

(** What follows the unlock, from a world whose row is still [o]. *)
Lemma copy_cancel_rest uid o opn w1 :
  is_stop_type o = false -> orders (db w1) !! o_id o = Some o -> represents (view (redis w1)) opn ->
  opn !! o_id o = Some (uid, o_symbol o) ->
  exists w', (_ ← update_status (o_id o) CANCELED;
    _ ← cancel_children (o_id o);
    _ ← drop_resting o;
    _ ← on_redis (remove_open_order uid (o_symbol o) (o_id o));
    _ ← copy_enqueue_cancel o;
    _ ← publish_order_update uid "canceled" (o_id o) (o_symbol o) (OrderSide_value (o_side o))
          (OrderType_value (o_type o)) (OrderStatus_value CANCELED)
          (MkOpts None None (Some (f_of_dec (o_filled_quantity o))) (Some f_zero) None None None None None);
    row ← from_db (fun d => orders d !! o_id o);
    require (OrderNotFoundError (o_id o) uid) row) w1 = (w', inr (with_status CANCELED o)) /\
  db w' = set_orders (fun os => cancel_child (o_id o) <$> <[o_id o := with_status CANCELED o]> os) (db w1) /\
  represents (view (redis w')) (delete (o_id o) opn).
Proof.
  intros Hst O1 Hrep Hopn.
  rewrite (bind_inr _ _ _ _ _ (eq_trans (update_status_spec _ _ _) ltac:(by rewrite O1))).
  set (w2 := with_db _ w1). destruct (cancel_children_spec (o_id o) w2) as [n E3].
  rewrite (bind_inr _ _ _ _ _ E3). set (w3 := with_db _ w2).
  destruct (drop_resting_spec o w3) as (w4 & E4 & D4 & N4 & Z4 & R4 & L4). rewrite (bind_inr _ _ _ _ _ E4).
  destruct (remove_open_spec uid o opn w4 (represents_del_hash _ _ _ _ R4 Hrep) Hopn) as (w5 & E5 & D5 & N5 & Z5 & L5 & R5).
  rewrite (bind_inr _ _ _ _ _ E5).
  assert (E6 : exists w6, copy_enqueue_cancel o w5 = (w6, inr tt) /\ db w6 = db w5 /\ rsets (view (redis w6)) = rsets (view (redis w5))).
  { eexists. split; [reflexivity|]. cbn [redis db]. by rewrite lpush_view. }
  destruct E6 as (w6 & E6 & D6 & R6). rewrite (bind_inr _ _ _ _ _ E6).
  edestruct publish_order_update_spec as (w7 & E7 & D7 & L7). rewrite (bind_inr _ _ _ _ _ E7).
  apply log_only_views in L7 as (_ & _ & _ & _ & R7 & _).
  assert (Hd : db w7 = set_orders (fun os => cancel_child (o_id o) <$> <[o_id o := with_status CANCELED o]> os) (db w1))
    by (by rewrite D7, D6, D5, D4).
  exists w7. split; [|split; [exact Hd|]].
  - unfold from_db. run_prog. rewrite Hd. cbn [set_orders orders]. rewrite lookup_fmap, lookup_insert_eq. cbn.
    unfold cancel_child, is_child_of. by rewrite andb_false_r.
  - apply (represents_ext (view (redis w5))); [by rewrite R7, R6|exact R5].
Qed.

(** C40: cancelling in the copy of the backend.  An active order that is not a
    stop is cancelled there exactly when its owner has locked all that the
    remaining quantity is worth; then the balance, the rows and the index end as
    in the main backend.  When less is locked, as after a fill at a better price
    was refunded, the copy gives up with a version conflict and the order stays;
    the main backend unlocks what there is. *)
Theorem copy_cancel_correct uid oid w o pr b opn :
  let d := db w in
  let amount := snd (cancel_unlock o pr) in
  let asset := fst (cancel_unlock o pr) in
  orders d !! oid = Some o -> o_id o = oid -> o_user_id o = uid -> is_active o = true -> is_stop_type o = false ->
  pairs d !! o_symbol o = Some pr -> money amount -> 0 < dunits amount -> balances_ok (balances d) ->
  balances d !! (uid, asset) = Some b -> represents (view (redis w)) opn -> opn !! oid = Some (uid, o_symbol o) ->
  if dunits amount <=? dunits (locked_balance b)
  then exists w' t', copy_cancel_order (P := PgExact) (I := NoInterference) uid oid w = (w', inr (with_status CANCELED o)) /\
    unlock_step (uid, asset) (dunits amount) (balances d) t' /\
    db w' = MkDatabase t' (cancel_child oid <$> <[oid := with_status CANCELED o]> (orders d))
              (next_order_id d) (trades d) (pairs d) /\
    represents (view (redis w')) (delete oid opn)
  else copy_cancel_order (P := PgExact) (I := NoInterference) uid oid w = (w, inl (BalanceVersionConflict uid asset 3)).
Proof.
  intros d amount asset E Hid Hu Ha Hst Hp Hm Hpos Hok Hb Hrep Hopn. subst d. unfold copy_cancel_order.
  rewrite (bind_inr _ _ w w (Some o)) by (unfold get_by_user, from_db; run_prog; rewrite E; cbn; by rewrite Hu, Z.eqb_refl).
  rewrite Ha, Hst. cbn [negb].
  rewrite (bind_inr _ _ w w pr) by (unfold get_by_symbol, from_db; run_prog; by rewrite Hp). cbn zeta. fold asset amount.
  rewrite ltb_zero_units by done. rewrite (proj2 (Z.ltb_lt _ _) Hpos). cbn [andb].
  destruct (Z.leb_spec (dunits amount) (dunits (locked_balance b))) as [Hle|Hlt].
  - destruct (unlock_optimistic_alone uid asset amount "order_canceled" (Some (o_id o)) w b Hok Hm Hb (conj Hpos Hle))
      as (b' & Er & Hmv & Hd).
    pose proof (keeps_log_unlock_optimistic (I := NoInterference) w uid asset amount "order_canceled"
      (Some (o_id o)) w (reflexivity w)) as Hlog.
    destruct (unlock_optimistic _ _ _ _ _ w) as [w1 r1] eqn:Eu. cbn [fst snd] in Er, Hd. subst r1.
    rewrite (bind_inr _ _ w w1 tt) by (by rewrite (bind_inr _ _ _ _ _ Eu)).
    apply log_only_views in Hlog as (_ & _ & _ & _ & R1 & _).
    destruct (copy_cancel_rest uid o opn w1 Hst) as (w' & E' & D' & R');
      [by rewrite Hd, Hid|by apply (represents_ext (view (redis w)))|by rewrite Hid|].
    rewrite Hid in E', D', R'. rewrite Hid, E'. exists w', (<[(uid, asset) := b']> (balances (db w))).
    split; [done|]. split; [|split; [by rewrite D', Hd|done]].
    unfold unlock_step. rewrite Hb. cbn zeta. rewrite Z.min_l by done. rewrite (proj2 (Z.ltb_lt _ _) Hpos). by exists b'.
  - by rewrite (bind_inl _ _ w w _ (bind_inl _ _ w w _ (unlock_uncovered uid asset amount _ _ w b Hok Hm Hb Hpos Hlt))).
Qed.
End Cancellation.

(** ** Public sessions: two coroutines under one [gather] *)

(** What one of the coroutines is resumed with: the listener with a message (and
    the send of it) or the end of its subscription, the client's with a message
    (and the send of the answer). *)
Inductive copy_event :=
  | FromRedis (raw : RawMessage) (forwarding : outcome unit)
  | RedisEnds (o : outcome unit)
  | FromClient (received : outcome jval) (answering : outcome unit) (ts : Z).
(** The listener, and the client's coroutine, after an event: whether each runs on. *)
Definition copy_listen_pubsub (raw : RawMessage) (forwarding : outcome unit) : sprog bool :=
  match iter_message true raw with
  | Some msg => try_except (_ ← except_exception (send_json forwarding msg) (mret tt); mret true) (fun _ => mret false)
  | None => mret true
  end.
Definition copy_listen_client (received : outcome jval) (answering : outcome unit) (ts : Z) : sprog bool :=
  except_exception
    (msg ← await received;
     ping ← is_ping msg;
     _ ← (if ping : bool then send_json answering (pong ts) else mret tt);
     mret true) (mret false).
(** [gather] returns when both coroutines have. *)
Fixpoint copy_public_loop (listening serving : bool) (events : list copy_event) : sprog bool :=
  match events with
  | [] => mret (negb listening && negb serving)
  | ev :: events =>
      match ev with
      | FromRedis raw forwarding =>
          l ← (if listening then copy_listen_pubsub raw forwarding else mret false); copy_public_loop l serving events
      | RedisEnds _ => copy_public_loop false serving events
      | FromClient received answering ts =>
          c ← (if serving then copy_listen_client received answering ts else mret false); copy_public_loop listening c events
      end
  end.
Definition copy_handle_public_orderbook (ws : Z) (symbol : string) (setup : PublicSetup) (events : list copy_event) : sprog bool :=
  ps ← public_preamble ws symbol setup;
  loop_finally
    (except_exception (copy_public_loop (bool_decide (is_Some ps)) true events) (mret true))
    (public_cleanup ws symbol ps (closing setup)).

(** Nothing is cancelled and the subscription goes on. *)
Definition redis_lives (ev : copy_event) : Prop :=
  match ev with
  | FromRedis _ forwarding => not_cancelled forwarding
  | RedisEnds _ => False
  | FromClient received answering _ => not_cancelled received /\ not_cancelled answering
  end.
Lemma copy_loop_listens serving events s : Forall redis_lives events ->
  exists frames, copy_public_loop true serving events s = (sends s frames, inr false).
Proof.
  intros He. revert serving s. induction He as [|[raw f|o|r a ts] events Hev _ IH]; intros serving s; cbn [copy_public_loop].
  - exists []. by rewrite sends_nil.
  - assert (El : exists fr, copy_listen_pubsub raw f s = (sends s fr, inr true)).
    { unfold copy_listen_pubsub. destruct (iter_message true raw) as [msg|]; [|exists []; by rewrite sends_nil].
      destruct f as [e|[]]; [|by exists [msg]]. exists []. rewrite sends_nil. unfold try_except, mbind, prog_bind.
      erewrite except_exception_error; [reflexivity|apply send_json_fails|]. intros ->. by apply Hev. }
    destruct El as [fr El]. rewrite (bind_inr _ _ _ _ _ El). destruct (IH serving (sends s fr)) as [fr' ->].
    exists (fr ++ fr'). by rewrite sends_sends.
  - done.
  - assert (Ec : exists fr c, (if serving then copy_listen_client r a ts else mret false) s = (sends s fr, inr c)).
    { destruct serving; [|exists [], false; by rewrite sends_nil]. destruct Hev as [Hr Ha].
      unfold copy_listen_client. destruct r as [e|msg].
      { exists [], false. rewrite sends_nil. erewrite except_exception_error; [reflexivity|reflexivity|]. intros ->. by apply Hr. }
      destruct (is_ping_spec msg s) as [[_ E]|(_ & _ & E)].
      - destruct (pings (inr msg)).
        + destruct a as [e|[]].
          * exists [], false. rewrite sends_nil. erewrite except_exception_error; [reflexivity| |].
            { rewrite (bind_inr (await (inr msg)) _ s s msg eq_refl), (bind_inr _ _ _ _ _ E). reflexivity. }
            intros ->. by apply Ha.
          * exists [pong ts], true. apply except_exception_ok.
            rewrite (bind_inr (await (inr msg)) _ s s msg eq_refl). by rewrite (bind_inr _ _ _ _ _ E).
        + exists [], true. rewrite sends_nil. apply except_exception_ok.
          rewrite (bind_inr (await (inr msg)) _ s s msg eq_refl). by rewrite (bind_inr _ _ _ _ _ E).
      - exists [], false. rewrite sends_nil. erewrite except_exception_error; [reflexivity| |].
        { rewrite (bind_inr (await (inr msg)) _ s s msg eq_refl). by apply bind_inl. }
        done. }
    destruct Ec as (fr & c & Ec). rewrite (bind_inr _ _ _ _ _ Ec). destruct (IH c (sends s fr)) as [fr' ->].
    exists (fr ++ fr'). by rewrite sends_sends.
Qed.
(** A session of the copy outlives its client: as long as the subscription goes
    on it is never left, so its socket stays registered and its connection to
    Redis open, also after the client has disconnected. *)
Theorem copy_session_outlives_client ws symbol setup events s :
  accepting setup = inr tt -> setup_uncancelled setup -> is_subscribed setup = true -> Forall redis_lives events ->
  let r := copy_handle_public_orderbook ws symbol setup events s in
  r.2 = inr false /\ hub r.1 = open_public ws symbol (hub s) /\ next_link s ∈ open_links r.1.
Proof.
  intros Ha Hs Hsub He r. unfold r, copy_handle_public_orderbook.
  rewrite (bind_inr _ _ _ _ _ (public_preamble_spec ws symbol setup s Ha Hs)). unfold session_link. rewrite Hsub.
  destruct (copy_loop_listens true events (opened ws symbol setup s) He) as [fr E].
  erewrite loop_finally_running; [|by apply except_exception_ok, E]. cbn. unfold public_opened. rewrite Hsub.
  split_and!; [done..|]. set_solver.
Qed.

(** ** Private sessions: the sends of the handshake are not guarded *)

Section CopyHandshake.
Variable str_of_exn : exn -> string.
(** [gone]: the exception of a client that disconnects, which is an [Exception]
    like the others here. *)
Definition copy_turn_away (setup : PrivateSetup) (msg : jval) : sprog (option Z) :=
  _ ← send_json (telling setup) msg; _ ← await (closing_socket setup); mret None.
Definition copy_private_handshake (acc : Accounts) (now : Z) (h : WsHeaders) (gone : exn) (setup : PrivateSetup) : sprog (option Z) :=
  match try_header_auth acc now h with
  | inl _ => raise OtherError
  | inr (Some user_id) => _ ← await (p_accepting setup); mret (Some user_id)
  | inr None =>
      _ ← await (p_accepting setup);
      _ ← send_json (asking setup) (auth_required (p_time setup));
      match first setup with
      | Silent => copy_turn_away setup auth_timeout
      | Gone => copy_turn_away setup (auth_failed str_of_exn gone)
      | Says msg =>
          match wait_for_auth_message acc now msg with
          | inl e => copy_turn_away setup (auth_failed str_of_exn e)
          | inr user_id => mret (Some user_id)
          end
      end
  end.
Definition copy_private_session (acc : Accounts) (now : Z) (h : WsHeaders) (gone : exn) (setup : PrivateSetup) (ws : Z)
    (rounds : list PrivateRound) : sprog (option bool) :=
  user ← copy_private_handshake acc now h gone setup;
  match user with
  | Some user_id => left ← serve_private ws user_id (p_time setup) (greeting setup) rounds; mret (Some left)
  | None => mret None
  end.

(** When a client that is asked for its message has gone, the handler of the copy
    raises where that of the main backend returns. *)
Theorem copy_handshake_raises acc now h gone setup s e : p_accepting setup = inr tt -> p_setup_uncancelled setup ->
  try_header_auth acc now h = inr None -> first setup = Gone -> asking setup = inr tt -> telling setup = inl e ->
  (copy_private_handshake acc now h gone setup s).2 = inl e /\
  (private_handshake str_of_exn acc now h setup s).2 = inr None.
Proof.
  intros Ha Hs Hh Hg Hk Ht. rewrite (private_handshake_spec str_of_exn acc now h setup 0 s Ha Hs). rewrite Hh. split.
  - unfold copy_private_handshake, copy_turn_away. by rewrite Hh, Ha, Hk, Hg, Ht.
  - unfold admitted, handle_private_channel. by rewrite Hh, Hg, Hk.
Qed.
(** Where the handler of the copy does not raise, it sends what that of the main
    backend sends, and lets the same clients in. *)
Theorem copy_handshake_agrees acc now h gone setup s r : p_setup_uncancelled setup ->
  copy_private_handshake acc now h gone setup s = (r, inr (admitted acc now h setup 0 (manager (hub s)))) ->
  p_accepting setup = inr tt -> first setup <> Gone ->
  private_handshake str_of_exn acc now h setup s = (r, inr (admitted acc now h setup 0 (manager (hub s)))).
Proof.
  intros Hs E Ha Hg. rewrite (private_handshake_spec str_of_exn acc now h setup 0 s Ha Hs). revert E.
  unfold copy_private_handshake, handshake_frames, copy_turn_away, told, admitted, handle_private_channel. rewrite Ha.
  destruct (try_header_auth acc now h) as [e|[uid|]]; [done|by rewrite sends_nil; intros [= <-]|].
  rewrite (bind_inr (await (inr tt)) _ s s tt eq_refl). destruct (asking setup) as [e|[]]; [done|].
  rewrite (bind_inr _ _ _ _ _ (send_json_ok _ s)).
  destruct (first setup) as [| |msg]; [|done|destruct (wait_for_auth_message acc now msg) as [e|uid]; [|by intros [= <-]]].
  all: destruct (telling setup) as [e'|[]]; [done|]; rewrite (bind_inr _ _ _ _ _ (send_json_ok _ _)), sends_sends.
  all: destruct (closing_socket setup) as [e'|[]]; [done|]; by intros [= <-].
Qed.
End CopyHandshake.

(** ** Concrete differences *)

Definition copy_market_buy (qty : Z) : OrderCreateDTO :=
  MkDTO "BTCUSD" "buy" "market" None None None (dec_of_Z qty) None None None None None None.
(** Two offers: 1 at 10 and 4 at 100. *)
Definition demo_steep : World (R := MemRedis) := after (_ ← place_and_match 2 "sell" 1 10; place_and_match 2 "sell" 4 100).
Definition lock_of (m : wprog (string * decimal)) : option Z :=
  match (m demo_steep).2 with inr req => Some (dunits req.2) | inl _ => None end.
(** The comment of the copy's worker calls best ask * 1.01 * quantity a worst
    case that is always at least the actual cost.  Buying 3 here costs 210; the
    copy locks 30.3, the main backend 210.21. *)
Theorem copy_lock_below_cost :
  lock_of (copy_compute_market_buy_lock (copy_market_buy 3) demo_pair) = Some (dunits (Dec 303 (-1))) /\
  lock_of (compute_market_buy_lock (copy_market_buy 3) demo_pair) = Some (dunits (Dec 21021 (-2))).
Proof. split; vm_compute; reflexivity. Qed.

(** An offer of 5 of which 3 were sold: the copy still shows the worker 5. *)
Definition demo_offer : World (R := MemRedis) := after (place_and_match 2 "sell" 5 10).
Definition offered (m : Order -> wprog unit) : exn + list float64 :=
  match orders (db demo_offer) !! 1 with
  | Some o =>
      match (get_opposite_orders_for_match "BTCUSD" "buy" 1000
               (redis (m (maker_fill (dec_of_Z 3) (dec_of_Z 30) o) demo_offer).1)).2 with
      | inl e => inl e | inr mos => inr (mo_quantity <$> mos)
      end
  | None => inl DBError
  end.
Theorem copy_maker_keeps_quantity :
  offered copy_update_redis_maker = inr [f_of_Z 5] /\ offered update_redis_maker = inr [f_of_Z 2].
Proof. split; vm_compute; reflexivity. Qed.

(** A bid filled below its limit: the savings stay locked in the copy. *)
Definition demo_saving : World (R := MemRedis) :=
  with_db (set_balances <[(1, "USD") := MkBalance 1 "USD" (dec_of_Z 970) (dec_of_Z 20) (dec_of_Z 950) 3]>) demo_offer.
Definition filled_bid : OrderActionPayload :=
  MkPayload "place" 2 "BTCUSD" 1 "buy" "limit" (Some (f_of_Z 10)) None (f_of_Z 5) false None None None None None 0.
Theorem copy_keeps_savings_locked :
  locked_of 1 "USD" (copy_after_settlement filled_bid f_zero demo_saving).1 = Some (dunits (dec_of_Z 20)) /\
  locked_of 1 "USD" (after_settlement filled_bid f_zero demo_saving).1 = Some 0.
Proof. split; vm_compute; reflexivity. Qed.

Lemma copy_cancel_correct_witness :
  exists w', copy_cancel_order (R := MemRedis) (P := PgExact) (I := NoInterference) 1 1 demo_open
    = (w', inr (with_status CANCELED demo_resting)).
Proof.
  pose proof (copy_cancel_correct (R := MemRedis) (RS := MemRedisSpec) 1 1 demo_open demo_resting demo_pair demo_balance
    {[ 1 := (1, "BTCUSD") ]}) as H.
  cbv zeta in H.
  assert (G : (dunits (cancel_unlock demo_resting demo_pair).2 <=? dunits (locked_balance demo_balance)) = true) by (vm_compute; reflexivity).
  rewrite G in H. destruct H as (w' & t' & E & _).
  - reflexivity.
  - reflexivity.
  - reflexivity.
  - reflexivity.
  - reflexivity.
  - reflexivity.
  - split; vm_compute; congruence.
  - vm_compute. reflexivity.
  - cbn [demo_open db balances]. apply map_Forall_singleton. split; [reflexivity|apply demo_balance_ok].
  - reflexivity.
  - apply demo_open_represents.
  - reflexivity.
  - exists w'. exact E.
Defined.
